(* ===== verification/_CoqProject ===== *)
-Q . S2P
Prelude.v
Params.v
Machine.v
Spinlock.v
CString.v
Printf.v
Sched.v
Sleep.v
Select.v
Priority.v
Ageing.v
Kalloc.v
Vm.v
PageTable.v
UserMem.v
Sleeplock.v
Idle.v
Pipe.v
PipeFifo.v
Bio.v
BufCache.v
CacheSpec.v
Log.v
LogSpec.v
Fs.v
Paths.v
FsSpec.v
InodeSpec.v
FileSpec.v
ProcTable.v
Console.v
File.v
ProcLife.v
Exec.v
Sysfile.v
Syscall.v
SyscallSpec.v
Virtio.v
Trap.v
Boot.v
Invariant.v
EntryPoints.v
User.v
Grep.v
UserProgs.v
Shell.v
ShellGrammar.v
Umalloc.v
