(* ===== verification/Prelude.v ===== *)
(** A verification of xv6-riscv with ageing and starvation detection: the kernel
    under src/kernel and the user programs under src/user.

    * The program

    The kernel runs user processes on several CPUs.  Traps (trap.c) lead to the
    system calls (syscall.c, sysproc.c, sysfile.c), to page faults (vm.c) and to
    device interrupts (plic.c, uart.c, virtio_disk.c, the clock).  Processes live
    in a fixed table (proc.c); scheduler() picks one by round robin, by creation
    time (FCFS) or by a dynamic priority (PBS), and the clock interrupt lowers the
    priority number of a process that waits too long and is meant to flag
    starvation.  Memory comes from a page allocator (kalloc.c).  Files are built
    in layers: disk driver, buffer cache (bio.c), redo log (log.c), inodes,
    directories and paths (fs.c), open files and pipes (file.c, pipe.c).  User
    programs reach all this through the calls of user/user.h.

    * How the code is modelled

    Prelude.v   machine integers as Z with explicit wrap-around; the monad
                [M S A] of kernel code, whose outcomes are a result, a panic, busy
                waiting, a switch to another thread, or too few loop iterations;
                loops; the logics [preserves], [returns], [frames] and [runs]
                and the rely-guarantee logic [rg]; the hint databases
                [kernel] and [returns] and the tactics that run code.
    Params.v    constants; the addresses that the linker script fixes are the
                class [Layout] with the laws [LayoutOk].
    Machine.v   the structs and the record [kstate] of all global variables and
                device states.  A pointer into a static table is an index.
    One file per C file or group of functions then follows, in the order in which
    they call each other:
    Spinlock.v (spinlock.c), CString.v (string.c), Printf.v (both printf.c),
    Sched.v (scheduling half of proc.c, clockintr() of trap.c), Priority.v
    (argument fetching, setpriority, getpriority), Kalloc.v (kalloc.c), Vm.v
    (vm.c), Sleeplock.v (sleeplock.c), Pipe.v (pipe.c), Bio.v (bio.c), Log.v
    (log.c), Fs.v (fs.c), ProcTable.v and ProcLife.v (the rest of proc.c),
    Console.v (uart.c, console.c), File.v (file.c), Exec.v (exec.c), Sysfile.v
    (sysfile.c), Syscall.v (sysproc.c, syscall.c), Virtio.v (virtio_disk.c),
    Trap.v (trap.c, plic.c), Boot.v (start.c, main.c).
    User.v models user programs as trees of system calls, with user/ulib.c;
    Grep.v, UserProgs.v, Shell.v and Umalloc.v model the programs and malloc().

    Each definition keeps the name of the C function and its control flow: early
    returns, error paths, lock operations, prints.  Where the C code gives up the
    CPU in swtch() the outcome is [Switch] with the rest of the call as a function
    of the state in which the thread is resumed, so that a theorem about such a
    call holds for everything that other threads may have done in between.

    * What the theorems show

    Scheduling (Select, Ageing, Sleep, Priority): each policy picks the process
    it promises and hands the CPU over with exactly its lock held; a round of
    round robin runs every waiting process; a waiting process gains one priority
    level per AGING_THRESHOLD + 1 ticks; priorities and waiting times stay in
    range, so that no process is ever flagged as starving while ageing is on;
    however the statements of sleep() on one CPU and of a waker on another one
    interleave, the wakeup is not lost.
    Locks (Spinlock, Idle): mutual exclusion of spinlocks and sleep locks; who
    waits for a sleep lock tests it again each time it is woken.
    Memory (Kalloc, PageTable, UserMem, CString): the page allocator is a stack
    of pages; the page table is a finite map; copies to user memory read back.
    Printing (Printf): printf() of the kernel and of user programs print what one
    reading of the format string prescribes.
    Pipes (PipeFifo): pipewrite(), piperead() and pipeclose() touch a pipe only
    with its lock held and only by queue operations, whatever other threads do to
    it while they sleep; a pipe is a bounded queue, for every interleaving.
    Storage (BufCache, CacheSpec, LogSpec, FsSpec, InodeSpec, FileSpec, Paths):
    the buffer cache refines a map from block numbers to contents; a transaction
    is atomic wherever the power fails, and recovery completes or discards it; the
    block allocator, inodes, file contents, directories and paths meet their
    contracts.
    System calls (SyscallSpec): the dispatch of every number, dup and kill on
    every branch.
    The kernel as a whole (Invariant, EntryPoints): every entry point keeps all
    tables well formed and the pointers between them inside the tables.
    User programs (Umalloc, Shell, ShellGrammar, Grep, UserProgs): malloc() hands
    out disjoint blocks; the shell's parser ends on every line and accepts its
    grammar; grep's matcher recognises the language of its pattern; grep and wc
    give the right output however the kernel cuts their input into pieces.

    * Interfaces

    [BlockDev] is the disk driver as the buffer cache sees it; Virtio.v is one
    instance.  [SyncDisk] states what the storage contracts need of it: a call
    transfers one block, and the power may fail before or after the transfer.
    [DiskSafe] is what the kernel invariant needs; it is proved for the virtio
    driver.  [VirtioRegs] is what the device answers to register reads, [StackJunk]
    the contents of uninitialised stack bytes, [Chunks] how a kernel splits the
    bytes of a stream among calls of read().

    * Bounds

    A loop whose number of iterations depends on data is given enough iterations
    for all data: the length of the list, path or directory, the blocks or pages a
    transfer can touch ([rw_fuel], [dir_fuel], [copy_fuel], [log_fuel]), or
    4 * length + 4 for the parser of the shell ([parse_fuel]); the theorems that
    say a call returns prove that this is enough.  A loop around sleep() has no
    bound in the code; it is unrolled [S wakeups] times and the statements hold
    for every value of [wakeups].  Loops of user programs that wait or read for
    ever take their number of iterations as an argument, and the theorems say how
    many suffice.

    * Not modelled

    The assembly files: what they do is the meaning of [Switch] and of the trap
    frame.  The memory model of the hardware: an operation on a lock is atomic, and
    fences and TLB flushes have no effect.  What other CPUs do between two
    switches of a thread: a call runs from one switch to the next as one step, a
    lock that another CPU holds ends the run in [Spin], and an access is checked
    against the lock that guards it only where the definition says so, as for
    pipes.  The exception is Sleep.v, on two CPUs: it takes sleep() and its waker
    apart into statements that interleave.  The contents of user processes while
    they run in user mode, except as the programs of User.v.  user/usertests.c and
    user/grind.c, which test the system calls that the kernel theorems are about.
    mkfs/mkfs.c and the scripts, which run on the host: the theorems take the disk
    image as given and state what they need of it.  The storage contracts hold for
    one process at a time that runs without contention (Idle.v); the kernel-wide
    invariant and the theorems on pipes and scheduling do not assume that.  *)

From Stdlib Require Import ZArith Lia Ascii.
From stdpp Require Import base numbers list gmap strings.

Global Open Scope Z_scope.

Global Arguments Z.land : simpl never.
Global Arguments Z.lor : simpl never.
Global Arguments Z.lxor : simpl never.
Global Arguments Z.lnot : simpl never.
Global Arguments Z.shiftl : simpl never.
Global Arguments Z.shiftr : simpl never.
Global Arguments Z.testbit : simpl never.
Global Arguments Z.pow : simpl never.
Global Arguments Z.modulo : simpl never.
Global Arguments Z.div : simpl never.

(** ** Machine integers

    A w-bit unsigned value is a [Z] in [[0, 2^w)], a signed one a [Z] in
    [[-2^(w-1), 2^(w-1))].  Every arithmetic result is passed through one of the
    two functions below, as the C conversions do. *)

Definition uwrap (w : Z) (z : Z) : Z := z mod 2 ^ w.
Definition swrap (w : Z) (z : Z) : Z := (z + 2 ^ (w - 1)) mod 2 ^ w - 2 ^ (w - 1).

Definition u8 : Z → Z := uwrap 8.
Definition u16 : Z → Z := uwrap 16.
Definition u32 : Z → Z := uwrap 32.
Definition u64 : Z → Z := uwrap 64.
Definition i8 : Z → Z := swrap 8.
Definition i16 : Z → Z := swrap 16.
Definition i32 : Z → Z := swrap 32.
Definition i64 : Z → Z := swrap 64.

(** ** Outcomes of kernel code

    Kernel code runs on an explicit state.  It returns a value ([Ok]), calls
    [panic] ([Panic]), busy-waits for another CPU ([Spin]), or gives up the CPU
    in [swtch] ([Switch]): then the rest of the call is a function of the state
    in which the thread is resumed.  [NoFuel] is reached only when a bounded
    unrolling of a loop is too short. *)

Inductive outcome (S A : Type) : Type :=
  | Ok (a : A) (s : S)
  | Panic (msg : string)
  | Spin (s : S)
  | Switch (s : S) (k : S → outcome S A)
  | NoFuel.
Arguments Ok {S A} a s.
Arguments Panic {S A} msg.
Arguments Spin {S A} s.
Arguments Switch {S A} s k.
Arguments NoFuel {S A}.

Fixpoint obind {S A B : Type} (f : A → S → outcome S B) (o : outcome S A) : outcome S B :=
  match o with
  | Ok a s => f a s
  | Panic m => Panic m
  | Spin s => Spin s
  | Switch s k => Switch s (λ s', obind f (k s'))
  | NoFuel => NoFuel
  end.

Definition M (S A : Type) : Type := S → outcome S A.

Global Instance M_ret S : MRet (M S) := λ A a s, Ok a s.
Global Instance M_bind S : MBind (M S) := λ A B f m s, obind f (m s).

Definition panic {S A} (msg : string) : M S A := λ _, Panic msg.
Definition spin {S A} : M S A := λ s, Spin s.
Definition gets {S A} (f : S → A) : M S A := λ s, Ok (f s) s.
Definition modify {S} (f : S → S) : M S () := λ s, Ok tt (f s).
Definition swtch {S} : M S () := λ s, Switch s (λ s', Ok tt s').
Definition no_fuel {S A} : M S A := λ _, NoFuel.

(** An access outside an array: the C code has no defined behaviour there. *)
Definition undefined {S A} : M S A := panic "undefined behaviour".

(** An access to shared data without its lock, or to an object that has been
    freed, is undefined as well; it has an outcome of its own, which proofs can
    rule out. *)
Definition race_msg : string := "data race or use after free".
Definition race {S A} : M S A := panic race_msg.
Definition when {S} (b : bool) (m : M S ()) : M S () := if b then m else mret tt.
Arguments when {S} !b m /.

(** ** Loops

    [for_] is a counted loop without early exit; [for_find] a loop whose body
    may leave the function ([Some r]) or go on ([None]); [loop] an unbounded
    loop whose body returns [inl] of the next loop state or [inr] of the
    result, run for at most [n] iterations. *)

Fixpoint for_ {S A} (l : list A) (body : A → M S ()) : M S () :=
  match l with
  | [] => mret tt
  | x :: l => body x;; for_ l body
  end.

Fixpoint for_find {S A R} (l : list A) (body : A → M S (option R)) : M S (option R) :=
  match l with
  | [] => mret None
  | x :: l => r ← body x; match r with Some r => mret (Some r) | None => for_find l body end
  end.

Fixpoint for_fold {S A T} (l : list A) (acc : T) (body : T → A → M S T) : M S T :=
  match l with
  | [] => mret acc
  | x :: l => acc' ← body acc x; for_fold l acc' body
  end.

Fixpoint loop {S T R} (n : nat) (body : T → M S (T + R)) (t : T) : M S R :=
  match n with
  | O => no_fuel
  | Datatypes.S n =>
      r ← body t; match r with inl t' => loop n body t' | inr r => mret r end
  end.

(** ** Bytes and little-endian words *)

Fixpoint le_bytes (n : nat) (z : Z) : list Z :=
  match n with
  | O => []
  | Datatypes.S n => z mod 256 :: le_bytes n (z / 256)
  end.

Fixpoint le_value (bs : list Z) : Z :=
  match bs with
  | [] => 0
  | b :: bs => b + 256 * le_value bs
  end.

(** The [n] bytes at offset [off], and the bytes [bs] written over offset [off]. *)
Definition slice (off n : nat) (l : list Z) : list Z := take n (drop off l).
Definition splice (off : nat) (bs l : list Z) : list Z :=
  take off l ++ bs ++ drop (off + length bs) l.

(** ** Characters *)

Definition chr (a : Ascii.ascii) : Z := Z.of_N (Ascii.N_of_ascii a).
Definition str (s : string) : list Z := chr <$> String.list_ascii_of_string s.
Arguments chr a%_char.
Arguments str s%_string.

(** ** Automation *)

Create HintDb kernel discriminated.
#[global] Hint Constants Opaque : kernel.
#[global] Hint Transparent undefined race : kernel.

(** Split conjunctions, existentials and pairs in the context. *)
Ltac unpack :=
  repeat match goal with
    | H : _ ∧ _ |- _ => destruct H
    | H : ∃ _, _ |- _ => destruct H
    | p : _ * _ |- _ => destruct p
    end.

(** Linear arithmetic with division and remainder. *)
Ltac dlia := Z.div_mod_to_equations; lia.

(** Case analysis on the boolean comparisons of [Z] and [nat] in sight. *)
Ltac bcase :=
  repeat match goal with
    | |- context [?x <? ?y] => destruct (Z.ltb_spec x y)
    | |- context [?x <=? ?y] => destruct (Z.leb_spec x y)
    | |- context [?x =? ?y] => destruct (Z.eqb_spec x y)
    end.

(** ** Running monadic code *)

Lemma run_bind {S A B} (f : A → M S B) (m : M S A) (s : S) : (m ≫= f) s = obind f (m s).
Proof. reflexivity. Qed.

Lemma Ok_inj {S A} (a b : A) (s t : S) : Ok a s = Ok b t → a = b ∧ s = t.
Proof. by inversion 1. Qed.

Lemma run_ret {S A} (a : A) (s : S) : (mret a : M S A) s = Ok a s.
Proof. reflexivity. Qed.

Lemma for_app {S A} (l1 l2 : list A) (body : A → M S ()) s s' :
  for_ l1 body s = Ok tt s' → for_ (l1 ++ l2) body s = for_ l2 body s'.
Proof.
  revert s. induction l1 as [|x l1 IH]; intros s; simpl.
  - by intros [= ->].
  - rewrite !run_bind. destruct (body x s) as [[] s1| | | |]; simpl; try done. apply IH.
Qed.

(** A counted loop whose body always returns establishes an invariant indexed
    by the elements already done. *)
Lemma for_inv {S A} (I : list A → S → Prop) (body : A → M S ()) (l : list A) (s : S) :
  I [] s →
  (∀ pre x post t, l = pre ++ x :: post → I pre t →
     ∃ t', body x t = Ok tt t' ∧ I (pre ++ [x]) t') →
  ∃ s', for_ l body s = Ok tt s' ∧ I l s'.
Proof.
  intros H0 Hstep.
  assert (Hgen : ∀ post pre t, l = pre ++ post → I pre t →
            ∃ t', for_ post body t = Ok tt t' ∧ I l t').
  { induction post as [|x post IH]; intros pre t Hl Ht.
    - exists t. rewrite app_nil_r in Hl. by subst.
    - destruct (Hstep pre x post t Hl Ht) as (t1 & Hb & Ht1).
      destruct (IH (pre ++ [x]) t1) as (t2 & Hf & Ht2).
      { by rewrite <-app_assoc. } { done. }
      exists t2. split; [|done]. simpl. by rewrite run_bind, Hb. }
  by apply (Hgen l [] s).
Qed.

(** ** Wrapping *)

Lemma uwrap_small w z : 0 ≤ z < 2 ^ w → uwrap w z = z.
Proof. intros. by apply Z.mod_small. Qed.

Lemma uwrap_bound w z : 0 ≤ w → 0 ≤ uwrap w z < 2 ^ w.
Proof. intros. apply Z.mod_pos_bound. lia. Qed.

Lemma swrap_small w z : 0 < w → - 2 ^ (w - 1) ≤ z < 2 ^ (w - 1) → swrap w z = z.
Proof.
  intros Hw Hz. unfold swrap.
  assert (2 ^ w = 2 * 2 ^ (w - 1)) by (rewrite <-Z.pow_succ_r by lia; f_equal; lia).
  rewrite Z.mod_small; lia.
Qed.

Lemma swrap_bound w z : 0 < w → - 2 ^ (w - 1) ≤ swrap w z < 2 ^ (w - 1).
Proof.
  intros Hw. unfold swrap.
  assert (2 ^ w = 2 * 2 ^ (w - 1)) by (rewrite <-Z.pow_succ_r by lia; f_equal; lia).
  pose proof (Z.mod_pos_bound (z + 2 ^ (w - 1)) (2 ^ w) ltac:(lia)). lia.
Qed.

Lemma i32_small z : - 2 ^ 31 ≤ z < 2 ^ 31 → i32 z = z.
Proof. exact (swrap_small 32 z eq_refl). Qed.

Lemma u32_small z : 0 ≤ z < 2 ^ 32 → u32 z = z.
Proof. apply uwrap_small. Qed.

Lemma u64_small z : 0 ≤ z < 2 ^ 64 → u64 z = z.
Proof. apply uwrap_small. Qed.

(** ** Little-endian words *)

Lemma le_bytes_length (n : nat) z : length (le_bytes n z) = n.
Proof. revert z; induction n; intros; simpl; auto. Qed.

Lemma le_value_bytes (n : nat) z : 0 ≤ z < 2 ^ (8 * Z.of_nat n) → le_value (le_bytes n z) = z.
Proof.
  revert z; induction n as [|n IH]; intros z Hz; simpl.
  - change (2 ^ (8 * Z.of_nat 0)) with 1 in Hz. lia.
  - rewrite IH.
    + pose proof (Z.div_mod z 256). lia.
    + replace (8 * Z.of_nat (S n)) with (8 + 8 * Z.of_nat n) in Hz by lia.
      rewrite Z.pow_add_r in Hz by lia. change (2 ^ 8) with 256 in Hz.
      split; [apply Z.div_pos; lia|]. apply Z.div_lt_upper_bound; lia.
Qed.

Lemma le_bytes_value bs :
  Forall (λ b, 0 ≤ b < 256) bs → le_bytes (length bs) (le_value bs) = bs.
Proof.
  induction 1 as [|b bs Hb _ IH]; [done|]. simpl. f_equal.
  - replace (b + 256 * le_value bs) with (b + le_value bs * 256) by lia.
    rewrite Z.mod_add by lia. by apply Z.mod_small.
  - replace (b + 256 * le_value bs) with (b + le_value bs * 256) by lia.
    rewrite Z.div_add by lia. rewrite Z.div_small, Z.add_0_l by lia. done.
Qed.

Lemma le_value_bound bs :
  Forall (λ b, 0 ≤ b < 256) bs → 0 ≤ le_value bs < 2 ^ (8 * Z.of_nat (length bs)).
Proof.
  induction 1 as [|b bs Hb _ IH]; [done|]. simpl length. simpl le_value.
  replace (8 * Z.of_nat (S (length bs))) with (8 + 8 * Z.of_nat (length bs)) by lia.
  rewrite Z.pow_add_r by lia. change (2 ^ 8) with 256. lia.
Qed.

(** ** Lists *)

Lemma splice_length off bs l :
  (off + length bs ≤ length l)%nat → length (splice off bs l) = length l.
Proof. intros. unfold splice. rewrite !length_app, length_take, length_drop. lia. Qed.

Lemma slice_length off n l : (off + n ≤ length l)%nat → length (slice off n l) = n.
Proof. intros. unfold slice. rewrite length_take, length_drop. lia. Qed.

Lemma slice_splice off bs l :
  (off + length bs ≤ length l)%nat → slice off (length bs) (splice off bs l) = bs.
Proof.
  intros. unfold slice, splice.
  rewrite drop_app_ge by (rewrite length_take; lia).
  rewrite length_take, Nat.min_l, Nat.sub_diag, drop_0 by lia.
  by rewrite take_app_length.
Qed.

Lemma slice_splice_ne off n off' bs l :
  (off' + length bs ≤ length l)%nat → (off + n ≤ off' ∨ off' + length bs ≤ off)%nat →
  slice off n (splice off' bs l) = slice off n l.
Proof.
  intros Hl Hd. unfold slice, splice. apply list_eq. intros i.
  destruct (decide (i < n)%nat) as [Hi|Hi]; [|by rewrite !lookup_take_ge by lia].
  rewrite !lookup_take_lt, !lookup_drop by done. destruct Hd as [Hd|Hd].
  - rewrite lookup_app_l by (rewrite length_take; lia). by rewrite lookup_take_lt by lia.
  - rewrite lookup_app_r by (rewrite length_take; lia).
    rewrite lookup_app_r by (rewrite length_take; lia).
    rewrite lookup_drop, length_take. f_equal. lia.
Qed.

Lemma concat_imap_nil {A} (l : list A) : concat (imap (λ (_ : nat) (_ : A), [] : list Z) l) = [].
Proof. induction l as [|p l IH]; [done|]. rewrite imap_cons. exact IH. Qed.

Lemma foldl_rev {A B} (f : A → B → A) (a : A) (l : list B) :
  foldl f a (rev l) = foldr (λ b a, f a b) a l.
Proof. induction l as [|b l IH]; [done|]. cbn. by rewrite foldl_app, IH. Qed.

Lemma run_gets {S A} (f : S → A) (s : S) : gets f s = Ok (f s) s.
Proof. reflexivity. Qed.

Lemma run_modify {S} (f : S → S) (s : S) : modify f s = Ok tt (f s).
Proof. reflexivity. Qed.

(** Symbolic execution: run the next primitives of a monadic program. *)
Ltac krun :=
  repeat (first [rewrite run_bind | rewrite run_ret | rewrite run_gets | rewrite run_modify];
          cbn [obind]).

Lemma alter_insert {A} `{Inhabited A} (f : A → A) i (l : list A) :
  (i < length l)%nat → alter f i l = <[i := f (l !!! i)]> l.
Proof.
  intros Hi. rewrite list_insert_alter. apply list_alter_ext; [|done].
  intros x Hx. by apply list_lookup_total_correct in Hx as ->.
Qed.

Lemma alter_ge {A} (f : A → A) i (l : list A) : (length l ≤ i)%nat → alter f i l = l.
Proof.
  intros Hi. apply list_eq. intros j. destruct (decide (i = j)) as [<-|]; [|by rewrite list_lookup_alter_ne].
  by rewrite list_lookup_alter_eq, lookup_ge_None_2.
Qed.

(** ** Invariants of kernel code

    [keeps I Q o]: every state in which the code stops (a switch, a busy wait)
    satisfies [I], the code may rely on [I] in every state in which it is
    resumed, and a state in which it returns [a] satisfies [Q a].  A panic
    stops the machine. *)
Fixpoint keeps {S A} (I : S → Prop) (Q : A → S → Prop) (o : outcome S A) : Prop :=
  match o with
  | Ok a s => Q a s
  | Panic _ => True
  | Spin s => I s
  | Switch s k => I s ∧ ∀ s', I s' → keeps I Q (k s')
  | NoFuel => True
  end.

(** Code that preserves an invariant, whatever runs while it is switched out,
    as long as that preserves the invariant too. *)
Definition preserves {S A} (I : S → Prop) (m : M S A) : Prop := ∀ s, I s → keeps I (λ _, I) (m s).

Section preserves.
Context {S : Type} (I : S → Prop).

Lemma keeps_bind {A B} (Q : A → S → Prop) (R : B → S → Prop) (o : outcome S A) (f : A → M S B) :
  keeps I Q o → (∀ a s, Q a s → keeps I R (f a s)) → keeps I R (obind f o).
Proof.
  intros Ho Hf. induction o as [a s|msg|s|s k IH|]; cbn in *; [by apply Hf|done|done| |done].
  destruct Ho as [Hs Hk]. split; [done|]. intros s' Hs'. apply IH, Hk, Hs'.
Qed.

Lemma preserves_bind {A B} (m : M S A) (f : A → M S B) :
  preserves I m → (∀ a, preserves I (f a)) → preserves I (m ≫= f).
Proof. intros Hm Hf s Hs. eapply keeps_bind; [by apply Hm|]. intros a t Ht. by apply Hf. Qed.

Lemma preserves_ret {A} (a : A) : preserves I (mret a).
Proof. intros s Hs. exact Hs. Qed.

Lemma preserves_gets {A} (f : S → A) : preserves I (gets f).
Proof. intros s Hs. exact Hs. Qed.

Lemma preserves_modify (f : S → S) : (∀ s, I s → I (f s)) → preserves I (modify f).
Proof. intros Hf s Hs. by apply Hf. Qed.

Lemma preserves_panic {A} msg : preserves I (panic msg : M S A).
Proof. by intros s Hs. Qed.

Lemma preserves_spin {A} : preserves I (spin : M S A).
Proof. intros s Hs. exact Hs. Qed.

Lemma preserves_swtch : preserves I swtch.
Proof. by intros s Hs; split. Qed.

Lemma preserves_no_fuel {A} : preserves I (no_fuel : M S A).
Proof. by intros s Hs. Qed.

Lemma preserves_when (b : bool) (m : M S ()) : preserves I m → preserves I (when b m).
Proof. intros Hm. destruct b; [exact Hm|apply preserves_ret]. Qed.

Lemma preserves_if {A} (b : bool) (m1 m2 : M S A) :
  preserves I m1 → preserves I m2 → preserves I (if b then m1 else m2).
Proof. by destruct b. Qed.

Lemma preserves_for {A} (l : list A) (body : A → M S ()) :
  (∀ x, preserves I (body x)) → preserves I (for_ l body).
Proof. intros Hb. induction l; [apply preserves_ret|]. by apply preserves_bind. Qed.

Lemma preserves_for_find {A R} (l : list A) (body : A → M S (option R)) :
  (∀ x, preserves I (body x)) → preserves I (for_find l body).
Proof.
  intros Hb. induction l; [apply preserves_ret|]. apply preserves_bind; [done|].
  intros []; [apply preserves_ret|done].
Qed.

Lemma preserves_for_fold {A T} (l : list A) (acc : T) (body : T → A → M S T) :
  (∀ t x, preserves I (body t x)) → preserves I (for_fold l acc body).
Proof. intros Hb. revert acc. induction l; intros acc; [apply preserves_ret|]. by apply preserves_bind. Qed.

Lemma preserves_loop {T R} n (body : T → M S (T + R)) t :
  (∀ t, preserves I (body t)) → preserves I (loop n body t).
Proof.
  intros Hb. revert t. induction n; intros t; [apply preserves_no_fuel|].
  apply preserves_bind; [done|]. intros []; [done|apply preserves_ret].
Qed.

(** Code that keeps the invariant and returns only values that satisfy [P]. *)
Definition returns {A} (m : M S A) (P : A → Prop) : Prop :=
  ∀ s, I s → keeps I (λ a t, I t ∧ P a) (m s).

Lemma keeps_mono {A} (Q R : A → S → Prop) (o : outcome S A) :
  keeps I Q o → (∀ a s, Q a s → R a s) → keeps I R o.
Proof.
  intros Ho HQ. induction o as [a s|msg|s|s k IH|]; cbn in *; [by apply HQ|done|done| |done].
  destruct Ho as [Hs Hk]. split; [done|]. intros s' Hs'. by apply IH, Hk.
Qed.

Lemma returns_preserves {A} (m : M S A) P : returns m P → preserves I m.
Proof. intros Hm s Hs. eapply keeps_mono; [by apply Hm|]. by intros a t []. Qed.

Lemma preserves_bind_returns {A B} (m : M S A) P (f : A → M S B) :
  returns m P → (∀ a, P a → preserves I (f a)) → preserves I (m ≫= f).
Proof. intros Hm Hf s Hs. eapply keeps_bind; [by apply Hm|]. intros a t [Ht Ha]. by apply Hf. Qed.

Lemma returns_bind {A B} (m : M S A) (f : A → M S B) P :
  preserves I m → (∀ a, returns (f a) P) → returns (m ≫= f) P.
Proof. intros Hm Hf s Hs. eapply keeps_bind; [by apply Hm|]. intros a t Ht. by apply Hf. Qed.

Lemma returns_bind_returns {A B} (m : M S A) Q (f : A → M S B) P :
  returns m Q → (∀ a, Q a → returns (f a) P) → returns (m ≫= f) P.
Proof. intros Hm Hf s Hs. eapply keeps_bind; [by apply Hm|]. intros a t [Ht Ha]. by apply Hf. Qed.

Lemma returns_loop {T R} n (body : T → M S (T + R)) (P : T → Prop) (Q : R → Prop) t :
  (∀ t, P t → returns (body t) (λ r, match r with inl t' => P t' | inr a => Q a end)) →
  P t → returns (loop n body t) Q.
Proof.
  intros Hb. revert t. induction n as [|n IH]; intros t Ht s Hs; [done|]. cbn. rewrite run_bind.
  eapply keeps_bind; [by apply Hb|]. intros [t'|a] u [Hu Ha]; [by apply IH|by split].
Qed.

Lemma returns_ret {A} (a : A) (P : A → Prop) : P a → returns (mret a) P.
Proof. intros Ha s Hs. by split. Qed.

Lemma returns_gets {A} (f : S → A) (P : A → Prop) : (∀ s, I s → P (f s)) → returns (gets f) P.
Proof. intros Hf s Hs. split; [done|by apply Hf]. Qed.

Lemma returns_mono {A} (m : M S A) (P Q : A → Prop) : returns m P → (∀ a, P a → Q a) → returns m Q.
Proof. intros Hm HPQ s Hs. eapply keeps_mono; [by apply Hm|]. intros a t [Ht Ha]. split; [done|by apply HPQ]. Qed.

Lemma returns_panic {A} msg (P : A → Prop) : returns (panic msg) P.
Proof. by intros s Hs. Qed.

Lemma returns_for_find {A R} (l : list A) (body : A → M S (option R)) (P : option R → Prop) :
  (∀ x, x ∈ l → returns (body x) P) → P None → returns (for_find l body) P.
Proof.
  intros Hb HN. induction l as [|x l IH]; [by apply returns_ret|].
  eapply returns_bind_returns; [by apply Hb; left|]. intros [a|] Ha; [by apply returns_ret|].
  apply IH. intros y Hy. by apply Hb; right.
Qed.
End preserves.

(** Two invariants are kept together when each is kept. *)
Lemma keeps_and {S A} (I J : S → Prop) (Q R : A → S → Prop) (o : outcome S A) :
  keeps I Q o → keeps J R o → keeps (λ s, I s ∧ J s) (λ a s, Q a s ∧ R a s) o.
Proof.
  intros HI HJ. induction o as [a s|msg|s|s k IH|]; cbn in *; [done|done|done| |done].
  destruct HI as [H1 H2], HJ as [H3 H4]. split; [done|]. intros s' [??]. by apply IH; [apply H2|apply H4].
Qed.

Create HintDb returns discriminated.
#[global] Hint Constants Opaque : returns.

Global Hint Resolve preserves_ret preserves_gets preserves_panic preserves_spin preserves_swtch
  preserves_no_fuel : kernel.

(** Decompose a program along its structure and close the pieces with the lemmas
    of the hint database. *)
Ltac preserve :=
  repeat first
    [ solve [eauto with kernel typeclass_instances nocore]
    | lazymatch goal with
      | |- preserves _ (for_ _ _) => apply preserves_for; intros ?
      | |- preserves _ (for_find _ _) => apply preserves_for_find; intros ?
      | |- preserves _ (for_fold _ _ _) => apply preserves_for_fold; intros ? ?
      | |- preserves _ (loop _ _ _) => apply preserves_loop; intros ?
      | |- preserves _ (when _ _) => apply preserves_when
      | |- preserves _ (_ ≫= _) =>
          first [ eapply preserves_bind_returns; [solve [eauto with returns typeclass_instances nocore]|intros ? ?]
                | apply preserves_bind; [|intros ?] ]
      | |- preserves _ (match ?x with _ => _ end) => destruct x
      end ].

(** The same for [returns]; the values must satisfy what is asked by assumption. *)
Ltac returning :=
  repeat first
    [ solve [eauto with returns typeclass_instances nocore]
    | lazymatch goal with
      | |- returns _ (mret _) _ => apply returns_ret; first [assumption | exact Logic.I]
      | |- returns _ (panic _) _ => apply returns_panic
      | |- returns _ (_ ≫= _) _ =>
          first [ eapply returns_bind_returns; [solve [eauto with returns typeclass_instances nocore]|intros ? ?]
                | apply returns_bind; [solve [preserve]|intros ?] ]
      | |- returns _ (match ?x with _ => _ end) _ => destruct x
      end ].

(** ** Total correctness with crashes

    [runs I Q o]: the code returns a value with [Q], or the machine stops in a
    state that satisfies [I]; it does not panic, give up the CPU or run out of
    fuel. *)
Definition runs {S A} (I : S → Prop) (Q : A → S → Prop) (o : outcome S A) : Prop :=
  match o with Ok a s => Q a s | Spin s => I s | _ => False end.

Lemma runs_bind {S A B} (I : S → Prop) (Q : A → S → Prop) (R : B → S → Prop) (m : M S A) (f : A → M S B) s :
  runs I Q (m s) → (∀ a t, Q a t → runs I R (f a t)) → runs I R ((m ≫= f) s).
Proof. rewrite run_bind. intros Hm Hf. destruct (m s); try done. by apply Hf. Qed.

Lemma runs_mono {S A} (I J : S → Prop) (Q R : A → S → Prop) (o : outcome S A) :
  runs I Q o → (∀ s, I s → J s) → (∀ a s, Q a s → R a s) → runs J R o.
Proof. destruct o; cbn; auto. Qed.

(** A loop whose body makes progress in a measure. *)
Lemma runs_loop {S T R} (I : S → Prop) (P : T → S → Prop) (Q : R → S → Prop) (μ : T → nat) n (body : T → M S (T + R)) t s :
  (∀ t s, P t s → runs I (λ r u, match r with inl t' => P t' u ∧ (μ t' < μ t)%nat | inr a => Q a u end) (body t s)) →
  P t s → (μ t < n)%nat → runs I Q (loop n body t s).
Proof.
  intros Hb. revert t s. induction n as [|n IH]; intros t s HP Hn; [lia|]. cbn [loop].
  eapply runs_bind; [by apply Hb|]. intros [t'|a] u; cbn; [|done]. intros [HP' Hlt]. apply IH; [done|lia].
Qed.

(** ** Frames

    Code that never gives up the CPU, does not race and, whatever it returns,
    leaves the part [f] of the state as it was. *)
Definition frames {S A X} (f : S → X) (m : M S A) : Prop :=
  ∀ s, match m s with
       | Ok _ t | Spin t => f t = f s
       | Switch _ _ => False
       | Panic msg => msg ≠ race_msg
       | _ => True
       end.

Section frames.
Context {S X : Type} (f : S → X).

Lemma frames_bind {A B} (m : M S A) (g : A → M S B) :
  frames f m → (∀ a, frames f (g a)) → frames f (m ≫= g).
Proof.
  intros Hm Hg s. rewrite run_bind. specialize (Hm s). destruct (m s) as [a t| | | |]; cbn; try done.
  specialize (Hg a t). destruct (g a t); try done; congruence.
Qed.

Lemma frames_ret {A} (a : A) : frames f (mret a).
Proof. done. Qed.

Lemma frames_gets {A} (g : S → A) : frames f (gets g).
Proof. done. Qed.

Lemma frames_modify (g : S → S) : (∀ s, f (g s) = f s) → frames f (modify g).
Proof. intros Hg s. apply Hg. Qed.

Lemma frames_panic {A} msg : String.eqb msg race_msg = false → frames f (panic msg : M S A).
Proof. intros Hm s. by apply String.eqb_neq. Qed.

Lemma frames_spin {A} : frames f (spin : M S A).
Proof. done. Qed.

Lemma frames_no_fuel {A} : frames f (no_fuel : M S A).
Proof. done. Qed.

Lemma frames_when (b : bool) (m : M S ()) : frames f m → frames f (when b m).
Proof. by destruct b. Qed.

Lemma frames_if {A} (b : bool) (m1 m2 : M S A) :
  frames f m1 → frames f m2 → frames f (if b then m1 else m2).
Proof. by destruct b. Qed.

Lemma frames_for {A} (l : list A) (body : A → M S ()) :
  (∀ x, frames f (body x)) → frames f (for_ l body).
Proof. intros Hb. induction l; [apply frames_ret|]. by apply frames_bind. Qed.

Lemma frames_for_find {A R} (l : list A) (body : A → M S (option R)) :
  (∀ x, frames f (body x)) → frames f (for_find l body).
Proof.
  intros Hb. induction l; [apply frames_ret|]. apply frames_bind; [done|]. by intros [].
Qed.

Lemma frames_loop {T R} n (body : T → M S (T + R)) t :
  (∀ t, frames f (body t)) → frames f (loop n body t).
Proof.
  intros Hb. revert t. induction n; intros t; [apply frames_no_fuel|].
  apply frames_bind; [done|]. by intros [].
Qed.

(** A fact about the framed part is still there when the code returns. *)
Lemma keeps_bind_frames {A B} (I : S → Prop) (P : X → Prop) (m : M S A) (g : A → M S B) s :
  frames f m → preserves I m → I s → P (f s) →
  (∀ a t, I t → P (f t) → keeps I (λ _, I) (g a t)) → keeps I (λ _, I) ((m ≫= g) s).
Proof.
  intros Hf Hm Hs HP Hg. rewrite run_bind. specialize (Hf s). specialize (Hm s Hs).
  destruct (m s) as [a t| | | |]; cbn in *; try done. apply Hg; [done|]. by rewrite Hf.
Qed.

(** What a frame is for. *)
Lemma frames_Ok {A} (m : M S A) s a t : frames f m → m s = Ok a t → f t = f s.
Proof. intros Hm E. specialize (Hm s). by rewrite E in Hm. Qed.
End frames.

Global Hint Resolve frames_ret frames_gets frames_spin frames_no_fuel : kernel.
Global Hint Extern 0 (frames _ (panic _)) => (apply frames_panic; reflexivity) : kernel.

Ltac frame :=
  repeat first
    [ solve [eauto with kernel typeclass_instances nocore]
    | lazymatch goal with
      | |- frames _ (for_ _ _) => apply frames_for; intros ?
      | |- frames _ (for_find _ _) => apply frames_for_find; intros ?
      | |- frames _ (loop _ _ _) => apply frames_loop; intros ?
      | |- frames _ (when _ _) => apply frames_when
      | |- frames _ (_ ≫= _) => apply frames_bind; [|intros ?]
      | |- frames _ (match ?x with _ => _ end) => destruct x
      end ].

(** ** Rely and guarantee

    [rg R G Q s0 o]: between the points where the code gives up the CPU, it changes
    the state only as [G] allows, [s0] being the state in which it was last
    resumed; it does not race; and when it returns, [Q] holds.  All this if, while
    it is suspended, others change the state only as [R] says. *)
Fixpoint rg {S A} (R G : S → S → Prop) (Q : A → S → Prop) (s0 : S) (o : outcome S A) : Prop :=
  match o with
  | Ok a s => G s0 s ∧ Q a s
  | Panic msg => msg ≠ race_msg
  | Spin s => G s0 s
  | Switch s k => G s0 s ∧ ∀ s', R s s' → rg R G Q s' (k s')
  | NoFuel => True
  end.

Section rely.
Context {S : Type} (R G : S → S → Prop) {HG : PreOrder G}.

Lemma rg_from {A} (Q : A → S → Prop) s0 s1 o : G s0 s1 → rg R G Q s1 o → rg R G Q s0 o.
Proof using HG.
  intros H01 Ho. destruct o as [a s|msg|s|s k|]; cbn in *; [|done| | |done].
  - destruct Ho. split; [by etrans|done].
  - by etrans.
  - destruct Ho. split; [by etrans|done].
Qed.

Lemma rg_obind {A B} (Q : A → S → Prop) (Q' : B → S → Prop) s0 (o : outcome S A) (f : A → M S B) :
  rg R G Q s0 o → (∀ a s, Q a s → rg R G Q' s (f a s)) → rg R G Q' s0 (obind f o).
Proof using HG.
  intros Ho Hf. revert s0 Ho. induction o as [a s|msg|s|s k IH|]; intros s0 Ho; cbn in *; [|done|done| |done].
  - destruct Ho as [H1 H2]. by eapply rg_from, Hf.
  - destruct Ho as [H1 H2]. split; [done|]. intros s' Hs'. by apply IH, H2.
Qed.

Lemma rg_mono {A} (Q Q' : A → S → Prop) s0 o : rg R G Q s0 o → (∀ a s, Q a s → Q' a s) → rg R G Q' s0 o.
Proof using Type.
  intros Ho HQ. revert s0 Ho. induction o as [a s|msg|s|s k IH|]; intros s0 Ho; cbn in *; [|done|done| |done].
  - destruct Ho. auto.
  - destruct Ho as [H1 H2]. split; [done|]. intros s' Hs'. by apply IH, H2.
Qed.

Lemma rg_bind {A B} (Q : A → S → Prop) (Q' : B → S → Prop) s (m : M S A) (f : A → M S B) :
  rg R G Q s (m s) → (∀ a t, Q a t → rg R G Q' t (f a t)) → rg R G Q' s ((m ≫= f) s).
Proof using HG. rewrite run_bind. apply rg_obind. Qed.

Lemma rg_ret {A} (Q : A → S → Prop) a s : Q a s → rg R G Q s ((mret a : M S A) s).
Proof using HG. done. Qed.

Lemma rg_loop {T U} (P : T → S → Prop) (Q : U → S → Prop) n (body : T → M S (T + U)) t s :
  (∀ t s, P t s → rg R G (λ r u, match r with inl t' => P t' u | inr a => Q a u end) s (body t s)) →
  P t s → rg R G Q s (loop n body t s).
Proof using HG.
  intros Hb. revert t s. induction n as [|n IH]; intros t s HP; [done|]. cbn [loop].
  eapply rg_bind; [by apply Hb|]. intros [t'|a] u H; [by apply IH|by apply rg_ret].
Qed.

(** Code that frames [f], when the guarantee only looks at [f]. *)
Lemma rg_frames {X A} (f : S → X) (m : M S A) s :
  (∀ u t, f t = f u → G u t) → frames f m → rg R G (λ _ t, f t = f s) s (m s).
Proof using HG. intros Hf Hm. specialize (Hm s). destruct (m s) as [a t|msg|t|t k|]; cbn in *; auto. done. Qed.
End rely.

