(* ===== verification/Params.v ===== *)
(** Constants of the kernel: kernel/param.h, kernel/memlayout.h, the page and
    page-table macros of kernel/riscv.h, and the symbols that the linker script
    kernel/kernel.ld and the assembly files define. *)

From Stdlib Require Import ZArith Lia.
From stdpp Require Import base numbers list.
From S2P Require Import Prelude.

(** ** kernel/param.h *)

Definition NPROC : Z := 64.
Definition NCPU : Z := 8.
Definition NOFILE : Z := 16.
Definition NFILE : Z := 100.
Definition NINODE : Z := 50.
Definition NDEV : Z := 10.
Definition ROOTDEV : Z := 1.
Definition MAXARG : Z := 32.
Definition MAXOPBLOCKS : Z := 10.
Definition LOGBLOCKS : Z := MAXOPBLOCKS * 3.
Definition NBUF : Z := MAXOPBLOCKS * 3.
Definition FSSIZE : Z := 2000.
Definition MAXPATH : Z := 128.
Definition USERSTACK : Z := 1.

Definition AGING_THRESHOLD : Z := 10.
Definition STARVING_THRESHOLD : Z := 30.
Definition AGING_STEP : Z := 1.
Definition MIN_PRIORITY : Z := 0.
Definition MAX_PRIORITY : Z := 100.
(** [#ifdef DEBUG_AGING] asks whether the macro is defined, not what it is
    defined to; the value 0 is never consulted. *)
Definition DEBUG_AGING : option Z := Some 0.
Definition AGING_ENABLE : Z := 1.
Definition DEFAULT_PRIORITY : Z := 60.

(** ** kernel/fs.h, kernel/pipe.c, kernel/console.c: sizes *)

Definition ROOTINO : Z := 1.
Definition BSIZE : Z := 1024.
Definition FSMAGIC : Z := 0x10203040.
Definition NDIRECT : Z := 12.
Definition NINDIRECT : Z := BSIZE / 4.
Definition MAXFILE : Z := NDIRECT + NINDIRECT.
Definition IPB : Z := BSIZE / 64.
Definition BPB : Z := BSIZE * 8.
Definition DIRSIZ : Z := 14.
Definition PIPESIZE : Z := 512.
Definition INPUT_BUF_SIZE : Z := 128.

(** ** kernel/stat.h, kernel/fcntl.h, kernel/vm.h, kernel/elf.h *)

Definition T_DIR : Z := 1.
Definition T_FILE : Z := 2.
Definition T_DEVICE : Z := 3.
Definition O_RDONLY : Z := 0x000.
Definition O_WRONLY : Z := 0x001.
Definition O_RDWR : Z := 0x002.
Definition O_CREATE : Z := 0x200.
Definition O_TRUNC : Z := 0x400.
Definition SBRK_EAGER : Z := 1.
Definition SBRK_LAZY : Z := 2.
Definition ELF_MAGIC : Z := 0x464C457F.
Definition ELF_PROG_LOAD : Z := 1.
Definition CONSOLE : Z := 1.

(** ** kernel/riscv.h: pages and page-table entries *)

Definition PGSIZE : Z := 4096.
Definition PGSHIFT : Z := 12.
Definition PGROUNDUP (sz : Z) : Z := Z.land (u64 (sz + PGSIZE - 1)) (Z.lnot (PGSIZE - 1)).
Definition PGROUNDDOWN (a : Z) : Z := Z.land a (Z.lnot (PGSIZE - 1)).

Definition PTE_V : Z := Z.shiftl 1 0.
Definition PTE_R : Z := Z.shiftl 1 1.
Definition PTE_W : Z := Z.shiftl 1 2.
Definition PTE_X : Z := Z.shiftl 1 3.
Definition PTE_U : Z := Z.shiftl 1 4.

Definition PA2PTE (pa : Z) : Z := u64 (Z.shiftl (Z.shiftr pa 12) 10).
Definition PTE2PA (pte : Z) : Z := u64 (Z.shiftl (Z.shiftr pte 10) 12).
Definition PTE_FLAGS (pte : Z) : Z := Z.land pte 0x3FF.

Definition PXMASK : Z := 0x1FF.
Definition PXSHIFT (level : Z) : Z := PGSHIFT + 9 * level.
Definition PX (level va : Z) : Z := Z.land (Z.shiftr va (PXSHIFT level)) PXMASK.

Definition MAXVA : Z := Z.shiftl 1 (9 + 9 + 9 + 12 - 1).

(** ** kernel/memlayout.h *)

Definition UART0 : Z := 0x10000000.
Definition UART0_IRQ : Z := 10.
Definition VIRTIO0 : Z := 0x10001000.
Definition VIRTIO0_IRQ : Z := 1.
Definition PLIC : Z := 0x0c000000.
Definition PLIC_SENABLE (hart : Z) : Z := PLIC + 0x2080 + hart * 0x100.
Definition PLIC_SPRIORITY (hart : Z) : Z := PLIC + 0x201000 + hart * 0x2000.
Definition PLIC_SCLAIM (hart : Z) : Z := PLIC + 0x201004 + hart * 0x2000.
Definition KERNBASE : Z := 0x80000000.
Definition PHYSTOP : Z := KERNBASE + 128 * 1024 * 1024.
Definition TRAMPOLINE : Z := MAXVA - PGSIZE.
Definition KSTACK (p : Z) : Z := TRAMPOLINE - (p + 1) * 2 * PGSIZE.
Definition TRAPFRAME : Z := TRAMPOLINE - PGSIZE.

(** ** Link-time symbols

    Addresses fixed by kernel/kernel.ld and the assembly files.  The laws are
    what kernel.ld lays out: text from KERNBASE to [etext], the trampoline on a
    page of its own inside the text, data up to [kend] (the symbol [end]),
    everything below PHYSTOP. *)

Class Layout := {
  kend : Z;
  etext : Z;
  trampoline : Z;
  forkret_addr : Z;
  uservec : Z;
  userret : Z;
  kernelvec : Z;
  usertrap_addr : Z;
}.

Class LayoutOk `{!Layout} : Prop := {
  layout_text : KERNBASE ≤ trampoline ∧ trampoline + PGSIZE ≤ etext;
  layout_end : etext ≤ kend ∧ kend < PHYSTOP;
  layout_tramp_aligned : trampoline mod PGSIZE = 0;
}.

(** A layout that obeys the laws, for evaluating the definitions. *)
Definition small_layout : Layout :=
  {| kend := 0x80023000; etext := 0x80008000; trampoline := 0x80007000; forkret_addr := 0x80001a2c;
     uservec := 0x80007000; userret := 0x8000709c; kernelvec := 0x80005b40; usertrap_addr := 0x80002a10 |}.

Lemma small_layout_ok : @LayoutOk small_layout.
Proof.
  split; unfold KERNBASE, PHYSTOP, PGSIZE; cbn; [lia| |done].
  unfold KERNBASE. lia.
Qed.

(** ** Arithmetic of the page macros *)

Lemma land_lnot_ones (a n : Z) : 0 ≤ n → Z.land a (Z.lnot (2 ^ n - 1)) = a / 2 ^ n * 2 ^ n.
Proof.
  intros Hn. replace (2 ^ n - 1) with (Z.ones n) by (rewrite Z.ones_equiv; lia).
  rewrite <-Z.ldiff_land, Z.ldiff_ones_r, Z.shiftl_mul_pow2, Z.shiftr_div_pow2 by lia.
  reflexivity.
Qed.

Lemma PGROUNDDOWN_div a : PGROUNDDOWN a = a / PGSIZE * PGSIZE.
Proof. exact (land_lnot_ones a 12 ltac:(lia)). Qed.

Lemma PGROUNDUP_div sz :
  0 ≤ sz → sz + PGSIZE ≤ 2 ^ 64 → PGROUNDUP sz = (sz + (PGSIZE - 1)) / PGSIZE * PGSIZE.
Proof.
  intros ? Hs. unfold PGROUNDUP, u64, uwrap, PGSIZE in *.
  rewrite Z.mod_small by lia.
  replace (sz + 4096 - 1) with (sz + (4096 - 1)) by lia.
  exact (land_lnot_ones _ 12 ltac:(lia)).
Qed.

Lemma PGROUNDUP_aligned sz : PGROUNDUP sz mod PGSIZE = 0.
Proof.
  unfold PGROUNDUP. rewrite (land_lnot_ones _ 12) by lia.
  change (2 ^ 12) with PGSIZE. apply Z.mod_mul. unfold PGSIZE; lia.
Qed.

Lemma PGROUNDUP_bound sz :
  0 ≤ sz → sz + PGSIZE ≤ 2 ^ 64 → sz ≤ PGROUNDUP sz < sz + PGSIZE.
Proof. intros. rewrite PGROUNDUP_div by done. unfold PGSIZE in *. dlia. Qed.

Lemma PGROUNDUP_id a :
  0 ≤ a → a + PGSIZE ≤ 2 ^ 64 → a mod PGSIZE = 0 → PGROUNDUP a = a.
Proof. intros. rewrite PGROUNDUP_div by done. unfold PGSIZE in *. dlia. Qed.

Lemma PGROUNDDOWN_bound a : PGROUNDDOWN a ≤ a < PGROUNDDOWN a + PGSIZE.
Proof. rewrite PGROUNDDOWN_div. unfold PGSIZE. dlia. Qed.

Lemma PGROUNDDOWN_aligned a : PGROUNDDOWN a mod PGSIZE = 0.
Proof. rewrite PGROUNDDOWN_div. apply Z.mod_mul. unfold PGSIZE; lia. Qed.

Lemma PGROUNDDOWN_id a : a mod PGSIZE = 0 → PGROUNDDOWN a = a.
Proof. rewrite PGROUNDDOWN_div. unfold PGSIZE. dlia. Qed.

Lemma PX_div l va : 0 ≤ l → PX l va = va / 2 ^ (12 + 9 * l) mod 512.
Proof.
  intros. unfold PX, PXSHIFT, PGSHIFT. change PXMASK with (Z.ones 9).
  rewrite Z.land_ones, Z.shiftr_div_pow2 by lia. reflexivity.
Qed.

Lemma PX_bound l va : 0 ≤ l → 0 ≤ PX l va < 512.
Proof. intros. rewrite PX_div by done. apply Z.mod_pos_bound. lia. Qed.

(** The three indices of two addresses below MAXVA agree only when the addresses
    lie in the same page. *)
Lemma PX_inj va va' :
  0 ≤ va < MAXVA → 0 ≤ va' < MAXVA →
  PX 2 va = PX 2 va' → PX 1 va = PX 1 va' → PX 0 va = PX 0 va' →
  va / PGSIZE = va' / PGSIZE.
Proof.
  intros Hv Hv'. rewrite !PX_div by lia. change MAXVA with (2 ^ 38) in *.
  change (12 + 9 * 2) with 30. change (12 + 9 * 1) with 21. change (12 + 9 * 0) with 12.
  unfold PGSIZE. intros. dlia.
Qed.

Lemma PA2PTE_div pa : 0 ≤ pa < 2 ^ 64 → PA2PTE pa = pa / PGSIZE * 1024.
Proof.
  intros. unfold PA2PTE, u64, uwrap, PGSIZE.
  rewrite Z.shiftl_mul_pow2, Z.shiftr_div_pow2 by lia.
  rewrite Z.mod_small; dlia.
Qed.

(** The address and the flags of an entry can both be read back. *)
Lemma PTE2PA_pte pa fl :
  0 ≤ pa < 2 ^ 56 → pa mod PGSIZE = 0 → 0 ≤ fl < 1024 →
  PTE2PA (Z.lor (PA2PTE pa) fl) = pa.
Proof.
  intros Hpa Ha Hf. unfold PTE2PA, u64, uwrap.
  rewrite Z.shiftr_lor.
  replace (Z.shiftr fl 10) with 0 by (rewrite Z.shiftr_div_pow2 by lia; symmetry; apply Z.div_small; lia).
  rewrite Z.lor_0_r, PA2PTE_div by lia.
  rewrite Z.shiftl_mul_pow2, Z.shiftr_div_pow2 by lia.
  unfold PGSIZE in *. rewrite Z.mod_small; dlia.
Qed.

Lemma PTE_FLAGS_pte pa fl :
  0 ≤ pa < 2 ^ 64 → 0 ≤ fl < 1024 → PTE_FLAGS (Z.lor (PA2PTE pa) fl) = fl.
Proof.
  intros Hpa Hf. unfold PTE_FLAGS. change 0x3FF with (Z.ones 10).
  rewrite Z.land_lor_distr_l, !Z.land_ones, PA2PTE_div by lia.
  rewrite Z.mod_mul, Z.lor_0_l, Z.mod_small by lia. reflexivity.
Qed.
