(* ===== verification/Machine.v ===== *)
(** The kernel's data: the structs of the kernel headers, the global variables
    of the C files gathered in one state record, and the primitive accesses to
    them.  A pointer to an element of a static table is the element's index; a
    pointer to a page handed out by kalloc() is its physical address. *)

From Stdlib Require Import ZArith Lia.
From stdpp Require Import base numbers list gmap strings.
From S2P Require Import Prelude Params.

(** A field update written once per field; [eta] lists the fields of the record. *)
Ltac setter eta proj v s :=
  let t := eval cbv [eta] in (eta s) in
  match t with context C [proj s] => let t' := context C [v] in exact t' end.

(** ** Names of locks and of sleep channels *)

(** Every spinlock of the kernel, by the variable that holds it. *)
Inductive lockid :=
  | L_proc (i : nat)        (* proc[i].lock *)
  | L_pid                   (* pid_lock *)
  | L_wait                  (* wait_lock *)
  | L_ticks                 (* tickslock *)
  | L_kmem                  (* kmem.lock *)
  | L_pipe (pi : Z)         (* pi->lock *)
  | L_ftable                (* ftable.lock *)
  | L_itable                (* itable.lock *)
  | L_log                   (* log.lock *)
  | L_bcache                (* bcache.lock *)
  | L_bufsl (i : nat)       (* bcache.buf[i].lock.lk *)
  | L_inodesl (i : nat)     (* itable.inode[i].lock.lk *)
  | L_cons                  (* cons.lock *)
  | L_pr                    (* pr.lock *)
  | L_tx                    (* tx_lock *)
  | L_vdisk.                (* disk.vdisk_lock *)

Global Instance lockid_eq_dec : EqDecision lockid.
Proof. solve_decision. Defined.

Definition lockid_code (l : lockid) : nat * (nat + Z) :=
  match l with
  | L_proc i => (0%nat, inl i) | L_pid => (1%nat, inl 0%nat) | L_wait => (2%nat, inl 0%nat)
  | L_ticks => (3%nat, inl 0%nat) | L_kmem => (4%nat, inl 0%nat) | L_pipe pi => (5%nat, inr pi)
  | L_ftable => (6%nat, inl 0%nat) | L_itable => (7%nat, inl 0%nat) | L_log => (8%nat, inl 0%nat)
  | L_bcache => (9%nat, inl 0%nat) | L_bufsl i => (10%nat, inl i) | L_inodesl i => (11%nat, inl i)
  | L_cons => (12%nat, inl 0%nat) | L_pr => (13%nat, inl 0%nat) | L_tx => (14%nat, inl 0%nat)
  | L_vdisk => (15%nat, inl 0%nat)
  end.

Definition lockid_decode (c : nat * (nat + Z)) : option lockid :=
  match c with
  | (0%nat, inl i) => Some (L_proc i) | (1%nat, _) => Some L_pid | (2%nat, _) => Some L_wait
  | (3%nat, _) => Some L_ticks | (4%nat, _) => Some L_kmem | (5%nat, inr pi) => Some (L_pipe pi)
  | (6%nat, _) => Some L_ftable | (7%nat, _) => Some L_itable | (8%nat, _) => Some L_log
  | (9%nat, _) => Some L_bcache | (10%nat, inl i) => Some (L_bufsl i)
  | (11%nat, inl i) => Some (L_inodesl i) | (12%nat, _) => Some L_cons | (13%nat, _) => Some L_pr
  | (14%nat, _) => Some L_tx | (15%nat, _) => Some L_vdisk
  | _ => None
  end.

Global Instance lockid_countable : Countable lockid.
Proof. apply (inj_countable lockid_code lockid_decode). by intros []. Defined.

(** Every address that is slept on. *)
Inductive chan :=
  | Ch_ticks                (* &ticks *)
  | Ch_proc (i : nat)       (* &proc[i] *)
  | Ch_nread (pi : Z)       (* &pi->nread *)
  | Ch_nwrite (pi : Z)      (* &pi->nwrite *)
  | Ch_log                  (* &log *)
  | Ch_bufsl (i : nat)      (* &bcache.buf[i].lock *)
  | Ch_inodesl (i : nat)    (* &itable.inode[i].lock *)
  | Ch_buf (i : nat)        (* &bcache.buf[i] *)
  | Ch_diskfree             (* &disk.free[0] *)
  | Ch_cons_r               (* &cons.r *)
  | Ch_tx.                  (* &tx_chan *)

Global Instance chan_eq_dec : EqDecision chan.
Proof. solve_decision. Defined.

(** ** kernel/proc.h *)

Set Primitive Projections.

(** [struct context]; [ctx_s] holds s0 to s11. *)
Record context := mk_context {
  ctx_ra : Z;
  ctx_sp : Z;
  ctx_s : list Z;
}.

(** [struct cpu], with the hart's supervisor registers that the kernel uses. *)
Record cpu := mk_cpu {
  c_proc : option nat;
  c_noff : Z;
  c_intena : bool;
  c_sstatus : Z;
  c_stimecmp : Z;
  c_sepc : Z;
  c_scause : Z;
  c_stval : Z;
  c_stvec : Z;
  c_satp : Z;
}.

Record trapframe := mk_trapframe {
  tf_kernel_satp : Z;
  tf_kernel_sp : Z;
  tf_kernel_trap : Z;
  tf_epc : Z;
  tf_kernel_hartid : Z;
  tf_ra : Z; tf_sp : Z; tf_gp : Z; tf_tp : Z;
  tf_t0 : Z; tf_t1 : Z; tf_t2 : Z;
  tf_s0 : Z; tf_s1 : Z;
  tf_a0 : Z; tf_a1 : Z; tf_a2 : Z; tf_a3 : Z; tf_a4 : Z; tf_a5 : Z; tf_a6 : Z; tf_a7 : Z;
  tf_s2 : Z; tf_s3 : Z; tf_s4 : Z; tf_s5 : Z; tf_s6 : Z;
  tf_s7 : Z; tf_s8 : Z; tf_s9 : Z; tf_s10 : Z; tf_s11 : Z;
  tf_t3 : Z; tf_t4 : Z; tf_t5 : Z; tf_t6 : Z;
}.

Inductive procstate := UNUSED | USED | SLEEPING | RUNNABLE | RUNNING | ZOMBIE.

Record proc := mk_proc {
  p_rtime : Z;
  p_wtime : Z;
  p_nrun : Z;
  p_priority : Z;
  p_dyn_prio : Z;
  p_starving : Z;
  p_stime : Z;
  p_ctime : Z;
  p_etime : Z;
  p_pbs_rtime : Z;
  p_pbs_stime : Z;
  p_state : procstate;
  p_chan : option chan;
  p_killed : Z;
  p_xstate : Z;
  p_pid : Z;
  p_parent : option nat;
  p_kstack : Z;
  p_sz : Z;
  p_pagetable : Z;
  p_trapframe : Z;
  p_context : context;
  p_ofile : list (option nat);
  p_cwd : option nat;
  p_name : list Z;
}.

(** ** kernel/pipe.c *)

Record pipe := mk_pipe {
  pi_data : list Z;
  pi_nread : Z;
  pi_nwrite : Z;
  pi_readopen : Z;
  pi_writeopen : Z;
}.

(** ** kernel/sleeplock.h; the spinlock inside has its own name in [lockid] *)

Record sleeplock := mk_sleeplock {
  sl_locked : Z;
  sl_pid : Z;
}.

(** ** kernel/buf.h; [b_prev] and [b_next] are indices into bcache.buf, or
    [NBUF] for bcache.head *)

Record buf := mk_buf {
  b_valid : Z;
  b_disk : Z;
  b_dev : Z;
  b_blockno : Z;
  b_lock : sleeplock;
  b_refcnt : Z;
  b_prev : nat;
  b_next : nat;
  b_data : list Z;
}.

(** ** kernel/fs.h *)

Record superblock := mk_superblock {
  sb_magic : Z;
  sb_size : Z;
  sb_nblocks : Z;
  sb_ninodes : Z;
  sb_nlog : Z;
  sb_logstart : Z;
  sb_inodestart : Z;
  sb_bmapstart : Z;
}.

(** ** kernel/log.c; [lg_n] and [lg_block] are the fields of [lh] *)

Record log := mk_log {
  lg_start : Z;
  lg_outstanding : Z;
  lg_committing : Z;
  lg_dev : Z;
  lg_n : Z;
  lg_block : list Z;
}.

(** ** kernel/file.h *)

Record inode := mk_inode {
  i_dev : Z;
  i_inum : Z;
  i_ref : Z;
  i_lock : sleeplock;
  i_valid : Z;
  i_type : Z;
  i_major : Z;
  i_minor : Z;
  i_nlink : Z;
  i_size : Z;
  i_addrs : list Z;
}.

Inductive fdtype := FD_NONE | FD_PIPE | FD_INODE | FD_DEVICE.

Record file := mk_file {
  f_type : fdtype;
  f_ref : Z;
  f_readable : Z;
  f_writable : Z;
  f_pipe : Z;
  f_ip : option nat;
  f_off : Z;
  f_major : Z;
}.

(** The functions that devsw[] can point to. *)
Inductive devfn := CONSOLE_RW.

(** ** kernel/console.c *)

Record cons := mk_cons {
  cons_buf : list Z;
  cons_r : Z;
  cons_w : Z;
  cons_e : Z;
}.

(** ** kernel/virtio.h and kernel/virtio_disk.c

    A descriptor's address is one of the three objects the driver points it
    at: a request header, the data of a buffer, or a status byte. *)

Inductive dma_addr := DMA_null | DMA_req (i : nat) | DMA_data (b : nat) | DMA_status (i : nat).

Record virtq_desc := mk_virtq_desc {
  vd_addr : dma_addr;
  vd_len : Z;
  vd_flags : Z;
  vd_next : Z;
}.

Record virtio_blk_req := mk_virtio_blk_req {
  vr_type : Z;
  vr_reserved : Z;
  vr_sector : Z;
}.

Record disk := mk_disk {
  d_desc : list virtq_desc;
  d_avail_idx : Z;
  d_avail_ring : list Z;
  d_used_dev_idx : Z;              (* disk.used->idx *)
  d_used_ring : list Z;            (* the [id] of each used element *)
  d_free : list Z;
  d_used_idx : Z;                  (* disk.used_idx *)
  d_info_b : list (option nat);
  d_info_status : list Z;
  d_ops : list virtio_blk_req;
}.

(** ** The global variables *)

Record kstate := mk_kstate {
  k_hart : nat;                    (* r_tp() of the CPU that runs *)
  k_cpus : list cpu;               (* cpus[NCPU] *)
  k_locks : gmap lockid nat;       (* locked spinlocks, with lk->cpu *)
  k_time : Z;                      (* r_time() *)
  k_out : list Z;                  (* bytes written to the UART's THR *)
  k_proc : list proc;              (* proc[NPROC] *)
  k_initproc : option nat;
  k_nextpid : Z;
  k_ticks : Z;
  k_mem : Z → Z;                   (* physical memory, by byte *)
  k_freelist : Z;                  (* kmem.freelist *)
  k_trapframes : gmap Z trapframe; (* trapframe pages, by address *)
  k_pipes : gmap Z pipe;           (* pipe pages, by address *)
  k_kernel_pagetable : Z;
  k_bufs : list buf;               (* bcache.buf[NBUF], then bcache.head *)
  k_sb : superblock;
  k_log : log;
  k_inodes : list inode;           (* itable.inode[NINODE] *)
  k_files : list file;             (* ftable.file[NFILE] *)
  k_devsw : list (option devfn);   (* devsw[NDEV] *)
  k_cons : cons;
  k_tx_busy : Z;
  k_vdisk : disk;                  (* the driver's struct disk, with its queue *)
  k_first : bool;                  (* the static variable of forkret() *)
  k_uart_rx : list Z;              (* bytes the UART has received *)
  k_uart_idle : bool;              (* LSR_TX_IDLE *)
  k_mmio : gmap Z Z;               (* device registers written by the kernel *)
  k_plic : list Z;                 (* interrupts the PLIC has to hand out *)
  k_blocks : Z → list Z;           (* contents of the disk, by block *)
  k_started : bool;                (* started, of main.c *)
}.

Unset Primitive Projections.

Global Instance fdtype_eq_dec : EqDecision fdtype.
Proof. solve_decision. Defined.

Global Instance procstate_eq_dec : EqDecision procstate.
Proof. solve_decision. Defined.

(** The C numbering of the states. *)
Definition procstate_num (st : procstate) : Z :=
  match st with
  | UNUSED => 0 | USED => 1 | SLEEPING => 2 | RUNNABLE => 3 | RUNNING => 4 | ZOMBIE => 5
  end.

(** ** Field updates *)

Definition eta_cpu (c : cpu) : cpu :=
  mk_cpu (c_proc c) (c_noff c) (c_intena c) (c_sstatus c) (c_stimecmp c) (c_sepc c) (c_scause c)
    (c_stval c) (c_stvec c) (c_satp c).
Definition set_c_proc (v : option nat) (c : cpu) : cpu := ltac:(setter eta_cpu c_proc v c).
Definition set_c_noff (v : Z) (c : cpu) : cpu := ltac:(setter eta_cpu c_noff v c).
Definition set_c_intena (v : bool) (c : cpu) : cpu := ltac:(setter eta_cpu c_intena v c).
Definition set_c_sstatus (v : Z) (c : cpu) : cpu := ltac:(setter eta_cpu c_sstatus v c).
Definition set_c_stimecmp (v : Z) (c : cpu) : cpu := ltac:(setter eta_cpu c_stimecmp v c).

Definition set_c_sepc (v : Z) (c : cpu) : cpu := ltac:(setter eta_cpu c_sepc v c).
Definition set_c_scause (v : Z) (c : cpu) : cpu := ltac:(setter eta_cpu c_scause v c).
Definition set_c_stval (v : Z) (c : cpu) : cpu := ltac:(setter eta_cpu c_stval v c).
Definition set_c_stvec (v : Z) (c : cpu) : cpu := ltac:(setter eta_cpu c_stvec v c).
Definition set_c_satp (v : Z) (c : cpu) : cpu := ltac:(setter eta_cpu c_satp v c).

Definition eta_proc (p : proc) : proc :=
  mk_proc (p_rtime p) (p_wtime p) (p_nrun p) (p_priority p) (p_dyn_prio p) (p_starving p)
    (p_stime p) (p_ctime p) (p_etime p) (p_pbs_rtime p) (p_pbs_stime p) (p_state p) (p_chan p)
    (p_killed p) (p_xstate p) (p_pid p) (p_parent p) (p_kstack p) (p_sz p) (p_pagetable p)
    (p_trapframe p) (p_context p) (p_ofile p) (p_cwd p) (p_name p).
Definition set_rtime (v : Z) (p : proc) : proc := ltac:(setter eta_proc p_rtime v p).
Definition set_wtime (v : Z) (p : proc) : proc := ltac:(setter eta_proc p_wtime v p).
Definition set_nrun (v : Z) (p : proc) : proc := ltac:(setter eta_proc p_nrun v p).
Definition set_priority (v : Z) (p : proc) : proc := ltac:(setter eta_proc p_priority v p).
Definition set_starving (v : Z) (p : proc) : proc := ltac:(setter eta_proc p_starving v p).
Definition set_stime (v : Z) (p : proc) : proc := ltac:(setter eta_proc p_stime v p).
Definition set_ctime (v : Z) (p : proc) : proc := ltac:(setter eta_proc p_ctime v p).
Definition set_pbs_rtime (v : Z) (p : proc) : proc := ltac:(setter eta_proc p_pbs_rtime v p).
Definition set_pbs_stime (v : Z) (p : proc) : proc := ltac:(setter eta_proc p_pbs_stime v p).
Definition set_state (v : procstate) (p : proc) : proc := ltac:(setter eta_proc p_state v p).
Definition set_chan (v : option chan) (p : proc) : proc := ltac:(setter eta_proc p_chan v p).
Definition set_killed (v : Z) (p : proc) : proc := ltac:(setter eta_proc p_killed v p).
Definition set_xstate (v : Z) (p : proc) : proc := ltac:(setter eta_proc p_xstate v p).
Definition set_pid (v : Z) (p : proc) : proc := ltac:(setter eta_proc p_pid v p).
Definition set_parent (v : option nat) (p : proc) : proc := ltac:(setter eta_proc p_parent v p).
Definition set_kstack (v : Z) (p : proc) : proc := ltac:(setter eta_proc p_kstack v p).
Definition set_sz (v : Z) (p : proc) : proc := ltac:(setter eta_proc p_sz v p).
Definition set_pagetable (v : Z) (p : proc) : proc := ltac:(setter eta_proc p_pagetable v p).
Definition set_trapframe (v : Z) (p : proc) : proc := ltac:(setter eta_proc p_trapframe v p).
Definition set_context (v : context) (p : proc) : proc := ltac:(setter eta_proc p_context v p).
Definition set_ofile (v : list (option nat)) (p : proc) : proc := ltac:(setter eta_proc p_ofile v p).
Definition set_cwd (v : option nat) (p : proc) : proc := ltac:(setter eta_proc p_cwd v p).
Definition set_name (v : list Z) (p : proc) : proc := ltac:(setter eta_proc p_name v p).

Definition eta_kstate (s : kstate) : kstate :=
  mk_kstate (k_hart s) (k_cpus s) (k_locks s) (k_time s) (k_out s) (k_proc s) (k_initproc s)
    (k_nextpid s) (k_ticks s) (k_mem s) (k_freelist s) (k_trapframes s) (k_pipes s)
    (k_kernel_pagetable s) (k_bufs s) (k_sb s) (k_log s) (k_inodes s) (k_files s) (k_devsw s)
    (k_cons s) (k_tx_busy s) (k_vdisk s) (k_first s) (k_uart_rx s) (k_uart_idle s) (k_mmio s)
    (k_plic s) (k_blocks s) (k_started s).
Definition set_hart (v : nat) (s : kstate) : kstate := ltac:(setter eta_kstate k_hart v s).
Definition set_cpus (v : list cpu) (s : kstate) : kstate := ltac:(setter eta_kstate k_cpus v s).
Definition set_locks (v : gmap lockid nat) (s : kstate) : kstate := ltac:(setter eta_kstate k_locks v s).
Definition set_out (v : list Z) (s : kstate) : kstate := ltac:(setter eta_kstate k_out v s).
Definition set_proc (v : list proc) (s : kstate) : kstate := ltac:(setter eta_kstate k_proc v s).
Definition set_initproc (v : option nat) (s : kstate) : kstate := ltac:(setter eta_kstate k_initproc v s).
Definition set_nextpid (v : Z) (s : kstate) : kstate := ltac:(setter eta_kstate k_nextpid v s).
Definition set_ticks (v : Z) (s : kstate) : kstate := ltac:(setter eta_kstate k_ticks v s).
Definition set_mem (v : Z → Z) (s : kstate) : kstate := ltac:(setter eta_kstate k_mem v s).
Definition set_freelist (v : Z) (s : kstate) : kstate := ltac:(setter eta_kstate k_freelist v s).
Definition set_trapframes (v : gmap Z trapframe) (s : kstate) : kstate := ltac:(setter eta_kstate k_trapframes v s).
Definition set_pipes (v : gmap Z pipe) (s : kstate) : kstate := ltac:(setter eta_kstate k_pipes v s).

Definition set_kernel_pagetable (v : Z) (s : kstate) : kstate := ltac:(setter eta_kstate k_kernel_pagetable v s).
Definition set_bufs (v : list buf) (s : kstate) : kstate := ltac:(setter eta_kstate k_bufs v s).
Definition set_sb (v : superblock) (s : kstate) : kstate := ltac:(setter eta_kstate k_sb v s).
Definition set_log (v : log) (s : kstate) : kstate := ltac:(setter eta_kstate k_log v s).
Definition set_inodes (v : list inode) (s : kstate) : kstate := ltac:(setter eta_kstate k_inodes v s).
Definition set_files (v : list file) (s : kstate) : kstate := ltac:(setter eta_kstate k_files v s).
Definition set_devsw (v : list (option devfn)) (s : kstate) : kstate := ltac:(setter eta_kstate k_devsw v s).
Definition set_cons (v : cons) (s : kstate) : kstate := ltac:(setter eta_kstate k_cons v s).
Definition set_tx_busy (v : Z) (s : kstate) : kstate := ltac:(setter eta_kstate k_tx_busy v s).
Definition set_vdisk (v : disk) (s : kstate) : kstate := ltac:(setter eta_kstate k_vdisk v s).
Definition set_first (v : bool) (s : kstate) : kstate := ltac:(setter eta_kstate k_first v s).
Definition set_uart_rx (v : list Z) (s : kstate) : kstate := ltac:(setter eta_kstate k_uart_rx v s).
Definition set_uart_idle (v : bool) (s : kstate) : kstate := ltac:(setter eta_kstate k_uart_idle v s).
Definition set_mmio (v : gmap Z Z) (s : kstate) : kstate := ltac:(setter eta_kstate k_mmio v s).
Definition set_plic (v : list Z) (s : kstate) : kstate := ltac:(setter eta_kstate k_plic v s).
Definition set_blocks (v : Z → list Z) (s : kstate) : kstate := ltac:(setter eta_kstate k_blocks v s).

Definition set_started (v : bool) (s : kstate) : kstate := ltac:(setter eta_kstate k_started v s).

Definition eta_pipe (x : pipe) : pipe :=
  mk_pipe (pi_data x) (pi_nread x) (pi_nwrite x) (pi_readopen x) (pi_writeopen x).
Definition set_pi_data (v : list Z) (x : pipe) : pipe := ltac:(setter eta_pipe pi_data v x).
Definition set_pi_nread (v : Z) (x : pipe) : pipe := ltac:(setter eta_pipe pi_nread v x).
Definition set_pi_nwrite (v : Z) (x : pipe) : pipe := ltac:(setter eta_pipe pi_nwrite v x).
Definition set_pi_readopen (v : Z) (x : pipe) : pipe := ltac:(setter eta_pipe pi_readopen v x).
Definition set_pi_writeopen (v : Z) (x : pipe) : pipe := ltac:(setter eta_pipe pi_writeopen v x).

Definition eta_buf (x : buf) : buf :=
  mk_buf (b_valid x) (b_disk x) (b_dev x) (b_blockno x) (b_lock x) (b_refcnt x) (b_prev x) (b_next x) (b_data x).
Definition set_b_valid (v : Z) (x : buf) : buf := ltac:(setter eta_buf b_valid v x).
Definition set_b_disk (v : Z) (x : buf) : buf := ltac:(setter eta_buf b_disk v x).
Definition set_b_dev (v : Z) (x : buf) : buf := ltac:(setter eta_buf b_dev v x).
Definition set_b_blockno (v : Z) (x : buf) : buf := ltac:(setter eta_buf b_blockno v x).
Definition set_b_lock (v : sleeplock) (x : buf) : buf := ltac:(setter eta_buf b_lock v x).
Definition set_b_refcnt (v : Z) (x : buf) : buf := ltac:(setter eta_buf b_refcnt v x).
Definition set_b_prev (v : nat) (x : buf) : buf := ltac:(setter eta_buf b_prev v x).
Definition set_b_next (v : nat) (x : buf) : buf := ltac:(setter eta_buf b_next v x).
Definition set_b_data (v : list Z) (x : buf) : buf := ltac:(setter eta_buf b_data v x).

Definition eta_log (x : log) : log :=
  mk_log (lg_start x) (lg_outstanding x) (lg_committing x) (lg_dev x) (lg_n x) (lg_block x).
Definition set_lg_start (v : Z) (x : log) : log := ltac:(setter eta_log lg_start v x).
Definition set_lg_outstanding (v : Z) (x : log) : log := ltac:(setter eta_log lg_outstanding v x).
Definition set_lg_committing (v : Z) (x : log) : log := ltac:(setter eta_log lg_committing v x).
Definition set_lg_dev (v : Z) (x : log) : log := ltac:(setter eta_log lg_dev v x).
Definition set_lg_n (v : Z) (x : log) : log := ltac:(setter eta_log lg_n v x).
Definition set_lg_block (v : list Z) (x : log) : log := ltac:(setter eta_log lg_block v x).

Definition eta_inode (x : inode) : inode :=
  mk_inode (i_dev x) (i_inum x) (i_ref x) (i_lock x) (i_valid x) (i_type x) (i_major x) (i_minor x) (i_nlink x) (i_size x) (i_addrs x).
Definition set_i_dev (v : Z) (x : inode) : inode := ltac:(setter eta_inode i_dev v x).
Definition set_i_inum (v : Z) (x : inode) : inode := ltac:(setter eta_inode i_inum v x).
Definition set_i_ref (v : Z) (x : inode) : inode := ltac:(setter eta_inode i_ref v x).
Definition set_i_lock (v : sleeplock) (x : inode) : inode := ltac:(setter eta_inode i_lock v x).
Definition set_i_valid (v : Z) (x : inode) : inode := ltac:(setter eta_inode i_valid v x).
Definition set_i_type (v : Z) (x : inode) : inode := ltac:(setter eta_inode i_type v x).
Definition set_i_major (v : Z) (x : inode) : inode := ltac:(setter eta_inode i_major v x).
Definition set_i_minor (v : Z) (x : inode) : inode := ltac:(setter eta_inode i_minor v x).
Definition set_i_nlink (v : Z) (x : inode) : inode := ltac:(setter eta_inode i_nlink v x).
Definition set_i_size (v : Z) (x : inode) : inode := ltac:(setter eta_inode i_size v x).
Definition set_i_addrs (v : list Z) (x : inode) : inode := ltac:(setter eta_inode i_addrs v x).

Definition eta_file (x : file) : file :=
  mk_file (f_type x) (f_ref x) (f_readable x) (f_writable x) (f_pipe x) (f_ip x) (f_off x) (f_major x).
Definition set_f_type (v : fdtype) (x : file) : file := ltac:(setter eta_file f_type v x).
Definition set_f_ref (v : Z) (x : file) : file := ltac:(setter eta_file f_ref v x).
Definition set_f_readable (v : Z) (x : file) : file := ltac:(setter eta_file f_readable v x).
Definition set_f_writable (v : Z) (x : file) : file := ltac:(setter eta_file f_writable v x).
Definition set_f_pipe (v : Z) (x : file) : file := ltac:(setter eta_file f_pipe v x).
Definition set_f_ip (v : option nat) (x : file) : file := ltac:(setter eta_file f_ip v x).
Definition set_f_off (v : Z) (x : file) : file := ltac:(setter eta_file f_off v x).
Definition set_f_major (v : Z) (x : file) : file := ltac:(setter eta_file f_major v x).

Definition eta_cons (x : cons) : cons :=
  mk_cons (cons_buf x) (cons_r x) (cons_w x) (cons_e x).
Definition set_cons_buf (v : list Z) (x : cons) : cons := ltac:(setter eta_cons cons_buf v x).
Definition set_cons_r (v : Z) (x : cons) : cons := ltac:(setter eta_cons cons_r v x).
Definition set_cons_w (v : Z) (x : cons) : cons := ltac:(setter eta_cons cons_w v x).
Definition set_cons_e (v : Z) (x : cons) : cons := ltac:(setter eta_cons cons_e v x).

Definition eta_virtq_desc (x : virtq_desc) : virtq_desc :=
  mk_virtq_desc (vd_addr x) (vd_len x) (vd_flags x) (vd_next x).
Definition set_vd_addr (v : dma_addr) (x : virtq_desc) : virtq_desc := ltac:(setter eta_virtq_desc vd_addr v x).
Definition set_vd_len (v : Z) (x : virtq_desc) : virtq_desc := ltac:(setter eta_virtq_desc vd_len v x).
Definition set_vd_flags (v : Z) (x : virtq_desc) : virtq_desc := ltac:(setter eta_virtq_desc vd_flags v x).
Definition set_vd_next (v : Z) (x : virtq_desc) : virtq_desc := ltac:(setter eta_virtq_desc vd_next v x).

Definition eta_disk (x : disk) : disk :=
  mk_disk (d_desc x) (d_avail_idx x) (d_avail_ring x) (d_used_dev_idx x) (d_used_ring x) (d_free x) (d_used_idx x) (d_info_b x) (d_info_status x) (d_ops x).
Definition set_d_desc (v : list virtq_desc) (x : disk) : disk := ltac:(setter eta_disk d_desc v x).
Definition set_d_avail_idx (v : Z) (x : disk) : disk := ltac:(setter eta_disk d_avail_idx v x).
Definition set_d_avail_ring (v : list Z) (x : disk) : disk := ltac:(setter eta_disk d_avail_ring v x).
Definition set_d_used_dev_idx (v : Z) (x : disk) : disk := ltac:(setter eta_disk d_used_dev_idx v x).
Definition set_d_used_ring (v : list Z) (x : disk) : disk := ltac:(setter eta_disk d_used_ring v x).
Definition set_d_free (v : list Z) (x : disk) : disk := ltac:(setter eta_disk d_free v x).
Definition set_d_used_idx (v : Z) (x : disk) : disk := ltac:(setter eta_disk d_used_idx v x).
Definition set_d_info_b (v : list (option nat)) (x : disk) : disk := ltac:(setter eta_disk d_info_b v x).
Definition set_d_info_status (v : list Z) (x : disk) : disk := ltac:(setter eta_disk d_info_status v x).
Definition set_d_ops (v : list virtio_blk_req) (x : disk) : disk := ltac:(setter eta_disk d_ops v x).

Definition eta_trapframe (t : trapframe) : trapframe :=
  mk_trapframe (tf_kernel_satp t) (tf_kernel_sp t) (tf_kernel_trap t) (tf_epc t) (tf_kernel_hartid t)
    (tf_ra t) (tf_sp t) (tf_gp t) (tf_tp t) (tf_t0 t) (tf_t1 t) (tf_t2 t) (tf_s0 t) (tf_s1 t)
    (tf_a0 t) (tf_a1 t) (tf_a2 t) (tf_a3 t) (tf_a4 t) (tf_a5 t) (tf_a6 t) (tf_a7 t) (tf_s2 t)
    (tf_s3 t) (tf_s4 t) (tf_s5 t) (tf_s6 t) (tf_s7 t) (tf_s8 t) (tf_s9 t) (tf_s10 t) (tf_s11 t)
    (tf_t3 t) (tf_t4 t) (tf_t5 t) (tf_t6 t).
Definition set_tf_kernel_satp (v : Z) (t : trapframe) : trapframe := ltac:(setter eta_trapframe tf_kernel_satp v t).
Definition set_tf_kernel_sp (v : Z) (t : trapframe) : trapframe := ltac:(setter eta_trapframe tf_kernel_sp v t).
Definition set_tf_kernel_trap (v : Z) (t : trapframe) : trapframe := ltac:(setter eta_trapframe tf_kernel_trap v t).
Definition set_tf_epc (v : Z) (t : trapframe) : trapframe := ltac:(setter eta_trapframe tf_epc v t).
Definition set_tf_kernel_hartid (v : Z) (t : trapframe) : trapframe := ltac:(setter eta_trapframe tf_kernel_hartid v t).
Definition set_tf_sp (v : Z) (t : trapframe) : trapframe := ltac:(setter eta_trapframe tf_sp v t).
Definition set_tf_a0 (v : Z) (t : trapframe) : trapframe := ltac:(setter eta_trapframe tf_a0 v t).
Definition set_tf_a1 (v : Z) (t : trapframe) : trapframe := ltac:(setter eta_trapframe tf_a1 v t).
Definition set_tf_a2 (v : Z) (t : trapframe) : trapframe := ltac:(setter eta_trapframe tf_a2 v t).
Definition set_tf_a7 (v : Z) (t : trapframe) : trapframe := ltac:(setter eta_trapframe tf_a7 v t).

(** ** Kernel code and its primitive accesses *)

Abbreviation K := (M kstate).

(** Static tables start out as zeroed memory. *)
Definition zero_cpu : cpu := mk_cpu None 0 false 0 0 0 0 0 0 0.
Definition zero_proc : proc :=
  mk_proc 0 0 0 0 0 0 0 0 0 0 0 UNUSED None 0 0 0 None 0 0 0 0 (mk_context 0 0 (replicate 12 0))
    (replicate (Z.to_nat NOFILE) None) None (replicate 16 0).
Definition zero_sleeplock : sleeplock := mk_sleeplock 0 0.
Definition zero_buf : buf := mk_buf 0 0 0 0 zero_sleeplock 0 0 0 (replicate (Z.to_nat BSIZE) 0).
Definition zero_inode : inode :=
  mk_inode 0 0 0 zero_sleeplock 0 0 0 0 0 0 (replicate (Z.to_nat (NDIRECT + 1)) 0).
Definition zero_file : file := mk_file FD_NONE 0 0 0 0 None 0 0.
Definition zero_desc : virtq_desc := mk_virtq_desc DMA_null 0 0 0.
Definition zero_req : virtio_blk_req := mk_virtio_blk_req 0 0 0.
Definition zero_pipe : pipe := mk_pipe (replicate (Z.to_nat PIPESIZE) 0) 0 0 0 0.
Definition zero_trapframe : trapframe :=
  mk_trapframe 0 0 0 0 0 0 0 0 0 0 0 0 0 0 0 0 0 0 0 0 0 0 0 0 0 0 0 0 0 0 0 0 0 0 0 0.
Global Instance buf_inhabited : Inhabited buf := populate zero_buf.
Global Instance inode_inhabited : Inhabited inode := populate zero_inode.
Global Instance file_inhabited : Inhabited file := populate zero_file.
Global Instance desc_inhabited : Inhabited virtq_desc := populate zero_desc.
Global Instance req_inhabited : Inhabited virtio_blk_req := populate zero_req.
Global Instance pipe_inhabited : Inhabited pipe := populate zero_pipe.
Global Instance trapframe_inhabited : Inhabited trapframe := populate zero_trapframe.
Global Instance cpu_inhabited : Inhabited cpu := populate zero_cpu.
Global Instance proc_inhabited : Inhabited proc := populate zero_proc.

Definition cur_cpu (s : kstate) : cpu := k_cpus s !!! k_hart s.
Definition set_cur_cpu (c : cpu) (s : kstate) : kstate := set_cpus (<[k_hart s := c]> (k_cpus s)) s.
Definition alter_proc (i : nat) (f : proc → proc) (s : kstate) : kstate :=
  set_proc (alter f i (k_proc s)) s.

Definition get_proc (i : nat) : K proc := gets (λ s, k_proc s !!! i).
#[global] Hint Transparent get_proc : kernel.
Definition upd_proc (i : nat) (f : proc → proc) : K () := modify (alter_proc i f).
Definition upd_cpu (f : cpu → cpu) : K () := modify (λ s, set_cur_cpu (f (cur_cpu s)) s).

(** Indices of the process table, in the order every scan visits them. *)
Definition all_procs : list nat := seq 0 (Z.to_nat NPROC).

(** The kernel's static data on hart 0 before main(): zeroed tables, no lock
    held, [nextpid] at its initial value. *)
Definition boot_state : kstate :=
  mk_kstate 0 (replicate (Z.to_nat NCPU) zero_cpu) ∅ 0 [] (replicate (Z.to_nat NPROC) zero_proc)
    None 1 0 (λ _, 0) 0 ∅ ∅ 0 (replicate (Z.to_nat (NBUF + 1)) zero_buf)
    (mk_superblock 0 0 0 0 0 0 0 0) (mk_log 0 0 0 0 0 (replicate (Z.to_nat LOGBLOCKS) 0))
    (replicate (Z.to_nat NINODE) zero_inode) (replicate (Z.to_nat NFILE) zero_file)
    (replicate (Z.to_nat NDEV) None) (mk_cons (replicate (Z.to_nat INPUT_BUF_SIZE) 0) 0 0 0) 0
    (mk_disk (replicate 8 zero_desc) 0 (replicate 8 0) 0 (replicate 8 0) (replicate 8 0) 0
       (replicate 8 None) (replicate 8 0) (replicate 8 zero_req))
    true [] true ∅ [] (λ _, replicate (Z.to_nat BSIZE) 0) false.

(** ** Lemmas on the process table *)

Lemma run_get_proc i s : get_proc i s = Ok (k_proc s !!! i) s.
Proof. reflexivity. Qed.

Lemma run_upd_proc i f s : upd_proc i f s = Ok tt (alter_proc i f s).
Proof. reflexivity. Qed.

Lemma run_upd_cpu f s : upd_cpu f s = Ok tt (set_cur_cpu (f (cur_cpu s)) s).
Proof. reflexivity. Qed.

(** [krun], with the accesses to the process table and to the CPU. *)
Ltac kgo :=
  repeat (first [rewrite run_bind | rewrite run_ret | rewrite run_gets | rewrite run_modify
                | rewrite run_get_proc | rewrite run_upd_proc | rewrite run_upd_cpu];
          cbn [obind]).

Lemma lookup_alter_proc i f s :
  (i < length (k_proc s))%nat → k_proc (alter_proc i f s) !!! i = f (k_proc s !!! i).
Proof.
  intros Hi. unfold alter_proc. cbn. apply list_lookup_total_correct.
  rewrite list_lookup_alter_eq, list_lookup_lookup_total_lt by done. done.
Qed.

Lemma lookup_alter_proc_ne i j f s : i ≠ j → k_proc (alter_proc i f s) !!! j = k_proc s !!! j.
Proof.
  intros Hij. unfold alter_proc. cbn. rewrite !list_lookup_total_alt.
  by rewrite list_lookup_alter_ne.
Qed.

Lemma length_alter_proc i f s : length (k_proc (alter_proc i f s)) = length (k_proc s).
Proof. apply length_alter. Qed.

(** An update of slot [i] depends only on what the function does to that slot. *)
Lemma alter_proc_ext i f g s : f (k_proc s !!! i) = g (k_proc s !!! i) → alter_proc i f s = alter_proc i g s.
Proof.
  intros H. unfold alter_proc. f_equal. apply list_eq. intros j.
  destruct (decide (i = j)) as [<-|Hij]; [|by rewrite !list_lookup_alter_ne].
  rewrite !list_lookup_alter_eq. destruct (k_proc s !! i) as [p|] eqn:E; [|done].
  cbn. rewrite (list_lookup_total_correct _ _ _ E) in H. by rewrite H.
Qed.

Lemma alter_proc_id i f s : f (k_proc s !!! i) = k_proc s !!! i → alter_proc i f s = s.
Proof.
  intros H. rewrite (alter_proc_ext i f id) by done. unfold alter_proc.
  rewrite list_alter_id; done.
Qed.

Lemma alter_alter_proc i f g s : alter_proc i f (alter_proc i g s) = alter_proc i (λ p, f (g p)) s.
Proof. unfold alter_proc. cbn. by rewrite list_alter_alter_eq. Qed.

Lemma alter_set_cur_cpu i f c s : alter_proc i f (set_cur_cpu c s) = set_cur_cpu c (alter_proc i f s).
Proof. reflexivity. Qed.

(** A scan of the process table whose body rewrites the slot it visits, and
    appends to the console output, maps over the table. *)
Lemma for_procs_map (P : kstate → Prop) (f : nat → proc → proc) (g : nat → proc → list Z)
    (body : nat → K ()) (s : kstate) :
  P s → length (k_proc s) = Z.to_nat NPROC →
  (∀ i t, (i < Z.to_nat NPROC)%nat → P t → length (k_proc t) = Z.to_nat NPROC →
     let t' := set_out (k_out t ++ g i (k_proc t !!! i)) (alter_proc i (f i) t) in
     body i t = Ok tt t' ∧ P t') →
  let s' := set_out (k_out s ++ concat (imap g (k_proc s))) (set_proc (imap f (k_proc s)) s) in
  for_ all_procs body s = Ok tt s' ∧ P s'.
Proof.
  intros HP Hlen Hbody.
  (* the state after the first n slots *)
  set (st := λ n, set_out (k_out s ++ concat (take n (imap g (k_proc s))))
                   (set_proc (take n (imap f (k_proc s)) ++ drop n (k_proc s)) s)).
  assert (Hst : ∀ n, (n ≤ Z.to_nat NPROC)%nat →
            for_ (seq 0 n) body s = Ok tt (st n) ∧ P (st n)).
  { induction n as [|n IH]; intros Hn.
    - cbn. unfold st. cbn. rewrite app_nil_r, drop_0. done.
    - destruct IH as [IH1 IH2]; [lia|].
      rewrite seq_S, (for_app _ _ _ _ _ IH1). change (0 + n)%nat with n. cbn [for_]. rewrite run_bind.
      assert (Hp : k_proc (st n) !!! n = k_proc s !!! n).
      { unfold st. cbn. apply list_lookup_total_correct.
        rewrite lookup_app_r by (rewrite length_take, length_imap; lia).
        rewrite length_take, length_imap, lookup_drop, Nat.min_l, Nat.sub_diag, Nat.add_0_r by lia.
        apply list_lookup_lookup_total_lt. lia. }
      assert (Hl : length (k_proc (st n)) = Z.to_nat NPROC).
      { unfold st. cbn. rewrite length_app, length_take, length_imap, length_drop. lia. }
      destruct (Hbody n (st n)) as [Hb1 Hb2]; [lia|done|done|].
      rewrite Hp in Hb1, Hb2.
      assert (Heq : set_out (k_out (st n) ++ g n (k_proc s !!! n)) (alter_proc n (f n) (st n)) = st (S n)).
      { assert (Hs : k_proc s !! n = Some (k_proc s !!! n)) by (apply list_lookup_lookup_total_lt; lia).
        assert (E1 : concat (take (S n) (imap g (k_proc s))) =
                     concat (take n (imap g (k_proc s))) ++ g n (k_proc s !!! n)).
        { rewrite (take_S_r _ n (g n (k_proc s !!! n))) by (by rewrite list_lookup_imap, Hs).
          rewrite concat_app. cbn. by rewrite app_nil_r. }
        assert (E2 : alter (f n) n (take n (imap f (k_proc s)) ++ drop n (k_proc s)) =
                     take (S n) (imap f (k_proc s)) ++ drop (S n) (k_proc s)).
        { rewrite (take_S_r _ n (f n (k_proc s !!! n))) by (by rewrite list_lookup_imap, Hs).
          rewrite (drop_S _ _ _ Hs).
          rewrite alter_app_r_alt by (rewrite length_take, length_imap; lia).
          rewrite length_take, length_imap, Nat.min_l, Nat.sub_diag by lia. cbn.
          by rewrite <-app_assoc. }
        unfold st, alter_proc. cbn [k_proc set_proc set_out k_out]. rewrite E1, E2, app_assoc. reflexivity. }
      cbn zeta in Hb1, Hb2. rewrite Heq in Hb1, Hb2. rewrite Hb1. done. }
  destruct (Hst (Z.to_nat NPROC)) as [H1 H2]; [lia|].
  assert (Hfin : st (Z.to_nat NPROC) = set_out (k_out s ++ concat (imap g (k_proc s))) (set_proc (imap f (k_proc s)) s)).
  { unfold st. rewrite !take_ge by (rewrite length_imap; lia).
    rewrite drop_ge, app_nil_r by lia. done. }
  rewrite Hfin in H1, H2. done.
Qed.
