(* ===== verification/Spinlock.v ===== *)
(** Spinlocks and interrupt masking: kernel/spinlock.c, and the interrupt bit of
    sstatus from kernel/riscv.h. *)

From Stdlib Require Import ZArith Lia.
From stdpp Require Import base numbers list gmap strings.
From S2P Require Import Prelude Params Machine.

(** ** kernel/riscv.h: the interrupt-enable bit *)

Definition SSTATUS_SIE : Z := Z.shiftl 1 1.

Definition intr_enabled (c : cpu) : bool := negb (Z.land (c_sstatus c) SSTATUS_SIE =? 0).
Definition sie_on (c : cpu) : cpu := set_c_sstatus (Z.lor (c_sstatus c) SSTATUS_SIE) c.
Definition sie_off (c : cpu) : cpu := set_c_sstatus (Z.land (c_sstatus c) (Z.lnot SSTATUS_SIE)) c.

Definition intr_get : K bool := gets (λ s, intr_enabled (cur_cpu s)).
Definition intr_on : K () := upd_cpu sie_on.
Definition intr_off : K () := upd_cpu sie_off.
#[global] Hint Transparent intr_get intr_on intr_off : kernel.

(** ** kernel/spinlock.c *)

(** A lock that is not locked has no entry in [k_locks]. *)
Definition initlock (lk : lockid) : K () := modify (λ s, set_locks (delete lk (k_locks s)) s).

Definition push_off : K () :=
  old ← intr_get;
  intr_off;;
  c ← gets cur_cpu;
  when (c_noff c =? 0) (upd_cpu (set_c_intena old));;
  upd_cpu (λ c, set_c_noff (i32 (c_noff c + 1)) c).

Definition pop_off : K () :=
  i ← intr_get;
  if i : bool then panic "pop_off - interruptible" else
  c ← gets cur_cpu;
  if c_noff c <? 1 then panic "pop_off" else
  upd_cpu (λ c, set_c_noff (i32 (c_noff c - 1)) c);;
  c ← gets cur_cpu;
  when ((c_noff c =? 0) && c_intena c) intr_on.

Definition holding (lk : lockid) : K bool :=
  gets (λ s, bool_decide (k_locks s !! lk = Some (k_hart s))).

Definition acquire (lk : lockid) : K () :=
  push_off;;
  h ← holding lk;
  if h : bool then panic "acquire" else
  l ← gets (λ s, k_locks s !! lk);
  match l with
  | Some _ => spin
  | None => modify (λ s, set_locks (<[lk := k_hart s]> (k_locks s)) s)
  end.

Definition release (lk : lockid) : K () :=
  h ← holding lk;
  if negb h then panic "release" else
  modify (λ s, set_locks (delete lk (k_locks s)) s);;
  pop_off.

(** kernel/proc.c: the process that runs on this CPU. *)
Definition myproc : K (option nat) :=
  push_off;;
  c ← gets cur_cpu;
  pop_off;;
  mret (c_proc c).

(** ** Invariant of a CPU

    The CPU exists, the nesting depth is a small natural number, interrupts are
    off while it is positive, and at depth zero [intena] is what the next
    [push_off] would record. *)
Definition cpu_wf (c : cpu) : Prop :=
  0 ≤ c_noff c < 2 ^ 31 - 1 ∧ 0 ≤ c_sstatus c ∧
  (c_noff c = 0 → c_intena c = intr_enabled c) ∧
  (0 < c_noff c → intr_enabled c = false).

Definition cpu_ok (s : kstate) : Prop := (k_hart s < length (k_cpus s))%nat ∧ cpu_wf (cur_cpu s).

(** One more level of [push_off]. *)
Definition nested (c : cpu) : cpu := sie_off (set_c_noff (c_noff c + 1) c).

(** The state inside the critical section that [acquire lk] opens. *)
Definition locked (lk : lockid) (s : kstate) : kstate :=
  set_locks (<[lk := k_hart s]> (k_locks s)) (set_cur_cpu (nested (cur_cpu s)) s).

(** The state a [release] leaves: locks and CPU as they were in [s], the rest as in [t]. *)
Definition unlocked (s t : kstate) : kstate := set_locks (k_locks s) (set_cpus (k_cpus s) t).

(** Two states that agree on locks and CPUs. *)
Definition same_cpu (s t : kstate) : Prop :=
  k_hart t = k_hart s ∧ k_cpus t = k_cpus s ∧ k_locks t = k_locks s.

(** ** Lemmas *)

Lemma cur_set_cur_cpu c s : (k_hart s < length (k_cpus s))%nat → cur_cpu (set_cur_cpu c s) = c.
Proof. intros. unfold cur_cpu, set_cur_cpu. cbn. by apply list_lookup_total_insert_eq. Qed.

Lemma set_set_cur_cpu c1 c2 s : set_cur_cpu c2 (set_cur_cpu c1 s) = set_cur_cpu c2 s.
Proof. unfold set_cur_cpu. cbn. by rewrite list_insert_insert_eq. Qed.

Lemma set_cur_cpu_id s : (k_hart s < length (k_cpus s))%nat → set_cur_cpu (cur_cpu s) s = s.
Proof.
  intros H. unfold set_cur_cpu, cur_cpu.
  rewrite list_insert_id; [done|]. by apply list_lookup_lookup_total_lt.
Qed.

Lemma intr_enabled_bit c : intr_enabled c = Z.testbit (c_sstatus c) 1.
Proof.
  unfold intr_enabled, SSTATUS_SIE. rewrite Z.shiftl_1_l.
  destruct (Z.testbit (c_sstatus c) 1) eqn:E.
  - destruct (Z.eqb_spec (Z.land (c_sstatus c) (2 ^ 1)) 0) as [H|]; [|done].
    apply (f_equal (λ z, Z.testbit z 1)) in H.
    rewrite Z.land_spec, Z.pow2_bits_true, E, Z.bits_0 in H by lia. done.
  - destruct (Z.eqb_spec (Z.land (c_sstatus c) (2 ^ 1)) 0) as [|H]; [done|].
    exfalso. apply H. apply Z.bits_inj'. intros n Hn.
    rewrite Z.land_spec, Z.pow2_bits_eqb, Z.bits_0 by lia.
    destruct (Z.eqb_spec 1 n) as [<-|]; [by rewrite E|by rewrite andb_false_r].
Qed.

Lemma intr_enabled_sie_off c : intr_enabled (sie_off c) = false.
Proof.
  rewrite intr_enabled_bit. unfold sie_off, SSTATUS_SIE. cbn.
  rewrite Z.land_spec, Z.lnot_spec, Z.shiftl_1_l, Z.pow2_bits_true by lia. by rewrite andb_false_r.
Qed.

Lemma sie_on_off c : intr_enabled c = true → sie_on (sie_off c) = c.
Proof.
  rewrite intr_enabled_bit. intros E. unfold sie_on, sie_off, SSTATUS_SIE.
  rewrite Z.shiftl_1_l. destruct c as [pr no ie ss st]. cbn -[Z.pow] in *. unfold set_c_sstatus. cbn -[Z.pow].
  f_equal. apply Z.bits_inj'. intros n Hn.
  rewrite Z.lor_spec, Z.land_spec, Z.lnot_spec, Z.pow2_bits_eqb by lia.
  destruct (Z.eqb_spec 1 n) as [<-|]; cbn; [by rewrite E, orb_true_r|].
  by rewrite andb_true_r, orb_false_r.
Qed.

Lemma sie_off_id c : intr_enabled c = false → sie_off c = c.
Proof.
  rewrite intr_enabled_bit. intros E. unfold sie_off, SSTATUS_SIE.
  rewrite Z.shiftl_1_l. destruct c as [pr no ie ss st]. cbn -[Z.pow] in *. unfold set_c_sstatus. cbn -[Z.pow].
  f_equal. apply Z.bits_inj'. intros n Hn.
  rewrite Z.land_spec, Z.lnot_spec, Z.pow2_bits_eqb by lia.
  destruct (Z.eqb_spec 1 n) as [<-|]; cbn; [by rewrite E|]. by rewrite andb_true_r.
Qed.

Lemma push_off_ok s : cpu_ok s → push_off s = Ok tt (set_cur_cpu (nested (cur_cpu s)) s).
Proof.
  intros [Hh (Hn & _ & Hi & _)]. unfold push_off, intr_get, intr_off, upd_cpu, gets, modify, when.
  repeat (rewrite run_bind; cbn [obind]).
  rewrite cur_set_cur_cpu by done.
  assert (Hno : i32 (c_noff (cur_cpu s) + 1) = c_noff (cur_cpu s) + 1) by (apply i32_small; lia).
  change (c_noff (sie_off (cur_cpu s))) with (c_noff (cur_cpu s)).
  destruct (Z.eqb_spec (c_noff (cur_cpu s)) 0) as [E|E]; cbn [obind mret M_ret].
  - rewrite !set_set_cur_cpu, !cur_set_cur_cpu by (unfold set_cur_cpu; cbn; by rewrite ?length_insert).
    cbn. rewrite <-Hi, Hno by done. reflexivity.
  - rewrite !set_set_cur_cpu, !cur_set_cur_cpu by done. cbn. rewrite Hno. reflexivity.
Qed.

Lemma pop_off_ok s t :
  cpu_ok s → k_hart t = k_hart s → k_cpus t = <[k_hart s := nested (cur_cpu s)]> (k_cpus s) →
  pop_off t = Ok tt (set_cpus (k_cpus s) t).
Proof.
  intros [Hh (Hn & _ & Hi & Hd)] Ht Hc.
  assert (Hlt : (k_hart t < length (k_cpus t))%nat) by (rewrite Ht, Hc, length_insert; done).
  assert (Hcur : cur_cpu t = nested (cur_cpu s)).
  { unfold cur_cpu at 1. rewrite Ht, Hc. by apply list_lookup_total_insert_eq. }
  unfold pop_off, intr_get, upd_cpu, gets, modify, when.
  rewrite run_bind; cbn [obind]. rewrite Hcur. unfold nested at 1. rewrite intr_enabled_sie_off.
  rewrite run_bind; cbn [obind]. rewrite Hcur.
  change (c_noff (nested (cur_cpu s))) with (c_noff (cur_cpu s) + 1).
  destruct (Z.ltb_spec (c_noff (cur_cpu s) + 1) 1) as [|_]; [lia|].
  repeat (rewrite run_bind; cbn [obind]).
  rewrite cur_set_cur_cpu by done. rewrite Hcur.
  change (c_noff (nested (cur_cpu s))) with (c_noff (cur_cpu s) + 1).
  replace (c_noff (cur_cpu s) + 1 - 1) with (c_noff (cur_cpu s)) by lia.
  rewrite (i32_small (c_noff (cur_cpu s))) by lia.
  change (set_c_noff (c_noff (cur_cpu s)) (nested (cur_cpu s))) with (sie_off (cur_cpu s)).
  change (c_noff (sie_off (cur_cpu s))) with (c_noff (cur_cpu s)).
  change (c_intena (sie_off (cur_cpu s))) with (c_intena (cur_cpu s)).
  assert (Hback : ∀ c, c = cur_cpu s → set_cur_cpu c t = set_cpus (k_cpus s) t).
  { intros c ->. unfold set_cur_cpu. rewrite Ht, Hc, list_insert_insert_eq.
    by rewrite list_insert_id by (by apply list_lookup_lookup_total_lt). }
  destruct (Z.eqb_spec (c_noff (cur_cpu s)) 0) as [E|E]; cbn [andb].
  - destruct (c_intena (cur_cpu s)) eqn:Ei.
    + unfold intr_on, upd_cpu, modify. rewrite set_set_cur_cpu, cur_set_cur_cpu by done.
      f_equal. apply Hback, sie_on_off. symmetry. apply Hi, E.
    + rewrite run_ret. f_equal. apply Hback, sie_off_id. symmetry. apply Hi, E.
  - rewrite run_ret. f_equal. apply Hback, sie_off_id, Hd. lia.
Qed.

Lemma nested_wf c : cpu_wf c → c_noff c < 2 ^ 31 - 2 → cpu_wf (nested c).
Proof.
  intros (Hn & Hp & Hi & Hd) Hr. unfold cpu_wf. change (c_noff (nested c)) with (c_noff c + 1). split_and!; try lia.
  - change (0 ≤ Z.land (c_sstatus c) (Z.lnot SSTATUS_SIE)). apply Z.land_nonneg. by left.
  - intros _. apply intr_enabled_sie_off.
Qed.

Lemma cpu_ok_nested s : cpu_ok s → c_noff (cur_cpu s) < 2 ^ 31 - 2 →
  cpu_ok (set_cur_cpu (nested (cur_cpu s)) s).
Proof.
  intros [Hh Hw] Hr. split.
  - unfold set_cur_cpu. cbn. by rewrite length_insert.
  - rewrite cur_set_cur_cpu by done. by apply nested_wf.
Qed.

Lemma acquire_ok lk s : cpu_ok s → k_locks s !! lk = None → acquire lk s = Ok tt (locked lk s).
Proof.
  intros Hc Hl. unfold acquire, holding, gets, modify.
  rewrite run_bind, push_off_ok by done. cbn [obind].
  rewrite run_bind; cbn [obind]. cbn [k_locks set_cur_cpu set_cpus].
  rewrite Hl. case_bool_decide as E; [done|].
  rewrite run_bind; cbn [obind]. cbn [k_locks set_cur_cpu set_cpus]. rewrite Hl. done.
Qed.

(** Acquiring a lock this CPU already holds panics; one that another CPU holds spins. *)
Lemma acquire_held lk s : cpu_ok s → k_locks s !! lk = Some (k_hart s) → acquire lk s = Panic "acquire".
Proof.
  intros Hc Hl. unfold acquire, holding, gets.
  rewrite run_bind, push_off_ok by done. cbn [obind].
  rewrite run_bind; cbn [obind]. cbn [k_locks set_cur_cpu set_cpus k_hart].
  rewrite Hl. by case_bool_decide.
Qed.

Lemma acquire_other lk h s :
  cpu_ok s → k_locks s !! lk = Some h → h ≠ k_hart s →
  ∃ t, acquire lk s = Spin t ∧ k_locks t = k_locks s.
Proof.
  intros Hc Hl Hh. unfold acquire, holding, gets.
  rewrite run_bind, push_off_ok by done. cbn [obind].
  rewrite run_bind; cbn [obind]. cbn [k_locks set_cur_cpu set_cpus k_hart].
  rewrite Hl. case_bool_decide as E; [by simplify_eq|].
  rewrite run_bind; cbn [obind]. cbn [k_locks set_cur_cpu set_cpus]. rewrite Hl. by eexists.
Qed.

Lemma release_ok lk s t :
  cpu_ok s → k_locks s !! lk = None → same_cpu (locked lk s) t →
  release lk t = Ok tt (unlocked s t).
Proof.
  intros Hc Hl (Hh & Hcp & Hlo). cbn in Hh, Hcp, Hlo.
  unfold release, holding, gets, modify.
  rewrite run_bind; cbn [obind]. rewrite Hlo, Hh, lookup_insert_eq.
  case_bool_decide as E; [|done]. cbn [negb].
  rewrite run_bind; cbn [obind].
  rewrite Hlo, delete_insert_id by done.
  by rewrite (pop_off_ok s) by done.
Qed.

(** A release that only looks at its own CPU and lock. *)
Lemma release_pop lk c t :
  (k_hart t < length (k_cpus t))%nat → cur_cpu t = nested c → cpu_wf c → k_locks t !! lk = Some (k_hart t) →
  release lk t = Ok tt (set_locks (delete lk (k_locks t)) (set_cur_cpu c t)).
Proof.
  intros Hh Hc Hw Hl. unfold release, holding, gets, modify. rewrite run_bind; cbn [obind]. rewrite Hl.
  rewrite bool_decide_true by done. cbn [negb]. rewrite run_bind; cbn [obind].
  rewrite (pop_off_ok (set_cur_cpu c t)); [done| |done|].
  - split; [unfold set_cur_cpu; cbn; by rewrite length_insert|]. by rewrite cur_set_cur_cpu.
  - rewrite cur_set_cur_cpu by done. unfold set_cur_cpu. cbn. rewrite list_insert_insert_eq, <-Hc. unfold cur_cpu.
    rewrite list_insert_id; [done|]. by apply list_lookup_lookup_total_lt.
Qed.

Lemma myproc_ok s : cpu_ok s → myproc s = Ok (c_proc (cur_cpu s)) s.
Proof.
  intros Hc. unfold myproc, gets. rewrite run_bind, push_off_ok by done. cbn [obind].
  rewrite run_bind; cbn [obind]. rewrite run_bind, (pop_off_ok s) by done. cbn [obind].
  rewrite run_ret, cur_set_cur_cpu by apply Hc. done.
Qed.

(** [locked] nests: a second, different lock can be taken inside. *)
Lemma cpu_ok_locked lk s :
  cpu_ok s → c_noff (cur_cpu s) < 2 ^ 31 - 2 → cpu_ok (locked lk s).
Proof. exact (cpu_ok_nested s). Qed.

Lemma unlocked_locked lk s : unlocked s (locked lk s) = s.
Proof. reflexivity. Qed.

(** Releasing the outer of two locks while keeping the inner one. *)
Lemma release_swap_ok lk lk' s t :
  cpu_ok s → c_noff (cur_cpu s) < 2 ^ 31 - 2 → lk ≠ lk' →
  k_locks s !! lk = None → k_locks s !! lk' = None →
  same_cpu (locked lk' (locked lk s)) t →
  release lk t = Ok tt (unlocked (locked lk' s) t).
Proof.
  intros Hc Hr Hne Hl Hl' (Hh & Hcp & Hlo). unfold release, holding, gets, modify.
  rewrite run_bind; cbn [obind]. rewrite Hlo, Hh. cbn [k_locks locked set_locks k_hart set_cur_cpu set_cpus].
  rewrite lookup_insert_ne, lookup_insert_eq by done. case_bool_decide as E; [|done]. cbn [negb].
  rewrite run_bind; cbn [obind].
  rewrite (pop_off_ok (set_locks (k_locks (locked lk' s)) (locked lk s))).
  - f_equal. unfold unlocked. f_equal. rewrite Hlo. unfold locked. cbn.
    by rewrite delete_insert_ne, delete_insert_id by done.
  - exact (cpu_ok_locked lk s Hc Hr).
  - done.
  - cbn. rewrite Hcp. unfold locked, set_cur_cpu. cbn.
    rewrite (list_lookup_total_insert_eq _ _ _ (proj1 Hc)). done.
Qed.

(** At depth zero the old value of [intena] is dead: [push_off] overwrites it. *)
Definition settle (s : kstate) : kstate :=
  let c := cur_cpu s in
  if c_noff c =? 0 then set_cur_cpu (set_c_intena (intr_enabled c) c) s else s.

Lemma push_off_settle s : (k_hart s < length (k_cpus s))%nat → push_off (settle s) = push_off s.
Proof.
  intros Hh. unfold settle. destruct (Z.eqb_spec (c_noff (cur_cpu s)) 0) as [E|]; [|done].
  unfold push_off, intr_get, intr_off, upd_cpu, gets, modify, when.
  repeat (rewrite run_bind; cbn [obind]).
  rewrite !cur_set_cur_cpu by (try done; unfold set_cur_cpu; cbn; by rewrite length_insert).
  change (c_noff (sie_off (set_c_intena (intr_enabled (cur_cpu s)) (cur_cpu s)))) with (c_noff (cur_cpu s)).
  change (c_noff (sie_off (cur_cpu s))) with (c_noff (cur_cpu s)).
  rewrite E, Z.eqb_refl. cbn [obind].
  rewrite !cur_set_cur_cpu, !set_set_cur_cpu by (unfold set_cur_cpu; cbn; rewrite ?length_insert; done).
  done.
Qed.

(** A CPU at nesting depth at most [d] with every process lock, and the lock of
    printf, free. *)
Definition quiet (d : Z) (s : kstate) : Prop :=
  cpu_ok s ∧ c_noff (cur_cpu s) ≤ d ∧
  (∀ i, k_locks s !! L_proc i = None) ∧ k_locks s !! L_pr = None.

Lemma quiet_locked d lk s :
  quiet d s → d < 2 ^ 30 → (∀ i, lk ≠ L_proc i) → lk ≠ L_pr → quiet (d + 1) (locked lk s).
Proof.
  intros (Hc & Hd & Hp & Hpr) Hb Hne Hne'. split_and!.
  - apply cpu_ok_locked; [done|lia].
  - unfold locked. change (cur_cpu (set_locks ?l ?t)) with (cur_cpu t).
    rewrite cur_set_cur_cpu by apply Hc. cbn. lia.
  - intros i. cbn. rewrite lookup_insert_ne by done. apply Hp.
  - cbn. by rewrite lookup_insert_ne.
Qed.

Lemma quiet_same d s t : same_cpu s t → quiet d s → quiet d t.
Proof.
  intros (Hh & Hc & Hl) (H1 & H2 & H3 & H4). unfold quiet, cpu_ok, cur_cpu in *.
  rewrite Hh, Hc, Hl. done.
Qed.

Lemma acquire_settle lk s : (k_hart s < length (k_cpus s))%nat → acquire lk (settle s) = acquire lk s.
Proof. intros Hh. unfold acquire. rewrite !(run_bind _ push_off). by rewrite push_off_settle. Qed.

Lemma intr_enabled_sie_on c : intr_enabled (sie_on c) = true.
Proof.
  rewrite intr_enabled_bit. unfold sie_on, SSTATUS_SIE. cbn.
  rewrite Z.lor_spec, Z.shiftl_1_l, Z.pow2_bits_true by lia. by rewrite orb_true_r.
Qed.

(** Leaving the last critical section turns interrupts back on when they were
    on before the first one. *)
Definition unnested (c : cpu) : cpu :=
  let c := set_c_noff 0 c in if c_intena c then sie_on c else c.

Lemma release_last lk t :
  (k_hart t < length (k_cpus t))%nat → k_locks t !! lk = Some (k_hart t) →
  c_noff (cur_cpu t) = 1 → intr_enabled (cur_cpu t) = false →
  release lk t = Ok tt (set_locks (delete lk (k_locks t)) (set_cur_cpu (unnested (cur_cpu t)) t)).
Proof.
  intros Hh Hl Hn Hi. unfold release, holding, pop_off, intr_get, intr_on, upd_cpu, gets, modify.
  repeat (rewrite run_bind; cbn [obind]). rewrite Hl. case_bool_decide; [|done]. cbn [negb].
  repeat (rewrite run_bind; cbn [obind]).
  change (cur_cpu (set_locks ?l ?t)) with (cur_cpu t). rewrite Hi.
  repeat (rewrite run_bind; cbn [obind]).
  change (cur_cpu (set_locks ?l ?t)) with (cur_cpu t). rewrite Hn. cbn [Z.ltb Z.compare Pos.compare Pos.compare_cont].
  repeat (rewrite run_bind; cbn [obind]).
  rewrite !cur_set_cur_cpu by done. change (cur_cpu (set_locks ?l ?t)) with (cur_cpu t). rewrite Hn.
  change (i32 (1 - 1)) with 0. unfold unnested. cbn [c_noff set_c_noff Z.eqb andb c_intena].
  destruct (c_intena (cur_cpu t)); cbn [when]; [|done].
  rewrite !cur_set_cur_cpu, set_set_cur_cpu by done. done.
Qed.

(** ** Invariants that the locking layer cannot break *)

(** A predicate that looks neither at the CPUs, nor at the locks, nor at the
    console output. *)
Class LockInsensitive (I : kstate → Prop) : Prop := {
  li_cpus v s : I s → I (set_cpus v s);
  li_locks v s : I s → I (set_locks v s);
  li_out v s : I s → I (set_out v s);
}.

Section insensitive.
Context (I : kstate → Prop) {HI : LockInsensitive I}.

Lemma preserves_upd_cpu f : preserves I (upd_cpu f).
Proof using HI. apply preserves_modify. intros s Hs. by apply li_cpus. Qed.

Lemma preserves_set_locks f : preserves I (modify (λ s, set_locks (f s) s)).
Proof using HI. apply preserves_modify. intros s Hs. by apply li_locks. Qed.

Hint Resolve preserves_upd_cpu preserves_set_locks : kernel.

Lemma preserves_push_off : preserves I push_off.
Proof using HI. unfold push_off, intr_get, intr_off. preserve. Qed.

Lemma preserves_pop_off : preserves I pop_off.
Proof using HI. unfold pop_off, intr_get, intr_on. preserve. Qed.

Hint Resolve preserves_push_off preserves_pop_off : kernel.

Lemma preserves_holding lk : preserves I (holding lk).
Proof using HI. unfold holding. preserve. Qed.

Hint Resolve preserves_holding : kernel.

Lemma preserves_acquire lk : preserves I (acquire lk).
Proof using HI. unfold acquire. preserve. Qed.

Lemma preserves_release lk : preserves I (release lk).
Proof using HI. unfold release. preserve. Qed.

Lemma preserves_myproc : preserves I myproc.
Proof using HI. unfold myproc. preserve. Qed.
End insensitive.

Global Hint Resolve preserves_upd_cpu preserves_set_locks preserves_push_off preserves_pop_off
  preserves_holding preserves_acquire preserves_release preserves_myproc : kernel.

(** ** Claims *)

(** C18: What acquire() and release() do, on every branch. A free lock
    is taken, with interrupts off and the nesting depth up by one; a lock that
    this CPU holds makes acquire() panic; a lock that another CPU holds makes it
    spin without taking or dropping any lock, so no two CPUs hold a lock at
    once. Code between the two that gives back the locks and CPU state as it
    found them can release the lock, which restores the locks, the depth and the
    interrupt state from before the acquire(). Releasing a lock that another
    CPU holds panics. *)
Theorem spinlock_correct lk s :
  cpu_ok s →
  match k_locks s !! lk with
  | None =>
      acquire lk s = Ok tt (locked lk s) ∧ intr_enabled (cur_cpu (locked lk s)) = false ∧
      ∀ t, same_cpu (locked lk s) t → release lk t = Ok tt (unlocked s t)
  | Some h =>
      if bool_decide (h = k_hart s) then acquire lk s = Panic "acquire"
      else (∃ t, acquire lk s = Spin t ∧ k_locks t = k_locks s) ∧ release lk s = Panic "release"
  end.
Proof.
  intros Hc. destruct (k_locks s !! lk) as [h|] eqn:Hl.
  - case_bool_decide as Hh; [subst; by apply acquire_held|]. split.
    + by eapply acquire_other.
    + unfold release, holding. krun. rewrite Hl. by rewrite bool_decide_false by congruence.
  - split_and!; [by apply acquire_ok| |intros t; by apply release_ok].
    unfold locked. change (cur_cpu (set_locks ?l ?x)) with (cur_cpu x).
    rewrite cur_set_cur_cpu by apply Hc. apply intr_enabled_sie_off.
Qed.

(** Hart 0 takes the lock of slot 3 of the process table, which is free. *)
Lemma spinlock_correct_witness :
  acquire (L_proc 3) boot_state = Ok tt (locked (L_proc 3) boot_state) ∧
  intr_enabled (cur_cpu (locked (L_proc 3) boot_state)) = false ∧
  ∀ t, same_cpu (locked (L_proc 3) boot_state) t → release (L_proc 3) t = Ok tt (unlocked boot_state t).
Proof.
  apply (spinlock_correct (L_proc 3) boot_state). split; [by apply Nat.ltb_lt; vm_compute|].
  split_and!; by vm_compute.
Defined.
