(* ===== verification/CString.v ===== *)
(** Memory and string routines: kernel/string.c.

    Memory is a function from addresses to bytes.  The routines that only read
    take their pointers as views: [p i] is the byte [p[i]].  The two string
    copies write through a view of the destination object, which in C is
    distinct from the source. *)

From Stdlib Require Import ZArith Lia ZifyBool.
From stdpp Require Import base numbers list strings.
From S2P Require Import Prelude.

Definition upd (m : Z → Z) (a v : Z) : Z → Z := λ x, if x =? a then v else m x.

(** for(i = 0; i < n; i++) cdst[i] = c; *)
Fixpoint memset_go (n : nat) (m : Z → Z) (d c : Z) : Z → Z :=
  match n with
  | O => m
  | S n => memset_go n (upd m d (u8 c)) (d + 1) c
  end.
Definition memset (m : Z → Z) (dst c n : Z) : Z → Z := memset_go (Z.to_nat n) m dst c.

Fixpoint memcmp_go (n : nat) (s1 s2 : Z → Z) (i : Z) : Z :=
  match n with
  | O => 0
  | S n => if negb (s1 i =? s2 i) then s1 i - s2 i else memcmp_go n s1 s2 (i + 1)
  end.
Definition memcmp (s1 s2 : Z → Z) (n : Z) : Z := memcmp_go (Z.to_nat n) s1 s2 0.

(** while(n-- > 0) *--d = *--s; *)
Fixpoint move_backward (n : nat) (m : Z → Z) (d s : Z) : Z → Z :=
  match n with
  | O => m
  | S n => move_backward n (upd m (d - 1) (m (s - 1))) (d - 1) (s - 1)
  end.

(** while(n-- > 0) *d++ = *s++; *)
Fixpoint move_forward (n : nat) (m : Z → Z) (d s : Z) : Z → Z :=
  match n with
  | O => m
  | S n => move_forward n (upd m d (m s)) (d + 1) (s + 1)
  end.

Definition memmove (m : Z → Z) (dst src n : Z) : Z → Z :=
  if n =? 0 then m
  else if (src <? dst) && (dst <? src + n)
  then move_backward (Z.to_nat n) m (dst + n) (src + n)
  else move_forward (Z.to_nat n) m dst src.

Definition memcpy (m : Z → Z) (dst src n : Z) : Z → Z := memmove m dst src n.

Fixpoint strncmp_go (n : nat) (p q : Z → Z) (i : Z) : Z :=
  match n with
  | O => 0
  | S n =>
      if negb (p i =? 0) && (p i =? q i) then strncmp_go n p q (i + 1)
      else u8 (p i) - u8 (q i)
  end.
Definition strncmp (p q : Z → Z) (n : Z) : Z := strncmp_go (Z.to_nat n) p q 0.

(** while(n-- > 0) *s++ = 0; *)
Fixpoint strncpy_pad (n : nat) (s : Z → Z) (i : Z) : Z → Z :=
  match n with
  | O => s
  | S n => strncpy_pad n (upd s i 0) (i + 1)
  end.

(** while(n-- > 0 && ( *s++ = *t++ ) != 0) ; *)
Fixpoint strncpy_go (n : nat) (s t : Z → Z) (i : Z) : Z → Z :=
  match n with
  | O => s
  | S n =>
      let s := upd s i (t i) in
      if t i =? 0 then strncpy_pad n s (i + 1) else strncpy_go n s t (i + 1)
  end.
Definition strncpy (s t : Z → Z) (n : Z) : Z → Z := strncpy_go (Z.to_nat n) s t 0.

(** while(--n > 0 && ( *s++ = *t++ ) != 0) ; *s = 0; with [n] already decremented *)
Fixpoint safestrcpy_go (n : nat) (s t : Z → Z) (i : Z) : Z → Z :=
  match n with
  | O => upd s i 0
  | S n =>
      let s := upd s i (t i) in
      if t i =? 0 then upd s (i + 1) 0 else safestrcpy_go n s t (i + 1)
  end.
Definition safestrcpy (s t : Z → Z) (n : Z) : Z → Z :=
  if n <=? 0 then s else safestrcpy_go (Z.to_nat (n - 1)) s t 0.

(** for(n = 0; s[n]; n++) ; with a bound on the number of bytes examined. *)
Fixpoint strlen_go (fuel : nat) (s : Z → Z) (n : Z) : option Z :=
  match fuel with
  | O => None
  | S fuel => if s n =? 0 then Some n else strlen_go fuel s (n + 1)
  end.
Definition strlen (fuel : nat) (s : Z → Z) : option Z := strlen_go fuel s 0.

(** A buffer as a view, with NULs after its end, and the first [n] bytes of a view
    as a buffer. *)
Definition view (l : list Z) : Z → Z := λ i, if i <? 0 then 0 else default 0 (l !! Z.to_nat i).
Definition buffer (n : nat) (v : Z → Z) : list Z := (λ i, v (Z.of_nat i)) <$> seq 0 n.

(** [s] is a C string of length [len]: no NUL before [len], NUL at [len]. *)
Definition is_cstr (s : Z → Z) (len : Z) : Prop :=
  0 ≤ len ∧ s len = 0 ∧ ∀ i, 0 ≤ i < len → s i ≠ 0.

(** ** Theorems *)

Lemma upd_eq m a v : upd m a v a = v.
Proof. unfold upd. by rewrite Z.eqb_refl. Qed.

Lemma upd_ne m a v x : x ≠ a → upd m a v x = m x.
Proof. unfold upd. by intros ->%Z.eqb_neq. Qed.

Lemma memset_lookup m dst c n a :
  0 ≤ n → memset m dst c n a = if (dst <=? a) && (a <? dst + n) then u8 c else m a.
Proof.
  intros Hn. unfold memset.
  assert (Hgo : ∀ k m d, memset_go k m d c a = if (d <=? a) && (a <? d + Z.of_nat k) then u8 c else m a).
  { clear. induction k as [|k IH]; intros m d; cbn [memset_go].
    - destruct (Z.leb_spec d a), (Z.ltb_spec a (d + Z.of_nat 0)); cbn; try done. lia.
    - rewrite IH. unfold upd.
      destruct (Z.leb_spec (d + 1) a), (Z.ltb_spec a (d + 1 + Z.of_nat k)),
        (Z.leb_spec d a), (Z.ltb_spec a (d + Z.of_nat (S k))), (Z.eqb_spec a d);
        cbn; try done; lia. }
  rewrite Hgo. by replace (dst + Z.of_nat (Z.to_nat n)) with (dst + n) by lia.
Qed.

Lemma move_backward_lookup k m d s a :
  s ≤ d →
  move_backward k m d s a =
    if (d - Z.of_nat k <=? a) && (a <? d) then m (s - d + a) else m a.
Proof.
  revert m d s. induction k as [|k IH]; intros m d s Hsd; cbn [move_backward].
  - destruct (Z.leb_spec (d - Z.of_nat 0) a), (Z.ltb_spec a d); cbn; try done. lia.
  - rewrite IH by lia. unfold upd.
    destruct (Z.leb_spec (d - 1 - Z.of_nat k) a), (Z.ltb_spec a (d - 1)),
      (Z.leb_spec (d - Z.of_nat (S k)) a), (Z.ltb_spec a d),
      (Z.eqb_spec a (d - 1)), (Z.eqb_spec (s - 1 - (d - 1) + a) (d - 1)); cbn; try lia; subst;
      try (f_equal; lia); try done.
Qed.

Lemma move_forward_lookup k m d s a :
  d ≤ s ∨ s + Z.of_nat k ≤ d →
  move_forward k m d s a =
    if (d <=? a) && (a <? d + Z.of_nat k) then m (s - d + a) else m a.
Proof.
  revert m d s. induction k as [|k IH]; intros m d s Hsd; cbn [move_forward].
  - destruct (Z.leb_spec d a), (Z.ltb_spec a (d + Z.of_nat 0)); cbn; try done. lia.
  - rewrite IH by lia. unfold upd.
    destruct (Z.leb_spec (d + 1) a), (Z.ltb_spec a (d + 1 + Z.of_nat k)),
      (Z.leb_spec d a), (Z.ltb_spec a (d + Z.of_nat (S k))),
      (Z.eqb_spec a d), (Z.eqb_spec (s + 1 - (d + 1) + a) d); cbn; try lia; subst;
      try (f_equal; lia); try done.
Qed.

Lemma memmove_lookup m dst src n a :
  0 ≤ n →
  memmove m dst src n a = if (dst <=? a) && (a <? dst + n) then m (src + (a - dst)) else m a.
Proof.
  intros Hn. unfold memmove. destruct (Z.eqb_spec n 0) as [->|].
  - destruct (Z.leb_spec dst a), (Z.ltb_spec a (dst + 0)); cbn; try done. lia.
  - replace (src + (a - dst)) with (src - dst + a) by lia.
    destruct (Z.ltb_spec src dst), (Z.ltb_spec dst (src + n)); cbn [andb].
    + rewrite move_backward_lookup by lia.
      replace (dst + n - Z.of_nat (Z.to_nat n)) with dst by lia.
      by replace (src + n - (dst + n) + a) with (src - dst + a) by lia.
    + rewrite move_forward_lookup by lia. by replace (Z.of_nat (Z.to_nat n)) with n by lia.
    + rewrite move_forward_lookup by lia. by replace (Z.of_nat (Z.to_nat n)) with n by lia.
    + rewrite move_forward_lookup by lia. by replace (Z.of_nat (Z.to_nat n)) with n by lia.
Qed.

Lemma strncpy_pad_lookup k s i a :
  strncpy_pad k s i a = if (i <=? a) && (a <? i + Z.of_nat k) then 0 else s a.
Proof.
  revert s i. induction k as [|k IH]; intros s i; cbn [strncpy_pad].
  - destruct (Z.leb_spec i a), (Z.ltb_spec a (i + Z.of_nat 0)); cbn; try done. lia.
  - rewrite IH. unfold upd.
    destruct (Z.leb_spec (i + 1) a), (Z.ltb_spec a (i + 1 + Z.of_nat k)),
      (Z.leb_spec i a), (Z.ltb_spec a (i + Z.of_nat (S k))), (Z.eqb_spec a i);
      cbn; try done; lia.
Qed.

Lemma strncpy_go_lookup k s t i len a :
  is_cstr t len → i ≤ len → 0 ≤ i →
  strncpy_go k s t i a =
    if (i <=? a) && (a <? i + Z.of_nat k) then (if a <? len then t a else 0) else s a.
Proof.
  intros (Hl & Hz & Hnz). revert s i. induction k as [|k IH]; intros s i Hi Hi0; cbn [strncpy_go].
  - destruct (Z.leb_spec i a), (Z.ltb_spec a (i + Z.of_nat 0)); cbn; try done. lia.
  - destruct (Z.eqb_spec (t i) 0) as [E|E].
    + assert (i = len) as -> by (destruct (decide (i = len)); [done|]; exfalso; apply (Hnz i); [lia|done]).
      rewrite strncpy_pad_lookup. unfold upd.
      destruct (Z.leb_spec (len + 1) a), (Z.ltb_spec a (len + 1 + Z.of_nat k)), (Z.leb_spec len a),
        (Z.ltb_spec a (len + Z.of_nat (S k))), (Z.eqb_spec a len), (Z.ltb_spec a len);
        cbn; subst; try done; lia.
    + assert (i ≠ len) by (intros ->; done).
      rewrite IH by lia. unfold upd.
      destruct (Z.leb_spec (i + 1) a), (Z.ltb_spec a (i + 1 + Z.of_nat k)), (Z.leb_spec i a),
        (Z.ltb_spec a (i + Z.of_nat (S k))), (Z.eqb_spec a i), (Z.ltb_spec a len);
        cbn; subst; try done; lia.
Qed.

(** strncpy copies the string and fills the rest of the [n] bytes with NULs. *)
Lemma strncpy_lookup s t n len a :
  0 ≤ n → is_cstr t len →
  strncpy s t n a = if (0 <=? a) && (a <? n) then (if a <? len then t a else 0) else s a.
Proof.
  intros Hn Ht. unfold strncpy. rewrite (strncpy_go_lookup _ _ _ _ len); [|done|apply Ht|lia].
  by replace (0 + Z.of_nat (Z.to_nat n)) with n by lia.
Qed.

Lemma safestrcpy_go_spec k s t i len :
  is_cstr t len → 0 ≤ i ≤ len → 
  let r := safestrcpy_go k s t i in
  r (Z.min len (i + Z.of_nat k)) = 0 ∧
  (∀ a, i ≤ a < Z.min len (i + Z.of_nat k) → r a = t a) ∧
  (∀ a, a < i ∨ i + Z.of_nat k < a → r a = s a).
Proof.
  intros (Hl & Hz & Hnz). revert s i. induction k as [|k IH]; intros s i Hi; cbn [safestrcpy_go].
  - replace (Z.min len (i + Z.of_nat 0)) with i by lia. split_and!.
    + apply upd_eq.
    + intros a Ha. lia.
    + intros a Ha. apply upd_ne. lia.
  - destruct (Z.eqb_spec (t i) 0) as [E|E].
    + assert (i = len) as -> by (destruct (decide (i = len)); [done|]; exfalso; apply (Hnz i); [lia|done]).
      replace (Z.min len (len + Z.of_nat (S k))) with len by lia. split_and!.
      * rewrite upd_ne, upd_eq by lia. done.
      * intros a Ha. lia.
      * intros a Ha. rewrite !upd_ne by lia. done.
    + assert (i ≠ len) by (intros ->; done).
      destruct (IH (upd s i (t i)) (i + 1)) as (H1 & H2 & H3); [lia|].
      replace (i + 1 + Z.of_nat k) with (i + Z.of_nat (S k)) in * by lia. split_and!.
      * exact H1.
      * intros a Ha. destruct (decide (a = i)) as [->|].
        -- rewrite H3, upd_eq by lia. done.
        -- apply H2. lia.
      * intros a Ha. rewrite H3, upd_ne by lia. done.
Qed.

Lemma strncmp_go_zero k p q i :
  (∀ j, 0 ≤ p j < 256 ∧ 0 ≤ q j < 256) →
  strncmp_go k p q i = 0 ↔
  ∀ j, i ≤ j < i + Z.of_nat k → (∀ l, i ≤ l < j → p l ≠ 0) → p j = q j.
Proof.
  intros Hb. revert i. induction k as [|k IH]; intros i; cbn [strncmp_go].
  - split; [|done]. intros _ j Hj. lia.
  - destruct (Z.eqb_spec (p i) 0) as [E|E]; destruct (Z.eqb_spec (p i) (q i)) as [E2|E2]; cbn [negb andb].
    + rewrite <-E2, Z.sub_diag. split; [|done]. intros _ j Hj Hnz.
      destruct (decide (j = i)) as [->|]; [done|]. exfalso. apply (Hnz i); [lia|done].
    + unfold u8, uwrap. pose proof (Hb i). rewrite !Z.mod_small by (change (2 ^ 8) with 256; lia).
      split; [lia|]. intros H'. exfalso. apply E2, H'; [lia|]. intros; lia.
    + rewrite IH. split; intros H' j Hj Hnz.
      * destruct (decide (j = i)) as [->|]; [done|]. apply H'; [lia|]. intros l Hl. apply Hnz. lia.
      * apply H'; [lia|]. intros l Hl. destruct (decide (l = i)) as [->|]; [done|]. apply Hnz. lia.
    + unfold u8, uwrap. pose proof (Hb i). rewrite !Z.mod_small by (change (2 ^ 8) with 256; lia).
      split; [lia|]. intros H'. exfalso. apply E2, H'; [lia|]. intros; lia.
Qed.

Lemma strncmp_zero p q n :
  0 ≤ n → (∀ j, 0 ≤ p j < 256 ∧ 0 ≤ q j < 256) →
  strncmp p q n = 0 ↔ ∀ j, 0 ≤ j < n → (∀ l, 0 ≤ l < j → p l ≠ 0) → p j = q j.
Proof.
  intros Hn Hb. unfold strncmp. rewrite strncmp_go_zero by done.
  by replace (0 + Z.of_nat (Z.to_nat n)) with n by lia.
Qed.

(** strlen returns the length when it examines enough bytes. *)
Lemma strlen_cstr s len fuel :
  is_cstr s len → len < Z.of_nat fuel → strlen fuel s = Some len.
Proof.
  intros (Hl & Hz & Hnz) Hf. unfold strlen.
  assert (Hgo : ∀ k n, 0 ≤ n ≤ len → len - n < Z.of_nat k → strlen_go k s n = Some len).
  { induction k as [|k IH]; intros n Hn Hk; [lia|]. cbn [strlen_go].
    destruct (Z.eqb_spec (s n) 0) as [E|E].
    - f_equal. destruct (decide (n = len)); [done|]. exfalso. apply (Hnz n); [lia|done].
    - assert (n ≠ len) by (intros ->; done). apply IH; lia. }
  apply Hgo; lia.
Qed.

Lemma lookup_view l i : 0 ≤ i → view l i = default 0 (l !! Z.to_nat i).
Proof. intros. unfold view. by destruct (Z.ltb_spec i 0); [lia|]. Qed.

Lemma buffer_length n v : length (buffer n v) = n.
Proof. unfold buffer. by rewrite length_fmap, length_seq. Qed.

Lemma lookup_buffer n v i : (i < n)%nat → buffer n v !! i = Some (v (Z.of_nat i)).
Proof.
  intros. unfold buffer. rewrite list_lookup_fmap, lookup_seq_lt by done. done.
Qed.

(** ** Claims *)

(** C19: memmove() copies correctly whether or not the two regions
    overlap: after it, byte [i] of the destination is what byte [i] of the
    source was before, and no byte outside the destination changes. *)
Theorem memmove_correct m dst src n :
  0 ≤ n →
  (∀ i, 0 ≤ i < n → memmove m dst src n (dst + i) = m (src + i)) ∧
  (∀ a, a < dst ∨ dst + n ≤ a → memmove m dst src n a = m a).
Proof.
  intros Hn. split; intros a Ha; rewrite memmove_lookup by done.
  - replace (_ && _) with true by lia. f_equal. lia.
  - by replace (_ && _) with false by lia.
Qed.

(** Five bytes moved up by two onto themselves. *)
Lemma memmove_correct_witness :
  (∀ i, 0 ≤ i < 5 → memmove (λ a, a * a) 102 100 5 (102 + i) = (100 + i) * (100 + i)) ∧
  (∀ a, a < 102 ∨ 102 + 5 ≤ a → memmove (λ a, a * a) 102 100 5 a = a * a).
Proof. apply (memmove_correct (λ a, a * a) 102 100 5). lia. Defined.

(** C20: safestrcpy() always leaves a NUL-terminated string: the longest
    prefix of the source that fits into [n] bytes with its NUL. It writes nothing
    outside the [n] bytes. *)
Theorem safestrcpy_correct s t n len :
  0 < n → is_cstr t len →
  is_cstr (safestrcpy s t n) (Z.min len (n - 1)) ∧
  (∀ a, 0 ≤ a < Z.min len (n - 1) → safestrcpy s t n a = t a) ∧
  (∀ a, a < 0 ∨ n ≤ a → safestrcpy s t n a = s a).
Proof.
  intros Hn Ht. unfold safestrcpy. destruct (Z.leb_spec n 0); [lia|].
  destruct (safestrcpy_go_spec (Z.to_nat (n - 1)) s t 0 len Ht) as (H1 & H2 & H3).
  { split; [lia|apply Ht]. }
  replace (0 + Z.of_nat (Z.to_nat (n - 1))) with (n - 1) in * by lia.
  destruct Ht as (Hl & Hz & Hnz). split_and!; [|exact H2|].
  - split_and!; [lia|exact H1|]. intros i Hi. rewrite H2 by lia. apply Hnz. lia.
  - intros a Ha. apply H3. lia.
Qed.

(** "abcdef" into a buffer of four bytes. *)
Lemma safestrcpy_correct_witness :
  is_cstr (safestrcpy (λ _, 7) (view (str "abcdef")) 4) 3 ∧
  (∀ a, 0 ≤ a < 3 → safestrcpy (λ _, 7) (view (str "abcdef")) 4 a = view (str "abcdef") a) ∧
  (∀ a, a < 0 ∨ 4 ≤ a → safestrcpy (λ _, 7) (view (str "abcdef")) 4 a = 7).
Proof.
  apply (safestrcpy_correct (λ _, 7) (view (str "abcdef")) 4 6); [lia|].
  split_and!; [lia|done|]. intros i Hi.
  assert (i = 0 ∨ i = 1 ∨ i = 2 ∨ i = 3 ∨ i = 4 ∨ i = 5) as E by lia.
  destruct E as [->|[->|[->|[->|[->| ->]]]]]; by vm_compute.
Defined.
