(* ===== verification/Printf.v ===== *)
(** Formatted output: kernel/printf.c and user/printf.c.

    A format string is its bytes without the terminating NUL; [va_arg] takes
    64-bit words, or strings, from a list.  A call that runs out of arguments or
    finds one of the wrong kind is undefined in C and has no result here. *)

From Stdlib Require Import ZArith Lia Ascii.
From stdpp Require Import base numbers list strings.
From S2P Require Import Prelude.

(** An argument of a variadic call: a 64-bit word, or a char* (None is 0). *)
Inductive varg :=
  | AWord (w : Z)
  | AStr (s : option (list Z)).

(** do { buf[i++] = digits[x % base]; } while((x /= base) != 0); 64 rounds are
    enough for a 64-bit value in any base from 2 on. *)
Fixpoint int_digits (fuel : nat) (digits : list Z) (base x : Z) : list Z :=
  match fuel with
  | O => []
  | S fuel =>
      digits !!! Z.to_nat (x mod base) ::
        (if x / base =? 0 then [] else int_digits fuel digits base (x / base))
  end.

(** The contents of buf[] when the output loop of printint starts. *)
Definition int_buf (digits : list Z) (xx base : Z) (sign : bool) : list Z :=
  let neg := sign && (xx <? 0) in
  let x := u64 (if neg then - xx else xx) in
  int_digits 64 digits base x ++ (if neg then [chr "-"] else []).

(** for (i = 0; i < 16; i++, x <<= 4) put(digits[x >> 60]); *)
Fixpoint ptr_digits (n : nat) (digits : list Z) (x : Z) : list Z :=
  match n with
  | O => []
  | S n => digits !!! Z.to_nat (Z.shiftr x 60) :: ptr_digits n digits (u64 (Z.shiftl x 4))
  end.

(** l without its first byte, as i += 1 moves over a byte of the format. *)
Abbreviation skip l := (match l with [] => l | _ :: t => t end).

Module Kernel.

Definition digits : list Z := str "0123456789abcdef".

Definition BACKSPACE : Z := 0x100.

(** kernel/console.c; uartputc_sync stores the low byte in THR. *)
Definition consputc (c : Z) : list Z :=
  if c =? BACKSPACE then [8; 32; 8] else [u8 c].

Definition printint (xx base : Z) (sign : bool) : list Z :=
  rev (int_buf digits xx base sign) ≫= consputc.

Definition printptr (x : Z) : list Z :=
  consputc (chr "0") ++ consputc (chr "x") ++ (ptr_digits 16 digits x ≫= consputc).

(** One conversion: the bytes it puts, the arguments left, how many further
    bytes of the format it consumes. *)
Definition conv (c0 c1 c2 : Z) (ap : list varg) : option (list Z * list varg * nat) :=
  let word k := match ap with AWord w :: ap => k w ap | _ => None end in
  if c0 =? chr "d" then word (λ w ap, Some (printint (i32 w) 10 true, ap, 0%nat))
  else if (c0 =? chr "l") && (c1 =? chr "d") then
    word (λ w ap, Some (printint (i64 w) 10 true, ap, 1%nat))
  else if (c0 =? chr "l") && (c1 =? chr "l") && (c2 =? chr "d") then
    word (λ w ap, Some (printint (i64 w) 10 true, ap, 2%nat))
  else if c0 =? chr "u" then word (λ w ap, Some (printint (u32 w) 10 false, ap, 0%nat))
  else if (c0 =? chr "l") && (c1 =? chr "u") then
    word (λ w ap, Some (printint (i64 w) 10 false, ap, 1%nat))
  else if (c0 =? chr "l") && (c1 =? chr "l") && (c2 =? chr "u") then
    word (λ w ap, Some (printint (i64 w) 10 false, ap, 2%nat))
  else if c0 =? chr "x" then word (λ w ap, Some (printint (u32 w) 16 false, ap, 0%nat))
  else if (c0 =? chr "l") && (c1 =? chr "x") then
    word (λ w ap, Some (printint (i64 w) 16 false, ap, 1%nat))
  else if (c0 =? chr "l") && (c1 =? chr "l") && (c2 =? chr "x") then
    word (λ w ap, Some (printint (i64 w) 16 false, ap, 2%nat))
  else if c0 =? chr "p" then word (λ w ap, Some (printptr (u64 w), ap, 0%nat))
  else if c0 =? chr "c" then word (λ w ap, Some (consputc (u32 w), ap, 0%nat))
  else if c0 =? chr "s" then
    match ap with
    | AStr s :: ap => Some (default (str "(null)") s ≫= consputc, ap, 0%nat)
    | _ => None
    end
  else if c0 =? chr "%" then Some (consputc (chr "%"), ap, 0%nat)
  else Some (consputc (chr "%") ++ consputc c0, ap, 0%nat).

(** The loop of printf() over the format. *)
Fixpoint format (fmt : list Z) (ap : list varg) : option (list Z) :=
  match fmt with
  | [] => Some []
  | cx :: fmt =>
      if negb (cx =? chr "%") then app (consputc cx) <$> format fmt ap
      else
        match fmt with
        | [] => Some []
        | c0 :: rest =>
            let c1 := hd 0 rest in
            let c2 := hd 0 (skip rest) in
            r ← conv c0 c1 c2 ap;
            let '(out, ap, n) := r in
            match n with
            | 0%nat => app out <$> format rest ap
            | 1%nat => app out <$> format (skip rest) ap
            | _ => app out <$> format (skip (skip rest)) ap
            end
        end
  end.

End Kernel.

Module User.

Definition digits : list Z := str "0123456789ABCDEF".

Definition putc (c : Z) : list Z := [u8 c].

Definition printint (xx base : Z) (sgn : bool) : list Z :=
  rev (int_buf digits xx base sgn) ≫= putc.

Definition printptr (x : Z) : list Z :=
  putc (chr "0") ++ putc (chr "x") ++ (ptr_digits 16 digits x ≫= putc).

Definition conv (c0 c1 c2 : Z) (ap : list varg) : option (list Z * list varg * nat) :=
  let word k := match ap with AWord w :: ap => k w ap | _ => None end in
  if c0 =? chr "d" then word (λ w ap, Some (printint (i32 w) 10 true, ap, 0%nat))
  else if (c0 =? chr "l") && (c1 =? chr "d") then
    word (λ w ap, Some (printint (i64 w) 10 true, ap, 1%nat))
  else if (c0 =? chr "l") && (c1 =? chr "l") && (c2 =? chr "d") then
    word (λ w ap, Some (printint (i64 w) 10 true, ap, 2%nat))
  else if c0 =? chr "u" then word (λ w ap, Some (printint (u32 w) 10 false, ap, 0%nat))
  else if (c0 =? chr "l") && (c1 =? chr "u") then
    word (λ w ap, Some (printint (i64 w) 10 false, ap, 1%nat))
  else if (c0 =? chr "l") && (c1 =? chr "l") && (c2 =? chr "u") then
    word (λ w ap, Some (printint (i64 w) 10 false, ap, 2%nat))
  else if c0 =? chr "x" then word (λ w ap, Some (printint (u32 w) 16 false, ap, 0%nat))
  else if (c0 =? chr "l") && (c1 =? chr "x") then
    word (λ w ap, Some (printint (i64 w) 16 false, ap, 1%nat))
  else if (c0 =? chr "l") && (c1 =? chr "l") && (c2 =? chr "x") then
    word (λ w ap, Some (printint (i64 w) 16 false, ap, 2%nat))
  else if c0 =? chr "p" then word (λ w ap, Some (printptr (u64 w), ap, 0%nat))
  else if c0 =? chr "c" then word (λ w ap, Some (putc (u32 w), ap, 0%nat))
  else if c0 =? chr "s" then
    match ap with
    | AStr s :: ap => Some (default (str "(null)") s ≫= putc, ap, 0%nat)
    | _ => None
    end
  else if c0 =? chr "%" then Some (putc (chr "%"), ap, 0%nat)
  else Some (putc (chr "%") ++ putc c0, ap, 0%nat).

(** vprintf(): [pct] says that the state variable is '%'. *)
Fixpoint vprintf (pct : bool) (fmt : list Z) (ap : list varg) : option (list Z) :=
  match fmt with
  | [] => Some []
  | c0 :: rest =>
      if negb pct then
        if c0 =? chr "%" then vprintf true rest ap
        else app (putc c0) <$> vprintf false rest ap
      else
        let c1 := hd 0 rest in
        let c2 := hd 0 (skip rest) in
        r ← conv c0 c1 c2 ap;
        let '(out, ap, n) := r in
        match n with
        | 0%nat => app out <$> vprintf false rest ap
        | 1%nat => app out <$> vprintf false (skip rest) ap
        | _ => app out <$> vprintf false (skip (skip rest)) ap
        end
  end.

End User.

(** ** Reading numbers back *)

Definition is_byte (b : Z) : Prop := 0 ≤ b < 256.

Definition read_digit (base c : Z) : option Z :=
  if (chr "0" <=? c) && (c <=? chr "9") then Some (c - chr "0")
  else if (chr "a" <=? c) && (c <=? chr "f") && (base =? 16) then Some (c - chr "a" + 10)
  else None.

Definition read_nat (base : Z) (l : list Z) : option Z :=
  ds ← mapM (read_digit base) l;
  if decide (ds = []) then None else Some (foldl (λ a d, a * base + d) 0 ds).

Definition read_int (base : Z) (l : list Z) : option Z :=
  match l with
  | c :: l' => if c =? chr "-" then Z.opp <$> read_nat base l' else read_nat base l
  | [] => None
  end.

(** The digits of [x] as numbers, least significant first. *)
Fixpoint digs (fuel : nat) (base x : Z) : list Z :=
  match fuel with
  | O => []
  | S fuel => x mod base :: (if x / base =? 0 then [] else digs fuel base (x / base))
  end.

Lemma int_digits_digs fuel tbl base x :
  int_digits fuel tbl base x = (λ d, tbl !!! Z.to_nat d) <$> digs fuel base x.
Proof.
  revert x. induction fuel as [|fuel IH]; intros x; cbn; [done|].
  destruct (Z.eqb_spec (x / base) 0); cbn; [done|]. by rewrite IH.
Qed.

Lemma digs_range fuel base x : 0 < base → Forall (λ d, 0 ≤ d < base) (digs fuel base x).
Proof.
  intros Hb. revert x. induction fuel as [|fuel IH]; intros x; cbn; constructor.
  - by apply Z.mod_pos_bound.
  - destruct (Z.eqb_spec (x / base) 0); [constructor|apply IH].
Qed.

Lemma digs_value fuel base x :
  2 ≤ base → 0 ≤ x < 2 ^ Z.of_nat fuel →
  foldr (λ d a, a * base + d) 0 (digs fuel base x) = x.
Proof.
  intros Hb. revert x. induction fuel as [|fuel IH]; intros x Hx; cbn.
  - change (2 ^ Z.of_nat 0) with 1 in Hx. lia.
  - pose proof (Z.div_mod x base ltac:(lia)) as Hdm.
    destruct (Z.eqb_spec (x / base) 0) as [E|E]; cbn; [lia|].
    rewrite IH; [lia|]. split; [apply Z.div_pos; lia|].
    apply Z.div_lt_upper_bound; [lia|].
    rewrite Nat2Z.inj_succ, Z.pow_succ_r in Hx by lia. nia.
Qed.

Lemma digs_length fuel base x n :
  2 ≤ base → 0 ≤ x < base ^ Z.of_nat (S n) → (length (digs fuel base x) ≤ S n)%nat.
Proof.
  intros Hb. revert x n. induction fuel as [|fuel IH]; intros x n Hx; cbn; [lia|].
  destruct (Z.eqb_spec (x / base) 0) as [E|E]; cbn; [lia|].
  destruct n as [|n].
  - change (Z.of_nat 1) with 1 in Hx. rewrite Z.pow_1_r in Hx.
    rewrite Z.div_small in E by lia. done.
  - apply le_n_S, IH. split; [apply Z.div_pos; lia|].
    apply Z.div_lt_upper_bound; [lia|].
    rewrite (Nat2Z.inj_succ (S n)), Z.pow_succ_r in Hx by lia. lia.
Qed.

Lemma digs_nonempty fuel base x : digs (S fuel) base x ≠ [].
Proof. done. Qed.

(** Every digit character denotes its digit. *)
Lemma read_kernel_digit base d :
  base = 10 ∨ base = 16 → 0 ≤ d < base →
  read_digit base (Kernel.digits !!! Z.to_nat d) = Some d ∧
  Kernel.digits !!! Z.to_nat d ≠ chr "-" ∧ is_byte (Kernel.digits !!! Z.to_nat d).
Proof.
  intros Hb Hd.
  assert (d ∈ seqZ 0 16) as Hin by (apply elem_of_seqZ; lia).
  assert (Hall : Forall (λ d, d < base → read_digit base (Kernel.digits !!! Z.to_nat d) = Some d ∧
     Kernel.digits !!! Z.to_nat d ≠ chr "-" ∧ is_byte (Kernel.digits !!! Z.to_nat d)) (seqZ 0 16)).
  { destruct Hb as [-> | ->]; repeat constructor; intros; try done; try lia. }
  rewrite Forall_forall in Hall. apply Hall; [done|lia].
Qed.

Lemma bind_consputc l : Forall is_byte l → (l ≫= Kernel.consputc) = l.
Proof.
  induction 1 as [|c l Hc _ IH]; [done|]. cbn. rewrite IH. unfold Kernel.consputc, is_byte in *.
  destruct (Z.eqb_spec c Kernel.BACKSPACE) as [->|]; [unfold Kernel.BACKSPACE in Hc; lia|].
  cbn. f_equal. unfold u8, uwrap. apply Z.mod_small. lia.
Qed.

Section printint.
Variables (base x : Z).
Hypothesis Hbase : base = 10 ∨ base = 16.
Hypothesis Hx : 0 ≤ x < 2 ^ 64.

Let ds := digs 64 base x.
Let cs := int_digits 64 Kernel.digits base x.

Lemma kernel_digits_ok : Forall2 (λ c d, read_digit base c = Some d ∧ c ≠ chr "-" ∧ is_byte c) cs ds.
Proof.
  unfold cs, ds. rewrite int_digits_digs. apply Forall2_fmap_l, Forall_Forall2_diag.
  eapply Forall_impl; [apply digs_range; lia|]. intros d Hd. by apply read_kernel_digit.
Qed.

Lemma kernel_digits_bytes : Forall is_byte cs.
Proof. eapply Forall2_Forall_l; [apply kernel_digits_ok|]. apply Forall_true. by intros ? ? (_ & _ & ?). Qed.

Lemma kernel_digits_nodash c : c ∈ cs → c ≠ chr "-".
Proof.
  intros Hc. assert (H : Forall (λ c, c ≠ chr "-") cs).
  { eapply Forall2_Forall_l; [apply kernel_digits_ok|]. apply Forall_true. by intros ? ? (_ & ? & _). }
  rewrite Forall_forall in H. by apply H.
Qed.

Lemma read_nat_digits : read_nat base (rev cs) = Some x.
Proof.
  unfold read_nat.
  assert (Hm : mapM (read_digit base) (rev cs) = Some (rev ds)).
  { apply mapM_Some. rewrite !rev_alt. apply Forall2_reverse.
    eapply Forall2_impl; [apply kernel_digits_ok|]. by intros ? ? [? _]. }
  rewrite Hm. cbn [mbind option_bind]. destruct (decide (rev ds = [])) as [E|E].
  - apply (f_equal (@rev Z)) in E. rewrite rev_involutive in E. done.
  - f_equal. rewrite foldl_rev. apply digs_value; [lia|]. by change (Z.of_nat 64) with 64.
Qed.

Lemma rev_digits_head : ∃ c l, rev cs = c :: l ∧ c ≠ chr "-".
Proof.
  destruct (rev cs) as [|c l] eqn:E.
  - apply (f_equal (@rev Z)) in E. rewrite rev_involutive in E. done.
  - exists c, l. split; [done|]. apply kernel_digits_nodash. apply list_elem_of_In, in_rev. rewrite E. by left.
Qed.

Lemma digits_length_10 : base = 10 → (length cs ≤ 20)%nat.
Proof.
  intros ->. unfold cs. rewrite int_digits_digs, length_fmap. apply digs_length; [lia|].
  change (10 ^ Z.of_nat 20) with 100000000000000000000. lia.
Qed.

Lemma digits_length_16 : base = 16 → (length cs ≤ 16)%nat.
Proof.
  intros ->. unfold cs. rewrite int_digits_digs, length_fmap. apply digs_length; [lia|].
  change (16 ^ Z.of_nat 16) with (2 ^ 64). lia.
Qed.
End printint.

Lemma printint_rev xx base sign :
  base = 10 ∨ base = 16 →
  Kernel.printint xx base sign = rev (int_buf Kernel.digits xx base sign).
Proof.
  intros Hb. unfold Kernel.printint. apply bind_consputc.
  rewrite rev_alt. apply Forall_reverse. unfold int_buf. apply Forall_app. split.
  - apply kernel_digits_bytes; done.
  - destruct (sign && (xx <? 0)); repeat constructor; done.
Qed.

(** C11: The bytes that the kernel's printint() sends to the console for any 64-bit
    value, in base 10 or 16, signed or not, read back as that value, and the
    digits and the sign fit the 20-byte buffer, INT64_MIN included. *)
Theorem printint_correct base xx sign :
  base = 10 ∨ base = 16 → - 2 ^ 63 ≤ xx < 2 ^ 63 →
  read_int base (Kernel.printint xx base sign) = Some (if sign then xx else u64 xx) ∧
  (length (int_buf Kernel.digits xx base sign) ≤ 20)%nat.
Proof.
  intros Hb Hxx. rewrite printint_rev by done. unfold int_buf.
  set (neg := sign && (xx <? 0)). set (x := u64 (if neg then - xx else xx)).
  assert (Hx : 0 ≤ x < 2 ^ 64) by (apply (uwrap_bound 64); lia).
  assert (Hval : (if neg then - x else x) = if sign then xx else u64 xx).
  { unfold x, neg. destruct sign; cbn [andb]; [|done].
    destruct (Z.ltb_spec xx 0); rewrite u64_small; lia. }
  split.
  - rewrite rev_app_distr. destruct neg; cbn [rev app].
    + unfold read_int. rewrite Z.eqb_refl, read_nat_digits by done. cbn. by f_equal.
    + destruct (rev_digits_head base x Hb) as (c & l & Hl & Hc).
      rewrite Hl. unfold read_int. destruct (Z.eqb_spec c (chr "-")); [done|].
      rewrite <-Hl, read_nat_digits by done. by f_equal.
  - rewrite length_app.
    assert (Hd : base = 16 ∨ x < 10 ^ 19 ∨ neg = false).
    { destruct Hb as [->| ->]; [|by left]. right. destruct neg eqn:En; [|by right]. left.
      unfold neg in En. apply andb_true_iff in En as [_ En%Z.ltb_lt].
      unfold x. rewrite u64_small by lia. change (10 ^ 19) with 10000000000000000000. lia. }
    destruct Hd as [->|[Hd| ->]].
    + pose proof (digits_length_16 16 x Hb Hx eq_refl). destruct neg; cbn [length]; lia.
    + rewrite int_digits_digs, length_fmap.
      pose proof (digs_length 64 base x 18 ltac:(lia)) as Hl.
      ospecialize (Hl _).
      { split; [lia|]. eapply Z.lt_le_trans; [exact Hd|]. apply Z.pow_le_mono_l. lia. }
      destruct neg; cbn [length]; lia.
    + cbn [length]. rewrite Nat.add_0_r. destruct Hb as [->| ->].
      * apply digits_length_10; [by left|done|done].
      * pose proof (digits_length_16 16 x (or_intror eq_refl) Hx eq_refl). lia.
Qed.

Lemma printint_correct_witness :
  read_int 10 (Kernel.printint (- 2 ^ 63) 10 true) = Some (- 2 ^ 63) ∧
  (length (int_buf Kernel.digits (- 2 ^ 63) 10 true) ≤ 20)%nat.
Proof. apply (printint_correct 10 (- 2 ^ 63) true); [by left|lia]. Defined.

(** ** The format language

    What a format asks for, as a list of pieces, apart from how they are put out. *)

Inductive piece :=
  | PByte (c : Z)                    (* a byte of the format *)
  | PInt (xx base : Z) (sign : bool) (* a number *)
  | PPtr (x : Z)                     (* a pointer: 0x and 16 digits *)
  | PChar (c : Z)                    (* an unsigned int put as a character *)
  | PText (bs : list Z).             (* the bytes of a string *)

(** The directives, after the percent sign, and what they make of their argument. *)
Definition of_word (f : Z → piece) (a : varg) : option piece :=
  match a with AWord w => Some (f w) | AStr _ => None end.
Definition of_string (a : varg) : option piece :=
  match a with AStr s => Some (PText (default (str "(null)") s)) | AWord _ => None end.

Definition directives : list (list Z * (varg → option piece)) :=
  [(str "d", of_word (λ w, PInt (i32 w) 10 true)); (str "u", of_word (λ w, PInt (u32 w) 10 false));
   (str "x", of_word (λ w, PInt (u32 w) 16 false)); (str "p", of_word (λ w, PPtr (u64 w)));
   (str "c", of_word (λ w, PChar (u32 w))); (str "s", of_string);
   (str "ld", of_word (λ w, PInt (i64 w) 10 true)); (str "lld", of_word (λ w, PInt (i64 w) 10 true));
   (str "lu", of_word (λ w, PInt (i64 w) 10 false)); (str "llu", of_word (λ w, PInt (i64 w) 10 false));
   (str "lx", of_word (λ w, PInt (i64 w) 16 false)); (str "llx", of_word (λ w, PInt (i64 w) 16 false))].

Fixpoint starts_with (d fmt : list Z) : bool :=
  match d, fmt with
  | [], _ => true
  | c :: d, x :: fmt => (x =? c) && starts_with d fmt
  | _ :: _, [] => false
  end.

(** The directive that [fmt] starts with. *)
Definition directive (fmt : list Z) : option (list Z * (varg → option piece)) :=
  List.find (λ d, starts_with d.1 fmt) directives.

(** The pieces of a format, [n] bytes of which are already used: a directive
    takes one argument, %% is a percent sign, any other byte after a percent
    sign is put out with it, and a percent sign at the end is dropped. *)
Fixpoint pieces (n : nat) (fmt : list Z) (ap : list varg) : option (list piece) :=
  match fmt, n with
  | [], _ => Some []
  | _ :: fmt, S n => pieces n fmt ap
  | cx :: fmt, O =>
      if negb (cx =? chr "%") then cons (PByte cx) <$> pieces 0 fmt ap else
      match directive fmt, fmt, ap with
      | Some (d, f), _, a :: ap => p ← f a; cons p <$> pieces (length d) fmt ap
      | Some _, _, [] => None
      | None, [], _ => Some []
      | None, c0 :: _, _ =>
          app (if c0 =? chr "%" then [PByte c0] else [PByte (chr "%"); PByte c0]) <$> pieces 1 fmt ap
      end
  end.

(** The bytes of a piece, for a table of digits and a way to put a character. *)
Definition render (digits : list Z) (put : Z → list Z) (p : piece) : list Z :=
  match p with
  | PByte c | PChar c => put c
  | PInt xx base sign => rev (int_buf digits xx base sign) ≫= put
  | PPtr x => (str "0x" ++ ptr_digits 16 digits x) ≫= put
  | PText bs => bs ≫= put
  end.

Definition rendered (digits : list Z) (put : Z → list Z) (ps : option (list piece)) : option (list Z) :=
  (λ ps, ps ≫= render digits put) <$> ps.

(** What one conversion of the code must be, given the directive there is. *)
Definition conv_spec (digits : list Z) (put : Z → list Z) (c0 : Z) (rest : list Z) (ap : list varg) :
    option (list Z * list varg * nat) :=
  match directive (c0 :: rest), ap with
  | Some (d, f), a :: ap => (λ p, (render digits put p, ap, (length d - 1)%nat)) <$> f a
  | Some _, [] => None
  | None, _ => Some (if c0 =? chr "%" then put c0 else put (chr "%") ++ put c0, ap, O)
  end.

(** The code tests the bytes one after the other, a missing one as 0; the
    directives are found by their names.  Every byte that is tested is one of
    finitely many, or none of them. *)
Ltac test_byte c ap :=
  repeat match goal with
    | |- context [c =? ?k] => destruct (Z.eqb_spec c k) as [->|?]; [try (by destruct ap as [|[?|?] ap])|]
    end.

Ltac conv_chain c0 rest ap :=
  unfold conv_spec, directive;
  unfold directives;
  repeat match goal with
    | |- context [str ?s] => let l := eval vm_compute in (str s) in progress change (str s) with l
    | |- context [chr ?c] => let l := eval vm_compute in (chr c) in progress change (chr c) with l
    end; cbn [List.find starts_with fst];
  test_byte c0 ap; [|by destruct ap];
  destruct rest as [|c1 rest]; [by destruct ap|]; cbn [hd]; test_byte c1 ap; [|by destruct ap];
  destruct rest as [|c2 rest]; [by destruct ap|]; cbn [hd]; test_byte c2 ap; by destruct ap.

Lemma kernel_conv_spec c0 rest ap :
  Kernel.conv c0 (hd 0 rest) (hd 0 (skip rest)) ap = conv_spec Kernel.digits Kernel.consputc c0 rest ap.
Proof. unfold Kernel.conv. conv_chain c0 rest ap. Qed.

Lemma user_conv_spec c0 rest ap :
  User.conv c0 (hd 0 rest) (hd 0 (skip rest)) ap = conv_spec User.digits User.putc c0 rest ap.
Proof. unfold User.conv. conv_chain c0 rest ap. Qed.

(** Skipping the rest of a directive. *)
Lemma pieces_skip rest ap n :
  (n ≤ 2)%nat → pieces n rest ap = pieces 0 (match n with O => rest | 1%nat => skip rest | _ => skip (skip rest) end) ap.
Proof. intros Hn. destruct n as [|[|[|n]]]; [done| | |lia]; destruct rest as [|? [|? ?]]; done. Qed.

Lemma rendered_app digits put ps q :
  rendered digits put (app q <$> ps) = app (q ≫= render digits put) <$> rendered digits put ps.
Proof. destruct ps as [ps|]; [|done]. cbn. f_equal. apply bind_app. Qed.

Lemma directive_length fmt d f : directive fmt = Some (d, f) → (1 ≤ length d ≤ 3)%nat.
Proof.
  intros H%find_some. destruct H as [H%list_elem_of_In _].
  assert (Hall : Forall (λ e, (1 ≤ length e.1 ≤ 3)%nat) directives) by (repeat constructor; cbn; lia).
  rewrite Forall_forall in Hall. apply (Hall _ H).
Qed.

(** A loop that does one conversion at a time puts out the pieces. *)
Lemma rendered_step digits put c0 rest ap :
  rendered digits put (pieces 0 (chr "%" :: c0 :: rest) ap) =
  r ← conv_spec digits put c0 rest ap;
  let '(out, ap, n) := r in
  app out <$> rendered digits put
    (pieces 0 (match n with O => rest | 1%nat => skip rest | _ => skip (skip rest) end) ap).
Proof.
  cbn [pieces]. rewrite Z.eqb_refl. cbn [negb]. unfold conv_spec.
  destruct (directive (c0 :: rest)) as [[d f]|] eqn:Ed.
  - destruct ap as [|a ap]; [done|]. destruct (f a) as [p|]; [|done]. cbn [mbind option_bind fmap option_fmap option_map].
    apply directive_length in Ed. destruct d as [|x d]; [cbn in Ed; lia|]. cbn [length pieces].
    replace (S (length d) - 1)%nat with (length d) by lia. rewrite <-pieces_skip by (cbn in Ed; lia).
    change (cons p) with (app [p]). rewrite rendered_app. cbn. by rewrite ?app_nil_r.
  - cbn [pieces mbind option_bind]. rewrite rendered_app. f_equal. f_equal. destruct (c0 =? chr "%"); cbn; by rewrite ?app_nil_r.
Qed.

Lemma format_pieces fmt ap n : (length fmt ≤ n)%nat →
  Kernel.format fmt ap = rendered Kernel.digits Kernel.consputc (pieces 0 fmt ap).
Proof.
  revert fmt ap. induction n as [|n IH]; intros [|cx fmt] ap Hn; cbn in Hn; try done; [lia|]. cbn [Kernel.format].
  destruct (Z.eqb_spec cx (chr "%")) as [->|Hne]; cbn [negb].
  - destruct fmt as [|c0 rest]; [done|]. rewrite rendered_step, kernel_conv_spec. cbn in Hn.
    destruct (conv_spec _ _ _ _ _) as [[[out ap'] k]|]; [|done]. cbn [mbind option_bind].
    destruct k as [|[|k]]; rewrite IH; try done; destruct rest as [|? [|? ?]]; cbn in *; lia.
  - rewrite IH by lia. cbn [pieces]. rewrite (proj2 (Z.eqb_neq _ _) Hne). cbn [negb].
    change (cons (PByte cx)) with (app [PByte cx]). rewrite rendered_app. cbn. by rewrite ?app_nil_r.
Qed.

Lemma vprintf_pieces fmt ap n : (length fmt ≤ n)%nat →
  User.vprintf false fmt ap = rendered User.digits User.putc (pieces 0 fmt ap).
Proof.
  revert fmt ap. induction n as [|n IH]; intros [|cx fmt] ap Hn; cbn in Hn; try done; [lia|]. cbn [User.vprintf negb].
  destruct (Z.eqb_spec cx (chr "%")) as [->|Hne].
  - destruct fmt as [|c0 rest]; [done|]. cbn [User.vprintf negb]. rewrite rendered_step, user_conv_spec. cbn in Hn.
    destruct (conv_spec _ _ _ _ _) as [[[out ap'] k]|]; [|done]. cbn [mbind option_bind].
    destruct k as [|[|k]]; rewrite IH; try done; destruct rest as [|? [|? ?]]; cbn in *; lia.
  - rewrite IH by lia. cbn [pieces]. rewrite (proj2 (Z.eqb_neq _ _) Hne). cbn [negb].
    change (cons (PByte cx)) with (app [PByte cx]). rewrite rendered_app. cbn. by rewrite ?app_nil_r.
Qed.

(** C12: Both printfs implement one format language.  For every format and
    argument list, the kernel's printf(), written with look-ahead, and the user
    library's vprintf(), a state machine over single bytes, put out the pieces
    that the format asks for, in order, or are both undefined because an argument
    is missing or of the wrong kind.  They render a piece with their own table of
    digits, lower case in the kernel and upper case in the library, and their
    own way to put a character: the kernel's consputc() takes the value 0x100,
    which only a %c can pass, for a backspace. *)
Theorem vprintf_agrees_with_printf fmt ap :
  Kernel.format fmt ap = rendered (str "0123456789abcdef") Kernel.consputc (pieces 0 fmt ap) ∧
  User.vprintf false fmt ap = rendered (str "0123456789ABCDEF") User.putc (pieces 0 fmt ap).
Proof. split; [by apply (format_pieces _ _ (length fmt))|by apply (vprintf_pieces _ _ (length fmt))]. Qed.
