(* ===== verification/Sched.v ===== *)
(** Scheduling, ageing, sleep and wakeup: the scheduling half of kernel/proc.c,
    and clockintr() of kernel/trap.c.

    [swtch] is the point where a thread of control stops and another one runs:
    a process stops in sched(), the CPU's scheduler thread stops in scheduler().
    What the stopped thread does next is the continuation of [Switch]. *)

From Stdlib Require Import ZArith Lia.
From stdpp Require Import base numbers list gmap strings.
From S2P Require Import Prelude Params Machine Spinlock Printf.

(** kernel/printf.c: printf(), with its lock; [panicking] is 0 in code that runs. *)
Definition printf (fmt : list Z) (ap : list varg) : K () :=
  acquire L_pr;;
  modify (λ s, set_out (k_out s ++ default [] (Kernel.format fmt ap)) s);;
  release L_pr.

(** myproc() where the code goes on to dereference the result; a null pointer
    faults in the kernel, and kerneltrap() panics. *)
Definition curproc : K nat :=
  p ← myproc;
  match p with Some i => mret i | None => panic "kerneltrap" end.

(** ** Ageing *)

(** The boost of a process that has waited too long. *)
Definition aging_boost (i : nat) (p : proc) : K () :=
  when (AGING_THRESHOLD <? p_wtime p) (
    when (MIN_PRIORITY <? p_priority p) (
      upd_proc i (λ p, set_priority (i32 (p_priority p - AGING_STEP)) p);;
      p ← get_proc i;
      when (p_priority p <? MIN_PRIORITY) (upd_proc i (set_priority MIN_PRIORITY)));;
    upd_proc i (set_wtime 0)).

(** The second [#ifdef DEBUG_AGING] block. *)
Definition aging_debug (i : nat) (old_prio old_starving : Z) : K () :=
  match DEBUG_AGING with
  | None => mret tt
  | Some _ =>
      p ← get_proc i;
      when (negb (p_priority p =? old_prio))
        (printf (str "[AGING] pid=%d priority changed %d -> %d" ++ [10])
           [AWord (p_pid p); AWord old_prio; AWord (p_priority p)]);;
      when (negb (p_starving p =? old_starving) && (p_starving p =? 1))
        (printf (str "[STARVE] pid=%d is starving (wtime=%d)" ++ [10])
           [AWord (p_pid p); AWord (p_wtime p)])
  end.

Definition aging_update (i : nat) : K () :=
  p ← get_proc i;
  if negb (bool_decide (p_state p = RUNNABLE)) then mret tt else
  let old_prio := p_priority p in
  let old_starving := p_starving p in
  aging_boost i p;;
  aging_debug i old_prio old_starving.

Definition detect_starving (i : nat) : K () :=
  p ← get_proc i;
  when (STARVING_THRESHOLD <? p_wtime p) (upd_proc i (set_starving 1)).

(** ** Sleep and wakeup *)

Definition sched : K () :=
  i ← curproc;
  h ← holding (L_proc i);
  if negb h then panic "sched p->lock" else
  c ← gets cur_cpu;
  if negb (c_noff c =? 1) then panic "sched locks" else
  p ← get_proc i;
  if bool_decide (p_state p = RUNNING) then panic "sched RUNNING" else
  e ← intr_get;
  if e : bool then panic "sched interruptible" else
  c ← gets cur_cpu;
  swtch;;
  upd_cpu (set_c_intena (c_intena c)).

Definition yield : K () :=
  i ← curproc;
  acquire (L_proc i);;
  upd_proc i (set_state RUNNABLE);;
  sched;;
  release (L_proc i).

(** Statements one after the other. *)
Fixpoint statements (l : list (K ())) : K () :=
  match l with
  | [] => mret tt
  | [m] => m
  | m :: l => m;; statements l
  end.

(** The statements of sleep(), in process [i]. *)
Definition sleep_steps (i : nat) (ch : chan) (lk : lockid) : list (K ()) :=
  [acquire (L_proc i);
   release lk;
   upd_proc i (set_chan (Some ch));
   upd_proc i (set_state SLEEPING);
   sched;
   upd_proc i (set_chan None);
   release (L_proc i);
   acquire lk].

Definition sleep (ch : chan) (lk : lockid) : K () :=
  i ← curproc;
  statements (sleep_steps i ch lk).

(** wakeup() of one slot. *)
Definition wakeup_step (ch : chan) (i : nat) : K () :=
  me ← myproc;
  if bool_decide (me = Some i) then mret tt else
  acquire (L_proc i);;
  p ← get_proc i;
  when (bool_decide (p_state p = SLEEPING) && bool_decide (p_chan p = Some ch))
    (upd_proc i (set_state RUNNABLE));;
  release (L_proc i).

Definition wakeup (ch : chan) : K () := for_ all_procs (wakeup_step ch).

Definition kkill (pid : Z) : K Z :=
  r ← for_find all_procs (λ i,
    acquire (L_proc i);;
    p ← get_proc i;
    if p_pid p =? pid then
      upd_proc i (set_killed 1);;
      when (bool_decide (p_state p = SLEEPING)) (upd_proc i (set_state RUNNABLE));;
      release (L_proc i);;
      mret (Some 0)
    else
      release (L_proc i);;
      mret None);
  mret (default (-1) r).

Definition setkilled (i : nat) : K () :=
  acquire (L_proc i);;
  upd_proc i (set_killed 1);;
  release (L_proc i).

Definition killed (i : nat) : K Z :=
  acquire (L_proc i);;
  p ← get_proc i;
  release (L_proc i);;
  mret (p_killed p).

(** ** The clock *)

Definition cpuid : K nat := gets (λ s, k_hart s).
#[global] Hint Transparent cpuid : kernel.

Definition tick_proc (i : nat) : K () :=
  acquire (L_proc i);;
  p ← get_proc i;
  match p_state p with
  | RUNNING =>
      upd_proc i (λ p, set_rtime (i32 (p_rtime p + 1)) p);;
      upd_proc i (λ p, set_pbs_rtime (u64 (p_pbs_rtime p + 1)) p)
  | RUNNABLE =>
      upd_proc i (λ p, set_wtime (i32 (p_wtime p + 1)) p);;
      when (negb (AGING_ENABLE =? 0)) (aging_update i)
  | SLEEPING =>
      upd_proc i (λ p, set_stime (i32 (p_stime p + 1)) p);;
      upd_proc i (λ p, set_pbs_stime (u64 (p_pbs_stime p + 1)) p)
  | _ => mret tt
  end;;
  detect_starving i;;
  release (L_proc i).

Definition clockintr : K () :=
  h ← cpuid;
  when (bool_decide (h = 0%nat)) (
    acquire L_ticks;;
    modify (λ s, set_ticks (u32 (k_ticks s + 1)) s);;
    wakeup Ch_ticks;;
    release L_ticks;;
    for_ all_procs tick_proc);;
  t ← gets (λ s, k_time s);
  upd_cpu (set_c_stimecmp (u64 (t + 1000000))).

(** ** The scheduler, one round of its endless loop per policy *)

Inductive policy := RR | FCFS | PBS.

Definition rr_step (i : nat) : K () :=
  acquire (L_proc i);;
  p ← get_proc i;
  when (bool_decide (p_state p = RUNNABLE)) (
    upd_proc i (set_state RUNNING);;
    upd_cpu (set_c_proc (Some i));;
    upd_proc i (λ p, set_nrun (i32 (p_nrun p + 1)) p);;
    swtch;;
    upd_cpu (set_c_proc None));;
  release (L_proc i).

Definition rr_round : K () :=
  intr_on;;
  for_ all_procs rr_step.

Definition fcfs_step (firstProcess : option nat) (i : nat) : K (option nat) :=
  acquire (L_proc i);;
  p ← get_proc i;
  f ← match firstProcess with Some f => p ← get_proc f; mret (Some p) | None => mret None end;
  if bool_decide (p_state p = RUNNABLE)
     && match f with None => true | Some f => p_ctime p <? p_ctime f end
  then
    match firstProcess with Some f => release (L_proc f) | None => mret tt end;;
    mret (Some i)
  else
    release (L_proc i);;
    mret firstProcess.

Definition fcfs_select : K (option nat) := for_fold all_procs None fcfs_step.

Definition fcfs_round : K () :=
  intr_on;;
  firstProcess ← fcfs_select;
  match firstProcess with
  | None => mret tt
  | Some i =>
      upd_proc i (set_state RUNNING);;
      upd_cpu (set_c_proc (Some i));;
      upd_proc i (λ p, set_nrun (i32 (p_nrun p + 1)) p);;
      swtch;;
      upd_cpu (set_c_proc None);;
      release (L_proc i)
  end.

Definition pbs_niceness (p : proc) : Z :=
  let run := p_pbs_rtime p in
  let sleep := p_pbs_stime p in
  if u64 (run + sleep) =? 0 then 5 else i32 (u64 (sleep * 10) / u64 (run + sleep)).

Definition pbs_dp (p : proc) : Z :=
  let val := i32 (p_priority p - pbs_niceness p + 5) in
  let val := if 100 <? val then 100 else val in
  if val <? 0 then 0 else val.

Definition pbs_step (acc : option nat * Z) (i : nat) : K (option nat * Z) :=
  let '(process, dp) := acc in
  acquire (L_proc i);;
  p ← get_proc i;
  if negb (bool_decide (p_state p = RUNNABLE)) then
    release (L_proc i);;
    mret (process, dp)
  else
  let processDp := pbs_dp p in
  q ← match process with Some q => p ← get_proc q; mret (Some p) | None => mret None end;
  if match q with
     | None => true
     | Some q =>
         (processDp <? dp)
         || ((dp =? processDp) && (p_ctime p <? p_ctime q))
         || ((dp =? processDp) && (p_ctime p =? p_ctime q) && (p_nrun p <? p_nrun q))
     end
  then
    match process with Some q => release (L_proc q) | None => mret tt end;;
    mret (Some i, processDp)
  else
    release (L_proc i);;
    mret (process, dp).

Definition pbs_select : K (option nat * Z) := for_fold all_procs (None, 101) pbs_step.

Definition pbs_round : K () :=
  intr_on;;
  r ← pbs_select;
  match r.1 with
  | None => mret tt
  | Some i =>
      upd_proc i (λ p, set_nrun (i32 (p_nrun p + 1)) p);;
      upd_proc i (set_starving 0);;
      upd_proc i (set_state RUNNING);;
      upd_cpu (set_c_proc (Some i));;
      swtch;;
      upd_cpu (set_c_proc None);;
      release (L_proc i)
  end.

Definition scheduler_round (pol : policy) : K () :=
  match pol with RR => rr_round | FCFS => fcfs_round | PBS => pbs_round end.

(** scheduler(): never returns; [n] rounds of it. *)
Fixpoint scheduler_rounds (n : nat) (pol : policy) : K () :=
  match n with
  | O => no_fuel
  | S n => scheduler_round pol;; scheduler_rounds n pol
  end.
Definition scheduler (n : nat) (pol : policy) : K () :=
  upd_cpu (set_c_proc None);;
  scheduler_rounds n pol.

(** ** What each operation does to one process *)

Definition wake_fn (ch : chan) (p : proc) : proc :=
  if bool_decide (p_state p = SLEEPING) && bool_decide (p_chan p = Some ch)
  then set_state RUNNABLE p else p.

Definition aged_priority (q : Z) : Z :=
  if MIN_PRIORITY <? q then Z.max MIN_PRIORITY (i32 (q - AGING_STEP)) else q.

Definition age_fn (p : proc) : proc :=
  if bool_decide (p_state p = RUNNABLE) && (AGING_THRESHOLD <? p_wtime p)
  then set_wtime 0 (set_priority (aged_priority (p_priority p)) p) else p.

Definition age_out (p : proc) : list Z :=
  if p_priority (age_fn p) =? p_priority p then []
  else default [] (Kernel.format (str "[AGING] pid=%d priority changed %d -> %d" ++ [10])
         [AWord (p_pid p); AWord (p_priority p); AWord (p_priority (age_fn p))]).

Definition detect_fn (p : proc) : proc :=
  if STARVING_THRESHOLD <? p_wtime p then set_starving 1 p else p.

Definition account_fn (p : proc) : proc :=
  match p_state p with
  | RUNNING => set_pbs_rtime (u64 (p_pbs_rtime p + 1)) (set_rtime (i32 (p_rtime p + 1)) p)
  | RUNNABLE => set_wtime (i32 (p_wtime p + 1)) p
  | SLEEPING => set_pbs_stime (u64 (p_pbs_stime p + 1)) (set_stime (i32 (p_stime p + 1)) p)
  | _ => p
  end.

Definition tick_fn (p : proc) : proc := detect_fn (age_fn (account_fn p)).
Definition tick_out (p : proc) : list Z := age_out (account_fn p).

(** ** Lemmas *)

Lemma printf_ok fmt ap s :
  cpu_ok s → k_locks s !! L_pr = None →
  printf fmt ap s = Ok tt (set_out (k_out s ++ default [] (Kernel.format fmt ap)) s).
Proof.
  intros Hc Hl. unfold printf. rewrite run_bind, acquire_ok by done. cbn [obind].
  kgo. by rewrite (release_ok L_pr s) by done.
Qed.

Lemma curproc_ok i s : cpu_ok s → c_proc (cur_cpu s) = Some i → curproc s = Ok i s.
Proof. intros Hc Hp. unfold curproc. by rewrite run_bind, myproc_ok, Hp by done. Qed.

Lemma aging_boost_ok i s :
  (i < length (k_proc s))%nat → p_state (k_proc s !!! i) = RUNNABLE →
  aging_boost i (k_proc s !!! i) s = Ok tt (alter_proc i age_fn s).
Proof.
  intros Hi Hr. set (p := k_proc s !!! i). unfold aging_boost.
  destruct (AGING_THRESHOLD <? p_wtime p) eqn:Hw; cbn [when].
  2:{ rewrite run_ret, alter_proc_id; [done|]. fold p. unfold age_fn. by rewrite Hw, andb_false_r. }
  assert (Hend : ∀ f, f p = set_priority (aged_priority (p_priority p)) p →
    alter_proc i (set_wtime 0) (alter_proc i f s) = alter_proc i age_fn s).
  { intros f Hf. rewrite alter_alter_proc. apply alter_proc_ext. fold p. rewrite Hf.
    unfold age_fn. by rewrite Hw, bool_decide_true. }
  unfold aged_priority in Hend. destruct (MIN_PRIORITY <? p_priority p); cbn [when]; kgo.
  - rewrite lookup_alter_proc by done. fold p. change (p_priority (set_priority ?v p)) with v.
    destruct (Z.ltb_spec (i32 (p_priority p - AGING_STEP)) MIN_PRIORITY); cbn [when]; kgo.
    + rewrite (alter_alter_proc i (set_priority _)), Hend; [done|]. by rewrite Z.max_l by lia.
    + rewrite Hend; [done|]. by rewrite Z.max_r by lia.
  - rewrite <-(Hend (λ p, p)) by done. by rewrite alter_alter_proc.
Qed.

Lemma age_fn_fields p : p_starving (age_fn p) = p_starving p ∧ p_pid (age_fn p) = p_pid p.
Proof. unfold age_fn. by destruct (bool_decide _ && _). Qed.

Lemma aging_debug_ok i p s :
  cpu_ok s → k_locks s !! L_pr = None → k_proc s !!! i = age_fn p →
  aging_debug i (p_priority p) (p_starving p) s = Ok tt (set_out (k_out s ++ age_out p) s).
Proof.
  intros Hc Hl Hp. unfold aging_debug. cbn [DEBUG_AGING]. kgo. rewrite Hp.
  destruct (age_fn_fields p) as [-> ->]. rewrite Z.eqb_refl. cbn [negb andb when]. unfold age_out.
  destruct (p_priority (age_fn p) =? p_priority p); cbn [negb when]; kgo.
  - by rewrite app_nil_r.
  - rewrite printf_ok by done. cbn [obind]. by kgo.
Qed.

Lemma age_fn_not_runnable p : p_state p ≠ RUNNABLE → age_fn p = p ∧ age_out p = [].
Proof.
  intros H. assert (E : age_fn p = p) by (unfold age_fn; by rewrite bool_decide_false).
  split; [done|]. unfold age_out. by rewrite E, Z.eqb_refl.
Qed.

Lemma aging_update_ok i s :
  cpu_ok s → k_locks s !! L_pr = None → (i < length (k_proc s))%nat →
  aging_update i s =
    Ok tt (set_out (k_out s ++ age_out (k_proc s !!! i)) (alter_proc i age_fn s)).
Proof.
  intros Hc Hl Hi. unfold aging_update. kgo. case_bool_decide as Hr; cbn [negb].
  - rewrite run_bind, aging_boost_ok by done. cbn [obind].
    by rewrite aging_debug_ok by (try done; by rewrite lookup_alter_proc).
  - destruct (age_fn_not_runnable _ Hr) as [E1 E2]. by rewrite run_ret, E2, app_nil_r, alter_proc_id.
Qed.

Lemma detect_starving_ok i s : detect_starving i s = Ok tt (alter_proc i detect_fn s).
Proof.
  unfold detect_starving. kgo.
  destruct (STARVING_THRESHOLD <? p_wtime (k_proc s !!! i)) eqn:E; cbn [when]; kgo.
  - f_equal. apply alter_proc_ext. unfold detect_fn. by rewrite E.
  - f_equal. symmetry. apply alter_proc_id. unfold detect_fn. by rewrite E.
Qed.

Lemma tick_proc_ok d i s :
  quiet d s → d < 2 ^ 30 → (i < length (k_proc s))%nat →
  tick_proc i s = Ok tt (set_out (k_out s ++ tick_out (k_proc s !!! i)) (alter_proc i tick_fn s)).
Proof.
  intros (Hc & Hd & Hp & Hpr) Hb Hi. set (p := k_proc s !!! i). set (L := locked (L_proc i) s).
  assert (HcL : cpu_ok L) by (apply cpu_ok_locked; [done|lia]).
  assert (HpL : k_locks L !! L_pr = None) by (cbn; by rewrite lookup_insert_ne).
  assert (Hacc : ∀ t, t = alter_proc i account_fn L →
    detect_starving i (set_out (k_out s ++ tick_out p) (alter_proc i age_fn t)) =
    Ok tt (set_out (k_out s ++ tick_out p) (alter_proc i tick_fn L))).
  { intros t ->. rewrite detect_starving_ok, alter_alter_proc. f_equal.
    unfold alter_proc. cbn. by rewrite list_alter_alter_eq. }
  unfold tick_proc. rewrite run_bind, acquire_ok by done. cbn [obind]. kgo.
  change (k_proc (locked (L_proc i) s) !!! i) with p. fold L.
  assert (Hrel : ∀ o, o = Ok tt (set_out (k_out s ++ tick_out p) (alter_proc i age_fn (alter_proc i account_fn L))) →
    obind (λ _, detect_starving i;; release (L_proc i)) o =
    Ok tt (set_out (k_out s ++ tick_out p) (alter_proc i tick_fn s))).
  { intros o ->. cbn [obind]. rewrite run_bind, (Hacc _ eq_refl). cbn [obind].
    by rewrite (release_ok (L_proc i) s). }
  apply Hrel. unfold tick_out.
  assert (Hout : ∀ q, p_state q ≠ RUNNABLE → account_fn p = q →
    Ok tt (alter_proc i account_fn L) =
    Ok tt (set_out (k_out s ++ age_out (account_fn p)) (alter_proc i age_fn (alter_proc i account_fn L)))).
  { intros q Hq Hqp. destruct (age_fn_not_runnable q Hq) as [E1 E2].
    rewrite Hqp, E2, app_nil_r, (alter_proc_id i age_fn); [done|].
    rewrite lookup_alter_proc by done. change (k_proc L !!! i) with p. by rewrite Hqp, E1. }
  destruct (p_state p) eqn:Est.
  - kgo. rewrite <-(Hout p); unfold account_fn; rewrite ?Est; try done.
    rewrite alter_proc_id; [done|]. change (k_proc L !!! i) with p. by rewrite Est.
  - kgo. rewrite <-(Hout p); unfold account_fn; rewrite ?Est; try done.
    rewrite alter_proc_id; [done|]. change (k_proc L !!! i) with p. by rewrite Est.
  - kgo. rewrite <-(Hout (account_fn p)); [|by unfold account_fn; rewrite Est; cbn; rewrite Est|done].
    f_equal. rewrite alter_alter_proc. apply alter_proc_ext. change (k_proc L !!! i) with p.
    unfold account_fn. by rewrite Est.
  - change (negb (AGING_ENABLE =? 0)) with true. cbn [when]. kgo.
    set (t := alter_proc i (λ p0, set_wtime (i32 (p_wtime p0 + 1)) p0) L).
    assert (Et : t = alter_proc i account_fn L).
    { apply alter_proc_ext. change (k_proc L !!! i) with p. unfold account_fn. by rewrite Est. }
    rewrite aging_update_ok; [|done|done|by unfold t; rewrite length_alter_proc].
    f_equal. rewrite Et. rewrite lookup_alter_proc by done. done.
  - kgo. rewrite <-(Hout (account_fn p)); [|by unfold account_fn; rewrite Est; cbn; rewrite Est|done].
    f_equal. rewrite alter_alter_proc. apply alter_proc_ext. change (k_proc L !!! i) with p.
    unfold account_fn. by rewrite Est.
  - kgo. rewrite <-(Hout p); unfold account_fn; rewrite ?Est; try done.
    rewrite alter_proc_id; [done|]. change (k_proc L !!! i) with p. by rewrite Est.
Qed.

Lemma wakeup_step_ok ch i s :
  cpu_ok s → k_locks s !! L_proc i = None →
  wakeup_step ch i s =
    Ok tt (alter_proc i (λ p, if bool_decide (c_proc (cur_cpu s) = Some i) then p else wake_fn ch p) s).
Proof.
  intros Hc Hp. unfold wakeup_step. rewrite run_bind, myproc_ok by done. cbn [obind].
  destruct (bool_decide (c_proc (cur_cpu s) = Some i)).
  - rewrite run_ret, alter_proc_id by done. done.
  - rewrite run_bind, acquire_ok by done. cbn [obind]. kgo.
    change (k_proc (locked (L_proc i) s) !!! i) with (k_proc s !!! i).
    destruct (bool_decide _ && bool_decide _) eqn:E; cbn [when]; kgo;
      rewrite (release_ok (L_proc i) s) by done; f_equal.
    + change (alter_proc i (set_state RUNNABLE) s = alter_proc i (wake_fn ch) s).
      apply alter_proc_ext. unfold wake_fn. by rewrite E.
    + symmetry. apply (alter_proc_id i (wake_fn ch) s). unfold wake_fn. by rewrite E.
Qed.

(** wakeup() maps over the table, leaving the caller's own slot alone. *)
Lemma wakeup_ok d ch s :
  quiet d s → d < 2 ^ 30 → length (k_proc s) = Z.to_nat NPROC →
  wakeup ch s = Ok tt (set_proc (imap (λ i p, if bool_decide (c_proc (cur_cpu s) = Some i) then p
                                             else wake_fn ch p) (k_proc s)) s).
Proof.
  intros Hq Hd Hlen. set (me := c_proc (cur_cpu s)).
  destruct (for_procs_map (λ t, quiet d t ∧ c_proc (cur_cpu t) = me)
    (λ i p, if bool_decide (me = Some i) then p else wake_fn ch p) (λ _ _, [])
    (wakeup_step ch) s) as [H _]; [done|done| |].
  - intros i t Hi [Hqt Hme] Hl. cbn zeta. rewrite app_nil_r. split.
    2:{ split; [|done]. by apply (quiet_same d t). }
    destruct Hqt as (Hc & Hdt & Hp & _). by rewrite wakeup_step_ok, Hme by done.
  - unfold wakeup. rewrite H. f_equal.
    by rewrite concat_imap_nil, app_nil_r.
Qed.

(** The process table after the wakeup(&ticks) of a clock interrupt. *)
Definition woken (me : option nat) (ch : chan) (ps : list proc) : list proc :=
  imap (λ i p, if bool_decide (me = Some i) then p else wake_fn ch p) ps.

Definition tick_table (me : option nat) (ps : list proc) : list proc :=
  tick_fn <$> woken me Ch_ticks ps.

(** A clock interrupt on CPU 0 in one equation. *)
Lemma clockintr_ok d s :
  quiet d s → d < 2 ^ 29 → length (k_proc s) = Z.to_nat NPROC →
  k_locks s !! L_ticks = None → k_hart s = 0%nat →
  let me := c_proc (cur_cpu s) in
  clockintr s =
    Ok tt (set_cur_cpu (set_c_stimecmp (u64 (k_time s + 1000000)) (cur_cpu s))
            (set_out (k_out s ++ concat (tick_out <$> woken me Ch_ticks (k_proc s)))
              (set_proc (tick_table me (k_proc s))
                (set_ticks (u32 (k_ticks s + 1)) s)))).
Proof.
  intros Hq Hd Hlen Hlt Hh me. unfold clockintr, cpuid. kgo. rewrite bool_decide_true by done. cbn [when].
  rewrite run_bind, acquire_ok by (try done; apply Hq). cbn [obind]. kgo.
  set (t := set_ticks _ _).
  assert (Hqt : quiet (d + 1) t).
  { apply (quiet_same _ (locked L_ticks s)); [done|]. apply quiet_locked; try done. lia. }
  assert (Hme : c_proc (cur_cpu t) = me).
  { unfold t, locked. change (cur_cpu (set_ticks ?v (set_locks ?l ?x))) with (cur_cpu x).
    rewrite cur_set_cur_cpu by apply Hq. done. }
  rewrite (wakeup_ok (d + 1)) by (try done; lia). cbn [obind]. rewrite Hme.
  change (k_proc t) with (k_proc s). fold (woken me Ch_ticks (k_proc s)).
  rewrite run_bind, (release_ok L_ticks s) by (try done; apply Hq). cbn [obind].
  set (u := unlocked s _).
  assert (Hu : u = set_proc (woken me Ch_ticks (k_proc s)) (set_ticks (u32 (k_ticks s + 1)) s)) by done.
  assert (Hqu : quiet d u) by (by apply (quiet_same _ s)).
  assert (Hlu : length (k_proc u) = Z.to_nat NPROC).
  { rewrite Hu. cbn. unfold woken. by rewrite length_imap. }
  destruct (for_procs_map (quiet d) (λ _, tick_fn) (λ _, tick_out) tick_proc u Hqu Hlu) as [Hf _].
  { intros i v Hi Hqv Hlv. split; [|by apply (quiet_same _ v)].
    apply (tick_proc_ok d); [done|lia|by rewrite Hlv]. }
  rewrite Hf. cbn [obind]. kgo. f_equal.
  change (imap (λ _, tick_fn)) with (imap (const tick_fn)).
  change (imap (λ _, tick_out)) with (imap (const tick_out)).
  rewrite !imap_const, Hu. done.
Qed.

Lemma clockintr_other s :
  k_hart s ≠ 0%nat →
  clockintr s = Ok tt (set_cur_cpu (set_c_stimecmp (u64 (k_time s + 1000000)) (cur_cpu s)) s).
Proof. intros Hh. unfold clockintr, cpuid. kgo. rewrite bool_decide_false by done. cbn [when]. by kgo. Qed.

(** ** Invariants *)

Section invariants.
Context (I : kstate → Prop) {HI : LockInsensitive I}.

Lemma preserves_printf fmt ap : preserves I (printf fmt ap).
Proof using HI. unfold printf. preserve. apply preserves_modify. intros s Hs. by apply li_out. Qed.

Lemma preserves_curproc : preserves I curproc.
Proof using HI. unfold curproc. preserve. Qed.

Lemma preserves_get_proc i : preserves I (get_proc i).
Proof using. apply preserves_gets. Qed.

Hint Resolve preserves_curproc preserves_get_proc preserves_printf : kernel.

Lemma preserves_sched : preserves I sched.
Proof using HI. unfold sched, intr_get. preserve. Qed.
End invariants.

Global Hint Resolve preserves_printf preserves_curproc preserves_get_proc preserves_sched : kernel.

(** An invariant that does not look at the process table either. *)
Class ProcInsensitive (I : kstate → Prop) : Prop := {
  pi_lock :: LockInsensitive I;
  pi_table v s : I s → I (set_proc v s);
}.

Section proc_insensitive.
Context (I : kstate → Prop) {HI : ProcInsensitive I}.

Lemma preserves_upd_proc i f : preserves I (upd_proc i f).
Proof using HI. apply preserves_modify. intros s Hs. by apply pi_table. Qed.

Hint Resolve preserves_upd_proc : kernel.

Lemma preserves_wakeup ch : preserves I (wakeup ch).
Proof using HI. unfold wakeup, wakeup_step. preserve. Qed.

Lemma preserves_sleep ch lk : preserves I (sleep ch lk).
Proof using HI. unfold sleep, sleep_steps. cbn [statements]. preserve. Qed.

Lemma preserves_yield : preserves I yield.
Proof using HI. unfold yield. preserve. Qed.

Lemma preserves_killed i : preserves I (killed i).
Proof using HI. unfold killed. preserve. Qed.

Lemma preserves_setkilled i : preserves I (setkilled i).
Proof using HI. unfold setkilled. preserve. Qed.

Lemma preserves_kkill pid : preserves I (kkill pid).
Proof using HI. unfold kkill. preserve. Qed.
End proc_insensitive.

Global Hint Resolve preserves_upd_proc preserves_wakeup preserves_sleep preserves_yield
  preserves_killed preserves_setkilled preserves_kkill : kernel.
