(* ===== verification/Sleep.v ===== *)
(** Sleep and wakeup: that a wakeup between the test of a condition and the
    sleep on it cannot be lost, for sleep() and wakeup() of kernel/proc.c. *)

From Stdlib Require Import ZArith Lia ZifyBool.
From stdpp Require Import base numbers list gmap strings.
From S2P Require Import Prelude Params Machine Spinlock Printf Sched.

(** A process that tested a condition under [lk] and is about to sleep: it is
    process [i], [lk] is its only lock. [s] is the state before it took [lk]. *)
Record before_sleep (i : nat) (lk : lockid) (s t : kstate) : Prop := {
  bs_cpu : cpu_ok s;
  bs_depth : c_noff (cur_cpu s) = 0;
  bs_proc : c_proc (cur_cpu s) = Some i;
  bs_slot : (i < length (k_proc t))%nat;
  bs_free : k_locks s !! lk = None;
  bs_plock : k_locks s !! L_proc i = None;
  bs_ne : lk ≠ L_proc i;
  bs_held : same_cpu (locked lk s) t;
}.

(** What sleep() has written when it calls swtch. *)
Definition asleep (i : nat) (ch : chan) (s t : kstate) : kstate :=
  unlocked (locked (L_proc i) s) (alter_proc i (λ p, set_state SLEEPING (set_chan (Some ch) p)) t).

(** sched(), called with the process lock as the only lock, switches; resumed on
    any CPU, it only restores that CPU's record of the interrupt state. *)
Lemma sched_ok i t :
  cpu_ok t → c_proc (cur_cpu t) = Some i → k_locks t !! L_proc i = Some (k_hart t) →
  c_noff (cur_cpu t) = 1 → p_state (k_proc t !!! i) ≠ RUNNING →
  sched t = Switch t (λ u, Ok tt (set_cur_cpu (set_c_intena (c_intena (cur_cpu t)) (cur_cpu u)) u)).
Proof.
  intros Hc Hp Hl Hn Hst. unfold sched, holding, intr_get. rewrite run_bind, (curproc_ok i) by done.
  cbn [obind]. kgo. rewrite bool_decide_true by done. cbn [negb]. kgo. rewrite Hn, Z.eqb_refl. cbn [negb].
  kgo. rewrite bool_decide_false by done. kgo.
  destruct Hc as [_ (_ & _ & _ & Hd)]. rewrite Hd by lia. by kgo.
Qed.

Lemma sleep_switches i ch lk s t :
  before_sleep i lk s t →
  ∃ k, sleep ch lk t = Switch (asleep i ch s t) k ∧
    ∀ u, k u = obind (λ _, upd_proc i (set_chan None);; release (L_proc i);; acquire lk)
                 (Ok tt (set_cur_cpu (set_c_intena (c_intena (nested (cur_cpu s))) (cur_cpu u)) u)).
Proof.
  intros [Hc Hn Hp Hi Hlk Hpl Hne Hheld]. pose proof Hheld as (Hh & Hcp & Hlo). cbn in Hh.
  assert (Hct : cpu_ok t).
  { destruct (cpu_ok_locked lk s Hc ltac:(lia)) as [Ha Hb]. unfold cpu_ok, cur_cpu in *.
    rewrite Hh, Hcp. done. }
  assert (Hcur : cur_cpu t = nested (cur_cpu s)).
  { unfold cur_cpu at 1. rewrite Hh, Hcp. apply list_lookup_total_insert_eq, Hc. }
  unfold sleep, sleep_steps. cbn [statements]. rewrite run_bind, (curproc_ok i) by (try done; by rewrite Hcur). cbn [obind].
  rewrite run_bind, acquire_ok; [|done|by rewrite Hlo; cbn; rewrite lookup_insert_ne].
  cbn [obind]. rewrite run_bind, (release_swap_ok lk (L_proc i) s); [|done|lia|done..|].
  2:{ split_and!; unfold locked, set_cur_cpu, cur_cpu; cbn; rewrite ?Hh, ?Hcp, ?Hlo; done. }
  cbn [obind]. kgo. rewrite alter_alter_proc. change (alter_proc i _ _) with (asleep i ch s t).
  assert (Hcs : cur_cpu (asleep i ch s t) = nested (cur_cpu s)).
  { unfold asleep, unlocked, cur_cpu at 1. cbn. rewrite Hh. apply list_lookup_total_insert_eq, Hc. }
  rewrite (sched_ok i).
  - cbn [obind]. rewrite Hcs. by eexists.
  - destruct (cpu_ok_locked (L_proc i) s Hc ltac:(lia)) as [Ha Hb].
    split; [cbn; by rewrite Hh|]. rewrite Hcs. unfold locked in Hb.
    change (cur_cpu (set_locks ?l ?x)) with (cur_cpu x) in Hb. by rewrite cur_set_cur_cpu in Hb by apply Hc.
  - by rewrite Hcs.
  - cbn. rewrite Hh. apply lookup_insert_eq.
  - rewrite Hcs. cbn. lia.
  - unfold asleep. cbn. change (k_proc (alter_proc ?i ?f ?x) !!! i) with (k_proc (alter_proc i f x) !!! i).
    change (alter ?f i (k_proc t) !!! i) with (k_proc (alter_proc i f t) !!! i).
    by rewrite lookup_alter_proc.
Qed.

(** ** Two CPUs

    The sleeper runs on one CPU, the waker on another, and their statements may be
    interleaved in any way; a statement that would spin for a lock waits for its
    turn.  The test of a slot by wakeup() is one step: it runs under the lock of
    the slot. *)

Record config := Config { cf_state : kstate; cf_sleeper : list (K ()); cf_waker : list (K ()) }.

(** What the scheduler does on its CPU after process [i] has switched to it. *)
Definition scheduler_rest (i : nat) : list (K ()) := [upd_cpu (set_c_proc None); release (L_proc i)].

(** Change the condition under [lk] and wake those who wait for it. *)
Definition waker (ch : chan) (lk : lockid) (change : kstate → kstate) : list (K ()) :=
  acquire lk :: modify change :: (wakeup_step ch <$> all_procs) ++ [release lk].

(** One statement of the sleeper [i] on CPU [ha] or of the waker on CPU [hb].
    When the sleeper switches away, its CPU goes on with the scheduler. *)
Inductive step (ha hb i : nat) : config → config → Prop :=
  | step_sleeper s m A B t : m (set_hart ha s) = Ok tt t → step ha hb i (Config s (m :: A) B) (Config t A B)
  | step_switch s m A B t k :
      m (set_hart ha s) = Switch t k → step ha hb i (Config s (m :: A) B) (Config t (scheduler_rest i) B)
  | step_waker s A m B t : m (set_hart hb s) = Ok tt t → step ha hb i (Config s A (m :: B)) (Config t A B).

Section two_cpus.
Context (ha hb i : nat) (ch : chan) (lk : lockid) (change : kstate → kstate) (cA cB : cpu).

(** Process [i] on CPU [ha] has tested its condition under [lk], the only lock it
    holds, and calls sleep(ch, lk); another process, or an interrupt, is on CPU
    [hb].  [cA] is CPU [ha] before it took [lk]. *)
Record about_to_sleep (s : kstate) : Prop := {
  as_ne : ha ≠ hb;
  as_cpus : (ha < length (k_cpus s))%nat ∧ (hb < length (k_cpus s))%nat;
  as_slot : (i < Z.to_nat NPROC)%nat ∧ length (k_proc s) = Z.to_nat NPROC;
  as_A : k_cpus s !!! ha = nested cA ∧ cpu_wf cA ∧ c_noff cA = 0 ∧ c_proc cA = Some i;
  as_B : k_cpus s !!! hb = cB ∧ cpu_wf cB ∧ c_noff cB < 2 ^ 29 ∧ c_proc cB ≠ Some i;
  as_lk : k_locks s !! lk = Some ha ∧ ∀ j, lk ≠ L_proc j;
  as_plocks j : k_locks s !! L_proc j = None;
}.

(** The change of the condition leaves processes, CPUs and locks alone. *)
Definition changes_data : Prop :=
  ∀ s, k_cpus (change s) = k_cpus s ∧ k_locks (change s) = k_locks s ∧ k_proc (change s) = k_proc s.

(** After [a] steps of the sleeper and [b] of the waker. *)
Definition prog_A (a : nat) : list (K ()) :=
  if (a <=? 4)%nat then drop a (sleep_steps i ch lk) else drop (a - 5) (scheduler_rest i).
Definition prog_B (b : nat) : list (K ()) := drop b (waker ch lk change).

Definition cpu_A (a : nat) : cpu :=
  match a with
  | 0%nat => nested cA
  | 1%nat => nested (nested cA)
  | 2%nat | 3%nat | 4%nat | 5%nat => nested cA
  | 6%nat => nested (set_c_proc None cA)
  | _ => set_c_proc None cA
  end.

Abbreviation last_B := (Z.to_nat NPROC + 3)%nat.
Definition inside_B (b : nat) : bool := (1 <=? b)%nat && (b <? last_B)%nat.

Record inv (a b : nat) (s : kstate) : Prop := {
  iv_a : (a ≤ 7)%nat;
  iv_b : (b ≤ last_B)%nat;
  iv_excl : (a < 2)%nat → b = 0%nat;
  iv_wait : (a < 7)%nat → (b ≤ 2 + i)%nat;
  iv_cpus : (ha < length (k_cpus s))%nat ∧ (hb < length (k_cpus s))%nat;
  iv_A : k_cpus s !!! ha = cpu_A a;
  iv_B : k_cpus s !!! hb = if inside_B b then nested cB else cB;
  iv_lk : k_locks s !! lk = if (a <? 2)%nat then Some ha else if inside_B b then Some hb else None;
  iv_pi : k_locks s !! L_proc i = if (1 <=? a)%nat && (a <? 7)%nat then Some ha else None;
  iv_pj j : j ≠ i → k_locks s !! L_proc j = None;
  iv_procs : length (k_proc s) = Z.to_nat NPROC;
  iv_chan : (3 ≤ a)%nat → p_chan (k_proc s !!! i) = Some ch;
  iv_state : (4 ≤ a)%nat → p_state (k_proc s !!! i) = if (b <=? 2 + i)%nat then SLEEPING else RUNNABLE;
}.

Section proof.
Context (s0 : kstate) (Hinit : about_to_sleep s0) (Hch : changes_data).

Lemma inv_init : inv 0 0 s0.
Proof using Hinit.
  destruct Hinit as [H1 H2 [H3 H3'] (H4 & _) (H5 & _) (H6 & _) H7]. split; try done; try lia.
Qed.

Lemma wf_A a : cpu_wf (cpu_A a).
Proof using Hinit.
  destruct Hinit as [_ _ _ (_ & Hw & Hn & _) _ _ _].
  assert (Hw' : cpu_wf (set_c_proc None cA)) by exact Hw.
  destruct a as [|[|[|[|[|[|[|a]]]]]]]; cbn [cpu_A]; repeat (apply nested_wf; [|cbn; lia]); done.
Qed.

Lemma ok_A a b s : inv a b s → cpu_ok (set_hart ha s) ∧ cur_cpu (set_hart ha s) = cpu_A a.
Proof using Hinit.
  intros Hv. split; [|apply (iv_A _ _ _ Hv)]. split; [apply (iv_cpus _ _ _ Hv)|].
  change (cpu_wf (k_cpus s !!! ha)). rewrite (iv_A _ _ _ Hv). apply wf_A.
Qed.

(** The parts of the state after a step on CPU [ha]. *)
Ltac at_A Hv :=
  destruct Hv as [Iva Ivb Ivx Ivw [Ivh Ivh'] IvA IvB Ivl Ivi Ivj Ivn Ivc Ivs];
  destruct Hinit as [Hne _ [Hi _] (_ & HwA & HnA & HpA) _ (_ & Hlk) _];
  split; cbn [k_cpus k_locks k_proc k_hart set_hart set_locks set_cpus set_proc locked set_cur_cpu alter_proc] in *;
  rewrite ?length_insert, ?length_alter; try done; try lia;
  rewrite ?list_lookup_total_insert_eq, ?list_lookup_total_insert_ne by done; try done;
  try exact Ivj; try (intros _; apply Ivc; lia); try (intros _; apply Ivs; lia).

Ltac other_lock :=
  let E := fresh in intros E;
  first [discriminate E|by injection E|match goal with H : ∀ j, _ ≠ L_proc j |- _ => by apply (H _ E) || apply (H _ (eq_sym E)) end].
Ltac locks :=
  intros; repeat first
    [rewrite lookup_insert_eq | rewrite lookup_delete_eq
    |rewrite lookup_insert_ne by other_lock | rewrite lookup_delete_ne by other_lock]; auto.

(** sleep() up to sched(): the process lock, then [lk], the channel, the state. *)
Lemma sleeper_0 b s : inv 0 b s → ∃ t, acquire (L_proc i) (set_hart ha s) = Ok tt t ∧ inv 1 b t.
Proof using Hinit.
  intros Hv. destruct (ok_A _ _ _ Hv) as [Hc Hcur]. eexists. split; [apply acquire_ok; [done|apply (iv_pi _ _ _ Hv)]|].
  at_A Hv; locks; by rewrite Hcur.
Qed.

Lemma sleeper_1 b s : inv 1 b s → ∃ t, release lk (set_hart ha s) = Ok tt t ∧ inv 2 b t.
Proof using Hinit.
  intros Hv. destruct (ok_A _ _ _ Hv) as [Hc Hcur]. eexists. split.
  { apply (release_pop lk (nested cA)); [apply Hc|done|exact (wf_A 0)|apply (iv_lk _ _ _ Hv)]. }
  at_A Hv; locks. by rewrite Ivx by lia.
Qed.

Lemma sleeper_2 b s : inv 2 b s → ∃ t, upd_proc i (set_chan (Some ch)) (set_hart ha s) = Ok tt t ∧ inv 3 b t.
Proof using Hinit.
  intros Hv. eexists. split; [reflexivity|]. at_A Hv. intros _.
  change (alter ?f i (k_proc s) !!! i) with (k_proc (alter_proc i f s) !!! i). by rewrite lookup_alter_proc by lia.
Qed.

Lemma sleeper_3 b s : inv 3 b s → ∃ t, upd_proc i (set_state SLEEPING) (set_hart ha s) = Ok tt t ∧ inv 4 b t.
Proof using Hinit.
  intros Hv. eexists. split; [reflexivity|]. at_A Hv; intros _;
    change (alter ?f i (k_proc s) !!! i) with (k_proc (alter_proc i f s) !!! i); rewrite lookup_alter_proc by lia; cbn.
  - by apply Ivc.
  - replace (b <=? S (S i))%nat with true; [done|]. symmetry. apply Nat.leb_le. specialize (Ivw ltac:(lia)). lia.
Qed.

Lemma sleeper_4 b s : inv 4 b s → ∃ t k, sched (set_hart ha s) = Switch t k ∧ inv 5 b t.
Proof using Hinit.
  intros Hv. destruct (ok_A _ _ _ Hv) as [Hc Hcur]. eexists _, _. split.
  - apply (sched_ok i); [done|rewrite Hcur; apply Hinit|apply (iv_pi _ _ _ Hv)| |].
    + rewrite Hcur. cbn. destruct Hinit as [_ _ _ (_ & _ & -> & _) _ _ _]. done.
    + change (p_state (k_proc s !!! i) ≠ RUNNING). rewrite (iv_state _ _ _ Hv) by lia. by destruct (_ <=? _)%nat.
  - at_A Hv.
Qed.

Lemma sleeper_5 b s : inv 5 b s → ∃ t, upd_cpu (set_c_proc None) (set_hart ha s) = Ok tt t ∧ inv 6 b t.
Proof using Hinit.
  intros Hv. destruct (ok_A _ _ _ Hv) as [Hc Hcur]. eexists. split; [reflexivity|]. at_A Hv. by rewrite Hcur.
Qed.

Lemma sleeper_6 b s : inv 6 b s → ∃ t, release (L_proc i) (set_hart ha s) = Ok tt t ∧ inv 7 b t.
Proof using Hinit.
  intros Hv. destruct (ok_A _ _ _ Hv) as [Hc Hcur]. eexists. split.
  { apply (release_pop (L_proc i) (set_c_proc None cA)); [apply Hc|done|exact (wf_A 7)|apply (iv_pi _ _ _ Hv)]. }
  at_A Hv; locks.
Qed.

Lemma sleeper_step a b s :
  inv a b s → (a < 7)%nat → ∃ m A t, prog_A a = m :: A ∧ inv (S a) b t ∧
    (m (set_hart ha s) = Ok tt t ∧ A = prog_A (S a) ∨ (∃ k, m (set_hart ha s) = Switch t k) ∧ scheduler_rest i = prog_A (S a)).
Proof using Hinit.
  intros Hv Ha. destruct a as [|[|[|[|[|[|[|a]]]]]]]; [..|lia].
  - destruct (sleeper_0 b s Hv) as (t & E & Ht). by exists (acquire (L_proc i)), (prog_A 1), t; eauto.
  - destruct (sleeper_1 b s Hv) as (t & E & Ht). by exists (release lk), (prog_A 2), t; eauto.
  - destruct (sleeper_2 b s Hv) as (t & E & Ht). by exists (upd_proc i (set_chan (Some ch))), (prog_A 3), t; eauto.
  - destruct (sleeper_3 b s Hv) as (t & E & Ht). by exists (upd_proc i (set_state SLEEPING)), (prog_A 4), t; eauto.
  - destruct (sleeper_4 b s Hv) as (t & k & E & Ht). exists sched, (drop 5 (sleep_steps i ch lk)), t. split_and!; [done|done|].
    right. split; [by exists k|done].
  - destruct (sleeper_5 b s Hv) as (t & E & Ht). by exists (upd_cpu (set_c_proc None)), (prog_A 6), t; eauto.
  - destruct (sleeper_6 b s Hv) as (t & E & Ht). by exists (release (L_proc i)), (prog_A 7), t; eauto.
Qed.

Lemma wf_B b : cpu_wf (if inside_B b then nested cB else cB).
Proof using Hinit. destruct Hinit as [_ _ _ _ (_ & Hw & Hn & _) _ _]. destruct (inside_B b); [apply nested_wf; [done|lia]|done]. Qed.

Lemma ok_B a b s : inv a b s → cpu_ok (set_hart hb s) ∧ cur_cpu (set_hart hb s) = if inside_B b then nested cB else cB.
Proof using Hinit.
  intros Hv. split; [|apply (iv_B _ _ _ Hv)]. split; [apply (iv_cpus _ _ _ Hv)|].
  change (cpu_wf (k_cpus s !!! hb)). rewrite (iv_B _ _ _ Hv). apply wf_B.
Qed.

(** The parts of the state after a step on CPU [hb]. *)
Ltac at_B Hv :=
  destruct Hv as [Iva Ivb Ivx Ivw [Ivh Ivh'] IvA IvB Ivl Ivi Ivj Ivn Ivc Ivs];
  destruct Hinit as [Hne _ [Hi _] _ (_ & HwB & HnB & HpB) (_ & Hlk) _];
  split; cbn [k_cpus k_locks k_proc k_hart set_hart set_locks set_cpus set_proc locked set_cur_cpu alter_proc] in *;
  rewrite ?length_insert, ?length_alter; try done; try lia;
  rewrite ?list_lookup_total_insert_eq, ?list_lookup_total_insert_ne by done; try done.

Lemma waker_first a s : inv a 0 s →
  (∃ t, acquire lk (set_hart hb s) = Ok tt t ∧ inv a 1 t) ∨ (a < 7)%nat ∧ ∃ t, acquire lk (set_hart hb s) = Spin t.
Proof using Hinit.
  intros Hv. destruct (ok_B _ _ _ Hv) as [Hc Hcur]. destruct (decide (a < 2)%nat) as [Ha|Ha].
  - right. split; [lia|]. pose proof (iv_lk _ _ _ Hv) as Hl. rewrite (proj2 (Nat.ltb_lt _ _) Ha) in Hl.
    destruct (acquire_other lk ha (set_hart hb s) Hc Hl) as (t & E & _); [apply Hinit|]. by exists t.
  - left. eexists. split; [apply acquire_ok; [done|]|].
    + pose proof (iv_lk _ _ _ Hv) as Hl. by rewrite (proj2 (Nat.ltb_ge _ _)) in Hl by lia.
    + at_B Hv; try (by rewrite Hcur); locks. by rewrite (proj2 (Nat.ltb_ge a 2)) by lia.
Qed.

Lemma waker_change a s : inv a 1 s → ∃ t, modify change (set_hart hb s) = Ok tt t ∧ inv a 2 t.
Proof using Hinit Hch.
  intros Hv. eexists. split; [reflexivity|]. destruct (Hch (set_hart hb s)) as (E1 & E2 & E3).
  destruct Hv. split; rewrite ?E1, ?E2, ?E3; cbn [k_cpus k_locks k_proc set_hart]; try done; try lia.
Qed.

Lemma waker_slot a j s : inv a (2 + j) s → (j < Z.to_nat NPROC)%nat →
  (∃ t, wakeup_step ch j (set_hart hb s) = Ok tt t ∧ inv a (3 + j) t) ∨
  (a < 7)%nat ∧ ∃ t, wakeup_step ch j (set_hart hb s) = Spin t.
Proof using Hinit.
  intros Hv Hj. destruct (ok_B _ _ _ Hv) as [Hc Hcur].
  assert (Hin : inside_B (2 + j) = true) by (unfold inside_B; by rewrite (proj2 (Nat.leb_le _ _)), (proj2 (Nat.ltb_lt _ _)) by lia).
  assert (Hin' : inside_B (3 + j) = true) by (unfold inside_B; by rewrite (proj2 (Nat.leb_le _ _)), (proj2 (Nat.ltb_lt _ _)) by lia).
  assert (Hme : c_proc (cur_cpu (set_hart hb s)) ≠ Some i) by (rewrite Hcur, Hin; apply Hinit).
  destruct (decide (j = i)) as [->|Hji]; [destruct (decide (a < 7)%nat) as [Ha|Ha]|].
  - right. split; [done|]. pose proof (iv_pi _ _ _ Hv) as Hl. pose proof (iv_excl _ _ _ Hv).
    rewrite (proj2 (Nat.leb_le 1 a)), (proj2 (Nat.ltb_lt a 7)) in Hl by lia.
    destruct (acquire_other (L_proc i) ha (set_hart hb s) Hc Hl) as (t & E & _); [apply Hinit|]. exists t.
    unfold wakeup_step. rewrite run_bind, myproc_ok by done. cbn [obind]. rewrite bool_decide_false by done. by rewrite run_bind, E.
  - left. pose proof (iv_pi _ _ _ Hv) as Hl. rewrite (proj2 (Nat.ltb_ge a 7)), andb_false_r in Hl by lia.
    eexists. split; [by apply wakeup_step_ok|]. pose proof (iv_a _ _ _ Hv). assert (a = 7%nat) as -> by lia.
    set (f := λ p, _). assert (Hp : alter f i (k_proc s) !!! i = set_state RUNNABLE (k_proc s !!! i)).
    { etrans; [apply (lookup_alter_proc i f s); rewrite (iv_procs _ _ _ Hv); done|]. unfold f. rewrite bool_decide_false by done.
      unfold wake_fn. rewrite (iv_state _ _ _ Hv), (iv_chan _ _ _ Hv), Nat.leb_refl, !bool_decide_true by (done || lia). done. }
    at_B Hv; try (by rewrite Hin', ?IvB, ?Ivl, Hin); rewrite ?Hp; intros _;
      first [exact (Ivc ltac:(lia))|by rewrite (proj2 (Nat.leb_gt _ _)) by lia].
  - left. eexists. split; [apply wakeup_step_ok; [done|by apply (iv_pj _ _ _ Hv)]|]. set (f := λ p, _).
    assert (Hp : alter f j (k_proc s) !!! i = k_proc s !!! i) by by apply (lookup_alter_proc_ne j i f s).
    at_B Hv; try (by rewrite Hin', ?IvB, ?Ivl, Hin); rewrite ?Hp; try done. intros Ha. rewrite Ivs by done.
    destruct (decide (j < i)%nat); [rewrite !(proj2 (Nat.leb_le _ _)) by lia|rewrite !(proj2 (Nat.leb_gt _ _)) by lia]; done.
Qed.

Lemma waker_last a s : inv a (2 + Z.to_nat NPROC) s → ∃ t, release lk (set_hart hb s) = Ok tt t ∧ inv a (3 + Z.to_nat NPROC) t.
Proof using Hinit.
  intros Hv. destruct (ok_B _ _ _ Hv) as [Hc Hcur]. eexists. split.
  { apply (release_pop lk cB); [apply Hc|done|exact (wf_B 0)|]. pose proof (iv_lk _ _ _ Hv) as Hl.
    rewrite (proj2 (Nat.ltb_ge a 2)) in Hl; [done|]. pose proof (iv_excl _ _ _ Hv). lia. }
  at_B Hv; locks.
  - rewrite (proj2 (Nat.ltb_ge a 2)) by (specialize (λ H, Ivx H); lia). done.
  - rewrite Ivs by done. by rewrite !(proj2 (Nat.leb_gt _ _)) by lia.
Qed.

Lemma waker_step a b s :
  inv a b s → (b < last_B)%nat → ∃ m, prog_B b = m :: prog_B (S b) ∧
    ((∃ t, m (set_hart hb s) = Ok tt t ∧ inv a (S b) t) ∨ (a < 7)%nat ∧ ∃ t, m (set_hart hb s) = Spin t).
Proof using Hinit Hch.
  intros Hv Hb. unfold prog_B, waker. destruct b as [|[|j]].
  - exists (acquire lk). split; [done|]. by apply waker_first.
  - exists (modify change). split; [done|]. left. by apply waker_change.
  - cbn [drop]. destruct (decide (j < Z.to_nat NPROC)%nat) as [Hj|Hj].
    + exists (wakeup_step ch j). split; [|by apply waker_slot]. apply drop_S.
      rewrite lookup_app_l by (rewrite length_fmap; unfold all_procs; by rewrite length_seq).
      unfold all_procs. by rewrite list_lookup_fmap, lookup_seq_lt.
    + assert (j = Z.to_nat NPROC) as -> by lia. exists (release lk). split; [reflexivity|]. left. by apply waker_last.
Qed.

(** The configuration after [n] steps. *)
Definition reached (n : nat) (c : config) : Prop :=
  ∃ a b, n = (a + b)%nat ∧ inv a b (cf_state c) ∧ cf_sleeper c = prog_A a ∧ cf_waker c = prog_B b.

Lemma reached_step n c c' : reached n c → step ha hb i c c' → reached (S n) c'.
Proof using Hinit Hch.
  intros (a & b & -> & Hv & EA & EB) Hstep. destruct Hstep as [s m A B t Hm|s m A B t k Hm|s A m B t Hm]; cbn [cf_state cf_sleeper cf_waker] in *.
  1,2: destruct (decide (a < 7)%nat) as [Ha|Ha]; [|assert (a = 7%nat) as -> by (pose proof (iv_a _ _ _ Hv); lia); discriminate EA];
    destruct (sleeper_step a b s Hv Ha) as (m' & A' & t' & EA' & Ht & [[Em EA'']|[[k' Em] EA'']]);
    rewrite EA' in EA; injection EA as <- <-; rewrite Em in Hm; try discriminate Hm; injection Hm as <-; exists (S a), b; done.
  destruct (decide (b < last_B)%nat) as [Hb|Hb].
  - destruct (waker_step a b s Hv Hb) as (m' & EB' & [(t' & Em & Ht)|(_ & t' & Em)]);
      rewrite EB' in EB; injection EB as -> ->; rewrite Em in Hm; [injection Hm as <-|discriminate Hm].
    by exists a, (S b).
  - assert (b = last_B) as -> by (pose proof (iv_b _ _ _ Hv); lia). discriminate EB.
Qed.

Lemma reached_steps n c : nsteps (step ha hb i) n (Config s0 (sleep_steps i ch lk) (waker ch lk change)) c → reached n c.
Proof using Hinit Hch.
  revert c. induction n as [|n IH]; intros c Hs.
  - inversion Hs; subst. exists 0%nat, 0%nat. split_and!; try done. by apply inv_init.
  - apply nsteps_inv_r in Hs as (c1 & H1 & H2). by eapply reached_step; [apply IH|].
Qed.

(** No deadlock: the sleeper can always go on, and then the waker. *)
Lemma reached_progress n c : reached n c → (cf_sleeper c = [] ∧ cf_waker c = []) ∨ ∃ c', step ha hb i c c'.
Proof using Hinit Hch.
  intros (a & b & _ & Hv & EA & EB). destruct c as [s A B]. cbn [cf_state cf_sleeper cf_waker] in *. subst A B.
  destruct (decide (a < 7)%nat) as [Ha|Ha].
  { right. destruct (sleeper_step a b s Hv Ha) as (m & A & t & -> & _ & [[Em _]|[[k Em] _]]); eexists; [by apply step_sleeper|by eapply step_switch]. }
  assert (a = 7%nat) as -> by (pose proof (iv_a _ _ _ Hv); lia). destruct (decide (b < last_B)%nat) as [Hb|Hb].
  - right. destruct (waker_step 7 b s Hv Hb) as (m & -> & [(t & Em & _)|(? & _)]); [|lia]. eexists. by apply step_waker.
  - left. split; [done|]. assert (b = last_B) as -> by (pose proof (iv_b _ _ _ Hv); lia). done.
Qed.

Lemma reached_end n c : reached n c →
  (n ≤ 7 + last_B)%nat ∧ (cf_sleeper c = [] → cf_waker c = [] →
  p_state (k_proc (cf_state c) !!! i) = RUNNABLE ∧ k_locks (cf_state c) !! L_proc i = None ∧ k_locks (cf_state c) !! lk = None).
Proof using Hinit.
  intros (a & b & -> & Hv & EA & EB). pose proof (iv_a _ _ _ Hv). pose proof (iv_b _ _ _ Hv). split; [lia|]. intros HA HB.
  rewrite EA in HA. rewrite EB in HB.
  assert (a = 7%nat) as ->. { destruct a as [|[|[|[|[|[|[|a]]]]]]]; try discriminate HA. lia. }
  assert (b = last_B) as ->.
  { apply (f_equal length) in HB. unfold prog_B, waker in HB. rewrite length_drop in HB. cbn [length] in HB.
    rewrite length_app, length_fmap in HB. unfold all_procs in HB. rewrite length_seq in HB. cbn [length] in HB. lia. }
  destruct Hinit as [_ _ [Hi _] _ _ _ _]. split_and!.
  - rewrite (iv_state _ _ _ Hv) by lia. by rewrite (proj2 (Nat.leb_gt _ _)) by lia.
  - exact (iv_pi _ _ _ Hv).
  - exact (iv_lk _ _ _ Hv).
Qed.
End proof.
End two_cpus.

(** C17: No wakeup is lost.  A process has tested its condition under [lk] and
    calls sleep(ch, lk) on one CPU; on another, a process or an interrupt takes
    [lk], changes the condition and calls wakeup(ch).  However the statements of the
    two are interleaved, neither panics, there is no deadlock, and after a bounded
    number of steps both are done: the sleeper has given up its CPU, and it is
    RUNNABLE, with its process lock and [lk] free.  So it is never left SLEEPING
    after the wakeup it waited for.  (The order in sleep() is what makes this true:
    it takes the process lock before it releases [lk], and keeps it until the
    scheduler has taken over.) *)
Theorem no_lost_wakeup ha hb i ch lk change cA cB s n c :
  about_to_sleep ha hb i lk cA cB s → changes_data change →
  nsteps (step ha hb i) n (Config s (sleep_steps i ch lk) (waker ch lk change)) c →
  (n ≤ 7 + (Z.to_nat NPROC + 3))%nat ∧
  ((cf_sleeper c = [] ∧ cf_waker c = []) ∨ ∃ c', step ha hb i c c') ∧
  (cf_sleeper c = [] → cf_waker c = [] →
   p_state (k_proc (cf_state c) !!! i) = RUNNABLE ∧
   k_locks (cf_state c) !! L_proc i = None ∧ k_locks (cf_state c) !! lk = None).
Proof.
  intros Hi Hc Hs. eapply reached_steps in Hs; [|done|done]. destruct (reached_end _ _ _ _ _ _ _ _ _ Hi _ _ Hs) as [H1 H2].
  split_and!; [done|by eapply reached_progress|done].
Qed.

(** Process 2 holds the tick lock and waits for a tick. *)
Definition sleeper : kstate := set_cur_cpu (set_c_proc (Some 2%nat) zero_cpu) boot_state.

(** Process 2 on CPU 0 has tested ticks; CPU 1 is to count a tick. *)
Lemma tick_about_to_sleep : about_to_sleep 0 1 2 L_ticks (set_c_proc (Some 2%nat) zero_cpu) zero_cpu (locked L_ticks sleeper).
Proof.
  split; try done.
  - split; apply Nat.ltb_lt; reflexivity.
  - split; [apply Nat.ltb_lt|]; reflexivity.
Qed.

Lemma no_lost_wakeup_witness :
  let c := Config (locked L_ticks sleeper) (sleep_steps 2 Ch_ticks L_ticks) (waker Ch_ticks L_ticks (λ s, set_ticks (k_ticks s + 1) s)) in
  (0 ≤ 7 + (Z.to_nat NPROC + 3))%nat ∧ ((cf_sleeper c = [] ∧ cf_waker c = []) ∨ ∃ c', step 0 1 2 c c').
Proof.
  intros c.
  destruct (no_lost_wakeup 0 1 2 Ch_ticks L_ticks (λ s, set_ticks (k_ticks s + 1) s) _ _ _ 0 c tick_about_to_sleep)
    as (H1 & H2 & _); [intros s; split_and!; reflexivity|apply nsteps_O|]. split; [exact H1|exact H2].
Defined.
