(* ===== verification/Select.v ===== *)
(** The choice of the next process by scheduler() of kernel/proc.c: the
    selection loops of the FCFS and PBS policies are equal to a pure pick of
    the best slot, keep exactly the lock of their candidate, and hand the CPU
    over with that lock held. *)

From Stdlib Require Import ZArith Lia ZifyBool.
From stdpp Require Import base numbers list gmap strings.
From S2P Require Import Prelude Params Machine Spinlock Printf Sched.

(** ** Selecting a process *)

(** The first best process of the list [l] of slots: a later process replaces
    the current choice only when it is strictly better. *)
Definition pick (better : proc → proc → bool) (ps : list proc) (acc : option nat) (l : list nat) : option nat :=
  foldl (λ acc i,
    if bool_decide (p_state (ps !!! i) = RUNNABLE)
       && match acc with None => true | Some q => better (ps !!! i) (ps !!! q) end
    then Some i else acc) acc l.

Definition fcfs_better (p q : proc) : bool := p_ctime p <? p_ctime q.

Definition pbs_better (p q : proc) : bool :=
  (pbs_dp p <? pbs_dp q)
  || ((pbs_dp q =? pbs_dp p) && (p_ctime p <? p_ctime q))
  || ((pbs_dp q =? pbs_dp p) && (p_ctime p =? p_ctime q) && (p_nrun p <? p_nrun q)).

(** A strict order whose incomparability is transitive. *)
Class StrictWeak (better : proc → proc → bool) : Prop := {
  sw_irrefl p : better p p = false;
  sw_trans p q r : better p q = true → better q r = true → better p r = true;
  sw_incomp p q r : better p q = false → better q r = false → better p r = false;
}.

Global Instance fcfs_strict_weak : StrictWeak fcfs_better.
Proof.
  split; unfold fcfs_better; intros; rewrite ?Z.ltb_lt, ?Z.ltb_ge in *; lia.
Qed.

Global Instance pbs_strict_weak : StrictWeak pbs_better.
Proof. split; unfold pbs_better; intros; lia. Qed.

Section pick.
Context (better : proc → proc → bool) {SW : StrictWeak better} (ps : list proc).

Abbreviation runnable i := (p_state (ps !!! i) = RUNNABLE).

(** [i] is the choice among the slots below [n]. *)
Definition best_of (n i : nat) : Prop :=
  (i < n)%nat ∧ runnable i ∧
  ∀ j, (j < n)%nat → runnable j →
    better (ps !!! j) (ps !!! i) = false ∧ ((j < i)%nat → better (ps !!! i) (ps !!! j) = true).

Lemma pick_snoc acc l i :
  pick better ps acc (l ++ [i]) =
    if bool_decide (runnable i)
       && match pick better ps acc l with None => true | Some q => better (ps !!! i) (ps !!! q) end
    then Some i else pick better ps acc l.
Proof. unfold pick. by rewrite foldl_app. Qed.

(** The last slot beats the best one so far. *)
Lemma best_of_new n q :
  best_of n q → runnable n → better (ps !!! n) (ps !!! q) = true → best_of (S n) n.
Proof.
  intros (Hq & _ & Hm) Hr Hb. split_and!; [lia|done|]. intros j Hj Hjr.
  destruct (decide (j = n)) as [->|]; [split; [apply sw_irrefl|lia]|].
  destruct (Hm j ltac:(lia) Hjr) as [Hjq _]. split.
  - destruct (better (ps !!! j) (ps !!! n)) eqn:Hji; [|done].
    rewrite <-Hjq. symmetry. by apply (sw_trans _ (ps !!! n)).
  - intros _. destruct (better (ps !!! n) (ps !!! j)) eqn:Hij; [done|].
    pose proof (sw_incomp _ _ _ Hij Hjq). congruence.
Qed.

(** The last slot is not runnable, or does not beat the best one. *)
Lemma best_of_old n q :
  best_of n q → (runnable n → better (ps !!! n) (ps !!! q) = false) → best_of (S n) q.
Proof.
  intros (Hq & Hqr & Hm) Hb. split_and!; [lia|done|]. intros j Hj Hjr.
  destruct (decide (j = n)) as [->|]; [split; [by apply Hb|lia]|]. apply Hm; [lia|done].
Qed.

Lemma pick_spec n :
  match pick better ps None (seq 0 n) with
  | None => ∀ i, (i < n)%nat → ¬ runnable i
  | Some i => best_of n i
  end.
Proof.
  induction n as [|n IH]; [cbn; lia|].
  rewrite seq_S, pick_snoc. cbn [Nat.add].
  destruct (pick better ps None (seq 0 n)) as [q|]; case_bool_decide as Hr; cbn [andb].
  - destruct (better _ _) eqn:Hb; [by apply best_of_new with q|by apply best_of_old].
  - by apply best_of_old.
  - split_and!; [lia|done|]. intros j Hj Hjr. destruct (decide (j = n)) as [->|].
    + split; [apply sw_irrefl|lia].
    + by destruct (IH j ltac:(lia)).
  - intros j Hj. destruct (decide (j = n)) as [->|]; [done|]. apply IH; lia.
Qed.
End pick.

Lemma pick_in better ps acc l q : pick better ps acc l = Some q → acc = Some q ∨ q ∈ l.
Proof.
  revert acc; induction l as [|i l IH]; intros acc; cbn; [by left|].
  intros [E|]%IH; [|set_solver]. destruct (_ && _); [simplify_eq; set_solver|by left].
Qed.

(** ** The selection loops *)

(** A CPU's scheduler between two processes: no lock is held. *)
Definition idle (s : kstate) : Prop :=
  (k_hart s < length (k_cpus s))%nat ∧ c_noff (cur_cpu s) = 0 ∧ 0 ≤ c_sstatus (cur_cpu s) ∧
  ∀ i, k_locks s !! L_proc i = None.

(** The state of the loops: the candidate's lock is held. *)
Definition with_candidate (s : kstate) (q : option nat) : kstate :=
  match q with Some q => locked (L_proc q) s | None => s end.

Section loops.
Context (s : kstate).
Hypothesis (Hok : cpu_ok s) (Hnoff : c_noff (cur_cpu s) = 0).
Hypothesis Hfree : ∀ i, k_locks s !! L_proc i = None.

Lemma candidate_ok q i :
  q ≠ Some i →
  cpu_ok (with_candidate s q) ∧ k_locks (with_candidate s q) !! L_proc i = None.
Proof using Hok Hnoff Hfree.
  intros Hq. destruct q as [q|]; cbn; [|done]. split.
  - apply cpu_ok_locked; [done|lia].
  - rewrite lookup_insert_ne by congruence. apply Hfree.
Qed.

Lemma candidate_acquire q i :
  q ≠ Some i → acquire (L_proc i) (with_candidate s q) = Ok tt (locked (L_proc i) (with_candidate s q)).
Proof using Hok Hnoff Hfree. intros Hq. by destruct (candidate_ok q i Hq); apply acquire_ok. Qed.

Lemma candidate_reject q i :
  q ≠ Some i →
  release (L_proc i) (locked (L_proc i) (with_candidate s q)) = Ok tt (with_candidate s q).
Proof using Hok Hnoff Hfree.
  intros Hq. destruct (candidate_ok q i Hq). by rewrite (release_ok _ (with_candidate s q)).
Qed.

Lemma candidate_replace q i :
  q ≠ i → release (L_proc q) (locked (L_proc i) (locked (L_proc q) s)) = Ok tt (locked (L_proc i) s).
Proof using Hok Hnoff Hfree.
  intros Hq. rewrite (release_swap_ok (L_proc q) (L_proc i) s); [done|done|lia|congruence|done|done|by split_and!].
Qed.

Lemma candidate_procs q : k_proc (with_candidate s q) = k_proc s.
Proof using. by destruct q. Qed.

Lemma locked_procs lk t : k_proc (locked lk t) = k_proc t.
Proof using. done. Qed.

Lemma fcfs_step_ok acc i :
  acc ≠ Some i →
  let r := pick fcfs_better (k_proc s) acc [i] in
  fcfs_step acc i (with_candidate s acc) = Ok r (with_candidate s r).
Proof using Hok Hnoff Hfree.
  intros Hi. unfold fcfs_step. rewrite run_bind, candidate_acquire by done. cbn [obind].
  unfold pick. cbn [foldl]. destruct acc as [q|]; kgo; rewrite ?locked_procs, ?candidate_procs.
  - fold (fcfs_better (k_proc s !!! i) (k_proc s !!! q)). destruct (bool_decide _ && _).
    + rewrite run_bind. cbn [with_candidate]. by rewrite candidate_replace by congruence.
    + by rewrite run_bind, (candidate_reject (Some q)).
  - destruct (bool_decide _ && _); kgo; [done|]. by rewrite (candidate_reject None).
Qed.

Lemma pbs_step_ok acc i :
  acc ≠ Some i →
  let r := pick pbs_better (k_proc s) acc [i] in
  let dp q := match q with Some q => pbs_dp (k_proc s !!! q) | None => 101 end in
  pbs_step (acc, dp acc) i (with_candidate s acc) = Ok (r, dp r) (with_candidate s r).
Proof using Hok Hnoff Hfree.
  intros Hi. unfold pbs_step. rewrite run_bind, candidate_acquire by done. cbn [obind].
  unfold pick. cbn [foldl]. kgo. rewrite locked_procs, candidate_procs.
  case_bool_decide as Hr; cbn [negb andb].
  2: { by rewrite run_bind, candidate_reject. }
  destruct acc as [q|]; kgo; rewrite ?locked_procs, ?candidate_procs; [|done].
  fold (pbs_better (k_proc s !!! i) (k_proc s !!! q)).
  destruct (pbs_better _ _).
  - rewrite run_bind. cbn [with_candidate]. by rewrite candidate_replace by congruence.
  - by rewrite run_bind, (candidate_reject (Some q)).
Qed.

Lemma fcfs_loop_ok l acc :
  NoDup l → (∀ q, acc = Some q → q ∉ l) →
  let r := pick fcfs_better (k_proc s) acc l in
  for_fold l acc fcfs_step (with_candidate s acc) = Ok r (with_candidate s r).
Proof using Hok Hnoff Hfree.
  revert acc; induction l as [|i l IH]; intros acc Hnd Hacc; [done|].
  inversion Hnd; subst. cbn [for_fold]. rewrite run_bind, fcfs_step_ok by (intros ->; set_solver).
  cbn [obind]. rewrite IH; [done|done|].
  intros q [Hq|Hq]%pick_in.
  - by apply Hacc, not_elem_of_cons in Hq as [_ ?].
  - by apply list_elem_of_singleton in Hq as ->.
Qed.

Lemma pbs_loop_ok l acc :
  NoDup l → (∀ q, acc = Some q → q ∉ l) →
  let r := pick pbs_better (k_proc s) acc l in
  let dp q := match q with Some q => pbs_dp (k_proc s !!! q) | None => 101 end in
  for_fold l (acc, dp acc) pbs_step (with_candidate s acc) = Ok (r, dp r) (with_candidate s r).
Proof using Hok Hnoff Hfree.
  revert acc; induction l as [|i l IH]; intros acc Hnd Hacc; [done|].
  inversion Hnd; subst. cbn [for_fold]. rewrite run_bind, pbs_step_ok by (intros ->; set_solver).
  cbn [obind]. rewrite IH; [done|done|].
  intros q [Hq|Hq]%pick_in.
  - by apply Hacc, not_elem_of_cons in Hq as [_ ?].
  - by apply list_elem_of_singleton in Hq as ->.
Qed.
End loops.

(** ** A round of the scheduler loop *)

(** The state after intr_on(), as the first push_off() of the loop sees it. *)
Definition ready (s : kstate) : kstate := settle (set_cur_cpu (sie_on (cur_cpu s)) s).

Lemma ready_eq s :
  idle s → ready s = set_cur_cpu (set_c_intena true (sie_on (cur_cpu s))) s.
Proof.
  intros (Hh & Hn & _ & _). unfold ready, settle. rewrite cur_set_cur_cpu by done.
  change (c_noff (sie_on (cur_cpu s))) with (c_noff (cur_cpu s)). rewrite Hn. cbn [Z.eqb].
  by rewrite set_set_cur_cpu, intr_enabled_sie_on.
Qed.

Lemma cur_ready s : idle s → cur_cpu (ready s) = set_c_intena true (sie_on (cur_cpu s)).
Proof. intros H. rewrite ready_eq by done. apply cur_set_cur_cpu, H. Qed.

Lemma ready_ok s : idle s → cpu_ok (ready s) ∧ c_noff (cur_cpu (ready s)) = 0.
Proof.
  intros H. pose proof H as (Hh & Hn & Hs & _). unfold cpu_ok, cpu_wf. rewrite cur_ready by done.
  rewrite ready_eq by done.
  change (c_noff (set_c_intena true (sie_on (cur_cpu s)))) with (c_noff (cur_cpu s)).
  split_and!; [|lia|lia| |intros _; symmetry; apply intr_enabled_sie_on|lia|done].
  - cbn. by rewrite length_insert.
  - cbn. apply Z.lor_nonneg. split; [done|]. unfold SSTATUS_SIE. by vm_compute.
Qed.

Lemma ready_free s i : idle s → k_locks (ready s) !! L_proc i = None.
Proof. intros H. rewrite ready_eq by done. apply H. Qed.

Lemma ready_procs s : k_proc (ready s) = k_proc s.
Proof. unfold ready, settle. by destruct (_ =? _). Qed.

(** The first step of a selection loop does not see the stale [intena]. *)
Lemma select_ready {T} (step : T → nat → K T) (acc : T) (rest : T → nat → () → K T) s :
  (∀ a i, step a i = (u ← acquire (L_proc i); rest a i u)) → idle s →
  for_fold all_procs acc step (set_cur_cpu (sie_on (cur_cpu s)) s) = for_fold all_procs acc step (ready s).
Proof.
  intros Hstep (Hh & _). unfold all_procs. change (Z.to_nat NPROC) with 64%nat.
  cbn [seq for_fold]. rewrite !(run_bind _ (step acc 0%nat)). f_equal.
  rewrite Hstep, !(run_bind _ (acquire _)). f_equal. symmetry. apply acquire_settle.
  cbn. by rewrite length_insert.
Qed.

Lemma fcfs_select_ok s :
  idle s →
  let r := pick fcfs_better (k_proc s) None all_procs in
  fcfs_select (set_cur_cpu (sie_on (cur_cpu s)) s) = Ok r (with_candidate (ready s) r).
Proof.
  intros H. destruct (ready_ok s H) as [Hc Hn]. unfold fcfs_select.
  rewrite (select_ready fcfs_step None (λ a i _, _)) by done.
  rewrite <-(ready_procs s). apply (fcfs_loop_ok (ready s) Hc Hn (λ i, ready_free s i H)); [|done].
  apply NoDup_seq.
Qed.

Lemma pbs_select_ok s :
  idle s →
  let r := pick pbs_better (k_proc s) None all_procs in
  ∃ dp, pbs_select (set_cur_cpu (sie_on (cur_cpu s)) s) = Ok (r, dp) (with_candidate (ready s) r).
Proof.
  intros H. destruct (ready_ok s H) as [Hc Hn]. unfold pbs_select. eexists.
  rewrite (select_ready pbs_step _ (λ '(a, d) i _, _)) by (by try intros [] ?).
  rewrite <-(ready_procs s). apply (pbs_loop_ok (ready s) Hc Hn (λ i, ready_free s i H) _ None); [|done].
  apply NoDup_seq.
Qed.

(** ** Hand-over *)

(** [t] is [s] at the point where this CPU enters process [i]: [p->lock] is held
    and is the only lock taken, interrupts are off at depth one, the process
    entry is [p'] and no other entry changed. *)
Record handed_over (i : nat) (p' : proc) (s t : kstate) : Prop := {
  ho_hart : k_hart t = k_hart s;
  ho_procs : k_proc t = <[i := p']> (k_proc s);
  ho_locks : k_locks t = <[L_proc i := k_hart s]> (k_locks s);
  ho_proc : c_proc (cur_cpu t) = Some i;
  ho_noff : c_noff (cur_cpu t) = 1;
  ho_intr : intr_enabled (cur_cpu t) = false;
  ho_sstatus : 0 ≤ c_sstatus (cur_cpu t);
  ho_intena : c_intena (cur_cpu t) = c_intena (cur_cpu s);
  ho_cpus : length (k_cpus t) = length (k_cpus s);
  ho_out : k_out t = k_out s;
}.

(** The scheduler thread resumes in [t] with the lock of process [i] held, and
    leaves [t'] for its next round. *)
Definition comes_back (i : nat) (k : kstate → outcome kstate ()) : Prop :=
  ∀ t,
    (k_hart t < length (k_cpus t))%nat → k_locks t !! L_proc i = Some (k_hart t) →
    c_noff (cur_cpu t) = 1 → intr_enabled (cur_cpu t) = false →
    k t = Ok tt (set_locks (delete (L_proc i) (k_locks t))
                   (set_cur_cpu (unnested (set_c_proc None (cur_cpu t))) t)).

Lemma resume_ok i : comes_back i (λ t, (upd_cpu (set_c_proc None);; release (L_proc i)) t).
Proof.
  intros t Hh Hl Hn Hi. kgo. rewrite release_last; cbn [k_locks k_hart set_cur_cpu set_cpus k_cpus].
  - rewrite cur_set_cur_cpu, set_set_cur_cpu by done. done.
  - by rewrite length_insert.
  - done.
  - by rewrite cur_set_cur_cpu.
  - by rewrite cur_set_cur_cpu.
Qed.

Lemma handed_over_ok i f s :
  cpu_ok s → c_noff (cur_cpu s) = 0 → (i < length (k_proc s))%nat →
  let t := alter_proc i f (locked (L_proc i) s) in
  handed_over i (f (k_proc s !!! i)) s (set_cur_cpu (set_c_proc (Some i) (cur_cpu t)) t).
Proof.
  intros [Hh Hc] Hn Hi t.
  assert (cur_cpu t = nested (cur_cpu s)) as Ht.
  { unfold t, locked, alter_proc. change (cur_cpu (set_proc ?l ?t)) with (cur_cpu t).
    change (cur_cpu (set_locks ?l ?t)) with (cur_cpu t). by apply cur_set_cur_cpu. }
  assert (k_hart t < length (k_cpus t))%nat as Ht'.
  { unfold t. cbn. by rewrite length_insert. }
  split; rewrite ?cur_set_cur_cpu, ?Ht by done; unfold t; cbn; try done.
  - by rewrite alter_insert.
  - by rewrite Hn.
  - apply intr_enabled_sie_off.
  - apply Z.land_nonneg. left. apply Hc.
  - by rewrite !length_insert.
Qed.

Section round.
Context (s : kstate).
Hypothesis (Hidle : idle s) (Hlen : length (k_proc s) = Z.to_nat NPROC).

Abbreviation runnable i := (p_state (k_proc s !!! i) = RUNNABLE).
Abbreviation valid i := (i < Z.to_nat NPROC)%nat.

(** What FCFS does to the process it runs. *)
Definition fcfs_run (p : proc) : proc := set_nrun (i32 (p_nrun p + 1)) (set_state RUNNING p).

(** What PBS does to the process it runs. *)
Definition pbs_run (p : proc) : proc :=
  set_state RUNNING (set_starving 0 (set_nrun (i32 (p_nrun p + 1)) p)).

Lemma fcfs_round_pick :
  match pick fcfs_better (k_proc s) None all_procs with
  | None => fcfs_round s = Ok tt (ready s)
  | Some i => ∃ t k, fcfs_round s = Switch t k ∧ comes_back i k
                     ∧ (valid i → handed_over i (fcfs_run (k_proc s !!! i)) (ready s) t)
  end.
Proof using Hidle Hlen.
  pose proof (fcfs_select_ok s Hidle) as Hsel. cbn zeta in Hsel.
  unfold fcfs_round, intr_on. kgo. rewrite Hsel. cbn [obind].
  destruct (pick _ _ _ _) as [i|]; [|done]. cbn [with_candidate]. kgo.
  unfold swtch. cbn [obind]. eexists _, _; split; [done|]. split.
  - exact (resume_ok i).
  - intros Hi. rewrite <-Hlen, <-ready_procs in Hi.
    rewrite alter_set_cur_cpu, alter_alter_proc. rewrite <-ready_procs.
    apply (handed_over_ok i fcfs_run (ready s)); [apply ready_ok, Hidle..|done].
Qed.

Lemma pbs_round_pick :
  match pick pbs_better (k_proc s) None all_procs with
  | None => pbs_round s = Ok tt (ready s)
  | Some i => ∃ t k, pbs_round s = Switch t k ∧ comes_back i k
                     ∧ (valid i → handed_over i (pbs_run (k_proc s !!! i)) (ready s) t)
  end.
Proof using Hidle Hlen.
  destruct (pbs_select_ok s Hidle) as [dp Hsel].
  unfold pbs_round, intr_on. kgo. rewrite Hsel. cbn [obind fst].
  destruct (pick _ _ _ _) as [i|]; [|done]. cbn [with_candidate]. kgo.
  unfold swtch. cbn [obind]. eexists _, _; split; [done|]. split.
  - exact (resume_ok i).
  - intros Hi. rewrite <-Hlen, <-ready_procs in Hi.
    rewrite !alter_alter_proc. rewrite <-ready_procs.
    apply (handed_over_ok i pbs_run (ready s)); [apply ready_ok, Hidle..|done].
Qed.
End round.

(** The order in which PBS prefers processes: dynamic priority, then creation
    time, then the number of runs, then the slot. *)
Definition pbs_before (ps : list proc) (i j : nat) : Prop :=
  let p := ps !!! i in let q := ps !!! j in
  pbs_dp p < pbs_dp q ∨
  (pbs_dp p = pbs_dp q ∧
    (p_ctime p < p_ctime q ∨
     (p_ctime p = p_ctime q ∧
       (p_nrun p < p_nrun q ∨ (p_nrun p = p_nrun q ∧ (i < j)%nat))))).

(** The order in which FCFS prefers processes: creation time, then the slot. *)
Definition fcfs_before (ps : list proc) (i j : nat) : Prop :=
  let p := ps !!! i in let q := ps !!! j in
  p_ctime p < p_ctime q ∨ (p_ctime p = p_ctime q ∧ (i < j)%nat).

Lemma best_pbs_before ps n i j :
  best_of pbs_better ps n i → (j < n)%nat → p_state (ps !!! j) = RUNNABLE → j ≠ i → pbs_before ps i j.
Proof.
  intros (_ & _ & Hm) Hj Hr Hne. destruct (Hm j Hj Hr) as [H1 H2]. unfold pbs_before, pbs_better in *.
  destruct (decide (j < i)%nat) as [Hlt|]; [specialize (H2 Hlt)|clear H2]; lia.
Qed.

Lemma best_fcfs_before ps n i j :
  best_of fcfs_better ps n i → (j < n)%nat → p_state (ps !!! j) = RUNNABLE → j ≠ i → fcfs_before ps i j.
Proof.
  intros (_ & _ & Hm) Hj Hr Hne. destruct (Hm j Hj Hr) as [H1 H2]. unfold fcfs_before, fcfs_better in *.
  destruct (decide (j < i)%nat) as [Hlt|]; [specialize (H2 Hlt)|clear H2]; lia.
Qed.

(** The outcome of a round in which [before] says which process goes first and
    [run] what its entry becomes. *)
Definition runs_first (before : list proc → nat → nat → Prop) (run : proc → proc)
    (round : K ()) (s : kstate) : Prop :=
  let runnable i := p_state (k_proc s !!! i) = RUNNABLE in
  let valid i := (i < Z.to_nat NPROC)%nat in
  (round s = Ok tt (ready s) ∧ ∀ i, valid i → ¬ runnable i) ∨
  ∃ i t k, round s = Switch t k ∧ valid i ∧ runnable i ∧
    (∀ j, valid j → runnable j → j ≠ i → before (k_proc s) i j) ∧
    handed_over i (run (k_proc s !!! i)) (ready s) t ∧ comes_back i k.

(** C1: With no process lock held, a round of the PBS scheduler either finds no
    RUNNABLE process and leaves the process table alone, or switches to the one
    RUNNABLE process that precedes every other in the order (dynamic priority,
    creation time, number of runs, slot). At the switch that process is RUNNING,
    its [nrun] is one higher, its starvation flag is cleared, its lock is the
    only lock the loop kept, and interrupts are off at depth one; when the
    process gives the CPU back its lock is released. *)
Theorem pbs_round_correct s :
  idle s → length (k_proc s) = Z.to_nat NPROC → runs_first pbs_before pbs_run pbs_round s.
Proof.
  intros H Hlen. pose proof (pbs_round_pick s H Hlen) as Hr.
  pose proof (pick_spec pbs_better (k_proc s) (Z.to_nat NPROC)) as Hp. fold all_procs in Hp.
  destruct (pick _ _ _ _) as [i|]; [right|by left].
  destruct Hr as (t & k & E & Hback & Ho). pose proof Hp as (Hi & Hri & _).
  exists i, t, k. split_and!; auto. intros j ???. by eapply best_pbs_before.
Qed.

(** C7: With no process lock held, a round of the FCFS scheduler either finds no
    RUNNABLE process, or switches to the RUNNABLE process with the least creation
    time (the lowest slot among equals), with that process RUNNING, only its lock
    kept, and interrupts off; the lock is released when the process comes back. *)
Theorem fcfs_round_correct s :
  idle s → length (k_proc s) = Z.to_nat NPROC → runs_first fcfs_before fcfs_run fcfs_round s.
Proof.
  intros H Hlen. pose proof (fcfs_round_pick s H Hlen) as Hr.
  pose proof (pick_spec fcfs_better (k_proc s) (Z.to_nat NPROC)) as Hp. fold all_procs in Hp.
  destruct (pick _ _ _ _) as [i|]; [right|by left].
  destruct Hr as (t & k & E & Hback & Ho). pose proof Hp as (Hi & Hri & _).
  exists i, t, k. split_and!; auto. intros j ???. by eapply best_fcfs_before.
Qed.

(** ** Round robin *)

(** The rest of the system between a hand-over and the return of the CPU: the
    process that runs gives the CPU back from sched() with its lock held, and
    leaves the other RUNNABLE processes RUNNABLE. *)
Definition gives_back (env : kstate → kstate) : Prop :=
  ∀ t i,
    c_proc (cur_cpu t) = Some i → k_locks t !! L_proc i = Some (k_hart t) → c_noff (cur_cpu t) = 1 →
    intr_enabled (cur_cpu t) = false → 0 ≤ c_sstatus (cur_cpu t) →
    k_hart (env t) = k_hart t ∧ length (k_cpus (env t)) = length (k_cpus t) ∧
    k_locks (env t) = k_locks t ∧ length (k_proc (env t)) = length (k_proc t) ∧
    c_noff (cur_cpu (env t)) = 1 ∧ intr_enabled (cur_cpu (env t)) = false ∧
    0 ≤ c_sstatus (cur_cpu (env t)) ∧
    ∀ j, j ≠ i → p_state (k_proc t !!! j) = RUNNABLE → p_state (k_proc (env t) !!! j) = RUNNABLE.

(** Run a scheduler thread; every switch runs [env] and comes back. The states
    at the switches are collected; at most [n] switches are followed. *)
Fixpoint drive (n : nat) (env : kstate → kstate) (o : outcome kstate ()) : option (list kstate * kstate) :=
  match o with
  | Ok _ s => Some ([], s)
  | Switch s k =>
      match n with
      | O => None
      | S n => match drive n env (k (env s)) with
               | Some (tr, s') => Some (s :: tr, s')
               | None => None
               end
      end
  | _ => None
  end.

Lemma idle_settle s : idle s → cpu_ok (settle s) ∧ idle (settle s) ∧ k_proc (settle s) = k_proc s.
Proof.
  intros (Hh & Hn & Hs & Hf). unfold settle. rewrite Hn. cbn [Z.eqb].
  assert (k_hart s < length (<[k_hart s:=set_c_intena (intr_enabled (cur_cpu s)) (cur_cpu s)]> (k_cpus s)))%nat
    by by rewrite length_insert.
  unfold cpu_ok, cpu_wf, idle. rewrite !cur_set_cur_cpu by done.
  change (c_noff (set_c_intena ?b ?c)) with (c_noff c).
  change (c_sstatus (set_c_intena ?b ?c)) with (c_sstatus c).
  change (intr_enabled (set_c_intena ?b ?c)) with (intr_enabled c). rewrite Hn.
  split_and!; try done; lia.
Qed.

(** A visit to a slot: a RUNNABLE process is run and comes back, any other slot
    is left alone. *)
Lemma rr_step_ok i s :
  idle s → (i < length (k_proc s))%nat →
  if bool_decide (p_state (k_proc s !!! i) = RUNNABLE)
  then ∃ t k, rr_step i s = Switch t k ∧ comes_back i k ∧
         handed_over i (fcfs_run (k_proc s !!! i)) (settle s) t
  else rr_step i s = Ok tt (settle s).
Proof.
  intros H Hi. destruct (idle_settle s H) as (Hc & Hs & Hp).
  unfold rr_step. rewrite run_bind, <-acquire_settle, acquire_ok by (done || apply H || apply Hs).
  cbn [obind]. kgo. rewrite locked_procs, Hp.
  case_bool_decide as Hr; cbn [when]; kgo.
  - unfold swtch. cbn [obind]. eexists _, _. split; [done|]. split.
    + intros t ????. cbn [obind]. rewrite run_upd_cpu. cbn [obind]. by apply resume_ok.
    + rewrite alter_set_cur_cpu, alter_alter_proc, <-Hp.
      apply (handed_over_ok i fcfs_run (settle s)); [done|apply Hs|by rewrite Hp].
  - by rewrite (release_ok _ (settle s)) by (done || apply Hs).
Qed.

Lemma unnested_ok c : 0 ≤ c_sstatus c → 0 ≤ c_sstatus (unnested c) ∧ c_noff (unnested c) = 0.
Proof.
  intros Hs. unfold unnested. change (c_intena (set_c_noff 0 c)) with (c_intena c).
  destruct (c_intena c); (split; [|done]); [|exact Hs].
  apply Z.lor_nonneg. split; [exact Hs|]. unfold SSTATUS_SIE. by vm_compute.
Qed.

(** The process came back and its lock is released: the CPU is idle again. *)
Lemma back_idle env i k s t p' :
  gives_back env → idle s → (i < length (k_proc s))%nat →
  handed_over i p' s t → comes_back i k →
  ∃ s', k (env t) = Ok tt s' ∧ idle s' ∧ length (k_proc s') = length (k_proc s) ∧
    ∀ j, j ≠ i → p_state (k_proc s !!! j) = RUNNABLE → p_state (k_proc s' !!! j) = RUNNABLE.
Proof.
  intros Henv (Hh & Hn & _ & Hf) Hi [] Hk.
  destruct (Henv t i) as (E1 & E2 & E3 & E4 & E5 & E6 & E7 & E8);
    [done|by rewrite ho_locks0, ho_hart0, lookup_insert_eq|done|done|done|].
  assert (k_hart (env t) < length (k_cpus (env t)))%nat as Ht by by rewrite E1, E2, ho_hart0, ho_cpus0.
  eexists. split; [|split_and!].
  - apply Hk; [done| |done|done]. by rewrite E3, E1, ho_locks0, ho_hart0, lookup_insert_eq.
  - set (c := set_c_proc None (cur_cpu (env t))).
    destruct (unnested_ok c E7).
    unfold idle. change (cur_cpu (set_locks ?l ?t)) with (cur_cpu t). rewrite !cur_set_cur_cpu by done.
    split_and!; [|done|done|].
    + cbn. by rewrite length_insert.
    + intros j. cbn. rewrite E3, ho_locks0, delete_insert_id by apply Hf. apply Hf.
  - cbn. by rewrite E4, ho_procs0, length_insert.
  - intros j Hj Hr. cbn. apply E8; [done|]. by rewrite ho_procs0, list_lookup_total_insert_ne.
Qed.

Lemma rr_loop_ok env l n s :
  gives_back env → idle s → NoDup l → (∀ i, i ∈ l → (i < length (k_proc s))%nat) → (length l ≤ n)%nat →
  ∃ tr s' ran, drive n env (for_ l rr_step s) = Some (tr, s') ∧ idle s' ∧
    length (k_proc s') = length (k_proc s) ∧
    map (λ t, c_proc (cur_cpu t)) tr = map Some ran ∧ ran `sublist_of` l ∧
    ∀ i, i ∈ l → p_state (k_proc s !!! i) = RUNNABLE → i ∈ ran.
Proof.
  intros Henv. revert n s. induction l as [|i l IH]; intros n s Hs Hnd Hl Hn.
  { exists [], s, []. split_and!; [by destruct n|done..]. }
  apply NoDup_cons in Hnd as [Hil Hnd].
  assert (i < length (k_proc s))%nat as Hi by (apply Hl; set_solver).
  pose proof (rr_step_ok i s Hs Hi) as Hstep. destruct (idle_settle s Hs) as (_ & Hs' & Hp).
  cbn [for_]. rewrite run_bind. case_bool_decide as Hr.
  - destruct Hstep as (t & k & -> & Hk & Ho). cbn [obind]. rewrite <-Hp in Hi.
    destruct (back_idle env i k _ t _ Henv Hs' Hi Ho Hk) as (s1 & E1 & Hs1 & Hlen & Hrest).
    destruct n as [|n]; [cbn in Hn; lia|]. cbn [drive]. rewrite E1. cbn [obind].
    destruct (IH n s1) as (tr & s2 & ran & -> & Hs2 & Hlen2 & Htr & Hsub & Hall);
      [done|done| |cbn in Hn; lia|].
    { intros j Hj. rewrite Hlen, Hp. apply Hl. set_solver. }
    exists (t :: tr), s2, (i :: ran). split_and!; [done|done|congruence| |by constructor|].
    + cbn [map]. by rewrite (ho_proc _ _ _ _ Ho), Htr.
    + intros j [->|Hj]%elem_of_cons Hjr; [set_solver|]. apply elem_of_cons. right.
      apply Hall; [done|]. apply Hrest; [by intros ->|by rewrite Hp].
  - rewrite Hstep. cbn [obind].
    destruct (IH n (settle s)) as (tr & s2 & ran & -> & Hs2 & Hlen2 & Htr & Hsub & Hall);
      [done|done| |cbn in Hn; lia|].
    { intros j Hj. rewrite Hp. apply Hl. set_solver. }
    exists tr, s2, ran. split_and!; [done|done|congruence|done|by constructor|].
    intros j [->|Hj]%elem_of_cons Hjr; [done|]. apply Hall; [done|]. by rewrite Hp.
Qed.

Lemma idle_intr_on s : idle s → idle (set_cur_cpu (sie_on (cur_cpu s)) s).
Proof.
  intros (Hh & Hn & Hs & Hf). unfold idle. rewrite cur_set_cur_cpu by done.
  split_and!; [by cbn; rewrite length_insert|done| |done].
  cbn. apply Z.lor_nonneg. split; [done|]. unfold SSTATUS_SIE. by vm_compute.
Qed.

(** C6: A round of the round-robin scheduler terminates with every lock
    released, visits the slots in order, runs no process twice, and runs every
    process that is RUNNABLE when the round begins: no RUNNABLE process is
    starved for longer than one round, whatever the processes that run do, as
    long as each gives the CPU back and leaves the others RUNNABLE. *)
Theorem rr_round_fair env s :
  gives_back env → idle s → length (k_proc s) = Z.to_nat NPROC →
  ∃ tr s' ran, drive (Z.to_nat NPROC) env (rr_round s) = Some (tr, s') ∧ idle s' ∧
    map (λ t, c_proc (cur_cpu t)) tr = map Some ran ∧ ran `sublist_of` all_procs ∧
    ∀ i, (i < Z.to_nat NPROC)%nat → p_state (k_proc s !!! i) = RUNNABLE → i ∈ ran.
Proof.
  intros Henv Hs Hlen. unfold rr_round, intr_on. kgo.
  destruct (rr_loop_ok env all_procs (Z.to_nat NPROC) _ Henv (idle_intr_on s Hs))
    as (tr & s' & ran & E & Hs' & _ & Htr & Hsub & Hall).
  - apply NoDup_seq.
  - intros i Hi%elem_of_seq. cbn [k_proc set_cur_cpu set_cpus]. lia.
  - unfold all_procs. by rewrite length_seq.
  - exists tr, s', ran. split_and!; [done..|]. intros i Hi Hr. apply Hall; [|done].
    apply elem_of_seq. lia.
Qed.

(** ** Witnesses *)

(** Three RUNNABLE processes: slot 2 was created first, slot 5 has slept for
    most of its life, slot 7 has the better base priority. *)
Definition three_procs : kstate :=
  alter_proc 2 (λ p, set_state RUNNABLE (set_priority 60 (set_ctime 4 p)))
  (alter_proc 5 (λ p, set_state RUNNABLE (set_priority 60 (set_pbs_stime 9 (set_pbs_rtime 1 (set_ctime 8 p)))))
  (alter_proc 7 (λ p, set_state RUNNABLE (set_priority 58 (set_ctime 6 p))) boot_state)).

(** The process a scheduler thread switches to. *)
Definition switched_to (o : outcome kstate ()) : option nat :=
  match o with Switch t _ => c_proc (cur_cpu t) | _ => None end.

Lemma three_procs_idle : idle three_procs.
Proof. split_and!; [by apply Nat.ltb_lt; vm_compute|by vm_compute|by vm_compute|]. intros i. apply lookup_empty. Qed.

Lemma pbs_round_correct_witness :
  runs_first pbs_before pbs_run pbs_round three_procs ∧ switched_to (pbs_round three_procs) = Some 5%nat.
Proof.
  split; [|by vm_compute].
  apply (pbs_round_correct three_procs three_procs_idle). by vm_compute.
Defined.

Lemma fcfs_round_correct_witness :
  runs_first fcfs_before fcfs_run fcfs_round three_procs ∧ switched_to (fcfs_round three_procs) = Some 2%nat.
Proof.
  split; [|by vm_compute].
  apply (fcfs_round_correct three_procs three_procs_idle). by vm_compute.
Defined.

(** The process that runs does nothing but yield. *)
Definition yielder (t : kstate) : kstate :=
  match c_proc (cur_cpu t) with Some i => alter_proc i (set_state RUNNABLE) t | None => t end.

Lemma yielder_gives_back : gives_back yielder.
Proof.
  intros t i Hi Hl Hn Hin Hs. unfold yielder. rewrite Hi.
  split_and!; try done; [apply length_alter_proc|].
  intros j Hj Hr. by rewrite lookup_alter_proc_ne.
Qed.

Lemma rr_round_fair_witness :
  ∃ tr s' ran, drive (Z.to_nat NPROC) yielder (rr_round three_procs) = Some (tr, s') ∧ idle s' ∧
    map (λ t, c_proc (cur_cpu t)) tr = map Some ran ∧ ran `sublist_of` all_procs ∧
    ∀ i, (i < Z.to_nat NPROC)%nat → p_state (k_proc three_procs !!! i) = RUNNABLE → i ∈ ran.
Proof. apply (rr_round_fair yielder three_procs yielder_gives_back three_procs_idle). by vm_compute. Defined.
