(* ===== verification/Priority.v ===== *)
(** System-call arguments (argraw(), argint(), argaddr() of kernel/syscall.c)
    and the two priority system calls of kernel/sysproc.c. *)

From Stdlib Require Import ZArith Lia ZifyBool.
From stdpp Require Import base numbers list gmap strings.
From S2P Require Import Prelude Params Machine Spinlock Printf Sched.

(** The trapframe page at [a]; any other address faults in the kernel. *)
Definition get_tf (a : Z) : K trapframe :=
  o ← gets (λ s, k_trapframes s !! a);
  match o with Some tf => mret tf | None => panic "kerneltrap" end.
Definition upd_tf (a : Z) (f : trapframe → trapframe) : K () :=
  modify (λ s, set_trapframes (alter f a (k_trapframes s)) s).

Definition argraw (n : Z) : K Z :=
  i ← curproc;
  p ← get_proc i;
  tf ← get_tf (p_trapframe p);
  if n =? 0 then mret (tf_a0 tf)
  else if n =? 1 then mret (tf_a1 tf)
  else if n =? 2 then mret (tf_a2 tf)
  else if n =? 3 then mret (tf_a3 tf)
  else if n =? 4 then mret (tf_a4 tf)
  else if n =? 5 then mret (tf_a5 tf)
  else panic "argraw".

Definition argint (n : Z) : K Z := v ← argraw n; mret (i32 v).
Definition argaddr (n : Z) : K Z := argraw n.

Definition sys_setpriority : K Z :=
  pid ← argint 0;
  pr ← argint 1;
  if (pr <? MIN_PRIORITY) || (MAX_PRIORITY <? pr) then mret (u64 (-1)) else
  r ← for_find all_procs (λ i,
    acquire (L_proc i);;
    p ← get_proc i;
    if p_pid p =? pid then
      upd_proc i (set_priority pr);;
      release (L_proc i);;
      mret (Some 0)
    else
      release (L_proc i);;
      mret None);
  mret (default (u64 (-1)) r).

Definition sys_getpriority : K Z :=
  pid ← argint 0;
  r ← for_find all_procs (λ i,
    acquire (L_proc i);;
    p ← get_proc i;
    if p_pid p =? pid then
      let pr := p_priority p in
      release (L_proc i);;
      mret (Some (u64 pr))
    else
      release (L_proc i);;
      mret None);
  mret (default (u64 (-1)) r).

(** ** Specification *)

(** The slot the scans stop at: the first one with this pid. *)
Definition find_pid (pid : Z) (ps : list proc) : option nat :=
  fst <$> list_find (λ p, p_pid p = pid) ps.

(** A scan that locks each slot, looks at it, and stops at the first slot with
    the pid, where it runs [f] on the entry and returns [r]. *)
Lemma scan_pid {R} (pid : Z) (f : proc → proc) (g : proc → R) (body : nat → K (option R)) s :
  (∀ i t, cpu_ok t → k_locks t !! L_proc i = None → (i < length (k_proc t))%nat →
     body i t = if p_pid (k_proc t !!! i) =? pid
                then Ok (Some (g (k_proc t !!! i))) (alter_proc i f t) else Ok None t) →
  cpu_ok s → (∀ i, k_locks s !! L_proc i = None) → length (k_proc s) = Z.to_nat NPROC →
  for_find all_procs body s =
    match find_pid pid (k_proc s) with
    | Some i => Ok (Some (g (k_proc s !!! i))) (alter_proc i f s)
    | None => Ok None s
    end.
Proof.
  intros Hbody Hc Hf Hlen. unfold all_procs, find_pid. rewrite <-Hlen.
  assert (Hgen : ∀ l k, drop k (k_proc s) = l →
    for_find (seq k (length l)) body s =
      match fst <$> list_find (λ p, p_pid p = pid) l with
      | Some i => Ok (Some (g (k_proc s !!! (k + i)%nat))) (alter_proc (k + i) f s)
      | None => Ok None s
      end).
  { induction l as [|p l IH]; intros k Hk; [done|].
    assert (Hp : k_proc s !! k = Some p).
    { pose proof (lookup_drop (k_proc s) k 0) as E. rewrite Hk, Nat.add_0_r in E. by rewrite <-E. }
    assert (Hkl : (k < length (k_proc s))%nat) by by eapply lookup_lt_Some.
    assert (Ht : k_proc s !!! k = p) by by apply list_lookup_total_correct.
    cbn [length seq for_find]. rewrite run_bind, Hbody by auto. rewrite Ht. cbn [list_find].
    destruct (Z.eqb_spec (p_pid p) pid) as [E|E].
    - rewrite decide_True by done. cbn. by rewrite Nat.add_0_r, Ht.
    - rewrite decide_False by done. cbn [obind]. rewrite (IH (S k)).
      + destruct (list_find _ l) as [[j q]|]; cbn; [|done]. by rewrite Nat.add_succ_r.
      + by rewrite <-Nat.add_1_r, <-drop_drop, Hk. }
  exact (Hgen (k_proc s) 0%nat eq_refl).
Qed.

(** The process that makes the call, and its trapframe. *)
Definition calls (me : nat) (tf : trapframe) (s : kstate) : Prop :=
  cpu_ok s ∧ c_proc (cur_cpu s) = Some me ∧ k_trapframes s !! p_trapframe (k_proc s !!! me) = Some tf.

(** The register that carries argument [n]. *)
Definition arg_reg (tf : trapframe) (n : Z) : option Z :=
  [tf_a0 tf; tf_a1 tf; tf_a2 tf; tf_a3 tf; tf_a4 tf; tf_a5 tf] !! Z.to_nat n.

Lemma argraw_ok me tf s n v : calls me tf s → 0 ≤ n → arg_reg tf n = Some v → argraw n s = Ok v s.
Proof.
  intros (Hc & Hme & Htf) Hn Hv. unfold argraw, get_tf. rewrite run_bind, (curproc_ok me) by done.
  cbn [obind]. kgo. rewrite Htf. cbn [obind]. unfold arg_reg in Hv. rewrite <-(Z2Nat.id n) by done.
  revert Hv. generalize (Z.to_nat n). clear. intros n.
  do 6 (destruct n as [|n]; [by intros; simplify_eq/=|]). done.
Qed.

Lemma argint_ok me tf s n v : calls me tf s → 0 ≤ n → arg_reg tf n = Some v → argint n s = Ok (i32 v) s.
Proof. intros Hc Hn Hv. unfold argint. by rewrite run_bind, (argraw_ok me tf s n v). Qed.

Section ok.
Context (me : nat) (tf : trapframe) (s : kstate).
Hypothesis (Hcall : calls me tf s) (Hlen : length (k_proc s) = Z.to_nat NPROC).
Hypothesis Hfree : ∀ i, k_locks s !! L_proc i = None.

Lemma sys_setpriority_ok :
  let pid := i32 (tf_a0 tf) in
  let pr := i32 (tf_a1 tf) in
  sys_setpriority s =
    if (pr <? MIN_PRIORITY) || (MAX_PRIORITY <? pr) then Ok (u64 (-1)) s
    else match find_pid pid (k_proc s) with
         | Some i => Ok 0 (alter_proc i (set_priority pr) s)
         | None => Ok (u64 (-1)) s
         end.
Proof using Hcall Hlen Hfree.
  intros pid pr. unfold sys_setpriority.
  rewrite run_bind, (argint_ok me tf s 0 _ Hcall (Z.le_refl 0) eq_refl). cbn [obind].
  rewrite run_bind, (argint_ok me tf s 1 _ Hcall Z.le_0_1 eq_refl). cbn [obind]. fold pid pr.
  destruct (_ || _); [done|]. rewrite run_bind.
  rewrite (scan_pid pid (set_priority pr) (λ _, 0)); [|clear|apply Hcall|done|done].
  - by destruct (find_pid pid (k_proc s)).
  - intros i t Hc Hl Hi. rewrite run_bind, acquire_ok by done. cbn [obind]. kgo.
    change (k_proc (locked _ t)) with (k_proc t). destruct (_ =? _); kgo.
    + by rewrite (release_ok _ t).
    + by rewrite (release_ok _ t).
Qed.

Lemma sys_getpriority_ok :
  let pid := i32 (tf_a0 tf) in
  sys_getpriority s =
    match find_pid pid (k_proc s) with
    | Some i => Ok (u64 (p_priority (k_proc s !!! i))) s
    | None => Ok (u64 (-1)) s
    end.
Proof using Hcall Hlen Hfree.
  intros pid. unfold sys_getpriority.
  rewrite run_bind, (argint_ok me tf s 0 _ Hcall (Z.le_refl 0) eq_refl). cbn [obind]. fold pid. rewrite run_bind.
  rewrite (scan_pid pid (λ p, p) (λ p, u64 (p_priority p))); [|clear|apply Hcall|done|done].
  - destruct (find_pid pid (k_proc s)); [|done]. cbn. by rewrite alter_proc_id.
  - intros i t Hc Hl Hi. rewrite run_bind, acquire_ok by done. cbn [obind]. kgo.
    change (k_proc (locked _ t)) with (k_proc t). destruct (_ =? _); kgo.
    + rewrite (release_ok _ t) by done. cbn [obind]. by rewrite alter_proc_id.
    + by rewrite (release_ok _ t).
Qed.

Lemma kkill_ok pid :
  kkill pid s =
    match find_pid pid (k_proc s) with
    | Some i =>
        Ok 0 (alter_proc i (λ p, let p := set_killed 1 p in
                if bool_decide (p_state p = SLEEPING) then set_state RUNNABLE p else p) s)
    | None => Ok (-1) s
    end.
Proof using Hcall Hlen Hfree.
  unfold kkill. rewrite run_bind.
  set (f := λ p : proc, _).
  rewrite (scan_pid pid f (λ _, 0)); [|clear|apply Hcall|done|done].
  - by destruct (find_pid pid (k_proc s)).
  - intros i t Hc Hl Hi. rewrite run_bind, acquire_ok by done. cbn [obind]. kgo.
    change (k_proc (locked _ t)) with (k_proc t). destruct (_ =? _); kgo.
    + destruct (bool_decide (p_state (k_proc t !!! i) = SLEEPING)) eqn:E; cbn [when]; kgo.
      * rewrite (release_ok _ t) by done. cbn [obind]. f_equal. rewrite alter_alter_proc.
        trans (alter_proc i (λ p, set_state RUNNABLE (set_killed 1 p)) t); [done|].
        apply alter_proc_ext. unfold f. cbn. by rewrite E.
      * rewrite (release_ok _ t) by done. cbn [obind]. f_equal.
        trans (alter_proc i (set_killed 1) t); [done|].
        apply alter_proc_ext. unfold f. cbn. by rewrite E.
    + by rewrite (release_ok _ t).
Qed.
End ok.

Lemma find_pid_Some pid ps i :
  find_pid pid ps = Some i → (i < length ps)%nat ∧ p_pid (ps !!! i) = pid.
Proof.
  unfold find_pid. destruct (list_find _ ps) as [[j p]|] eqn:E; [|done]. cbn. intros [= <-].
  apply list_find_Some in E as (Hj & Hp & _). split; [by eapply lookup_lt_Some|].
  by rewrite (list_lookup_total_correct _ _ _ Hj).
Qed.

Lemma find_pid_alter pid i f s :
  (∀ p, p_pid (f p) = p_pid p) → find_pid pid (k_proc (alter_proc i f s)) = find_pid pid (k_proc s).
Proof.
  intros Hf. unfold find_pid, alter_proc. cbn. generalize (k_proc s). clear s. intros ps.
  revert i. induction ps as [|p ps IH]; intros i; [done|]. destruct i as [|i]; cbn [alter list_alter].
  - cbn [list_find]. destruct (decide (p_pid p = pid)).
    + rewrite decide_True by by rewrite Hf. done.
    + rewrite decide_False by by rewrite Hf. done.
  - cbn [list_find]. destruct (decide (p_pid p = pid)); [done|].
    specialize (IH i). change (list_alter f i ps) with (alter f i ps).
    destruct (list_find _ (alter f i ps)) as [[]|], (list_find _ ps) as [[]|]; cbn in *; congruence.
Qed.

Lemma calls_alter me tf s i f :
  calls me tf s → (∀ p, p_trapframe (f p) = p_trapframe p) → calls me tf (alter_proc i f s).
Proof.
  intros (Hc & Hme & Htf) Hf. split_and!; [exact Hc|exact Hme|].
  change (k_trapframes (alter_proc i f s)) with (k_trapframes s). rewrite <-Htf. f_equal.
  destruct (decide (i = me)) as [->|Hne]; [|by rewrite lookup_alter_proc_ne].
  destruct (decide (me < length (k_proc s))%nat) as [Hlt|Hge].
  - by rewrite lookup_alter_proc, Hf.
  - unfold alter_proc. cbn. rewrite !list_lookup_total_alt, list_lookup_alter_eq.
    by rewrite lookup_ge_None_2 by lia.
Qed.

(** ** Theorems *)

(** C10: setpriority(pid, pr) followed by getpriority(pid).  A priority
    outside [MIN_PRIORITY, MAX_PRIORITY] is refused and nothing changes; so is a
    pid that no slot has.  Otherwise exactly the first slot with that pid gets
    the priority, the call returns 0, and getpriority returns the value set. *)
Theorem setpriority_getpriority me tf s :
  calls me tf s → length (k_proc s) = Z.to_nat NPROC → (∀ i, k_locks s !! L_proc i = None) →
  let pid := i32 (tf_a0 tf) in
  let pr := i32 (tf_a1 tf) in
  if bool_decide (MIN_PRIORITY ≤ pr ≤ MAX_PRIORITY ∧ find_pid pid (k_proc s) ≠ None)
  then ∃ i s', find_pid pid (k_proc s) = Some i ∧
         sys_setpriority s = Ok 0 s' ∧ s' = alter_proc i (set_priority pr) s ∧
         sys_getpriority s' = Ok pr s'
  else sys_setpriority s = Ok (u64 (-1)) s.
Proof.
  intros Hc Hlen Hf pid pr. rewrite sys_setpriority_ok with me tf s by done. fold pid pr.
  case_bool_decide as H.
  - destruct H as [Hpr Hfind]. destruct (find_pid pid (k_proc s)) as [i|] eqn:Hi; [|done].
    exists i, (alter_proc i (set_priority pr) s). split_and!; [done| |done|].
    + replace (_ || _) with false; [done|]. lia.
    + destruct (find_pid_Some pid _ i Hi) as (Hlt & Hpid).
      rewrite (sys_getpriority_ok me tf).
      * fold pid. rewrite find_pid_alter, Hi by done. rewrite lookup_alter_proc by done. cbn.
        f_equal. apply u64_small. unfold MIN_PRIORITY, MAX_PRIORITY in *. lia.
      * by apply calls_alter.
      * by rewrite length_alter_proc.
      * done.
  - destruct (_ || _) eqn:Hr; [done|]. destruct (find_pid pid (k_proc s)) eqn:Hi; [|done].
    exfalso. apply H. split; [lia|done].
Qed.

(** ** Witness *)

(** Process 7 in slot 3 runs on hart 0 and asks for priority 5 for itself. *)
Definition caller (a0 a1 : Z) : kstate :=
  set_trapframes {[ 0x80008000 := set_tf_a0 a0 (set_tf_a1 a1 zero_trapframe) ]}
    (alter_proc 3 (λ p, set_state RUNNING (set_pid 7 (set_trapframe 0x80008000 p)))
      (set_cur_cpu (set_c_proc (Some 3%nat) (cur_cpu boot_state)) boot_state)).

Lemma caller_calls a0 a1 : calls 3 (set_tf_a0 a0 (set_tf_a1 a1 zero_trapframe)) (caller a0 a1).
Proof.
  split_and!; [|by vm_compute|by vm_compute]. split; [by apply Nat.ltb_lt; vm_compute|].
  replace (cur_cpu (caller a0 a1)) with (set_c_proc (Some 3%nat) zero_cpu) by by vm_compute.
  split_and!; cbn; try done; lia.
Qed.

Lemma setpriority_getpriority_witness :
  ∃ i s', find_pid 7 (k_proc (caller 7 5)) = Some i ∧
    sys_setpriority (caller 7 5) = Ok 0 s' ∧ s' = alter_proc i (set_priority 5) (caller 7 5) ∧
    sys_getpriority s' = Ok 5 s'.
Proof.
  pose proof (setpriority_getpriority 3 _ (caller 7 5) (caller_calls 7 5) eq_refl (λ i, lookup_empty _)) as H.
  cbn zeta in H. rewrite bool_decide_true in H; [exact H|]. by vm_compute.
Defined.
