(* ===== verification/Ageing.v ===== *)
(** Ageing and starvation: what the clock does to the scheduling data of a
    process, over one tick and over many, and the bounds that every scheduling
    operation of kernel/proc.c and kernel/trap.c keeps. *)

From Stdlib Require Import ZArith Lia ZifyBool.
From stdpp Require Import base numbers list gmap strings.
From S2P Require Import Prelude Params Machine Spinlock Printf Sched Priority.

(** ** Bounds on the scheduling data *)

(** Priority in range, and the waiting time never above the ageing threshold;
    the starvation flag is down. *)
Definition sched_sane (p : proc) : Prop :=
  MIN_PRIORITY ≤ p_priority p ≤ MAX_PRIORITY ∧ 0 ≤ p_wtime p ≤ AGING_THRESHOLD ∧ p_starving p = 0.

Definition table_sane (s : kstate) : Prop := Forall sched_sane (k_proc s).

Global Instance table_sane_insensitive : LockInsensitive table_sane.
Proof. by split. Qed.

Lemma preserves_upd_sane i f :
  (∀ p, sched_sane p → sched_sane (f p)) → preserves table_sane (upd_proc i f).
Proof.
  intros Hf. apply preserves_modify. intros s Hs. unfold table_sane, alter_proc. cbn.
  apply Forall_alter; [done|]. intros p Hp ?. by apply Hf.
Qed.

Lemma sane_lookup s i : table_sane s → sched_sane (k_proc s !!! i).
Proof.
  intros Hs. destruct (k_proc s !! i) as [p|] eqn:E.
  - rewrite (list_lookup_total_correct _ _ _ E). by eapply Forall_lookup_1.
  - rewrite list_lookup_total_alt, E. cbn. unfold sched_sane, MIN_PRIORITY, MAX_PRIORITY, AGING_THRESHOLD. cbn. lia.
Qed.

Lemma table_sane_alter s i f :
  table_sane s → sched_sane (f (k_proc s !!! i)) → table_sane (alter_proc i f s).
Proof.
  intros Hs Hf. unfold table_sane, alter_proc. cbn. apply Forall_alter; [done|].
  intros p Hp _. by rewrite (list_lookup_total_correct _ _ _ Hp) in Hf.
Qed.

(** An invariant that asks of the scheduling data just that, and nothing of the
    rest of a process that the clock would change. *)
Class SchedInv (I : kstate → Prop) : Prop := {
  si_lock :: LockInsensitive I;
  si_sane s i : I s → sched_sane (k_proc s !!! i);
  si_alter s i f : I s → sched_sane (f (k_proc s !!! i)) →
    p_ofile (f (k_proc s !!! i)) = p_ofile (k_proc s !!! i) →
    p_cwd (f (k_proc s !!! i)) = p_cwd (k_proc s !!! i) →
    p_name (f (k_proc s !!! i)) = p_name (k_proc s !!! i) → I (alter_proc i f s);
}.

Global Instance table_sane_sched : SchedInv table_sane.
Proof. split; [apply _|intros; by apply sane_lookup|intros; by apply table_sane_alter]. Qed.

Lemma sane_waited p :
  sched_sane p → sched_sane (age_fn (set_state RUNNABLE (set_wtime (i32 (p_wtime p + 1)) p))).
Proof.
  unfold sched_sane, age_fn, aged_priority, MIN_PRIORITY, MAX_PRIORITY, AGING_THRESHOLD, AGING_STEP.
  intros (Hp & Hw & Hs). rewrite bool_decide_true by done. cbn. rewrite !i32_small by lia.
  destruct (Z.ltb_spec 10 (p_wtime p + 1)); cbn; [|lia].
  destruct (Z.ltb_spec 0 (p_priority p)); lia.
Qed.

Lemma sane_not_starving p : sched_sane p → (STARVING_THRESHOLD <? p_wtime p) = false.
Proof. unfold sched_sane, STARVING_THRESHOLD, AGING_THRESHOLD. lia. Qed.

Lemma age_fn_frame p :
  p_ofile (age_fn p) = p_ofile p ∧ p_cwd (age_fn p) = p_cwd p ∧ p_name (age_fn p) = p_name p.
Proof. unfold age_fn. by destruct (_ && _). Qed.

Section tick.
Context (I : kstate → Prop) {SI : SchedInv I}.

Lemma preserves_aging_debug i a b : preserves I (aging_debug i a b).
Proof using SI. unfold aging_debug. cbn [DEBUG_AGING]. preserve. Qed.

Lemma aging_update_sane i s :
  I (alter_proc i age_fn s) → keeps I (λ _, I) (aging_update i s).
Proof using SI.
  intros Ht. unfold aging_update. kgo. case_bool_decide as Hr; cbn [negb].
  - destruct (decide (i < length (k_proc s))%nat) as [Hi|Hi].
    + rewrite run_bind, aging_boost_ok by done. cbn [obind].
      by apply preserves_aging_debug.
    + by rewrite list_lookup_total_alt, lookup_ge_None_2 in Hr by lia.
  - rewrite run_ret. destruct (age_fn_not_runnable _ Hr) as [E _]. by rewrite alter_proc_id in Ht.
Qed.

Lemma detect_starving_sane i : preserves I (detect_starving i).
Proof using SI.
  intros s Hs. unfold detect_starving. kgo. by rewrite (sane_not_starving _ (si_sane s i Hs)).
Qed.

Lemma tick_proc_sane i : preserves I (tick_proc i).
Proof using SI.
  unfold tick_proc. apply preserves_bind; [preserve|intros _ s Hs]. kgo.
  apply keeps_bind with (Q := λ _, I).
  - destruct (p_state (k_proc s !!! i)) eqn:Est; try done.
    + kgo. cbn. rewrite alter_alter_proc. apply si_alter; [done| |done..]. by apply (si_sane s i).
    + change (negb (AGING_ENABLE =? 0)) with true. cbn [when]. kgo. apply aging_update_sane.
      rewrite alter_alter_proc.
      destruct (age_fn_frame (set_wtime (i32 (p_wtime (k_proc s !!! i) + 1)) (k_proc s !!! i))) as (Ho & Hd & Hn).
      apply si_alter; [done| |done..].
      pose proof (sane_waited _ (si_sane s i Hs)) as H.
      revert H. generalize (i32 (p_wtime (k_proc s !!! i) + 1)). intros w.
      replace (set_state RUNNABLE (set_wtime w (k_proc s !!! i))) with (set_wtime w (k_proc s !!! i)); [done|].
      unfold set_state, set_wtime. cbn. by rewrite <-Est.
    + kgo. cbn. rewrite alter_alter_proc. apply si_alter; [done| |done..]. by apply (si_sane s i).
  - intros _ t Ht. apply keeps_bind with (Q := λ _, I); [by apply detect_starving_sane|].
    intros _ u Hu. by apply preserves_release; [apply _|].
Qed.
End tick.

(** ** The bounds hold whatever the scheduling code does *)

Lemma preserves_upd_state_sane i st : preserves table_sane (upd_proc i (set_state st)).
Proof. by apply preserves_upd_sane. Qed.

Lemma preserves_upd_chan_sane i c : preserves table_sane (upd_proc i (set_chan c)).
Proof. by apply preserves_upd_sane. Qed.

Lemma preserves_upd_killed_sane i v : preserves table_sane (upd_proc i (set_killed v)).
Proof. by apply preserves_upd_sane. Qed.

Lemma preserves_upd_nrun_sane i : preserves table_sane (upd_proc i (λ p, set_nrun (i32 (p_nrun p + 1)) p)).
Proof. by apply preserves_upd_sane. Qed.

Lemma preserves_upd_starving_sane i : preserves table_sane (upd_proc i (set_starving 0)).
Proof. apply preserves_upd_sane. by intros p (? & ? & _). Qed.

Lemma preserves_set_ticks_sane f : preserves table_sane (modify (λ s, set_ticks (f s) s)).
Proof. by apply preserves_modify. Qed.

Global Hint Resolve preserves_upd_state_sane preserves_upd_chan_sane preserves_upd_killed_sane
  preserves_upd_nrun_sane preserves_upd_starving_sane preserves_set_ticks_sane tick_proc_sane : kernel.

Lemma wakeup_sane ch : preserves table_sane (wakeup ch).
Proof. unfold wakeup, wakeup_step. preserve. Qed.
Global Hint Resolve wakeup_sane : kernel.

Lemma clockintr_sane : preserves table_sane clockintr.
Proof. unfold clockintr, cpuid. preserve. Qed.

Lemma yield_sane : preserves table_sane yield.
Proof. unfold yield. preserve. Qed.

Lemma sleep_sane ch lk : preserves table_sane (sleep ch lk).
Proof. unfold sleep, sleep_steps. cbn [statements]. preserve. Qed.

Lemma kkill_sane pid : preserves table_sane (kkill pid).
Proof. unfold kkill. preserve. Qed.

Lemma setkilled_sane i : preserves table_sane (setkilled i).
Proof. unfold setkilled. preserve. Qed.

Lemma argint_sane n : preserves table_sane (argint n).
Proof. unfold argint, argraw, get_tf. preserve. Qed.

Lemma sys_setpriority_sane : preserves table_sane sys_setpriority.
Proof.
  unfold sys_setpriority. apply preserves_bind; [apply argint_sane|intros pid].
  apply preserves_bind; [apply argint_sane|intros pr].
  destruct (_ || _) eqn:Hr; [preserve|]. preserve. apply preserves_upd_sane.
  intros p (_ & Hw & Hs). split; [cbn; lia|done].
Qed.

Lemma pbs_step_sane acc i : preserves table_sane (pbs_step acc i).
Proof. destruct acc. unfold pbs_step. preserve. Qed.
Global Hint Resolve pbs_step_sane : kernel.

Lemma scheduler_sane n pol : preserves table_sane (scheduler n pol).
Proof.
  unfold scheduler. apply preserves_bind; [preserve|intros _].
  induction n as [|n IH]; [apply preserves_no_fuel|]. cbn [scheduler_rounds]. apply preserves_bind; [|done].
  destruct pol; cbn [scheduler_round];
    unfold rr_round, rr_step, fcfs_round, fcfs_select, fcfs_step, pbs_round, pbs_select; preserve.
Qed.

(** The scheduling operations, as the rest of the kernel calls them. *)
Inductive sched_op :=
  | Op_clock
  | Op_scheduler (n : nat) (pol : policy)
  | Op_yield
  | Op_sleep (ch : chan) (lk : lockid)
  | Op_wakeup (ch : chan)
  | Op_kill (pid : Z)
  | Op_setkilled (i : nat)
  | Op_setpriority.

Definition run_op (op : sched_op) : K () :=
  match op with
  | Op_clock => clockintr
  | Op_scheduler n pol => scheduler n pol
  | Op_yield => yield
  | Op_sleep ch lk => sleep ch lk
  | Op_wakeup ch => wakeup ch
  | Op_kill pid => kkill pid;; mret tt
  | Op_setkilled i => setkilled i
  | Op_setpriority => sys_setpriority;; mret tt
  end.

(** C3: From boot, and through every scheduling operation under any of
    the three policies, every process keeps its priority in [0, 100] and its
    waiting time at most AGING_THRESHOLD, and its starvation flag is never
    raised: ageing resets the waiting time long before STARVING_THRESHOLD, so
    detect_starving() never fires. The invariant holds in every state in which
    an operation returns, switches away or busy-waits, whatever invariant-keeping
    code runs while it is switched away. *)
Theorem scheduling_keeps_bounds :
  table_sane boot_state ∧ ∀ op, preserves table_sane (run_op op).
Proof.
  split.
  - apply Forall_replicate. unfold sched_sane, MIN_PRIORITY, MAX_PRIORITY, AGING_THRESHOLD. cbn. lia.
  - intros []; cbn [run_op].
    + apply clockintr_sane.
    + apply scheduler_sane.
    + apply yield_sane.
    + apply sleep_sane.
    + apply wakeup_sane.
    + apply preserves_bind; [apply kkill_sane|preserve].
    + apply setkilled_sane.
    + apply preserves_bind; [apply sys_setpriority_sane|preserve].
Qed.

(** ** Ageing over time *)

(** [n] clock interrupts in a row. *)
Fixpoint clock_ticks (n : nat) : K () :=
  match n with O => mret tt | S n => clockintr;; clock_ticks n end.

Lemma tick_fn_runnable p :
  p_state p = RUNNABLE → 0 ≤ p_priority p ≤ 100 → 0 ≤ p_wtime p ≤ 10 →
  tick_fn p =
    if p_wtime p =? 10 then set_wtime 0 (set_priority (Z.max 0 (p_priority p - 1)) p)
    else set_wtime (p_wtime p + 1) p.
Proof.
  intros Hr Hp Hw. unfold tick_fn, account_fn. rewrite Hr.
  rewrite i32_small by lia. unfold age_fn. rewrite bool_decide_true by done. cbn [andb].
  change (p_wtime (set_wtime ?v p)) with v.
  unfold detect_fn, aged_priority, AGING_THRESHOLD, STARVING_THRESHOLD, MIN_PRIORITY, AGING_STEP.
  destruct (Z.eqb_spec (p_wtime p) 10) as [->|]; cbn -[i32].
  - destruct (Z.ltb_spec 0 (p_priority p)); cbn -[i32].
    + rewrite i32_small by lia. by rewrite Z.max_r by lia.
    + replace (p_priority p) with 0 by lia. done.
  - replace (10 <? p_wtime p + 1) with false by lia. cbn.
    by replace (30 <? p_wtime p + 1) with false by lia.
Qed.

Lemma lookup_tick_table me ps i :
  (i < length ps)%nat → p_state (ps !!! i) = RUNNABLE → tick_table me ps !!! i = tick_fn (ps !!! i).
Proof.
  intros Hi Hr. unfold tick_table, woken. apply list_lookup_total_correct.
  rewrite list_lookup_fmap, list_lookup_imap, (list_lookup_lookup_total_lt ps i) by done. cbn.
  unfold wake_fn. rewrite (bool_decide_false (p_state _ = SLEEPING)) by (by rewrite Hr).
  by destruct (bool_decide _).
Qed.

(** Waiting ticks: the priority drops by one every AGING_THRESHOLD + 1 ticks. *)
Definition aged (n : nat) (p q : proc) : Prop :=
  let waited := p_wtime p + Z.of_nat n in
  p_state q = RUNNABLE ∧
  p_priority q = Z.max MIN_PRIORITY (p_priority p - waited / (AGING_THRESHOLD + 1)) ∧
  p_wtime q = waited mod (AGING_THRESHOLD + 1) ∧
  p_starving q = p_starving p.

Lemma aged_step n p q :
  0 ≤ p_priority p ≤ 100 → 0 ≤ p_wtime p ≤ 10 → aged n p q → aged (S n) p (tick_fn q).
Proof.
  unfold aged, AGING_THRESHOLD, MIN_PRIORITY. intros Hp Hw (Hr & Hpr & Hwt & Hs).
  change (10 + 1) with 11 in *.
  rewrite tick_fn_runnable by (try done; rewrite ?Hpr, ?Hwt; dlia).
  destruct (Z.eqb_spec (p_wtime q) 10); cbn [p_state p_priority p_wtime p_starving set_wtime set_priority];
    rewrite ?Hpr, ?Hwt in *; split_and!; try done; dlia.
Qed.

(** CPU 0 in a state in which a clock interrupt can be handled. *)
Definition clock_ready (s : kstate) : Prop :=
  quiet 16 s ∧ length (k_proc s) = Z.to_nat NPROC ∧ k_locks s !! L_ticks = None ∧ k_hart s = 0%nat.

Lemma clock_ready_step s :
  clock_ready s →
  ∃ s', clockintr s = Ok tt s' ∧ clock_ready s' ∧ k_proc s' = tick_table (c_proc (cur_cpu s)) (k_proc s).
Proof.
  intros (Hq & Hlen & Ht & Hh). eexists. split; [by apply (clockintr_ok 16)|].
  pose proof Hq as ((Hhl & Hwf) & Hd & Hp & Hpr). split; [|done]. unfold clock_ready, quiet, cpu_ok.
  rewrite cur_set_cur_cpu by done. split_and!; try done.
  - cbn. by rewrite length_insert.
  - cbn. unfold tick_table, woken. by rewrite length_fmap, length_imap.
Qed.

Lemma clock_ticks_aged n s i :
  clock_ready s → (i < Z.to_nat NPROC)%nat → p_state (k_proc s !!! i) = RUNNABLE →
  MIN_PRIORITY ≤ p_priority (k_proc s !!! i) ≤ MAX_PRIORITY →
  0 ≤ p_wtime (k_proc s !!! i) ≤ AGING_THRESHOLD →
  ∀ k t, clock_ready t → aged k (k_proc s !!! i) (k_proc t !!! i) →
  ∃ s', clock_ticks n t = Ok tt s' ∧ clock_ready s' ∧ aged (k + n) (k_proc s !!! i) (k_proc s' !!! i).
Proof.
  intros Hs Hi Hr Hp Hw. induction n as [|n IH]; intros k t Ht Ha.
  - exists t. by rewrite Nat.add_0_r.
  - destruct (clock_ready_step t Ht) as (t1 & E1 & Ht1 & Hp1). pose proof Ht as (_ & Hlen & _).
    cbn [clock_ticks]. rewrite run_bind, E1. cbn [obind].
    rewrite Nat.add_succ_r, <-Nat.add_succ_l. apply IH; [done|].
    rewrite Hp1, lookup_tick_table by (try apply Ha; lia). by apply aged_step.
Qed.

(** C2: A process that waits RUNNABLE while CPU 0 takes [n] clock interrupts
    has its priority number lowered by one for every AGING_THRESHOLD + 1 ticks
    it has waited, down to MIN_PRIORITY and no further; the remainder of the
    wait is in wtime. So a process of priority [p] that is never run reaches the
    best priority after at most (p + 1) * (AGING_THRESHOLD + 1) ticks, and the
    starvation flag is not touched. *)
Theorem waiting_process_ages n s i :
  clock_ready s → (i < Z.to_nat NPROC)%nat → p_state (k_proc s !!! i) = RUNNABLE →
  MIN_PRIORITY ≤ p_priority (k_proc s !!! i) ≤ MAX_PRIORITY →
  0 ≤ p_wtime (k_proc s !!! i) ≤ AGING_THRESHOLD →
  ∃ s', clock_ticks n s = Ok tt s' ∧ aged n (k_proc s !!! i) (k_proc s' !!! i) ∧
    ((p_priority (k_proc s !!! i) + 1) * (AGING_THRESHOLD + 1) ≤ Z.of_nat n →
     p_priority (k_proc s' !!! i) = MIN_PRIORITY).
Proof.
  intros Hs Hi Hr Hp Hw.
  destruct (clock_ticks_aged n s i Hs Hi Hr Hp Hw 0 s Hs) as (s' & E & _ & Ha).
  - unfold aged. rewrite Z.add_0_r. unfold AGING_THRESHOLD, MIN_PRIORITY, MAX_PRIORITY in *. split_and!; [done|dlia..|done].
  - exists s'. split_and!; [done|done|]. destruct Ha as (_ & -> & _). cbn [Nat.add].
    unfold AGING_THRESHOLD, MIN_PRIORITY, MAX_PRIORITY in *. intros. dlia.
Qed.

(** C8: A clock interrupt on CPU 0 increments the tick count modulo 2^32,
    wakes exactly the processes that sleep on the tick counter (other than the
    one it interrupted), accounts the tick to every process according to its
    state, ages the RUNNABLE ones and prints a line for each priority that
    changed, and sets the next timer deadline; all locks are as before. On any
    other CPU it only sets the deadline. *)
Theorem clock_interrupt_correct d s :
  quiet d s → d < 2 ^ 29 → length (k_proc s) = Z.to_nat NPROC → k_locks s !! L_ticks = None →
  let me := c_proc (cur_cpu s) in
  let deadline := set_c_stimecmp (u64 (k_time s + 1000000)) (cur_cpu s) in
  clockintr s =
    Ok tt (set_cur_cpu deadline
      (if bool_decide (k_hart s = 0%nat)
       then set_out (k_out s ++ concat (tick_out <$> woken me Ch_ticks (k_proc s)))
              (set_proc (tick_fn <$> woken me Ch_ticks (k_proc s)) (set_ticks (u32 (k_ticks s + 1)) s))
       else s)).
Proof.
  intros Hq Hd Hlen Hl me deadline. case_bool_decide as Hh.
  - by rewrite (clockintr_ok d).
  - by rewrite clockintr_other.
Qed.

(** ** Witnesses *)

(** Slot 4 waits with priority 3, after 9 ticks of waiting; slot 6 sleeps until
    the next tick. *)
Definition waiting : kstate :=
  alter_proc 4 (λ p, set_state RUNNABLE (set_priority 3 (set_wtime 9 (set_pid 12 p))))
    (alter_proc 6 (λ p, set_state SLEEPING (set_chan (Some Ch_ticks) p)) boot_state).

Lemma boot_quiet ps : quiet 16 (set_proc ps boot_state).
Proof.
  split_and!; [|by vm_compute|intros i; apply lookup_empty|apply lookup_empty].
  split; [by apply Nat.ltb_lt; vm_compute|].
  replace (cur_cpu (set_proc ps boot_state)) with zero_cpu by by vm_compute.
  split_and!; cbn; try done; lia.
Qed.

Lemma waiting_process_ages_witness :
  ∃ s', clock_ticks 44 waiting = Ok tt s' ∧ aged 44 (k_proc waiting !!! 4%nat) (k_proc s' !!! 4%nat) ∧
    (44 ≤ 44 → p_priority (k_proc s' !!! 4%nat) = MIN_PRIORITY).
Proof.
  apply (waiting_process_ages 44 waiting 4); try (vm_compute; done || lia).
  split_and!; [apply boot_quiet|by vm_compute..].
Defined.

Lemma clock_interrupt_correct_witness :
  ∃ s', clockintr waiting = Ok tt s' ∧ k_ticks s' = 1 ∧ p_state (k_proc s' !!! 6%nat) = RUNNABLE.
Proof.
  eexists. split; [apply (clock_interrupt_correct 16 waiting (boot_quiet _)); by vm_compute|].
  split; by vm_compute.
Defined.
