(* ===== verification/Kalloc.v ===== *)
(** The physical page allocator: kernel/kalloc.c.

    The free list is threaded through the free pages themselves: the first
    eight bytes of a free page hold the address of the next one, and address 0
    ends the list.  The allocator implements a stack of pages. *)

From Stdlib Require Import ZArith Lia ZifyBool.
From stdpp Require Import base numbers list gmap strings.
From S2P Require Import Prelude Params Machine Spinlock CString.

(** ** Words in memory *)

Definition bytes_at (m : Z → Z) (a : Z) (n : nat) : list Z := (λ i, m (a + Z.of_nat i)) <$> seq 0 n.

Fixpoint store (m : Z → Z) (a : Z) (bs : list Z) : Z → Z :=
  match bs with
  | [] => m
  | b :: bs => store (upd m a b) (a + 1) bs
  end.

Definition load64 (m : Z → Z) (a : Z) : Z := le_value (bytes_at m a 8).
Definition store64 (m : Z → Z) (a v : Z) : Z → Z := store m a (le_bytes 8 v).

Global Arguments load64 : simpl never.
Global Arguments store64 : simpl never.
Global Arguments memset : simpl never.
Global Arguments memmove : simpl never.

(** ** Operations *)

Section kalloc.
Context {LY : Layout}.

Definition kfree (pa : Z) : K () :=
  if negb (pa mod PGSIZE =? 0) || (pa <? kend) || (PHYSTOP <=? pa) then panic "kfree" else
  modify (λ s, set_mem (memset (k_mem s) pa 1 PGSIZE) s);;
  let r := pa in
  acquire L_kmem;;
  modify (λ s, set_mem (store64 (k_mem s) r (k_freelist s)) s);;
  modify (set_freelist r);;
  release L_kmem.

Definition kalloc : K Z :=
  acquire L_kmem;;
  r ← gets (λ s, k_freelist s);
  when (negb (r =? 0)) (modify (λ s, set_freelist (load64 (k_mem s) r) s));;
  release L_kmem;;
  when (negb (r =? 0)) (modify (λ s, set_mem (memset (k_mem s) r 5 PGSIZE) s));;
  mret r.

(** The fuel bounds the number of pages below [pa_end]. *)
Definition freerange (pa_start pa_end : Z) : K () :=
  loop (S (Z.to_nat (pa_end / PGSIZE))) (λ p,
    if p + PGSIZE <=? pa_end then kfree p;; mret (inl (p + PGSIZE)) else mret (inr tt))
    (PGROUNDUP pa_start).

Definition kinit : K () :=
  initlock L_kmem;;
  freerange kend PHYSTOP.
End kalloc.

(** ** Memory lemmas *)

Lemma store_lookup m a bs x :
  store m a bs x = if (a <=? x) && (x <? a + Z.of_nat (length bs)) then bs !!! Z.to_nat (x - a) else m x.
Proof.
  revert m a. induction bs as [|b bs IH]; intros m a; cbn [store length].
  - by replace ((a <=? x) && (x <? a + Z.of_nat 0)) with false by lia.
  - rewrite IH. destruct (Z.eqb_spec x a) as [->|Hne].
    + replace ((a + 1 <=? a) && _) with false by lia.
      replace ((a <=? a) && _) with true by lia. rewrite Z.sub_diag. by rewrite upd_eq.
    + rewrite upd_ne by done.
      destruct ((a + 1 <=? x) && (x <? a + 1 + Z.of_nat (length bs))) eqn:E.
      * replace ((a <=? x) && _) with true by lia.
        replace (Z.to_nat (x - a)) with (S (Z.to_nat (x - (a + 1)))) by lia. done.
      * by replace ((a <=? x) && (x <? a + Z.of_nat (S (length bs)))) with false by lia.
Qed.

Lemma bytes_at_ext m m' a n :
  (∀ x, a ≤ x < a + Z.of_nat n → m x = m' x) → bytes_at m a n = bytes_at m' a n.
Proof.
  intros H. apply list_fmap_ext. intros i j Hj. apply lookup_seq in Hj as [-> Hj].
  apply H. lia.
Qed.

Lemma bytes_at_length m a n : length (bytes_at m a n) = n.
Proof. unfold bytes_at. by rewrite length_fmap, length_seq. Qed.

Lemma lookup_bytes_at m a n i : (i < n)%nat → bytes_at m a n !! i = Some (m (a + Z.of_nat i)).
Proof. intros Hi. unfold bytes_at. rewrite list_lookup_fmap, lookup_seq_lt by done. done. Qed.

Lemma bytes_at_store m a bs : bytes_at (store m a bs) a (length bs) = bs.
Proof.
  apply list_eq_same_length with (length bs); [done|apply bytes_at_length|].
  intros i x y Hi Hx Hy. rewrite lookup_bytes_at in Hx by done. simplify_eq.
  rewrite store_lookup. replace ((a <=? _) && _) with true by lia.
  replace (Z.to_nat (a + Z.of_nat i - a)) with i by lia. by apply list_lookup_total_correct.
Qed.

Lemma load64_store64 m a v : 0 ≤ v < 2 ^ 64 → load64 (store64 m a v) a = v.
Proof.
  intros Hv. unfold load64, store64.
  pose proof (bytes_at_store m a (le_bytes 8 v)) as E. rewrite le_bytes_length in E. rewrite E.
  by apply (le_value_bytes 8).
Qed.

Lemma store64_outside m a v x : ¬ (a ≤ x < a + 8) → store64 m a v x = m x.
Proof.
  intros Hx. unfold store64. rewrite store_lookup, le_bytes_length.
  by replace ((a <=? x) && _) with false by lia.
Qed.

Lemma load64_ext m m' a : (∀ x, a ≤ x < a + 8 → m x = m' x) → load64 m a = load64 m' a.
Proof. intros H. unfold load64. by rewrite (bytes_at_ext m m'). Qed.

Lemma memset_outside m d c n x : 0 ≤ n → ¬ (d ≤ x < d + n) → memset m d c n x = m x.
Proof. intros Hn Hx. rewrite memset_lookup by done. by replace ((d <=? x) && _) with false by lia. Qed.

(** ** The free list as a stack of pages *)

Section spec.
Context {LY : Layout} {LOk : LayoutOk}.

(** The pages the allocator manages. *)
Definition page_ok (pa : Z) : Prop := pa mod PGSIZE = 0 ∧ kend ≤ pa ∧ pa < PHYSTOP.

(** The chain of free pages that starts at [head]. *)
Fixpoint chain (m : Z → Z) (head : Z) (fl : list Z) : Prop :=
  match fl with
  | [] => head = 0
  | pa :: fl => head = pa ∧ chain m (load64 m pa) fl
  end.

Record free_pages (s : kstate) (fl : list Z) : Prop := {
  fp_chain : chain (k_mem s) (k_freelist s) fl;
  fp_nodup : NoDup fl;
  fp_ok : Forall page_ok fl;
}.

Lemma kend_pos : KERNBASE ≤ kend.
Proof using LOk. pose proof layout_text. pose proof layout_end. unfold PGSIZE in *. lia. Qed.

Lemma page_ok_bound pa : page_ok pa → KERNBASE ≤ pa ∧ pa + PGSIZE ≤ PHYSTOP ∧ pa ≠ 0.
Proof using LOk.
  intros (Ha & Hlo & Hhi). pose proof kend_pos. unfold PHYSTOP, KERNBASE, PGSIZE in *.
  dlia.
Qed.

(** Two pages do not overlap. *)
Lemma page_disjoint pa pb x :
  page_ok pa → page_ok pb → pa ≠ pb → pb ≤ x < pb + PGSIZE → ¬ (pa ≤ x < pa + PGSIZE).
Proof using. intros (Ha & _) (Hb & _) Hne Hx. unfold PGSIZE in *. dlia. Qed.

Lemma chain_ext m m' head fl :
  Forall page_ok fl →
  (∀ pa x, pa ∈ fl → pa ≤ x < pa + PGSIZE → m x = m' x) → chain m head fl → chain m' head fl.
Proof using.
  intros Hok. revert head. induction Hok as [|pa fl Hpa Hok IH]; intros head Hm; [done|].
  intros [-> Hc]. split; [done|].
  rewrite <-(load64_ext m m').
  - apply IH; [|done]. intros pb x Hpb. apply Hm. by right.
  - intros x Hx. apply (Hm pa); [by left|]. unfold PGSIZE. lia.
Qed.

Lemma kfree_ok pa s fl :
  cpu_ok s → k_locks s !! L_kmem = None → free_pages s fl → page_ok pa → pa ∉ fl →
  ∃ m', kfree pa s = Ok tt (set_freelist pa (set_mem m' s)) ∧
    free_pages (set_freelist pa (set_mem m' s)) (pa :: fl) ∧
    (∀ x, ¬ (pa ≤ x < pa + PGSIZE) → m' x = k_mem s x).
Proof using LOk.
  intros Hc Hl [Hch Hnd Hok] Hpa Hnin. pose proof Hpa as (Ha & Hlo & Hhi).
  destruct (page_ok_bound pa Hpa) as (Hb1 & Hb2 & Hb0).
  set (m1 := memset (k_mem s) pa 1 PGSIZE).
  set (m2 := store64 m1 pa (k_freelist s)).
  assert (Hout : ∀ x, ¬ (pa ≤ x < pa + PGSIZE) → m2 x = k_mem s x).
  { intros x Hx. unfold m2. rewrite store64_outside by (unfold PGSIZE in *; lia).
    apply memset_outside; [unfold PGSIZE; lia|done]. }
  exists m2. split_and!; [| |done].
  - unfold kfree. replace (_ || _ || _) with false by lia. kgo.
    rewrite acquire_ok by done. cbn [obind]. kgo. by rewrite (release_ok L_kmem (set_mem m1 s)).
  - assert (Hhead : 0 ≤ k_freelist s < 2 ^ 64).
    { destruct fl as [|pb fl]; cbn in Hch; [lia|]. destruct Hch as [-> _].
      apply Forall_cons in Hok as [Hpb _]. destruct (page_ok_bound pb Hpb) as (? & ? & _).
      unfold PHYSTOP, KERNBASE, PGSIZE in *. lia. }
    split; cbn.
    + split; [done|].
      replace (load64 m2 pa) with (k_freelist s) by (symmetry; by apply load64_store64).
      apply (chain_ext (k_mem s)); [done| |done]. intros pb x Hpb Hx. symmetry. apply Hout.
      apply (page_disjoint pa pb); [done| |by intros ->|done]. by eapply Forall_forall in Hok.
    + by constructor.
    + by constructor.
Qed.

Lemma kalloc_ok s fl :
  cpu_ok s → k_locks s !! L_kmem = None → free_pages s fl →
  match fl with
  | [] => kalloc s = Ok 0 s
  | pa :: fl =>
      let s' := set_mem (memset (k_mem s) pa 5 PGSIZE) (set_freelist (load64 (k_mem s) pa) s) in
      kalloc s = Ok pa s' ∧ free_pages s' fl
  end.
Proof using LOk.
  intros Hc Hl [Hch Hnd Hok]. unfold kalloc. rewrite run_bind, acquire_ok by done. cbn [obind]. kgo.
  change (k_freelist (locked L_kmem s)) with (k_freelist s).
  destruct fl as [|pa fl].
  - cbn in Hch. rewrite Hch. cbn [Z.eqb negb when]. kgo. rewrite (release_ok L_kmem s) by done.
    cbn [obind]. by kgo.
  - destruct Hch as [Hhd Hch]. rewrite Hhd.
    apply Forall_cons in Hok as [Hpa Hok]. apply NoDup_cons in Hnd as [Hnin Hnd].
    destruct (page_ok_bound pa Hpa) as (_ & _ & H0).
    replace (pa =? 0) with false by lia. cbn [negb when]. kgo.
    rewrite (release_ok L_kmem s) by done. cbn [obind]. kgo. split; [done|].
    split; cbn; [|done|done].
    apply (chain_ext (k_mem s)); [done| |done]. intros pb x Hpb Hx. symmetry.
    apply memset_outside; [unfold PGSIZE; lia|].
    apply (page_disjoint pa pb); [done| |by intros ->|done]. by eapply Forall_forall in Hok.
Qed.

(** ** Refinement of an abstract allocator *)

Inductive alloc_op := A_alloc | A_free (pa : Z).

(** The abstract allocator: a stack of free pages; a page may be freed only when
    it is a managed page that is not free. *)
Fixpoint abs_run (ops : list alloc_op) (fl : list Z) : option (list Z * list Z) :=
  match ops with
  | [] => Some ([], fl)
  | A_alloc :: ops =>
      '(rs, fl') ← abs_run ops (tail fl);
      Some (default 0 (head fl) :: rs, fl')
  | A_free pa :: ops => if decide (page_ok pa ∧ pa ∉ fl) then abs_run ops (pa :: fl) else None
  end.

(** The kernel's allocator on the same operations. *)
Fixpoint con_run (ops : list alloc_op) : K (list Z) :=
  match ops with
  | [] => mret []
  | A_alloc :: ops => r ← kalloc; rs ← con_run ops; mret (r :: rs)
  | A_free pa :: ops => kfree pa;; con_run ops
  end.

Lemma con_run_refines ops s fl rs fl' :
  cpu_ok s → k_locks s !! L_kmem = None → free_pages s fl → abs_run ops fl = Some (rs, fl') →
  ∃ m' f', con_run ops s = Ok rs (set_freelist f' (set_mem m' s)) ∧
    free_pages (set_freelist f' (set_mem m' s)) fl'.
Proof using LOk.
  revert s fl rs. induction ops as [|[|pa] ops IH]; intros s fl rs Hc Hl Hfp; cbn [abs_run con_run].
  - intros [= <- <-]. by exists (k_mem s), (k_freelist s).
  - destruct (abs_run ops (tail fl)) as [[rs' fl1]|] eqn:E; cbn; intros [=]; subst.
    pose proof (kalloc_ok s fl Hc Hl Hfp) as Hk. destruct fl as [|pb fl].
    + destruct (IH s [] rs' Hc Hl Hfp E) as (m' & f' & Hr & Hf). exists m', f'.
      rewrite run_bind, Hk. cbn [obind]. rewrite run_bind, Hr. cbn [obind]. by kgo.
    + destruct Hk as [Hk Hf1]. edestruct IH as (m' & f' & Hr & Hf); [| |exact Hf1|exact E|]; [exact Hc|exact Hl|]. exists m', f'.
      rewrite run_bind, Hk. cbn [obind]. rewrite run_bind, Hr. cbn [obind]. by kgo.
  - case_decide as Hd; [|done]. destruct Hd as [Hpa Hnin]. intros E.
    destruct (kfree_ok pa s fl Hc Hl Hfp Hpa Hnin) as (m1 & Hk & Hf1 & _).
    edestruct IH as (m' & f' & Hr & Hf); [| |exact Hf1|exact E|]; [exact Hc|exact Hl|]. exists m', f'.
    by rewrite run_bind, Hk.
Qed.

(** ** Boot *)

(** The pages between [a] and PHYSTOP, in the order in which they are freed. *)
Definition pages_from (a : Z) (n : nat) : list Z := (λ i, a + Z.of_nat i * PGSIZE) <$> seq 0 n.

Lemma pages_from_S a n : pages_from a (S n) = a :: pages_from (a + PGSIZE) n.
Proof using.
  unfold pages_from. cbn [seq fmap list_fmap]. f_equal; [lia|].
  rewrite <-fmap_S_seq, <-list_fmap_compose. apply list_fmap_ext. intros. cbn. lia.
Qed.

Lemma elem_of_pages_from a n x :
  x ∈ pages_from a n ↔ ∃ i, (i < n)%nat ∧ x = a + Z.of_nat i * PGSIZE.
Proof using.
  unfold pages_from. rewrite list_elem_of_fmap. setoid_rewrite elem_of_seq. split.
  - intros (i & -> & Hi). exists i. split; [lia|done].
  - intros (i & Hi & ->). exists i. split; [done|lia].
Qed.

Lemma freerange_loop n p fuel s fl :
  cpu_ok s → k_locks s !! L_kmem = None → free_pages s fl →
  p mod PGSIZE = 0 → kend ≤ p → p + Z.of_nat n * PGSIZE = PHYSTOP →
  (∀ x, x ∈ fl → x < p) → (n < fuel)%nat →
  ∃ m' f', loop fuel (λ p, if p + PGSIZE <=? PHYSTOP then kfree p;; mret (inl (p + PGSIZE)) else mret (inr tt)) p s
      = Ok tt (set_freelist f' (set_mem m' s)) ∧
    free_pages (set_freelist f' (set_mem m' s)) (rev (pages_from p n) ++ fl).
Proof using LOk.
  revert p fuel s fl. induction n as [|n IH]; intros p fuel s fl Hc Hl Hfp Ha Hlo Hn Hlt Hfuel.
  - destruct fuel as [|fuel]; [lia|]. exists (k_mem s), (k_freelist s). cbn [loop].
    replace (p + PGSIZE <=? PHYSTOP) with false by (unfold PGSIZE in *; lia). by kgo.
  - destruct fuel as [|fuel]; [lia|]. cbn [loop].
    replace (p + PGSIZE <=? PHYSTOP) with true by (unfold PGSIZE in *; lia).
    assert (Hp : page_ok p) by (split_and!; [done|done|unfold PGSIZE in *; lia]).
    destruct (kfree_ok p s fl Hc Hl Hfp Hp) as (m1 & E & Hf & _); [by intros ?%Hlt; lia|].
    edestruct (IH (p + PGSIZE) fuel) as (m' & f' & E' & Hf'); [| |exact Hf|..].
    + exact Hc.
    + exact Hl.
    + unfold PGSIZE in *. dlia.
    + unfold PGSIZE in *. lia.
    + lia.
    + intros x [->|Hx]%elem_of_cons; [unfold PGSIZE; lia|]. apply Hlt in Hx. unfold PGSIZE. lia.
    + lia.
    + exists m', f'. rewrite run_bind, (run_bind _ (kfree p)), E. cbn [obind]. kgo. split; [done|].
      rewrite pages_from_S. cbn [rev]. by rewrite <-app_assoc.
Qed.

(** C5: kalloc() and kfree() implement a stack of pages. Any sequence of
    calls that frees only managed pages that are not already free runs without a
    panic, returns the same pages as the abstract stack does (0 when it is
    empty), and leaves the free list in memory equal to the abstract stack, with
    no page on it twice; apart from memory and the list head, and with every
    lock released, the kernel state is unchanged. A page that is misaligned or
    outside the managed range makes kfree() panic. *)
Theorem allocator_refines_page_stack ops s fl rs fl' :
  cpu_ok s → k_locks s !! L_kmem = None → free_pages s fl → abs_run ops fl = Some (rs, fl') →
  (∃ m' f', con_run ops s = Ok rs (set_freelist f' (set_mem m' s)) ∧
    free_pages (set_freelist f' (set_mem m' s)) fl') ∧
  (∀ pa, ¬ page_ok pa → kfree pa s = Panic "kfree").
Proof using LOk.
  intros Hc Hl Hf Ha. split; [by eapply con_run_refines|].
  intros pa Hpa. unfold kfree. replace (_ || _ || _) with true; [done|].
  destruct (negb _ || _ || _) eqn:E; [done|]. exfalso. apply Hpa. unfold page_ok. lia.
Qed.

(** C9: Starting from an empty list, kinit() terminates and puts every page
    between the end of the kernel (rounded up) and PHYSTOP on the free list,
    each exactly once, the highest first. *)
Theorem kinit_frees_all_memory s :
  cpu_ok s → k_freelist s = 0 →
  let a := PGROUNDUP kend in
  let n := Z.to_nat ((PHYSTOP - a) / PGSIZE) in
  ∃ s', kinit s = Ok tt s' ∧ free_pages s' (rev (pages_from a n)) ∧
    ∀ pa, page_ok pa ↔ pa ∈ rev (pages_from a n).
Proof using LOk.
  intros Hc Hf a n. pose proof kend_pos. pose proof layout_end as [_ Hend].
  assert (Ha : kend ≤ a < kend + PGSIZE).
  { apply PGROUNDUP_bound; unfold PHYSTOP, KERNBASE, PGSIZE in *; lia. }
  assert (Hal : a mod PGSIZE = 0) by apply PGROUNDUP_aligned.
  assert (Hpt : PHYSTOP = 557056 * PGSIZE) by done.
  assert (Hn : a + Z.of_nat n * PGSIZE = PHYSTOP) by (unfold n, PGSIZE in *; dlia).
  set (s1 := set_locks (delete L_kmem (k_locks s)) s).
  destruct (freerange_loop n a (S (Z.to_nat (PHYSTOP / PGSIZE))) s1 []) as (m' & f' & E & Hfp).
  - exact Hc.
  - cbn. apply lookup_delete_eq.
  - split; [exact Hf|constructor|constructor].
  - done.
  - lia.
  - done.
  - intros x Hx. by apply elem_of_nil in Hx.
  - unfold n, PGSIZE, KERNBASE in *. dlia.
  - rewrite app_nil_r in Hfp. eexists. split; [|split; [exact Hfp|]].
    + unfold kinit, initlock, freerange. kgo. exact E.
    + intros pa. rewrite <-elem_of_reverse. unfold reverse. rewrite <-rev_alt, rev_involutive.
      rewrite elem_of_pages_from. split.
      * intros (Hm & Hlo & Hhi). exists (Z.to_nat ((pa - a) / PGSIZE)). unfold PGSIZE in *. split; dlia.
      * intros (i & Hi & ->). split_and!; unfold PGSIZE in *; dlia.
Qed.
End spec.

(** ** Witnesses *)

(** Two free pages: 0x80030000, whose first word points to 0x80025000. *)
Definition two_pages : kstate :=
  set_freelist 0x80030000 (set_mem (store64 (λ _, 0) 0x80030000 0x80025000) boot_state).

Lemma boot_cpu_ok : cpu_ok boot_state.
Proof.
  split; [by apply Nat.ltb_lt; vm_compute|].
  replace (cur_cpu boot_state) with zero_cpu by by vm_compute. split_and!; cbn; try done; lia.
Qed.

Lemma two_pages_free : free_pages (LY := small_layout) two_pages [0x80030000; 0x80025000].
Proof.
  split.
  - by vm_compute.
  - apply (bool_decide_unpack _). by vm_compute.
  - repeat constructor; by vm_compute.
Qed.

Lemma allocator_refines_page_stack_witness :
  (∃ m' f',
     con_run (LY := small_layout) [A_alloc; A_alloc; A_alloc; A_free 0x80025000; A_alloc] two_pages =
       Ok [0x80030000; 0x80025000; 0; 0x80025000] (set_freelist f' (set_mem m' two_pages)) ∧
     free_pages (LY := small_layout) (set_freelist f' (set_mem m' two_pages)) []) ∧
  (∀ pa, ¬ page_ok (LY := small_layout) pa → kfree (LY := small_layout) pa two_pages = Panic "kfree").
Proof.
  apply (allocator_refines_page_stack (LY := small_layout) (LOk := small_layout_ok)
           [A_alloc; A_alloc; A_alloc; A_free 0x80025000; A_alloc] two_pages [0x80030000; 0x80025000]).
  - exact boot_cpu_ok.
  - apply lookup_empty.
  - exact two_pages_free.
  - cbn [abs_run tail]. rewrite decide_True; [done|].
    split; [by vm_compute|apply not_elem_of_nil].
Defined.

Lemma kinit_frees_all_memory_witness :
  let n := Z.to_nat ((PHYSTOP - 0x80023000) / PGSIZE) in
  ∃ s', kinit (LY := small_layout) boot_state = Ok tt s' ∧
    free_pages (LY := small_layout) s' (rev (pages_from 0x80023000 n)) ∧
    ∀ pa, page_ok (LY := small_layout) pa ↔ pa ∈ rev (pages_from 0x80023000 n).
Proof.
  exact (kinit_frees_all_memory (LY := small_layout) (LOk := small_layout_ok) boot_state boot_cpu_ok eq_refl).
Defined.
