(* ===== verification/Vm.v ===== *)
(** Page tables and copies between the kernel and user memory: kernel/vm.c.

    A page table is a page of 512 eight-byte entries in physical memory.  A
    kernel buffer that is not in a page (a local variable, a buffer of the block
    cache) is a list of bytes: [copyout] takes the bytes to copy, [copyin] and
    [copyinstr] return the bytes they stored, also when they fail half-way. *)

From Stdlib Require Import ZArith Lia ZifyBool.
From stdpp Require Import base numbers list gmap strings.
From S2P Require Import Prelude Params Machine Spinlock CString Printf Sched Kalloc.

Section vm.
Context {LY : Layout}.

(** A null pointer that is dereferenced faults, and kerneltrap() panics. *)
Definition load (a : Z) : K Z := gets (λ s, load64 (k_mem s) a).
#[global] Hint Transparent load : kernel.
Definition write64 (a v : Z) : K () := modify (λ s, set_mem (store64 (k_mem s) a v) s).
Definition memset_page (pa c : Z) : K () := modify (λ s, set_mem (memset (k_mem s) pa c PGSIZE) s).
Definition has (pte flags : Z) : bool := negb (Z.land pte flags =? 0).

(** The loop over the levels above the leaf level. *)
Fixpoint walk_go (levels : list Z) (pagetable va : Z) (alloc : bool) : K (option Z) :=
  match levels with
  | [] => mret (Some pagetable)
  | level :: levels =>
      let pte := pagetable + 8 * PX level va in
      e ← load pte;
      if has e PTE_V then walk_go levels (PTE2PA e) va alloc
      else if negb alloc then mret None
      else
        pt ← kalloc;
        if pt =? 0 then mret None else
        memset_page pt 0;;
        write64 pte (Z.lor (PA2PTE pt) PTE_V);;
        walk_go levels pt va alloc
  end.

Definition walk (pagetable va : Z) (alloc : bool) : K Z :=
  if MAXVA <=? va then panic "walk" else
  r ← walk_go [2; 1] pagetable va alloc;
  mret (match r with Some pt => pt + 8 * PX 0 va | None => 0 end).

Definition walkaddr (pagetable va : Z) : K Z :=
  if MAXVA <=? va then mret 0 else
  pte ← walk pagetable va false;
  if pte =? 0 then mret 0 else
  e ← load pte;
  if negb (has e PTE_V) then mret 0
  else if negb (has e PTE_U) then mret 0
  else mret (PTE2PA e).

(** The fuel is the number of pages. *)
Definition mappages (pagetable va size pa perm : Z) : K Z :=
  if negb (va mod PGSIZE =? 0) then panic "mappages: va not aligned" else
  if negb (size mod PGSIZE =? 0) then panic "mappages: size not aligned" else
  if size =? 0 then panic "mappages: size" else
  let last := u64 (va + size - PGSIZE) in
  loop (Z.to_nat (size / PGSIZE)) (λ '(a, pa),
    pte ← walk pagetable a true;
    if pte =? 0 then mret (inr (-1)) else
    e ← load pte;
    if has e PTE_V then panic "mappages: remap" else
    write64 pte (Z.lor (Z.lor (PA2PTE pa) perm) PTE_V);;
    if a =? last then mret (inr 0)
    else mret (inl (u64 (a + PGSIZE), u64 (pa + PGSIZE)))) (va, pa).

Definition kvmmap (kpgtbl va pa sz perm : Z) : K () :=
  r ← mappages kpgtbl va sz pa perm;
  if negb (r =? 0) then panic "kvmmap" else mret tt.

Definition uvmcreate : K Z :=
  pagetable ← kalloc;
  if pagetable =? 0 then mret 0 else
  memset_page pagetable 0;;
  mret pagetable.

Definition uvmunmap (pagetable va npages : Z) (do_free : bool) : K () :=
  if negb (va mod PGSIZE =? 0) then panic "uvmunmap: not aligned" else
  let last := u64 (va + u64 (npages * PGSIZE)) in
  loop (S (Z.to_nat npages)) (λ a,
    if negb (a <? last) then mret (inr tt) else
    pte ← walk pagetable a false;
    (if pte =? 0 then mret tt else
     e ← load pte;
     if negb (has e PTE_V) then mret tt else
     when do_free (kfree (PTE2PA e));;
     write64 pte 0);;
    mret (inl (u64 (a + PGSIZE)))) va.

Definition uvmdealloc (pagetable oldsz newsz : Z) : K Z :=
  if oldsz <=? newsz then mret oldsz else
  when (PGROUNDUP newsz <? PGROUNDUP oldsz) (
    let npages := i32 ((PGROUNDUP oldsz - PGROUNDUP newsz) / PGSIZE) in
    uvmunmap pagetable (PGROUNDUP newsz) (u64 npages) true);;
  mret newsz.

Definition uvmalloc (pagetable oldsz newsz xperm : Z) : K Z :=
  if newsz <? oldsz then mret oldsz else
  let oldsz := PGROUNDUP oldsz in
  loop (S (S (Z.to_nat ((newsz - oldsz) / PGSIZE)))) (λ a,
    if negb (a <? newsz) then mret (inr newsz) else
    mem ← kalloc;
    if mem =? 0 then
      uvmdealloc pagetable a oldsz;; mret (inr 0)
    else
    memset_page mem 0;;
    r ← mappages pagetable a PGSIZE mem (Z.lor (Z.lor PTE_R PTE_U) xperm);
    if negb (r =? 0) then
      kfree mem;;
      uvmdealloc pagetable a oldsz;;
      mret (inr 0)
    else mret (inl (u64 (a + PGSIZE)))) oldsz.

(** The recursion follows the levels of the tree; [depth] bounds them. *)
Fixpoint freewalk_go (depth : nat) (pagetable : Z) : K () :=
  match depth with
  | O => no_fuel
  | S depth =>
      for_ (seq 0 512) (λ i,
        let a := pagetable + 8 * Z.of_nat i in
        pte ← load a;
        if has pte PTE_V && negb (has pte (Z.lor (Z.lor PTE_R PTE_W) PTE_X)) then
          freewalk_go depth (PTE2PA pte);;
          write64 a 0
        else if has pte PTE_V then panic "freewalk: leaf"
        else mret tt);;
      kfree pagetable
  end.
Definition freewalk (pagetable : Z) : K () := freewalk_go 3 pagetable.

Definition uvmfree (pagetable sz : Z) : K () :=
  when (0 <? sz) (uvmunmap pagetable 0 (PGROUNDUP sz / PGSIZE) true);;
  freewalk pagetable.

Definition uvmcopy (old new sz : Z) : K Z :=
  let err i := uvmunmap new 0 (i / PGSIZE) true;; mret (inr (-1)) in
  loop (S (S (Z.to_nat (sz / PGSIZE)))) (λ i,
    if negb (i <? sz) then mret (inr 0) else
    pte ← walk old i false;
    if pte =? 0 then mret (inl (u64 (i + PGSIZE))) else
    e ← load pte;
    if negb (has e PTE_V) then mret (inl (u64 (i + PGSIZE))) else
    let pa := PTE2PA e in
    let flags := PTE_FLAGS e in
    mem ← kalloc;
    if mem =? 0 then err i else
    modify (λ s, set_mem (memmove (k_mem s) mem pa PGSIZE) s);;
    r ← mappages new i PGSIZE mem flags;
    if negb (r =? 0) then
      kfree mem;;
      err i
    else mret (inl (u64 (i + PGSIZE)))) 0.

Definition uvmclear (pagetable va : Z) : K () :=
  pte ← walk pagetable va false;
  if pte =? 0 then panic "uvmclear" else
  e ← load pte;
  write64 pte (Z.land e (u64 (Z.lnot PTE_U))).

Definition ismapped (pagetable va : Z) : K bool :=
  pte ← walk pagetable va false;
  if pte =? 0 then mret false else
  e ← load pte;
  mret (has e PTE_V).

Definition vmfault (pagetable va read : Z) : K Z :=
  i ← curproc;
  p ← get_proc i;
  if p_sz p <=? va then mret 0 else
  let va := PGROUNDDOWN va in
  m ← ismapped pagetable va;
  if m : bool then mret 0 else
  mem ← kalloc;
  if mem =? 0 then mret 0 else
  memset_page mem 0;;
  r ← mappages (p_pagetable p) va PGSIZE mem (Z.lor (Z.lor PTE_W PTE_U) PTE_R);
  if negb (r =? 0) then kfree mem;; mret 0
  else mret mem.

(** The physical address behind a user page, faulting it in when needed. *)
Definition user_page (pagetable va0 : Z) : K Z :=
  pa0 ← walkaddr pagetable va0;
  if pa0 =? 0 then vmfault pagetable va0 0 else mret pa0.

(** Each iteration but the last consumes the rest of a page. *)
Definition copy_fuel (len : Z) : nat := S (S (Z.to_nat (len / PGSIZE + 1))).

Definition copyout (pagetable dstva : Z) (src : list Z) : K Z :=
  loop (copy_fuel (Z.of_nat (length src))) (λ '(dstva, src),
    let len := Z.of_nat (length src) in
    if negb (0 <? len) then mret (inr 0) else
    let va0 := PGROUNDDOWN dstva in
    if MAXVA <=? va0 then mret (inr (-1)) else
    pa0 ← user_page pagetable va0;
    if pa0 =? 0 then mret (inr (-1)) else
    pte ← walk pagetable va0 false;
    if pte =? 0 then panic "kerneltrap" else
    e ← load pte;
    if negb (has e PTE_W) then mret (inr (-1)) else
    let n := PGSIZE - (dstva - va0) in
    let n := if len <? n then len else n in
    modify (λ s, set_mem (store (k_mem s) (pa0 + (dstva - va0)) (take (Z.to_nat n) src)) s);;
    mret (inl (u64 (va0 + PGSIZE), drop (Z.to_nat n) src))) (dstva, src).

Definition copyin (pagetable srcva len : Z) : K (Z * list Z) :=
  loop (copy_fuel len) (λ '(srcva, len, dst),
    if negb (0 <? len) then mret (inr (0, dst)) else
    let va0 := PGROUNDDOWN srcva in
    pa0 ← user_page pagetable va0;
    if pa0 =? 0 then mret (inr (-1, dst)) else
    let n := PGSIZE - (srcva - va0) in
    let n := if len <? n then len else n in
    bs ← gets (λ s, bytes_at (k_mem s) (pa0 + (srcva - va0)) (Z.to_nat n));
    mret (inl (u64 (va0 + PGSIZE), len - n, dst ++ bs))) (srcva, len, []).

(** The inner loop: copy up to [n] bytes from [p], stop after a NUL. *)
Fixpoint copystr_page (n : nat) (m : Z → Z) (p : Z) : list Z * bool :=
  match n with
  | O => ([], false)
  | S n => if m p =? 0 then ([0], true)
           else let '(bs, got_null) := copystr_page n m (p + 1) in (m p :: bs, got_null)
  end.

Definition copyinstr (pagetable srcva max : Z) : K (Z * list Z) :=
  loop (copy_fuel max) (λ '(srcva, max, dst, got_null),
    if negb (negb got_null && (0 <? max)) then mret (inr (if (got_null : bool) then 0 else -1, dst)) else
    let va0 := PGROUNDDOWN srcva in
    pa0 ← walkaddr pagetable va0;
    if pa0 =? 0 then mret (inr (-1, dst)) else
    let n := PGSIZE - (srcva - va0) in
    let n := if max <? n then max else n in
    r ← gets (λ s, copystr_page (Z.to_nat n) (k_mem s) (pa0 + (srcva - va0)));
    let '(bs, got_null) := r in
    let copied := if (got_null : bool) then Z.of_nat (length bs) - 1 else Z.of_nat (length bs) in
    mret (inl (u64 (va0 + PGSIZE), max - copied, dst ++ bs, got_null))) (srcva, max, [], false).

(** ** The kernel's own page table *)

Definition proc_mapstacks (kpgtbl : Z) : K () :=
  for_ all_procs (λ i,
    pa ← kalloc;
    if pa =? 0 then panic "kalloc" else
    let va := KSTACK (Z.of_nat i) in
    kvmmap kpgtbl va pa PGSIZE (Z.lor PTE_R PTE_W)).

Definition kvmmake : K Z :=
  kpgtbl ← kalloc;
  memset_page kpgtbl 0;;
  kvmmap kpgtbl UART0 UART0 PGSIZE (Z.lor PTE_R PTE_W);;
  kvmmap kpgtbl VIRTIO0 VIRTIO0 PGSIZE (Z.lor PTE_R PTE_W);;
  kvmmap kpgtbl PLIC PLIC 0x4000000 (Z.lor PTE_R PTE_W);;
  kvmmap kpgtbl KERNBASE KERNBASE (etext - KERNBASE) (Z.lor PTE_R PTE_X);;
  kvmmap kpgtbl etext etext (PHYSTOP - etext) (Z.lor PTE_R PTE_W);;
  kvmmap kpgtbl TRAMPOLINE trampoline PGSIZE (Z.lor PTE_R PTE_X);;
  proc_mapstacks kpgtbl;;
  mret kpgtbl.

Definition kvminit : K () :=
  pt ← kvmmake;
  modify (set_kernel_pagetable pt).

(** MAKE_SATP of kernel/riscv.h. *)
Definition SATP_SV39 : Z := Z.shiftl 8 60.
Definition MAKE_SATP (pagetable : Z) : Z := Z.lor SATP_SV39 (Z.shiftr pagetable 12).

Definition kvminithart : K () :=
  pt ← gets (λ s, k_kernel_pagetable s);
  upd_cpu (set_c_satp (MAKE_SATP pt)).
End vm.

(** ** Frames

    The allocator and the page-table code write physical memory, the free list,
    the locks, the CPUs and the console, and nothing else. *)
Class OutsideLock {X} (f : kstate → X) (lk : lockid) : Prop := {
  ol_insert h s : f (set_locks (<[lk := h]> (k_locks s)) s) = f s;
  ol_delete s : f (set_locks (delete lk (k_locks s)) s) = f s;
}.
Class OutsideMemory {X} (f : kstate → X) : Prop := {
  om_mem v s : f (set_mem v s) = f s;
  om_freelist v s : f (set_freelist v s) = f s;
  om_cpus v s : f (set_cpus v s) = f s;
  om_kmem :: OutsideLock f L_kmem;
  om_out v s : f (set_out v s) = f s;
}.

Global Instance outside_proc : OutsideMemory k_proc.
Proof. done. Qed.
Global Instance outside_pipes : OutsideMemory k_pipes.
Proof. done. Qed.
Global Instance outside_log : OutsideMemory k_log.
Proof. done. Qed.
Global Instance outside_cons : OutsideMemory k_cons.
Proof. done. Qed.
Global Instance outside_hart : OutsideMemory k_hart.
Proof. done. Qed.
Global Instance outside_lock_proc lk : OutsideLock k_proc lk.
Proof. done. Qed.
Global Instance outside_lock_pipes lk : OutsideLock k_pipes lk.
Proof. done. Qed.
Global Instance outside_lock_log lk : OutsideLock k_log lk.
Proof. done. Qed.
Global Instance outside_lock_cons lk : OutsideLock k_cons lk.
Proof. done. Qed.

Section outside.
Context {LY : Layout} {X : Type} (f : kstate → X) {HO : OutsideMemory f}.

Lemma frames_upd_cpu g : frames f (upd_cpu g).
Proof using HO. apply frames_modify. intros s. apply om_cpus. Qed.

Lemma frames_set_mem g : frames f (modify (λ s, set_mem (g s) s)).
Proof using HO. apply frames_modify. intros s. apply om_mem. Qed.

Lemma frames_set_freelist g : frames f (modify (λ s, set_freelist (g s) s)).
Proof using HO. apply frames_modify. intros s. apply om_freelist. Qed.

Lemma frames_put_freelist v : frames f (modify (set_freelist v)).
Proof using HO. apply frames_modify. intros s. apply om_freelist. Qed.

Hint Resolve frames_upd_cpu frames_set_mem frames_set_freelist frames_put_freelist : kernel.

Lemma frames_push_off : frames f push_off.
Proof using HO. unfold push_off, intr_get, intr_off. frame. Qed.

Lemma frames_pop_off : frames f pop_off.
Proof using HO. unfold pop_off, intr_get, intr_on. frame. Qed.

Hint Resolve frames_push_off frames_pop_off : kernel.

Lemma frames_acquire lk `{!OutsideLock f lk} : frames f (acquire lk).
Proof using HO. unfold acquire, holding. frame. apply frames_modify. intros s. apply ol_insert. Qed.

Lemma frames_release lk `{!OutsideLock f lk} : frames f (release lk).
Proof using HO. unfold release, holding. frame. apply frames_modify. intros s. apply ol_delete. Qed.

Hint Resolve frames_acquire frames_release : kernel.

Lemma frames_curproc : frames f curproc.
Proof using HO. unfold curproc, myproc. frame. Qed.

Lemma frames_get_proc i : frames f (get_proc i).
Proof using. apply frames_gets. Qed.

Lemma frames_kalloc : frames f kalloc.
Proof using HO. unfold kalloc. frame. Qed.

Lemma frames_kfree pa : frames f (kfree pa).
Proof using HO. unfold kfree. frame. Qed.

Lemma frames_load a : frames f (load a).
Proof using. apply frames_gets. Qed.

Lemma frames_write64 a v : frames f (write64 a v).
Proof using HO. unfold write64. frame. Qed.

Lemma frames_memset_page pa c : frames f (memset_page pa c).
Proof using HO. unfold memset_page. frame. Qed.

Hint Resolve frames_curproc frames_get_proc frames_kalloc frames_kfree frames_load frames_write64
  frames_memset_page : kernel.

Lemma frames_walk_go ls pt va alloc : frames f (walk_go ls pt va alloc).
Proof using HO. revert pt. induction ls; intros pt; cbn; frame. Qed.

Hint Resolve frames_walk_go : kernel.

Lemma frames_walk pt va alloc : frames f (walk pt va alloc).
Proof using HO. unfold walk. frame. Qed.

Hint Resolve frames_walk : kernel.

Lemma frames_walkaddr pt va : frames f (walkaddr pt va).
Proof using HO. unfold walkaddr. frame. Qed.

Lemma frames_mappages pt va sz pa perm : frames f (mappages pt va sz pa perm).
Proof using HO. unfold mappages. frame. Qed.

Hint Resolve frames_walkaddr frames_mappages : kernel.

Lemma frames_vmfault pt va r : frames f (vmfault pt va r).
Proof using HO. unfold vmfault, ismapped. frame. Qed.

Hint Resolve frames_vmfault : kernel.

Lemma frames_copyout pt va src : frames f (copyout pt va src).
Proof using HO. unfold copyout, user_page. frame. Qed.

Lemma frames_copyin pt va len : frames f (copyin pt va len).
Proof using HO. unfold copyin, user_page. frame. Qed.
End outside.

Global Hint Resolve frames_curproc frames_get_proc frames_acquire frames_release frames_copyout
  frames_copyin frames_kalloc frames_kfree : kernel.

(** ** Invariants

    An invariant that looks neither at memory, nor at the free list, nor at what
    the locking layer writes is preserved by the allocator and by this file. *)
Class MemoryInsensitive (I : kstate → Prop) : Prop := {
  mi_lock :: LockInsensitive I;
  mi_mem v s : I s → I (set_mem v s);
  mi_freelist v s : I s → I (set_freelist v s);
}.

Section insensitive.
Context {LY : Layout} (I : kstate → Prop) {HI : MemoryInsensitive I}.

Lemma preserves_set_mem g : preserves I (modify (λ s, set_mem (g s) s)).
Proof using HI. apply preserves_modify. intros s Hs. by apply mi_mem. Qed.

Lemma preserves_set_freelist g : preserves I (modify (λ s, set_freelist (g s) s)).
Proof using HI. apply preserves_modify. intros s Hs. by apply mi_freelist. Qed.

Lemma preserves_put_freelist v : preserves I (modify (set_freelist v)).
Proof using HI. apply preserves_modify. intros s Hs. by apply mi_freelist. Qed.

Hint Resolve preserves_set_mem preserves_set_freelist preserves_put_freelist : kernel.

Lemma preserves_kalloc : preserves I kalloc.
Proof using HI. unfold kalloc. preserve. Qed.

Lemma preserves_kfree pa : preserves I (kfree pa).
Proof using HI. unfold kfree. preserve. Qed.

Lemma preserves_load a : preserves I (load a).
Proof using. apply preserves_gets. Qed.

Lemma preserves_write64 a v : preserves I (write64 a v).
Proof using HI. unfold write64. preserve. Qed.

Lemma preserves_memset_page pa c : preserves I (memset_page pa c).
Proof using HI. unfold memset_page. preserve. Qed.

Hint Resolve preserves_kalloc preserves_kfree preserves_load preserves_write64
  preserves_memset_page : kernel.

Lemma preserves_walk_go ls pt va alloc : preserves I (walk_go ls pt va alloc).
Proof using HI. revert pt. induction ls; intros pt; cbn; preserve. Qed.

Hint Resolve preserves_walk_go : kernel.

Lemma preserves_walk pt va alloc : preserves I (walk pt va alloc).
Proof using HI. unfold walk. preserve. Qed.

Hint Resolve preserves_walk : kernel.

Lemma preserves_walkaddr pt va : preserves I (walkaddr pt va).
Proof using HI. unfold walkaddr. preserve. Qed.

Lemma preserves_mappages pt va sz pa perm : preserves I (mappages pt va sz pa perm).
Proof using HI. unfold mappages. preserve. Qed.

Lemma preserves_uvmcreate : preserves I uvmcreate.
Proof using HI. unfold uvmcreate. preserve. Qed.

Lemma preserves_uvmunmap pt va n b : preserves I (uvmunmap pt va n b).
Proof using HI. unfold uvmunmap. preserve. Qed.

Hint Resolve preserves_walkaddr preserves_mappages preserves_uvmcreate preserves_uvmunmap : kernel.

Lemma preserves_uvmdealloc pt o n : preserves I (uvmdealloc pt o n).
Proof using HI. unfold uvmdealloc. preserve. Qed.

Hint Resolve preserves_uvmdealloc : kernel.

Lemma preserves_uvmalloc pt o n x : preserves I (uvmalloc pt o n x).
Proof using HI. unfold uvmalloc. preserve. Qed.

Lemma preserves_freewalk_go d pt : preserves I (freewalk_go d pt).
Proof using HI. revert pt. induction d; intros pt; cbn [freewalk_go]; preserve. Qed.

Hint Resolve preserves_uvmalloc preserves_freewalk_go : kernel.

Lemma preserves_uvmfree pt sz : preserves I (uvmfree pt sz).
Proof using HI. unfold uvmfree, freewalk. preserve. Qed.

Lemma preserves_uvmcopy old new sz : preserves I (uvmcopy old new sz).
Proof using HI. unfold uvmcopy. preserve. Qed.

Lemma preserves_uvmclear pt va : preserves I (uvmclear pt va).
Proof using HI. unfold uvmclear. preserve. Qed.

Lemma preserves_vmfault pt va r : preserves I (vmfault pt va r).
Proof using HI. unfold vmfault, ismapped. preserve. Qed.

Hint Resolve preserves_vmfault : kernel.

Lemma preserves_copyout pt va src : preserves I (copyout pt va src).
Proof using HI. unfold copyout, user_page. preserve. Qed.

Lemma preserves_copyin pt va len : preserves I (copyin pt va len).
Proof using HI. unfold copyin, user_page. preserve. Qed.

Lemma preserves_copyinstr pt va max : preserves I (copyinstr pt va max).
Proof using HI. unfold copyinstr. preserve. Qed.
End insensitive.

Global Hint Resolve preserves_set_mem preserves_kalloc preserves_kfree preserves_walkaddr
  preserves_mappages preserves_uvmcreate preserves_uvmunmap preserves_uvmdealloc preserves_uvmalloc
  preserves_uvmfree preserves_uvmcopy preserves_uvmclear preserves_vmfault preserves_copyout
  preserves_copyin preserves_copyinstr preserves_memset_page : kernel.
