(* ===== verification/PageTable.v ===== *)
(** Page tables as finite maps: the tree of page-table pages that walk()
    builds, and what walk(), mappages() and walkaddr() of kernel/vm.c do to the
    mapping from virtual pages to page-table entries. *)

From Stdlib Require Import ZArith Lia ZifyBool.
From stdpp Require Import base numbers list gmap strings.
From S2P Require Import Prelude Params Machine Spinlock CString Kalloc Vm.

Lemma has_lor_r a f : 0 ≤ f → f ≠ 0 → has (Z.lor a f) f = true.
Proof.
  intros Hf Hn. unfold has. rewrite Z.land_comm, Z.land_lor_distr_r, Z.land_diag, Z.lor_comm.
  destruct (Z.eqb_spec (Z.lor f (Z.land f a)) 0) as [E|]; [|done].
  apply Z.lor_eq_0_iff in E as [? _]. done.
Qed.

Lemma has_0 f : has 0 f = false.
Proof. unfold has. by rewrite Z.land_0_l. Qed.

Lemma load64_zero m a n x :
  (∀ y, a ≤ y < a + n → m y = 0) → a ≤ x → x + 8 ≤ a + n → load64 m x = 0.
Proof.
  intros Hm Hx Hx'. rewrite (load64_ext m (λ _, 0)); [done|]. intros y Hy. apply Hm. lia.
Qed.

Section page_table.
Context {LY : Layout} {LOk : LayoutOk}.

(** The tree of page-table pages: a page for each path of indices from the root.
    Paths have length 0 (root), 1 or 2 (pages of leaf entries). *)
Record pt_inv (m : Z → Z) (root : Z) (T : gmap (list Z) Z) : Prop := {
  pt_root : T !! [] = Some root;
  pt_page π p : T !! π = Some p → page_ok p ∧ (length π ≤ 2)%nat;
  pt_inj π π' p : T !! π = Some p → T !! π' = Some p → π = π';
  pt_edge π p i : T !! π = Some p → (length π < 2)%nat → 0 ≤ i < 512 →
    let e := load64 m (p + 8 * i) in
    T !! (π ++ [i]) = if has e PTE_V then Some (PTE2PA e) else None;
  pt_closed π i p : T !! (π ++ [i]) = Some p → 0 ≤ i < 512 ∧ is_Some (T !! π);
}.

(** The entry for a virtual address, 0 when its page of entries is absent. *)
Definition pte_at (m : Z → Z) (T : gmap (list Z) Z) (va : Z) : Z :=
  match T !! [PX 2 va; PX 1 va] with Some p => load64 m (p + 8 * PX 0 va) | None => 0 end.

(** The address of that entry, 0 when absent. *)
Definition slot_of (T : gmap (list Z) Z) (va : Z) : Z :=
  match T !! [PX 2 va; PX 1 va] with Some p => p + 8 * PX 0 va | None => 0 end.

Lemma walk_ok s root T va :
  pt_inv (k_mem s) root T → va < MAXVA → walk root va false s = Ok (slot_of T va) s.
Proof using.
  intros HT Hva. unfold walk. replace (MAXVA <=? va) with false by lia.
  cbn [walk_go negb]. unfold load, slot_of. kgo.
  pose proof (PX_bound 2 va ltac:(lia)) as H2. pose proof (PX_bound 1 va ltac:(lia)) as H1.
  pose proof (pt_edge _ _ _ HT [] root _ (pt_root _ _ _ HT) ltac:(cbn; lia) H2) as E2. cbn zeta in E2.
  change ([] ++ [PX 2 va]) with [PX 2 va] in E2.
  destruct (has (load64 (k_mem s) (root + 8 * PX 2 va)) PTE_V).
  - kgo. pose proof (pt_edge _ _ _ HT _ _ _ E2 ltac:(cbn; lia) H1) as E1. cbn zeta in E1.
    change ([PX 2 va] ++ [PX 1 va]) with [PX 2 va; PX 1 va] in E1. rewrite E1.
    by destruct (has _ PTE_V).
  - kgo. destruct (T !! [PX 2 va; PX 1 va]) as [p|] eqn:E; [|done].
    destruct (pt_closed _ _ _ HT [PX 2 va] _ p E) as [_ [? ?]]. congruence.
Qed.

(** ** Adding a page to the tree *)

Lemma slot_in_page p i : 0 ≤ i < 512 → p ≤ p + 8 * i ∧ p + 8 * i + 8 ≤ p + PGSIZE.
Proof using. unfold PGSIZE. lia. Qed.

Lemma pte_roundtrip q : page_ok q → PTE2PA (Z.lor (PA2PTE q) PTE_V) = q ∧ has (Z.lor (PA2PTE q) PTE_V) PTE_V = true.
Proof using LOk.
  intros Hq. destruct (page_ok_bound q Hq) as (? & ? & _). split.
  - apply PTE2PA_pte; [unfold PHYSTOP, KERNBASE, PGSIZE in *; lia|apply Hq|by vm_compute].
  - by apply has_lor_r.
Qed.

(** The memory after walk() has taken page [q] for entry [i] of page [p]. *)
Definition grown (m : Z → Z) (p i q : Z) : Z → Z :=
  store64 (memset (memset m q 5 PGSIZE) q 0 PGSIZE) (p + 8 * i) (Z.lor (PA2PTE q) PTE_V).

Lemma grown_outside m p i q x :
  ¬ (q ≤ x < q + PGSIZE) → ¬ (p + 8 * i ≤ x < p + 8 * i + 8) → grown m p i q x = m x.
Proof using.
  intros Hx Hx'. unfold grown. rewrite store64_outside by lia.
  rewrite !memset_outside by (unfold PGSIZE in *; lia). done.
Qed.

Section grow.
Context (m : Z → Z) (root : Z) (T : gmap (list Z) Z) (π : list Z) (p i q : Z).
Hypothesis (HT : pt_inv m root T) (Hp : T !! π = Some p) (Hπ : (length π < 2)%nat).
Hypothesis (Hi : 0 ≤ i < 512) (Hv : has (load64 m (p + 8 * i)) PTE_V = false).
Hypothesis (Hq : page_ok q) (Hfresh : ∀ π' p', T !! π' = Some p' → p' ≠ q).

Lemma grown_slot : load64 (grown m p i q) (p + 8 * i) = Z.lor (PA2PTE q) PTE_V.
Proof.
  apply load64_store64. destruct (page_ok_bound q Hq) as (? & ? & _).
  rewrite PA2PTE_div by (unfold PHYSTOP, KERNBASE, PGSIZE in *; lia).
  assert (0 ≤ q / PGSIZE * 1024 < 2 ^ 63) by (unfold PHYSTOP, KERNBASE, PGSIZE in *; dlia).
  split; [apply Z.lor_nonneg; split; [lia|by vm_compute]|].
  apply Z.log2_lt_cancel. rewrite Z.log2_lor by first [lia|by vm_compute].
  change (Z.log2 PTE_V) with 0. rewrite Z.log2_pow2 by lia.
  destruct (decide (q / PGSIZE * 1024 = 0)) as [->|Hne]; [cbn; lia|].
  apply Z.max_lub_lt; [|lia]. apply Z.log2_lt_pow2; lia.
Qed.

Lemma grown_old π' p' j :
  T !! π' = Some p' → 0 ≤ j < 512 → (p', j) ≠ (p, i) →
  load64 (grown m p i q) (p' + 8 * j) = load64 m (p' + 8 * j).
Proof.
  intros Hp' Hj Hne. apply load64_ext. intros x Hx. apply grown_outside.
  - destruct (pt_page _ _ _ HT _ _ Hp') as [Hok' _].
    apply (page_disjoint q p'); [done|done| |unfold PGSIZE; lia]. intros <-. by eapply Hfresh.
  - destruct (pt_page _ _ _ HT _ _ Hp') as [Hok' _]. destruct (pt_page _ _ _ HT _ _ Hp) as [Hok _].
    destruct (decide (p' = p)) as [->|Hpp].
    + assert (j ≠ i) by congruence. lia.
    + intros Hx'. apply (page_disjoint p p' x Hok Hok'); [done|unfold PGSIZE; lia|unfold PGSIZE; lia].
Qed.

Lemma grown_new j : 0 ≤ j < 512 → load64 (grown m p i q) (q + 8 * j) = 0.
Proof.
  intros Hj. apply (load64_zero _ q PGSIZE); [|lia|unfold PGSIZE; lia].
  intros y Hy. unfold grown. rewrite store64_outside.
  - rewrite memset_lookup by (unfold PGSIZE; lia). by replace ((q <=? y) && _) with true by lia.
  - destruct (pt_page _ _ _ HT _ _ Hp) as [Hok _]. intros Hx.
    apply (page_disjoint p q y Hok Hq); [by eapply Hfresh|done|unfold PGSIZE; lia].
Qed.

Lemma grown_inv : pt_inv (grown m p i q) root (<[π ++ [i] := q]> T).
Proof.
  assert (Hnone : T !! (π ++ [i]) = None).
  { pose proof (pt_edge _ _ _ HT _ _ _ Hp Hπ Hi) as E. cbn zeta in E. by rewrite Hv in E. }
  destruct (pte_roundtrip q Hq) as [Hpa Hval].
  split.
  - rewrite lookup_insert_ne by (by destruct π). apply HT.
  - intros π' p' [[<- <-]|[_ H]]%lookup_insert_Some; [|by eapply pt_page]. split; [done|].
    rewrite length_app. cbn. lia.
  - intros π1 π2 p' [[<- <-]|[_ H1]]%lookup_insert_Some [[<- E]|[_ H2]]%lookup_insert_Some; try done.
    + by destruct (Hfresh π2 q H2).
    + subst. by destruct (Hfresh π1 p' H1).
    + by eapply pt_inj.
  - intros π' p' j [[<- <-]|[Hne H]]%lookup_insert_Some Hlen Hj; cbn zeta.
    + rewrite grown_new, has_0 by done. rewrite lookup_insert_ne.
      * destruct (T !! ((π ++ [i]) ++ [j])) as [p'|] eqn:E; [|done].
        destruct (pt_closed _ _ _ HT _ _ _ E) as [_ [? ?]]. congruence.
      * intros E. apply (f_equal length) in E. rewrite !length_app in E. cbn in E. lia.
    + destruct (decide (π' = π ∧ j = i)) as [[-> ->]|Hd].
      * simplify_eq. rewrite grown_slot, Hval, Hpa. by rewrite lookup_insert_eq.
      * assert (Hpj : (p', j) ≠ (p, i)).
        { intros [= -> ->]. apply Hd. split; [|done]. exact (pt_inj _ _ _ HT _ _ _ H Hp). }
        rewrite (grown_old π' p' j H Hj Hpj). rewrite lookup_insert_ne; [by apply HT|].
        intros E. apply app_inj_tail in E as [-> ->]. by apply Hd.
  - intros π' j p' [[E <-]|[Hne H]]%lookup_insert_Some.
    + apply app_inj_tail in E as [<- <-]. split; [done|].
      rewrite lookup_insert_ne; [by eexists|]. intros E. apply (f_equal length) in E.
      rewrite length_app in E. cbn in E. lia.
    + destruct (pt_closed _ _ _ HT _ _ _ H) as [? [p'' Hp'']]. split; [done|].
      destruct (decide (π ++ [i] = π')) as [<-|]; [rewrite lookup_insert_eq; by eexists|].
      rewrite lookup_insert_ne by done. by eexists.
Qed.
End grow.

(** ** walk() with allocation *)

(** A page table next to the free pages it grows from. *)
Record vm_ok (s : kstate) (root : Z) (T : gmap (list Z) Z) (fl : list Z) : Prop := {
  vo_pt : pt_inv (k_mem s) root T;
  vo_free : free_pages s fl;
  vo_disj π p : T !! π = Some p → p ∉ fl;
  vo_cpu : cpu_ok s;
  vo_lock : k_locks s !! L_kmem = None;
}.

(** [s'] is [s] after pages were taken from the free list: the mapping is the
    same, and so is every page that was neither free nor part of the tree. *)
Record vm_grown (s s' : kstate) (root : Z) (T T' : gmap (list Z) Z) (fl fl' : list Z) : Prop := {
  vg_ok : vm_ok s' root T' fl';
  vg_rest : s' = set_freelist (k_freelist s') (set_mem (k_mem s') s);
  vg_tree : T ⊆ T';
  vg_free : fl' `suffix_of` fl;
  vg_pte va : pte_at (k_mem s') T' va = pte_at (k_mem s) T va;
  vg_frame d x : page_ok d → d ∉ fl → (∀ π, T !! π ≠ Some d) → d ≤ x < d + PGSIZE →
    k_mem s' x = k_mem s x;
  vg_new π p : T' !! π = Some p → T !! π = Some p ∨ p ∈ fl;
}.

Lemma vm_grown_refl s root T fl : vm_ok s root T fl → vm_grown s s root T T fl fl.
Proof using. intros H. split; auto. Qed.

Lemma vm_grown_trans s1 s2 s3 root T1 T2 T3 fl1 fl2 fl3 :
  vm_grown s1 s2 root T1 T2 fl1 fl2 → vm_grown s2 s3 root T2 T3 fl2 fl3 →
  vm_grown s1 s3 root T1 T3 fl1 fl3.
Proof using.
  intros [O1 R1 S1 F1 P1 M1 N1] [O2 R2 S2 F2 P2 M2 N2]. split.
  - done.
  - rewrite R2, R1. done.
  - by etrans.
  - by etrans.
  - intros va. by rewrite P2.
  - intros d x Hd Hnf Hnt Hx. rewrite (M2 d x), (M1 d x); [done|done..| | |done].
    + intros Hin. apply Hnf. destruct F1 as [l ->]. apply elem_of_app. by right.
    + intros π [H|H]%N1; [by eapply Hnt|done].
  - intros π p [H|H]%N2; [by apply N1|]. right. destruct F1 as [l ->]. apply elem_of_app. by right.
Qed.

Lemma grown_pte m root T π p i q va :
  pt_inv m root T → T !! π = Some p → (length π < 2)%nat → 0 ≤ i < 512 →
  has (load64 m (p + 8 * i)) PTE_V = false → page_ok q → (∀ π' p', T !! π' = Some p' → p' ≠ q) →
  pte_at (grown m p i q) (<[π ++ [i] := q]> T) va = pte_at m T va.
Proof using.
  intros HT Hp Hπ Hi Hv Hq Hfresh. unfold pte_at.
  pose proof (PX_bound 0 va ltac:(lia)) as H0.
  destruct (decide (π ++ [i] = [PX 2 va; PX 1 va])) as [E|E].
  - rewrite E, lookup_insert_eq. rewrite <-E.
    pose proof (pt_edge _ _ _ HT _ _ _ Hp Hπ Hi) as Hn. cbn zeta in Hn. rewrite Hv in Hn. rewrite Hn.
    by eapply grown_new.
  - rewrite lookup_insert_ne by done. destruct (T !! [PX 2 va; PX 1 va]) as [p'|] eqn:Hp'; [|done].
    eapply grown_old; [done..|]. intros [= -> _].
    pose proof (pt_inj _ _ _ HT _ _ _ Hp Hp') as ->. cbn in Hπ. lia.
Qed.

Lemma grow_step s root T fl π p i q :
  vm_ok s root T (q :: fl) → T !! π = Some p → (length π < 2)%nat → 0 ≤ i < 512 →
  has (load64 (k_mem s) (p + 8 * i)) PTE_V = false →
  let s' := set_freelist (load64 (k_mem s) q) (set_mem (grown (k_mem s) p i q) s) in
  (pt ← kalloc; if pt =? 0 then mret None else
   memset_page pt 0;; write64 (p + 8 * i) (Z.lor (PA2PTE pt) PTE_V);; mret (Some pt)) s = Ok (Some q) s' ∧
  vm_grown s s' root T (<[π ++ [i] := q]> T) (q :: fl) fl.
Proof using LOk.
  intros [HT Hf Hd Hc Hl] Hp Hπ Hi Hv s'.
  pose proof (kalloc_ok s (q :: fl) Hc Hl Hf) as [Hk Hf'].
  pose proof (fp_ok _ _ Hf) as [Hq Hok]%Forall_cons. pose proof (fp_nodup _ _ Hf) as [Hqn Hnd]%NoDup_cons.
  destruct (page_ok_bound q Hq) as (_ & _ & Hq0).
  assert (Hfresh : ∀ π' p', T !! π' = Some p' → p' ≠ q).
  { intros π' p' H ->. apply (Hd _ _ H). by left. }
  destruct (pt_page _ _ _ HT _ _ Hp) as [Hpok _].
  split.
  { rewrite run_bind, Hk. cbn [obind]. replace (q =? 0) with false by lia.
    unfold memset_page, write64. by kgo. }
  assert (Hout : ∀ d x, page_ok d → d ∉ q :: fl → d ≠ p → d ≤ x < d + PGSIZE →
    grown (k_mem s) p i q x = k_mem s x).
  { intros d x Hdok [Hdq Hdf]%not_elem_of_cons Hdp Hx. apply grown_outside.
    - by apply (page_disjoint q d).
    - intros Hx'. apply (page_disjoint p d x); try done. unfold PGSIZE. lia. }
  split.
  - split; [by eapply grown_inv| | |done|done].
    + destruct Hf' as [Hch _ _]. split; [|done|done]. cbn in Hch |- *.
      apply (chain_ext (memset (k_mem s) q 5 PGSIZE)); [done| |done].
      intros pb x Hpb Hx. assert (page_ok pb) by by eapply Forall_forall in Hok.
      assert (Hpq : pb ≠ q) by (by intros ->).
      rewrite memset_outside by (try apply (page_disjoint q pb); done || (unfold PGSIZE; lia)).
      symmetry. apply grown_outside.
      * by apply (page_disjoint q pb).
      * intros Hx'. apply (page_disjoint p pb x); try done; [|unfold PGSIZE; lia].
        intros ->. apply (Hd _ _ Hp). by right.
    + intros π' p' [[_ <-]|[_ H]]%lookup_insert_Some; [done|].
      intros Hin. apply (Hd _ _ H). by right.
  - done.
  - apply insert_subseteq. pose proof (pt_edge _ _ _ HT _ _ _ Hp Hπ Hi) as E. cbn zeta in E. by rewrite Hv in E.
  - by exists [q].
  - intros va. by apply grown_pte with root.
  - intros d x Hdok Hdf Hdt Hx. apply (Hout d x); try done. intros ->. by apply (Hdt π).
  - intros π' p' [[_ <-]|[_ H]]%lookup_insert_Some; [right; by left|by left].
Qed.

Lemma walk_go_step level levels π p s root T fl va :
  vm_ok s root T fl → T !! π = Some p → (length π < 2)%nat → 0 ≤ level →
  (∃ pt s' T' fl', vm_grown s s' root T T' fl fl' ∧ T' !! (π ++ [PX level va]) = Some pt ∧
     walk_go (level :: levels) p va true s = walk_go levels pt va true s') ∨
  (fl = [] ∧ walk_go (level :: levels) p va true s = Ok None s).
Proof using LOk.
  intros Hok Hp Hπ Hlev. pose proof (PX_bound level va Hlev) as Hi.
  cbn [walk_go negb]. unfold load. kgo.
  pose proof (pt_edge _ _ _ (vo_pt _ _ _ _ Hok) _ _ _ Hp Hπ Hi) as E. cbn zeta in E.
  destruct (has _ PTE_V) eqn:Hv.
  - left. eexists _, s, T, fl. split_and!; [by apply vm_grown_refl|exact E|done].
  - destruct fl as [|q fl].
    + right. split; [done|].
      pose proof (kalloc_ok s [] (vo_cpu _ _ _ _ Hok) (vo_lock _ _ _ _ Hok) (vo_free _ _ _ _ Hok)) as Hk.
      rewrite run_bind, Hk. by kgo.
    + left. destruct (grow_step s root T fl π p _ q Hok Hp Hπ Hi Hv) as [Hrun Hg].
      exists q. eexists _, _, fl. split_and!; [exact Hg|apply lookup_insert_eq|].
      revert Hrun. rewrite !run_bind. destruct (kalloc s) as [pt t| | | |]; cbn [obind]; try done.
      destruct (pt =? 0); [done|]. unfold memset_page, write64. kgo. intros [[= ->] ->]%Ok_inj. done.
Qed.

Lemma page_slot_nonzero p i : page_ok p → 0 ≤ i → p + 8 * i ≠ 0.
Proof using LOk. intros Hp Hi. destruct (page_ok_bound p Hp) as (? & _ & _). unfold KERNBASE in *. lia. Qed.

(** walk() with allocation finds or makes the entry for [va], or returns 0 when
    no page is free; the mapping does not change. *)
Lemma walk_alloc_ok s root T fl va :
  vm_ok s root T fl → va < MAXVA →
  ∃ r s' T' fl', walk root va true s = Ok r s' ∧ vm_grown s s' root T T' fl fl' ∧
    ((r = slot_of T' va ∧ r ≠ 0 ∧ is_Some (T' !! [PX 2 va; PX 1 va])) ∨ (r = 0 ∧ fl' = [])).
Proof using LOk.
  intros Hok Hva. unfold walk. replace (MAXVA <=? va) with false by lia.
  destruct (walk_go_step 2 [1] [] root s root T fl va Hok) as [(p1 & s1 & T1 & fl1 & G1 & L1 & E1)|[-> E1]];
    [apply (vo_pt _ _ _ _ Hok)|cbn; lia|lia| |].
  2:{ exists 0, s, T, []. rewrite run_bind, E1. cbn [obind]. split_and!; [done|by apply vm_grown_refl|by right]. }
  rewrite run_bind, E1.
  destruct (walk_go_step 1 [] [PX 2 va] p1 s1 root T1 fl1 va (vg_ok _ _ _ _ _ _ _ G1) L1)
    as [(p0 & s2 & T2 & fl2 & G2 & L2 & E2)|[-> E2]]; [cbn; lia|lia| |].
  2:{ exists 0, s1, T1, []. rewrite E2. cbn [obind]. split_and!; [done|done|by right]. }
  change ([PX 2 va] ++ [PX 1 va]) with [PX 2 va; PX 1 va] in L2.
  exists (p0 + 8 * PX 0 va), s2, T2, fl2. rewrite E2. cbn [walk_go]. kgo.
  split_and!; [done|by eapply vm_grown_trans|]. left. unfold slot_of. rewrite L2.
  split_and!; [done| |by eexists]. pose proof (PX_bound 0 va ltac:(lia)).
  apply page_slot_nonzero; [|lia]. by apply (pt_page _ _ _ (vo_pt _ _ _ _ (vg_ok _ _ _ _ _ _ _ G2)) _ _ L2).
Qed.

(** ** Writing a leaf entry *)

Definition with_leaf (s : kstate) (T : gmap (list Z) Z) (va e : Z) : kstate :=
  set_mem (store64 (k_mem s) (slot_of T va) e) s.

(** Addresses of different pages have different entries. *)
Lemma slot_other T m root va va' p p' :
  pt_inv m root T → T !! [PX 2 va; PX 1 va] = Some p → T !! [PX 2 va'; PX 1 va'] = Some p' →
  0 ≤ va < MAXVA → 0 ≤ va' < MAXVA → va / PGSIZE ≠ va' / PGSIZE →
  ∀ x, p' + 8 * PX 0 va' ≤ x < p' + 8 * PX 0 va' + 8 → ¬ (p + 8 * PX 0 va ≤ x < p + 8 * PX 0 va + 8).
Proof using.
  intros HT Hp Hp' Hva Hva' Hne x Hx Hx'.
  pose proof (PX_bound 0 va ltac:(lia)). pose proof (PX_bound 0 va' ltac:(lia)).
  destruct (pt_page _ _ _ HT _ _ Hp) as [Hok _]. destruct (pt_page _ _ _ HT _ _ Hp') as [Hok' _].
  destruct (decide (p = p')) as [<-|Hpp].
  - pose proof (pt_inj _ _ _ HT _ _ _ Hp Hp') as [= E2 E1].
    assert (PX 0 va = PX 0 va') by lia. apply Hne. by apply PX_inj.
  - apply (page_disjoint p p' x Hok Hok'); [done|unfold PGSIZE; lia|unfold PGSIZE; lia].
Qed.

Lemma with_leaf_ok s root T fl va e :
  vm_ok s root T fl → 0 ≤ va < MAXVA → is_Some (T !! [PX 2 va; PX 1 va]) → 0 ≤ e < 2 ^ 64 →
  let s' := with_leaf s T va e in
  vm_ok s' root T fl ∧ pte_at (k_mem s') T va = e ∧
  (∀ va', 0 ≤ va' < MAXVA → va' / PGSIZE ≠ va / PGSIZE → pte_at (k_mem s') T va' = pte_at (k_mem s) T va') ∧
  (∀ d x, page_ok d → (∀ π, T !! π ≠ Some d) → d ≤ x < d + PGSIZE → k_mem s' x = k_mem s x).
Proof using.
  intros [HT Hf Hd Hc Hl] Hva [p Hp] He s'. unfold s', with_leaf, slot_of. rewrite Hp.
  pose proof (PX_bound 0 va ltac:(lia)) as H0. destruct (pt_page _ _ _ HT _ _ Hp) as [Hok _].
  assert (Hother : ∀ d x, page_ok d → d ≠ p → d ≤ x < d + PGSIZE →
    store64 (k_mem s) (p + 8 * PX 0 va) e x = k_mem s x).
  { intros d x Hdok Hdp Hx. apply store64_outside. intros Hx'.
    apply (page_disjoint p d x); try done. unfold PGSIZE. lia. }
  split_and!.
  - split; cbn; [| |done|done|done].
    + split; [apply HT|apply HT|apply HT| |apply HT].
      intros π q i Hq Hlen Hi. cbn zeta. destruct (pt_page _ _ _ HT _ _ Hq) as [Hqok _].
      rewrite (load64_ext _ (k_mem s)); [by apply HT|]. intros x Hx.
      apply (Hother q); [done| |unfold PGSIZE; lia]. intros ->.
      pose proof (pt_inj _ _ _ HT _ _ _ Hq Hp) as ->. cbn in Hlen. lia.
    + destruct Hf as [Hch Hnd Hfo]. split; [|done|done]. cbn.
      apply (chain_ext (k_mem s)); [done| |done]. intros pb x Hpb Hx. symmetry.
      apply (Hother pb); [by eapply Forall_forall in Hfo| |done]. intros ->. by apply (Hd _ _ Hp).
  - unfold pte_at. rewrite Hp. by apply load64_store64.
  - intros va' Hva' Hne. unfold pte_at. cbn. destruct (T !! [PX 2 va'; PX 1 va']) as [p'|] eqn:Hp'; [|done].
    apply load64_ext. intros x Hx. apply store64_outside. by eapply slot_other with (p' := p').
  - intros d x Hdok Hdt Hx. apply (Hother d); [done| |done]. intros ->. by apply (Hdt [PX 2 va; PX 1 va]).
Qed.

(** ** mappages() *)

(** The entry that maps a page to [pa]. *)
Definition pte_of (pa perm : Z) : Z := Z.lor (Z.lor (PA2PTE pa) perm) PTE_V.

Lemma PX_page l va va' : 0 ≤ l → va / PGSIZE = va' / PGSIZE → PX l va = PX l va'.
Proof using.
  intros Hl E. rewrite !PX_div by done. rewrite Z.pow_add_r by lia. change (2 ^ 12) with PGSIZE.
  rewrite <-!Z.div_div by (unfold PGSIZE; lia). by rewrite E.
Qed.

Lemma pte_at_page m T va va' : va / PGSIZE = va' / PGSIZE → pte_at m T va = pte_at m T va'.
Proof using.
  intros E. unfold pte_at. rewrite (PX_page 2 va va'), (PX_page 1 va va'), (PX_page 0 va va') by (done || lia).
  done.
Qed.

Lemma pte_of_bits pa perm :
  0 ≤ pa < 2 ^ 56 → pa mod PGSIZE = 0 → 0 ≤ perm < 1024 →
  0 ≤ pte_of pa perm < 2 ^ 64 ∧ PTE2PA (pte_of pa perm) = pa ∧ has (pte_of pa perm) PTE_V = true.
Proof using.
  intros Hpa Ha Hp. unfold pte_of. rewrite <-Z.lor_assoc.
  assert (Hf : 0 ≤ Z.lor perm PTE_V < 2 ^ 10).
  { split; [apply Z.lor_nonneg; split; [lia|by vm_compute]|].
    apply Z.log2_lt_cancel. rewrite Z.log2_lor, Z.log2_pow2 by first [lia|by vm_compute].
    change (Z.log2 PTE_V) with 0.
    destruct (decide (perm = 0)) as [->|]; [cbn; lia|].
    apply Z.max_lub_lt; [|lia]. apply Z.log2_lt_pow2; [lia|]. change (2 ^ 10) with 1024. lia. }
  assert (Hpte : 0 ≤ PA2PTE pa < 2 ^ 54).
  { rewrite PA2PTE_div by lia. unfold PGSIZE. dlia. }
  split_and!.
  - apply Z.lor_nonneg. lia.
  - apply Z.log2_lt_cancel. rewrite Z.log2_lor, Z.log2_pow2 by lia.
    assert (∀ z, 0 ≤ z < 2 ^ 54 → Z.log2 z < 64) as Hlog.
    { intros z Hz. destruct (decide (z = 0)) as [->|]; [cbn; lia|].
      apply Z.log2_lt_pow2; lia. }
    apply Z.max_lub_lt; apply Hlog; lia.
  - apply PTE2PA_pte; [done|done|]. change (2 ^ 10) with 1024 in Hf. lia.
  - rewrite Z.lor_assoc. by apply has_lor_r.
Qed.

(** The entries of [n] consecutive pages from [va] are those that map them from
    [pa] on, the others are as before. *)
Definition mapped_range (f g : Z → Z) (va pa perm n : Z) : Prop :=
  ∀ va', 0 ≤ va' < MAXVA →
    g va' = if (va <=? va') && (va' <? va + n * PGSIZE)
            then pte_of (pa + (va' - va) / PGSIZE * PGSIZE) perm else f va'.

Lemma map_one s root T fl a pa perm :
  vm_ok s root T fl → 0 ≤ a < MAXVA → a mod PGSIZE = 0 →
  has (pte_at (k_mem s) T a) PTE_V = false →
  0 ≤ pa < 2 ^ 56 → pa mod PGSIZE = 0 → 0 ≤ perm < 1024 →
  ∃ r s1 T1 fl1, walk root a true s = Ok r s1 ∧ vm_grown s s1 root T T1 fl fl1 ∧
    ((r = 0 ∧ fl1 = []) ∨
     (r = slot_of T1 a ∧ r ≠ 0 ∧ has (load64 (k_mem s1) r) PTE_V = false ∧
      let s2 := with_leaf s1 T1 a (pte_of pa perm) in
      vm_ok s2 root T1 fl1 ∧ mapped_range (pte_at (k_mem s) T) (pte_at (k_mem s2) T1) a pa perm 1 ∧
      ∀ d x, page_ok d → d ∉ fl → (∀ π, T !! π ≠ Some d) → d ≤ x < d + PGSIZE → k_mem s2 x = k_mem s x)).
Proof using LOk.
  intros Hok Ha Hal Hv Hpa Hpal Hperm.
  destruct (walk_alloc_ok s root T fl a Hok ltac:(lia)) as (r & s1 & T1 & fl1 & E & G & Hr).
  exists r, s1, T1, fl1. split_and!; [done|done|].
  destruct Hr as [(Hr & Hr0 & Hs)|[-> ->]]; [right|by left].
  destruct (pte_of_bits pa perm Hpa Hpal Hperm) as (Hb & _ & _).
  destruct (with_leaf_ok s1 root T1 fl1 a (pte_of pa perm) (vg_ok _ _ _ _ _ _ _ G) Ha Hs Hb) as (Hok2 & Hat & Hoth & Hfr).
  split; [done|]. split; [done|]. split; [|cbn zeta; split; [done|split]].
  - assert (load64 (k_mem s1) r = pte_at (k_mem s1) T1 a) as ->.
    { rewrite Hr. unfold slot_of, pte_at. destruct Hs as [p ->]. done. }
    by rewrite (vg_pte _ _ _ _ _ _ _ G).
  - intros va' Hva'. destruct ((a <=? va') && (va' <? a + 1 * PGSIZE)) eqn:Hin.
    + rewrite (pte_at_page _ _ va' a) by (unfold PGSIZE in *; dlia). rewrite Hat.
      replace ((va' - a) / PGSIZE) with 0 by (unfold PGSIZE in *; dlia). by rewrite Z.add_0_r.
    + rewrite Hoth by (try done; unfold PGSIZE in *; dlia). apply (vg_pte _ _ _ _ _ _ _ G).
  - intros d x Hd Hdf Hdt Hx. rewrite (Hfr d x); [|done| |done].
    + by apply (vg_frame _ _ _ _ _ _ _ G d).
    + intros π [H|H]%(vg_new _ _ _ _ _ _ _ G); [by eapply Hdt|done].
Qed.

Lemma mapped_range_S f g h va pa perm n :
  0 ≤ va → va mod PGSIZE = 0 → 0 ≤ n →
  mapped_range f g va pa perm 1 → mapped_range g h (va + PGSIZE) (pa + PGSIZE) perm n →
  mapped_range f h va pa perm (n + 1).
Proof using.
  intros Hva Hal Hn H1 H2 x Hx. rewrite (H2 x Hx), (H1 x Hx). unfold PGSIZE in *.
  destruct ((va + 4096 <=? x) && (x <? va + 4096 + n * 4096)) eqn:E1.
  - replace ((va <=? x) && (x <? va + (n + 1) * 4096)) with true by lia. f_equal. dlia.
  - destruct ((va <=? x) && (x <? va + 1 * 4096)) eqn:E2.
    + by replace ((va <=? x) && (x <? va + (n + 1) * 4096)) with true by lia.
    + by replace ((va <=? x) && (x <? va + (n + 1) * 4096)) with false by lia.
Qed.

(** What a run of mappages() over [n] pages leaves: the first [k] are mapped. *)
Record maps (s s' : kstate) (root : Z) (T T' : gmap (list Z) Z) (fl fl' : list Z)
    (va pa perm k : Z) : Prop := {
  mp_ok : vm_ok s' root T' fl';
  mp_range : mapped_range (pte_at (k_mem s) T) (pte_at (k_mem s') T') va pa perm k;
  mp_rest : s' = set_freelist (k_freelist s') (set_mem (k_mem s') s);
  mp_frame d x : page_ok d → d ∉ fl → (∀ π, T !! π ≠ Some d) → d ≤ x < d + PGSIZE →
    k_mem s' x = k_mem s x;
  mp_free : fl' `suffix_of` fl;
  mp_new π p : T' !! π = Some p → T !! π = Some p ∨ p ∈ fl;
}.

Definition map_loop (root last perm : Z) (fuel : nat) : Z * Z → K Z :=
  loop fuel (λ '(a, pa),
    pte ← walk root a true;
    if pte =? 0 then mret (inr (-1)) else
    e ← load pte;
    if has e PTE_V then panic "mappages: remap" else
    write64 pte (Z.lor (Z.lor (PA2PTE pa) perm) PTE_V);;
    if a =? last then mret (inr 0)
    else mret (inl (u64 (a + PGSIZE), u64 (pa + PGSIZE)))).

(** One page mapped, then [k] more. *)
Lemma maps_step s s1 s' root T T1 T' fl fl1 fl' a pa perm k :
  0 ≤ a → a mod PGSIZE = 0 → 0 ≤ k →
  vm_grown s s1 root T T1 fl fl1 →
  (let s2 := with_leaf s1 T1 a (pte_of pa perm) in
   mapped_range (pte_at (k_mem s) T) (pte_at (k_mem s2) T1) a pa perm 1 ∧
   (∀ d x, page_ok d → d ∉ fl → (∀ π, T !! π ≠ Some d) → d ≤ x < d + PGSIZE → k_mem s2 x = k_mem s x) ∧
   maps s2 s' root T1 T' fl1 fl' (a + PGSIZE) (pa + PGSIZE) perm k) →
  maps s s' root T T' fl fl' a pa perm (k + 1).
Proof using.
  intros Ha Hal Hk G (Hm & Hfr & [M1 M2 M3 M4 M5 M6]).
  destruct (vg_free _ _ _ _ _ _ _ G) as [l Hl].
  assert (Hsub : ∀ x, x ∈ fl1 → x ∈ fl) by (intros x Hx; rewrite Hl; apply elem_of_app; by right).
  split; [done| | | | |].
  - by eapply mapped_range_S.
  - rewrite M3, (vg_rest _ _ _ _ _ _ _ G). done.
  - intros d x Hd Hdf Hdt Hx. rewrite (M4 d x), (Hfr d x); [done|done..|by intros ?%Hsub| |done].
    intros π [H1|H1]%(vg_new _ _ _ _ _ _ _ G); [by eapply Hdt|done].
  - etrans; [exact M5|apply G].
  - intros π p [H1|H1]%M6; [by apply G|right; auto].
Qed.

Lemma map_loop_ok n fuel s root T fl a pa perm :
  vm_ok s root T fl → 0 ≤ a → a mod PGSIZE = 0 → a + (Z.of_nat n + 1) * PGSIZE ≤ MAXVA →
  (∀ x, a ≤ x < a + (Z.of_nat n + 1) * PGSIZE → has (pte_at (k_mem s) T x) PTE_V = false) →
  0 ≤ pa → pa mod PGSIZE = 0 → pa + (Z.of_nat n + 1) * PGSIZE ≤ 2 ^ 56 → 0 ≤ perm < 1024 →
  (n < fuel)%nat →
  ∃ r s' T' fl' k, map_loop root (a + Z.of_nat n * PGSIZE) perm fuel (a, pa) s = Ok r s' ∧
    maps s s' root T T' fl fl' a pa perm k ∧
    ((r = 0 ∧ k = Z.of_nat n + 1) ∨ (r = -1 ∧ 0 ≤ k ≤ Z.of_nat n ∧ fl' = [])).
Proof using LOk.
  pose proof (eq_refl : PGSIZE = 4096) as HPG. pose proof (eq_refl : MAXVA = 2 ^ 38) as HMV.
  revert fuel s T fl a pa.
  induction n as [|n IH]; intros fuel s T fl a pa Hok Ha Hal Hmax Hun Hpa Hpal Hpmax Hperm Hfuel;
    (destruct fuel as [|fuel]; [lia|]); unfold map_loop; cbn [loop]; fold (map_loop root);
    (destruct (map_one s root T fl a pa perm Hok ltac:(lia) Hal) as (r & s1 & T1 & fl1 & E & G & Hr);
      [apply Hun; lia|lia|done|done|]);
    rewrite run_bind, (run_bind _ (walk root a true)), E; cbn [obind];
    (destruct Hr as [(-> & ->)|(Hr & Hr0 & Hv & Hok2 & Hm & Hfr)];
      [exists (-1), s1, T1, [], 0; split; [done|split; [|right; split_and!; [done|lia|lia|done]]];
       split; try apply G; intros x Hx; replace ((a <=? x) && _) with false by lia; apply G|]);
    replace (r =? 0) with false by lia; unfold load, write64; kgo; rewrite Hv; kgo; rewrite Hr;
    fold (pte_of pa perm); fold (with_leaf s1 T1 a (pte_of pa perm)).
  - replace (a =? a + Z.of_nat 0 * PGSIZE) with true by lia. kgo.
    exists 0. eexists _, T1, fl1, 1. split; [done|]. split; [|left; split; [done|lia]].
    split; [done|done| |done|apply G|apply G]. by rewrite (vg_rest _ _ _ _ _ _ _ G).
  - replace (a =? a + Z.of_nat (S n) * PGSIZE) with false by lia. kgo. rewrite !u64_small by lia.
    replace (a + Z.of_nat (S n) * PGSIZE) with ((a + PGSIZE) + Z.of_nat n * PGSIZE) by lia.
    destruct (IH fuel _ T1 fl1 (a + PGSIZE) (pa + PGSIZE) Hok2) as (r' & s' & T' & fl' & k & E' & M & Hr');
      try (lia || dlia).
    + intros x Hx. rewrite (Hm x) by lia. replace ((a <=? x) && _) with false by lia. apply Hun. lia.
    + exists r', s', T', fl', (k + 1). split; [exact E'|]. split.
      * eapply maps_step; [done|done|lia|exact G|done].
      * destruct Hr' as [[-> ->]|(-> & ? & ->)]; [left|right]; split_and!; (done || lia).
Qed.

Lemma mappages_ok s root T fl va n pa perm :
  vm_ok s root T fl → 0 < n → 0 ≤ va → va mod PGSIZE = 0 → va + n * PGSIZE ≤ MAXVA →
  (∀ x, va ≤ x < va + n * PGSIZE → has (pte_at (k_mem s) T x) PTE_V = false) →
  0 ≤ pa → pa mod PGSIZE = 0 → pa + n * PGSIZE ≤ 2 ^ 56 → 0 ≤ perm < 1024 →
  ∃ r s' T' fl' k, mappages root va (n * PGSIZE) pa perm s = Ok r s' ∧
    maps s s' root T T' fl fl' va pa perm k ∧
    ((r = 0 ∧ k = n) ∨ (r = -1 ∧ 0 ≤ k < n ∧ fl' = [])).
Proof using LOk.
  pose proof (eq_refl : PGSIZE = 4096) as HPG. pose proof (eq_refl : MAXVA = 2 ^ 38) as HMV.
  intros Hok Hn Hva Hal Hmax Hun Hpa Hpal Hpmax Hperm.
  destruct (map_loop_ok (Z.to_nat (n - 1)) (Z.to_nat (n * PGSIZE / PGSIZE)) s root T fl va pa perm)
    as (r & s' & T' & fl' & k & E & M & Hr); try done; try (rewrite Z2Nat.id by lia; lia || (intros; apply Hun; lia)).
  - rewrite Z.div_mul by lia. lia.
  - exists r, s', T', fl', k. rewrite Z2Nat.id in * by lia. split; [|split; [done|]].
    2:{ destruct Hr as [[-> ->]|(-> & ? & ->)]; [left|right]; split_and!; (done || lia). }
    unfold mappages. rewrite Hal. cbn [Z.eqb negb]. rewrite Z.mod_mul by lia. cbn [Z.eqb negb].
    replace (n * PGSIZE =? 0) with false by lia. rewrite u64_small by lia.
    replace (va + n * PGSIZE - PGSIZE) with (va + (n - 1) * PGSIZE) by lia. exact E.
Qed.

Lemma walkaddr_ok s root T va :
  pt_inv (k_mem s) root T → 0 ≤ va < MAXVA →
  let e := pte_at (k_mem s) T va in
  walkaddr root va s = Ok (if has e PTE_V && has e PTE_U then PTE2PA e else 0) s.
Proof using LOk.
  intros HT Hva e. unfold walkaddr. replace (MAXVA <=? va) with false by lia.
  rewrite run_bind, (walk_ok s root T va) by (done || lia). cbn [obind]. unfold e, pte_at, slot_of.
  destruct (T !! [PX 2 va; PX 1 va]) as [p|] eqn:Hp.
  - pose proof (PX_bound 0 va ltac:(lia)). destruct (pt_page _ _ _ HT _ _ Hp) as [Hpok _].
    replace (p + 8 * PX 0 va =? 0) with false by (pose proof (page_slot_nonzero p (PX 0 va) Hpok); lia).
    unfold load. kgo. by destruct (has _ PTE_V), (has _ PTE_U).
  - by rewrite has_0.
Qed.

(** A zeroed page is an empty page table. *)
Lemma empty_table m root :
  page_ok root → (∀ x, root ≤ x < root + PGSIZE → m x = 0) → pt_inv m root {[ [] := root ]}.
Proof using.
  intros Hr Hm. split.
  - apply lookup_singleton_eq.
  - intros π p [<- <-]%lookup_singleton_Some. split; [done|cbn; lia].
  - by intros π π' p [<- <-]%lookup_singleton_Some [<- _]%lookup_singleton_Some.
  - intros π p i [<- <-]%lookup_singleton_Some _ Hi. cbn zeta.
    rewrite (load64_zero m root PGSIZE), has_0 by (done || (unfold PGSIZE; lia)).
    by apply lookup_singleton_ne.
  - intros π i p [E _]%lookup_singleton_Some. by destruct π.
Qed.

(** C4: Mapping [n] unmapped, page-aligned user pages. mappages() returns 0 with
    all of them mapped, or -1 with the free list exhausted and a prefix of [k]
    of them mapped; it panics in neither case. Every other virtual page keeps
    its entry, no page outside the page table and the free list is written, and
    the page-table and allocator invariants hold again. From then on walkaddr()
    takes each address of a mapped page to the physical page that the entry was
    made for, when the page is mapped with PTE_U, and to 0 when it is not. *)
Theorem mappages_then_walkaddr s root T fl va n pa perm :
  vm_ok s root T fl → 0 < n → 0 ≤ va → va mod PGSIZE = 0 → va + n * PGSIZE ≤ MAXVA →
  (∀ x, va ≤ x < va + n * PGSIZE → has (pte_at (k_mem s) T x) PTE_V = false) →
  0 ≤ pa → pa mod PGSIZE = 0 → pa + n * PGSIZE ≤ 2 ^ 56 → 0 ≤ perm < 1024 →
  ∃ r s' T' fl' k, mappages root va (n * PGSIZE) pa perm s = Ok r s' ∧
    maps s s' root T T' fl fl' va pa perm k ∧
    ((r = 0 ∧ k = n) ∨ (r = -1 ∧ 0 ≤ k < n ∧ fl' = [])) ∧
    ∀ x, va ≤ x < va + k * PGSIZE →
      walkaddr root x s' =
        Ok (if has (pte_of (pa + (x - va) / PGSIZE * PGSIZE) perm) PTE_U
            then pa + (x - va) / PGSIZE * PGSIZE else 0) s'.
Proof using LOk.
  intros Hok Hn Hva Hal Hmax Hun Hpa Hpal Hpmax Hperm.
  destruct (mappages_ok s root T fl va n pa perm) as (r & s' & T' & fl' & k & E & M & Hr); try done.
  exists r, s', T', fl', k. split_and!; [done..|]. intros x Hx.
  assert (Hk : 0 ≤ k ≤ n) by (destruct Hr as [[_ ->]|(_ & ? & _)]; lia).
  assert (Hx' : 0 ≤ x < MAXVA) by (unfold PGSIZE in *; lia).
  rewrite (walkaddr_ok s' root T') by (try done; apply M).
  rewrite (mp_range _ _ _ _ _ _ _ _ _ _ _ M x Hx'). replace ((va <=? x) && _) with true by lia.
  set (q := pa + (x - va) / PGSIZE * PGSIZE).
  assert (Hq : 0 ≤ q < 2 ^ 56 ∧ q mod PGSIZE = 0) by (unfold q, PGSIZE in *; split; dlia).
  destruct (pte_of_bits q perm) as (_ & -> & ->); [apply Hq..|done|]. done.
Qed.
End page_table.

(** ** Witness *)

(** An empty page table at 0x80030000 and three free pages. *)
Definition vm_demo : kstate :=
  set_freelist 0x80024000
    (set_mem (store64 (store64 (λ _, 0) 0x80024000 0x80025000) 0x80025000 0x80026000) boot_state).

Lemma vm_demo_ok :
  vm_ok (LY := small_layout) vm_demo 0x80030000 {[ [] := 0x80030000 ]} [0x80024000; 0x80025000; 0x80026000].
Proof.
  split.
  - apply empty_table; [by vm_compute|]. intros x Hx. unfold PGSIZE in Hx. cbn [vm_demo k_mem set_mem set_freelist].
    by rewrite !store64_outside by lia.
  - split; [by vm_compute| |repeat constructor; by vm_compute].
    apply (bool_decide_unpack _). by vm_compute.
  - intros π p [_ <-]%lookup_singleton_Some. apply (bool_decide_unpack _). by vm_compute.
  - exact boot_cpu_ok.
  - apply lookup_empty.
Qed.

Lemma mappages_then_walkaddr_witness :
  ∃ r s' T' fl' k,
    mappages 0x80030000 0x1000 (2 * PGSIZE) 0x80100000 (Z.lor PTE_R PTE_U) vm_demo = Ok r s' ∧
    maps (LY := small_layout) vm_demo s' 0x80030000 {[ [] := 0x80030000 ]} T'
      [0x80024000; 0x80025000; 0x80026000] fl' 0x1000 0x80100000 (Z.lor PTE_R PTE_U) k ∧
    ((r = 0 ∧ k = 2) ∨ (r = -1 ∧ 0 ≤ k < 2 ∧ fl' = [])) ∧
    ∀ x, 0x1000 ≤ x < 0x1000 + k * PGSIZE →
      walkaddr 0x80030000 x s' =
        Ok (if has (pte_of (0x80100000 + (x - 0x1000) / PGSIZE * PGSIZE) (Z.lor PTE_R PTE_U)) PTE_U
            then 0x80100000 + (x - 0x1000) / PGSIZE * PGSIZE else 0) s'.
Proof.
  apply (mappages_then_walkaddr (LY := small_layout) (LOk := small_layout_ok) vm_demo 0x80030000
           {[ [] := 0x80030000 ]} [0x80024000; 0x80025000; 0x80026000] 0x1000 2 0x80100000 (Z.lor PTE_R PTE_U));
    [exact vm_demo_ok|lia|lia|by vm_compute|by vm_compute| |lia|by vm_compute|by vm_compute|by vm_compute].
  intros x _. unfold pte_at. by rewrite lookup_singleton_ne.
Defined.
