(* ===== verification/UserMem.v ===== *)
(** Copies between the kernel and user memory: copyout() and copyin() of
    kernel/vm.c against the address space that the page table describes. *)

From Stdlib Require Import ZArith Lia ZifyBool.
From stdpp Require Import base numbers list gmap strings.
From S2P Require Import Prelude Params Machine Spinlock CString Printf Sched Kalloc Vm PageTable.

Section user_memory.
Context {LY : Layout} {LOk : LayoutOk}.

(** The physical address behind a virtual one. *)
Definition pa_of (m : Z → Z) (T : gmap (list Z) Z) (va : Z) : Z :=
  PTE2PA (pte_at m T va) + va mod PGSIZE.

(** The range [va, va + len) is user memory with the flag [w] on every page, on
    physical pages of its own that do not hold the page table. *)
Record user_range (m : Z → Z) (T : gmap (list Z) Z) (w va len : Z) : Prop := {
  ur_bound : 0 ≤ va ∧ va + len ≤ MAXVA;
  ur_flags x : va ≤ x < va + len →
    has (pte_at m T x) PTE_V = true ∧ has (pte_at m T x) PTE_U = true ∧ has (pte_at m T x) w = true;
  ur_page x : va ≤ x < va + len → page_ok (PTE2PA (pte_at m T x));
  ur_table x π p : va ≤ x < va + len → T !! π = Some p → p ≠ PTE2PA (pte_at m T x);
  ur_inj x y : va ≤ x < va + len → va ≤ y < va + len →
    PTE2PA (pte_at m T x) = PTE2PA (pte_at m T y) → x / PGSIZE = y / PGSIZE;
}.

(** ** The page table does not change when other memory does *)

Lemma pt_inv_ext m m' root T :
  (∀ π p x, T !! π = Some p → p ≤ x < p + PGSIZE → m' x = m x) →
  pt_inv m root T → pt_inv m' root T.
Proof using.
  intros He [H1 H2 H3 H4 H5]. split; try done. intros π p i Hp Hl Hi. cbn zeta.
  rewrite (load64_ext m' m); [by apply H4|]. intros x Hx. apply (He π p); [done|unfold PGSIZE; lia].
Qed.

Lemma pte_at_ext m m' root T va :
  pt_inv m root T → (∀ π p x, T !! π = Some p → p ≤ x < p + PGSIZE → m' x = m x) →
  pte_at m' T va = pte_at m T va.
Proof using.
  intros HT He. unfold pte_at. destruct (T !! [PX 2 va; PX 1 va]) as [p|] eqn:Hp; [|done].
  pose proof (PX_bound 0 va ltac:(lia)). apply load64_ext. intros x Hx.
  eapply He; [done|]. unfold PGSIZE. lia.
Qed.

Lemma pa_of_page m T x y : x / PGSIZE = y / PGSIZE → pa_of m T x = pa_of m T y + (x - y).
Proof using.
  intros E. unfold pa_of. rewrite (pte_at_page m T x y) by done.
  pose proof (Z.div_mod x PGSIZE ltac:(done)). pose proof (Z.div_mod y PGSIZE ltac:(done)).
  rewrite E in *. lia.
Qed.

Section range.
Context (m : Z → Z) (root : Z) (T : gmap (list Z) Z) (w va len : Z).
Hypothesis (HT : pt_inv m root T) (HR : user_range m T w va len).

(** A byte of the range lies in a page of its own, outside the page table. *)
Lemma pa_of_table x π p y :
  va ≤ x < va + len → T !! π = Some p → p ≤ y < p + PGSIZE → y ≠ pa_of m T x.
Proof using HT HR LOk.
  intros Hx Hp Hy ->. destruct (pt_page _ _ _ HT _ _ Hp) as [Hok _].
  pose proof (Z.mod_pos_bound x PGSIZE ltac:(done)).
  apply (page_disjoint p (PTE2PA (pte_at m T x)) (pa_of m T x) Hok); try done.
  - by apply (ur_page _ _ _ _ _ HR).
  - by eapply (ur_table _ _ _ _ _ HR).
  - unfold pa_of. lia.
Qed.

Lemma pa_of_inj x y :
  va ≤ x < va + len → va ≤ y < va + len → pa_of m T x = pa_of m T y → x = y.
Proof using HR LOk.
  intros Hx Hy E. destruct (ur_page _ _ _ _ _ HR x Hx) as [Ax _].
  destruct (ur_page _ _ _ _ _ HR y Hy) as [Ay _]. unfold pa_of in E.
  assert (Hp : PTE2PA (pte_at m T x) = PTE2PA (pte_at m T y)) by (unfold PGSIZE in *; dlia).
  pose proof (ur_inj _ _ _ _ _ HR x y Hx Hy Hp). unfold PGSIZE in *. dlia.
Qed.

Lemma range_pages x : va ≤ x < va + len → PGROUNDDOWN x / PGSIZE = x / PGSIZE.
Proof using. intros. rewrite PGROUNDDOWN_div. unfold PGSIZE. dlia. Qed.

(** The page of an address of the range, as copyin() and copyout() look it up. *)
Lemma user_page_ok s x :
  k_mem s = m → va ≤ x < va + len →
  user_page root (PGROUNDDOWN x) s = Ok (PTE2PA (pte_at m T x)) s ∧ PTE2PA (pte_at m T x) ≠ 0.
Proof using HT HR LOk.
  intros Hm Hx. destruct (ur_flags _ _ _ _ _ HR x Hx) as (Hv & Hu & _).
  destruct (page_ok_bound _ (ur_page _ _ _ _ _ HR x Hx)) as (Hb & _ & Hnz). split; [|done].
  destruct (ur_bound _ _ _ _ _ HR). pose proof (PGROUNDDOWN_bound x). unfold user_page.
  rewrite run_bind, (walkaddr_ok s root T); [|by rewrite Hm|rewrite PGROUNDDOWN_div in *; unfold PGSIZE in *; dlia].
  rewrite Hm, (pte_at_page m T (PGROUNDDOWN x) x) by (by apply range_pages). rewrite Hv, Hu. cbn [andb obind].
  by replace (_ =? 0) with false by lia.
Qed.

Lemma walk_range s x :
  k_mem s = m → va ≤ x < va + len →
  ∃ a, walk root (PGROUNDDOWN x) false s = Ok a s ∧ a ≠ 0 ∧ load64 m a = pte_at m T x.
Proof using HT HR LOk.
  intros Hm Hx. destruct (ur_flags _ _ _ _ _ HR x Hx) as (Hv & _).
  destruct (ur_bound _ _ _ _ _ HR). pose proof (PGROUNDDOWN_bound x).
  rewrite (walk_ok s root T) by (try (by rewrite Hm); lia). eexists. split; [done|].
  rewrite <-(pte_at_page m T (PGROUNDDOWN x) x) in * by (by apply range_pages).
  unfold slot_of, pte_at in *. destruct (T !! _) as [p|] eqn:Hp; [|by rewrite has_0 in Hv].
  destruct (pt_page _ _ _ HT _ _ Hp) as [Hok _]. pose proof (PX_bound 0 (PGROUNDDOWN x) ltac:(lia)).
  split; [apply page_slot_nonzero; [done|lia]|done].
Qed.
End range.

Lemma user_range_sub m T w va len va' len' :
  user_range m T w va len → va ≤ va' → va' + len' ≤ va + len → user_range m T w va' len'.
Proof using.
  intros [H1 H2 H3 H4 H5] ? ?. split.
  - lia.
  - intros x Hx. apply H2. lia.
  - intros x Hx. apply H3. lia.
  - intros x π p Hx. apply H4. lia.
  - intros x y Hx Hy. apply H5; lia.
Qed.

Lemma user_range_ext m m' T w va len :
  (∀ x, pte_at m' T x = pte_at m T x) → user_range m T w va len → user_range m' T w va len.
Proof using.
  intros He [H1 H2 H3 H4 H5]. split; [done|..].
  - intros x Hx. rewrite He. by apply H2.
  - intros x Hx. rewrite He. by apply H3.
  - intros x π p Hx. rewrite He. by apply H4.
  - intros x y Hx Hy. rewrite !He. by apply H5.
Qed.

(** ** copyout *)

(** [m'] is [m] with the bytes [bs] at the virtual address [va]. *)
Record wrote (m m' : Z → Z) (T : gmap (list Z) Z) (va : Z) (bs : list Z) : Prop := {
  wr_in i b : bs !! i = Some b → m' (pa_of m T (va + Z.of_nat i)) = b;
  wr_out x : (∀ i, (i < length bs)%nat → x ≠ pa_of m T (va + Z.of_nat i)) → m' x = m x;
}.

(** One page of a copy to user memory. *)
Lemma wrote_page m root T w va bs :
  pt_inv m root T → user_range m T w va (Z.of_nat (length bs)) →
  va mod PGSIZE + Z.of_nat (length bs) ≤ PGSIZE → (0 < length bs)%nat →
  wrote m (store m (pa_of m T va) bs) T va bs.
Proof using.
  intros HT HR Hn Hp.
  assert (Hpa : ∀ i, (i < length bs)%nat → pa_of m T (va + Z.of_nat i) = pa_of m T va + Z.of_nat i).
  { intros i Hi. rewrite (pa_of_page m T (va + Z.of_nat i) va); [lia|]. unfold PGSIZE in *. dlia. }
  split.
  - intros i b Hb. pose proof (lookup_lt_Some _ _ _ Hb). rewrite Hpa by done. rewrite store_lookup.
    replace (_ && _) with true by lia.
    replace (Z.to_nat _) with i by lia. by apply list_lookup_total_correct.
  - intros x Hx. rewrite store_lookup.
    destruct ((pa_of m T va <=? x) && (x <? pa_of m T va + Z.of_nat (length bs))) eqn:E; [|done].
    destruct (Hx (Z.to_nat (x - pa_of m T va))); [lia|]. rewrite Hpa by lia. lia.
Qed.

Lemma wrote_table m m' root T w va bs π p x :
  pt_inv m root T → user_range m T w va (Z.of_nat (length bs)) → wrote m m' T va bs →
  T !! π = Some p → p ≤ x < p + PGSIZE → m' x = m x.
Proof using LOk.
  intros HT HR HW Hp Hx. apply HW. intros i Hi. eapply pa_of_table; [done|done| |done|done]. lia.
Qed.

Lemma wrote_app m m1 m2 root T w va bs1 bs2 :
  pt_inv m root T → user_range m T w va (Z.of_nat (length (bs1 ++ bs2))) →
  wrote m m1 T va bs1 → wrote m1 m2 T (va + Z.of_nat (length bs1)) bs2 → wrote m m2 T va (bs1 ++ bs2).
Proof using LOk.
  intros HT HR H1 H2. rewrite length_app in HR.
  assert (Hpa : ∀ x, pa_of m1 T x = pa_of m T x).
  { intros x. unfold pa_of. f_equal. f_equal. eapply pte_at_ext; [done|].
    intros π p y. eapply wrote_table; [done| |done]. eapply user_range_sub; [done|lia|lia]. }
  split.
  - intros i b Hb. destruct (decide (i < length bs1)%nat) as [Hi|Hi].
    + rewrite lookup_app_l in Hb by done. rewrite (wr_out _ _ _ _ _ H2); [by apply H1|].
      intros j Hj E. rewrite Hpa in E. apply (pa_of_inj m T w va _ HR) in E; lia.
    + rewrite lookup_app_r in Hb by lia. pose proof (lookup_lt_Some _ _ _ Hb).
      rewrite <-Hpa, <-(wr_in _ _ _ _ _ H2 _ _ Hb). do 2 f_equal. lia.
  - intros x Hx. rewrite (wr_out _ _ _ _ _ H2), (wr_out _ _ _ _ _ H1); [done|..].
    + intros i Hi. apply Hx. rewrite length_app. lia.
    + intros j Hj. rewrite Hpa, <-Z.add_assoc, <-Nat2Z.inj_add. apply Hx. rewrite length_app. lia.
Qed.

(** Pages that a range of length [len] at [va] touches. *)
Definition npages (va len : Z) : Z := (va mod PGSIZE + len + PGSIZE - 1) / PGSIZE.

Lemma npages_fuel va len : 0 ≤ len → npages va len < Z.of_nat (copy_fuel len).
Proof using. intros. unfold npages, copy_fuel, PGSIZE. dlia. Qed.

Definition copyout_step (pagetable : Z) : Z * list Z → K ((Z * list Z) + Z) :=
  λ '(dstva, src),
    let len := Z.of_nat (length src) in
    if negb (0 <? len) then mret (inr 0) else
    let va0 := PGROUNDDOWN dstva in
    if MAXVA <=? va0 then mret (inr (-1)) else
    pa0 ← user_page pagetable va0;
    if pa0 =? 0 then mret (inr (-1)) else
    pte ← walk pagetable va0 false;
    if pte =? 0 then panic "kerneltrap" else
    e ← load pte;
    if negb (has e PTE_W) then mret (inr (-1)) else
    let n := PGSIZE - (dstva - va0) in
    let n := if len <? n then len else n in
    modify (λ s, set_mem (store (k_mem s) (pa0 + (dstva - va0)) (take (Z.to_nat n) src)) s);;
    mret (inl (u64 (va0 + PGSIZE), drop (Z.to_nat n) src)).

(** The bytes that one iteration moves. *)
Definition chunk (va len : Z) : Z := Z.min len (PGSIZE - va mod PGSIZE).

Lemma PGROUNDDOWN_mod x : x - PGROUNDDOWN x = x mod PGSIZE.
Proof using. rewrite PGROUNDDOWN_div. unfold PGSIZE. dlia. Qed.

(** The pages that copyout() does not write to: behind the address space,
    read-only, or not mapped and outside the memory of the process [me]. *)
Inductive refused (me : nat) (s : kstate) (T : gmap (list Z) Z) (va : Z) : Prop :=
  | refused_high : MAXVA ≤ va → refused me s T va
  | refused_read_only :
      0 ≤ va < MAXVA → has (pte_at (k_mem s) T va) PTE_V = true → has (pte_at (k_mem s) T va) PTE_U = true →
      has (pte_at (k_mem s) T va) PTE_W = false → PTE2PA (pte_at (k_mem s) T va) ≠ 0 → refused me s T va
  | refused_unmapped :
      0 ≤ va < MAXVA → has (pte_at (k_mem s) T va) PTE_V = false → cpu_ok s → c_proc (cur_cpu s) = Some me →
      p_sz (k_proc s !!! me) ≤ PGROUNDDOWN va → refused me s T va.

(** Of [n] bytes from [va] on, the first [k] can be written; if that is not all,
    the next one is at the start of the copy or of a page, on a page that cannot. *)
Record takes (me : nat) (s : kstate) (T : gmap (list Z) Z) (va n k : Z) : Prop := {
  tk_range : 0 ≤ k ≤ n;
  tk_good : user_range (k_mem s) T PTE_W va k;
  tk_bad : k < n → (k = 0 ∨ (va + k) mod PGSIZE = 0) ∧ refused me s T (va + k);
}.

Lemma copyout_step_ok s root T va bs k :
  pt_inv (k_mem s) root T → user_range (k_mem s) T PTE_W va k → 0 < k → bs ≠ [] →
  let n := Z.to_nat (chunk va (Z.of_nat (length bs))) in
  copyout_step root (va, bs) s =
    Ok (inl (va - va mod PGSIZE + PGSIZE, drop n bs))
      (set_mem (store (k_mem s) (pa_of (k_mem s) T va) (take n bs)) s).
Proof using LOk.
  intros HT HR Hk Hne n. assert (Hlen : 0 < Z.of_nat (length bs)) by (destruct bs; [done|cbn; lia]).
  destruct (ur_bound _ _ _ _ _ HR) as [Hva Hmax]. pose proof (PGROUNDDOWN_bound va).
  assert (Hx : va ≤ va < va + k) by lia.
  destruct (user_page_ok (k_mem s) root T PTE_W va _ HT HR s va eq_refl Hx) as [Hup Hnz].
  destruct (walk_range (k_mem s) root T PTE_W va _ HT HR s va eq_refl Hx) as (a & Hw & Ha & Hl).
  unfold copyout_step. replace (negb (0 <? _)) with false by lia.
  replace (MAXVA <=? PGROUNDDOWN va) with false by lia.
  rewrite run_bind, Hup. cbn [obind]. replace (_ =? 0) with false by lia.
  rewrite run_bind, Hw. cbn [obind]. replace (a =? 0) with false by lia. unfold load. kgo.
  rewrite Hl. destruct (ur_flags _ _ _ _ _ HR va Hx) as (_ & _ & ->). cbn [negb]. kgo.
  rewrite PGROUNDDOWN_mod. fold (pa_of (k_mem s) T va).
  replace (if Z.of_nat (length bs) <? PGSIZE - va mod PGSIZE then _ else _)
    with (chunk va (Z.of_nat (length bs))) by (unfold chunk; destruct (Z.ltb_spec (Z.of_nat (length bs)) (PGSIZE - va mod PGSIZE)); lia).
  fold n. unfold MAXVA, PGSIZE in *. rewrite u64_small by (change (Z.shiftl 1 _) with (2 ^ 38) in *; lia).
  pose proof (PGROUNDDOWN_mod va). unfold PGSIZE in *. replace (PGROUNDDOWN va) with (va - va mod 4096) by lia. done.
Qed.

Lemma copyout_step_refused me s root T va bs :
  pt_inv (k_mem s) root T → refused me s T va → bs ≠ [] →
  copyout_step root (va, bs) s = Ok (inr (-1)) s.
Proof using LOk.
  intros HT Hr Hne. assert (Hlen : 0 < Z.of_nat (length bs)) by (destruct bs; [done|cbn; lia]).
  pose proof (PGROUNDDOWN_bound va) as Hpg. pose proof (PGROUNDDOWN_mod va) as Hmod. unfold copyout_step.
  replace (negb (0 <? _)) with false by lia.
  assert (Hd : PGROUNDDOWN va / PGSIZE = va / PGSIZE) by (rewrite PGROUNDDOWN_div; unfold PGSIZE; dlia).
  assert (Hnn : 0 ≤ va → 0 ≤ PGROUNDDOWN va) by (rewrite PGROUNDDOWN_div; unfold PGSIZE; dlia).
  assert (Hwa : 0 ≤ va < MAXVA → walkaddr root (PGROUNDDOWN va) s =
    Ok (if has (pte_at (k_mem s) T va) PTE_V && has (pte_at (k_mem s) T va) PTE_U then PTE2PA (pte_at (k_mem s) T va) else 0) s).
  { intros Hva. rewrite (walkaddr_ok s root T) by (done || lia). by rewrite (pte_at_page (k_mem s) T (PGROUNDDOWN va) va). }
  destruct Hr as [Hhi|Hva Hv Hu Hw Hnz|Hva Hv Hc Hme Hsz].
  - replace (MAXVA <=? PGROUNDDOWN va) with true; [done|]. rewrite PGROUNDDOWN_div.
    unfold MAXVA, PGSIZE in *. change (Z.shiftl 1 _) with (2 ^ 38) in *. dlia.
  - replace (MAXVA <=? PGROUNDDOWN va) with false by lia. unfold user_page. rewrite !run_bind, Hwa, Hv, Hu by done.
    cbn [andb obind]. replace (_ =? 0) with false by lia. cbn [obind mret M_ret]. replace (_ =? 0) with false by lia.
    rewrite run_bind, (walk_ok s root T) by (done || lia). cbn [obind].
    rewrite <-(pte_at_page (k_mem s) T (PGROUNDDOWN va) va) in Hv, Hw by done.
    unfold slot_of, pte_at in *. destruct (T !! _) as [p|] eqn:Hp; [|by rewrite has_0 in Hv].
    destruct (pt_page _ _ _ HT _ _ Hp) as [Hok _]. pose proof (PX_bound 0 (PGROUNDDOWN va) ltac:(lia)).
    pose proof (page_slot_nonzero p (PX 0 (PGROUNDDOWN va)) Hok ltac:(lia)).
    replace (_ =? 0) with false by lia. unfold load. kgo. by rewrite Hw.
  - replace (MAXVA <=? PGROUNDDOWN va) with false by lia. unfold user_page. rewrite !run_bind, Hwa, Hv by done.
    cbn [andb obind]. rewrite Z.eqb_refl. unfold vmfault. rewrite run_bind, (curproc_ok me) by done. cbn [obind]. kgo.
    replace (p_sz (k_proc s !!! me) <=? PGROUNDDOWN va) with true by lia. done.
Qed.

(** The part of a copy from byte [c] on, when memory outside the page table may
    have changed. *)
Lemma takes_sub me s t root T va n k c n' :
  takes me s T va n k → pt_inv (k_mem s) root T → (∀ π p x, T !! π = Some p → p ≤ x < p + PGSIZE → k_mem t x = k_mem s x) →
  same_cpu s t → k_proc t = k_proc s → 0 ≤ c ≤ k → 0 ≤ n' ≤ n - c →
  takes me t T (va + c) n' (Z.min n' (k - c)).
Proof using LOk.
  intros [Hr Hg Hb] HT Htab Hcpu Hproc Hc Hn.
  assert (Hpte : ∀ x, pte_at (k_mem t) T x = pte_at (k_mem s) T x) by (intros x; by eapply pte_at_ext).
  split; [lia| |].
  - eapply user_range_ext; [done|]. eapply user_range_sub; [exact Hg|lia|lia].
  - intros Hlt. rewrite Z.min_r in * by lia. replace (va + c + (k - c)) with (va + k) by lia.
    destruct Hb as [Hal Href]; [lia|]. split; [destruct Hal; [left; lia|by right]|]. destruct Hcpu as (E1 & E2 & E3).
    destruct Href as [|? ? ? ? ?|? ? [? ?] ? ?]; [by apply refused_high|eapply refused_read_only|eapply refused_unmapped];
      rewrite ?Hpte, ?Hproc; try done; unfold cpu_ok, cur_cpu in *; by rewrite ?E1, ?E2.
Qed.

Lemma copyout_loop_ok me fuel s root T va bs k :
  pt_inv (k_mem s) root T → takes me s T va (Z.of_nat (length bs)) k →
  npages va (Z.of_nat (length bs)) < Z.of_nat fuel →
  ∃ m', loop fuel (copyout_step root) (va, bs) s = Ok (if k <? Z.of_nat (length bs) then -1 else 0) (set_mem m' s) ∧
    wrote (k_mem s) m' T va (take (Z.to_nat k) bs).
Proof using LOk.
  revert s va bs k. induction fuel as [|fuel IH]; intros s va bs k HT Htk Hf.
  { unfold npages, PGSIZE in Hf. exfalso. dlia. }
  pose proof Htk as [Hkr HR Hbad]. cbn [loop]. destruct (decide (bs = [])) as [->|Hne].
  { exists (k_mem s). rewrite take_nil. replace (k <? _) with false by (cbn in *; lia). split; [done|]. by split. }
  assert (Hlen : 0 < Z.of_nat (length bs)) by (destruct bs; [done|cbn; lia]). rewrite run_bind.
  destruct (decide (k = 0)) as [->|Hk0].
  { destruct Hbad as [_ Href]; [lia|]. rewrite Z.add_0_r in Href. rewrite (copyout_step_refused me s root T) by done. cbn [obind].
    exists (k_mem s). replace (0 <? _) with true by lia. split; [done|]. by split. }
  rewrite (copyout_step_ok s root T va bs k) by (done || lia). cbn [obind].
  set (n := Z.to_nat (chunk va (Z.of_nat (length bs)))).
  pose proof (Z.mod_pos_bound va PGSIZE ltac:(done)) as Hmod.
  assert (Hn : (0 < n ≤ length bs)%nat ∧ va mod PGSIZE + Z.of_nat n ≤ PGSIZE ∧ Z.of_nat n ≤ k).
  { assert (k < Z.of_nat (length bs) → PGSIZE - va mod PGSIZE ≤ k).
    { intros Hlt. destruct (Hbad Hlt) as [[?|Hal] _]; [lia|]. unfold PGSIZE in *. dlia. }
    unfold n, chunk. lia. }
  set (m1 := store (k_mem s) (pa_of (k_mem s) T va) (take n bs)).
  assert (HR1 : user_range (k_mem s) T PTE_W va (Z.of_nat (length (take n bs))))
    by (eapply user_range_sub; [done|lia|rewrite length_take; lia]).
  assert (HW1 : wrote (k_mem s) m1 T va (take n bs))
    by (eapply wrote_page; [done|exact HR1|rewrite length_take; lia|rewrite length_take; lia]).
  assert (Htab : ∀ π p x, T !! π = Some p → p ≤ x < p + PGSIZE → m1 x = k_mem s x)
    by (intros π p x; by eapply wrote_table).
  set (s1 := set_mem m1 s). destruct (decide (n = length bs)) as [Hd|Hd].
  - rewrite drop_ge by lia. destruct fuel as [|fuel]; [unfold npages, PGSIZE in Hf; exfalso; dlia|].
    exists m1. replace (k <? _) with false by lia. split; [done|]. rewrite take_ge in HW1 |- * by lia. done.
  - assert (Hnfull : Z.of_nat n = PGSIZE - va mod PGSIZE) by (unfold n, chunk in *; lia).
    replace (va - va mod PGSIZE + PGSIZE) with (va + Z.of_nat n) by lia.
    destruct (IH s1 (va + Z.of_nat n) (drop n bs) (k - Z.of_nat n)) as (m2 & E & HW2).
    + by eapply pt_inv_ext.
    + replace (Z.of_nat (length (drop n bs))) with (Z.of_nat (length bs) - Z.of_nat n) by (rewrite length_drop; lia).
      replace (k - Z.of_nat n) with (Z.min (Z.of_nat (length bs) - Z.of_nat n) (k - Z.of_nat n)) by lia.
      eapply (takes_sub me s s1); try done; lia.
    + rewrite length_drop. unfold npages, PGSIZE in *. dlia.
    + exists m2. rewrite E. rewrite length_drop.
      replace (k - Z.of_nat n <? Z.of_nat (length bs - n)) with (k <? Z.of_nat (length bs)) by lia. split; [done|].
      replace (take (Z.to_nat k) bs) with (take n bs ++ take (Z.to_nat (k - Z.of_nat n)) (drop n bs))
        by (rewrite take_take_drop; f_equal; lia).
      eapply wrote_app; [done| |done|].
      * eapply user_range_sub; [exact HR|lia|]. rewrite length_app, !length_take, length_drop. lia.
      * rewrite length_take, Nat.min_l by lia. exact HW2.
Qed.

(** copyout() writes the bytes up to the first page that refuses them. *)
Lemma copyout_takes me s root T va bs k :
  pt_inv (k_mem s) root T → takes me s T va (Z.of_nat (length bs)) k →
  ∃ m', copyout root va bs s = Ok (if k <? Z.of_nat (length bs) then -1 else 0) (set_mem m' s) ∧
    wrote (k_mem s) m' T va (take (Z.to_nat k) bs).
Proof using LOk.
  intros HT Htk. apply (copyout_loop_ok me _ s root T va bs k HT Htk). apply npages_fuel. lia.
Qed.

Lemma copyout_ok s root T va bs :
  pt_inv (k_mem s) root T → user_range (k_mem s) T PTE_W va (Z.of_nat (length bs)) →
  ∃ m', copyout root va bs s = Ok 0 (set_mem m' s) ∧ wrote (k_mem s) m' T va bs.
Proof using LOk.
  intros HT HR. destruct (copyout_takes 0 s root T va bs (Z.of_nat (length bs)) HT) as (m' & E & HW).
  { split; [lia|done|lia]. }
  exists m'. rewrite Nat2Z.id, firstn_all in HW. by rewrite Z.ltb_irrefl in E.
Qed.

(** ** copyin *)

(** The bytes at a virtual address. *)
Definition user_bytes (m : Z → Z) (T : gmap (list Z) Z) (va : Z) (n : nat) : list Z :=
  (λ i, m (pa_of m T (va + Z.of_nat i))) <$> seq 0 n.

Lemma user_bytes_app m T va n1 n2 :
  user_bytes m T va (n1 + n2) = user_bytes m T va n1 ++ user_bytes m T (va + Z.of_nat n1) n2.
Proof using.
  unfold user_bytes. rewrite seq_app, fmap_app. f_equal.
  replace (seq (0 + n1) n2) with (Nat.add n1 <$> seq 0 n2) by (rewrite fmap_add_seq; f_equal; lia).
  rewrite <-list_fmap_compose.
  apply list_fmap_ext. intros i x _. cbn. do 2 f_equal. lia.
Qed.

Lemma user_bytes_page m T va n :
  va mod PGSIZE + Z.of_nat n ≤ PGSIZE → bytes_at m (pa_of m T va) n = user_bytes m T va n.
Proof using.
  intros Hn. unfold bytes_at, user_bytes. apply list_fmap_ext. intros i x Hx.
  apply lookup_seq in Hx as [-> Hi]. cbn. f_equal.
  rewrite (pa_of_page m T (va + Z.of_nat i) va); [lia|]. unfold PGSIZE in *. dlia.
Qed.

Lemma wrote_user_bytes m m' root T w va bs :
  pt_inv m root T → user_range m T w va (Z.of_nat (length bs)) → wrote m m' T va bs →
  user_bytes m' T va (length bs) = bs.
Proof using LOk.
  intros HT HR HW. apply list_eq. intros i. unfold user_bytes. rewrite list_lookup_fmap.
  destruct (decide (i < length bs)%nat) as [Hi|Hi].
  - rewrite lookup_seq_lt by done. cbn. destruct (lookup_lt_is_Some_2 bs i Hi) as [b Hb]. rewrite Hb.
    f_equal. rewrite <-(wr_in _ _ _ _ _ HW i b Hb). f_equal. unfold pa_of. do 2 f_equal.
    eapply pte_at_ext; [done|]. intros π p x. by eapply wrote_table.
  - rewrite lookup_seq_ge by lia. by rewrite lookup_ge_None_2 by lia.
Qed.

Definition copyin_step (pagetable : Z) : Z * Z * list Z → K ((Z * Z * list Z) + (Z * list Z)) :=
  λ '(srcva, len, dst),
    if negb (0 <? len) then mret (inr (0, dst)) else
    let va0 := PGROUNDDOWN srcva in
    pa0 ← user_page pagetable va0;
    if pa0 =? 0 then mret (inr (-1, dst)) else
    let n := PGSIZE - (srcva - va0) in
    let n := if len <? n then len else n in
    bs ← gets (λ s, bytes_at (k_mem s) (pa0 + (srcva - va0)) (Z.to_nat n));
    mret (inl (u64 (va0 + PGSIZE), len - n, dst ++ bs)).

Lemma copyin_step_ok s root T w va len dst :
  pt_inv (k_mem s) root T → user_range (k_mem s) T w va len → 0 < len →
  copyin_step root (va, len, dst) s =
    Ok (inl (va - va mod PGSIZE + PGSIZE, len - chunk va len,
             dst ++ user_bytes (k_mem s) T va (Z.to_nat (chunk va len)))) s.
Proof using LOk.
  intros HT HR Hlen. destruct (ur_bound _ _ _ _ _ HR) as [Hva Hmax]. pose proof (PGROUNDDOWN_bound va).
  assert (Hx : va ≤ va < va + len) by lia.
  destruct (user_page_ok (k_mem s) root T w va _ HT HR s va eq_refl Hx) as [Hup Hnz].
  unfold copyin_step. replace (negb (0 <? len)) with false by lia.
  rewrite run_bind, Hup. cbn [obind]. replace (_ =? 0) with false by lia. kgo.
  pose proof (Z.mod_pos_bound va PGSIZE ltac:(done)).
  rewrite PGROUNDDOWN_mod. fold (pa_of (k_mem s) T va).
  replace (if len <? PGSIZE - va mod PGSIZE then _ else _) with (chunk va len)
    by (unfold chunk; destruct (Z.ltb_spec len (PGSIZE - va mod PGSIZE)); lia).
  rewrite user_bytes_page by (unfold chunk; lia).
  pose proof (PGROUNDDOWN_mod va). replace (PGROUNDDOWN va) with (va - va mod PGSIZE) by lia.
  rewrite u64_small; [done|]. unfold MAXVA, PGSIZE in *. change (Z.shiftl 1 _) with (2 ^ 38) in *. lia.
Qed.

Lemma copyin_loop_ok fuel s root T w va len dst :
  pt_inv (k_mem s) root T → user_range (k_mem s) T w va len → 0 ≤ len →
  npages va len < Z.of_nat fuel →
  loop fuel (copyin_step root) (va, len, dst) s =
    Ok (0, dst ++ user_bytes (k_mem s) T va (Z.to_nat len)) s.
Proof using LOk.
  intros HT. revert va len dst. induction fuel as [|fuel IH]; intros va len dst HR Hlen Hf.
  { unfold npages, PGSIZE in Hf. exfalso. dlia. }
  cbn [loop]. destruct (decide (len = 0)) as [->|Hne]; [by rewrite app_nil_r|].
  rewrite run_bind, (copyin_step_ok s root T w) by (done || lia). cbn [obind].
  pose proof (Z.mod_pos_bound va PGSIZE ltac:(done)) as Hmod.
  assert (Hn : 0 < chunk va len ≤ len ∧ va mod PGSIZE + chunk va len ≤ PGSIZE ∧
    (chunk va len < len → chunk va len = PGSIZE - va mod PGSIZE)) by (unfold chunk; lia).
  destruct (decide (chunk va len = len)) as [E|E].
  - rewrite E, Z.sub_diag. destruct fuel as [|fuel]; [unfold npages, PGSIZE in *; exfalso; dlia|]. done.
  - replace (va - va mod PGSIZE + PGSIZE) with (va + chunk va len) by lia. rewrite IH.
    + rewrite <-app_assoc. do 3 f_equal.
      replace (Z.to_nat len) with (Z.to_nat (chunk va len) + Z.to_nat (len - chunk va len))%nat by lia.
      rewrite user_bytes_app. by replace (Z.of_nat (Z.to_nat (chunk va len))) with (chunk va len) by lia.
    + eapply user_range_sub; [done|lia|lia].
    + lia.
    + unfold npages, PGSIZE in *. dlia.
Qed.

Lemma copyin_ok s root T w va len :
  pt_inv (k_mem s) root T → user_range (k_mem s) T w va len → 0 ≤ len →
  copyin root va len s = Ok (0, user_bytes (k_mem s) T va (Z.to_nat len)) s.
Proof using LOk.
  intros HT HR Hl. apply (copyin_loop_ok _ s root T w va len [] HT HR Hl). by apply npages_fuel.
Qed.
End user_memory.

(** ** Claims *)

Section claims.
Context {LY : Layout} {LOk : LayoutOk}.

(** C16: Copying to user memory and back. When [bs] goes to a range of
    user memory that is mapped and writable, across any number of pages,
    copyout() returns 0, changes exactly the bytes of the range (through the page
    table, which stays intact) and nothing else of the machine, and copyin() of
    the same range then returns 0 with the bytes [bs]. *)
Theorem copyout_then_copyin s root T va bs :
  pt_inv (k_mem s) root T → user_range (k_mem s) T PTE_W va (Z.of_nat (length bs)) →
  ∃ m', copyout root va bs s = Ok 0 (set_mem m' s) ∧ wrote (k_mem s) m' T va bs ∧
    pt_inv m' root T ∧
    copyin root va (Z.of_nat (length bs)) (set_mem m' s) = Ok (0, bs) (set_mem m' s).
Proof using LOk.
  intros HT HR. destruct (copyout_ok s root T va bs HT HR) as (m' & E & HW). exists m'.
  assert (Htab : ∀ π p x, T !! π = Some p → p ≤ x < p + PGSIZE → m' x = k_mem s x)
    by (intros π p x; by eapply wrote_table).
  assert (HT' : pt_inv m' root T) by (by eapply pt_inv_ext).
  split_and!; [done|done|done|]. rewrite (copyin_ok _ root T PTE_W); [|done| |lia].
  - rewrite Nat2Z.id. cbn [k_mem set_mem]. by rewrite (wrote_user_bytes (k_mem s) m' root T PTE_W).
  - eapply user_range_ext; [|exact HR]. intros x. by eapply pte_at_ext.
Qed.
End claims.

(** ** Witness *)

(** Two writable user pages at 0x1000, on physical pages 0x80100000 and
    0x80101000, mapped by mappages(). *)
Definition user_demo_run : outcome kstate Z :=
  mappages 0x80030000 0x1000 (2 * PGSIZE) 0x80100000 (Z.lor (Z.lor PTE_W PTE_U) PTE_R) vm_demo.
Definition user_demo_mem : Z → Z := match user_demo_run with Ok _ s => k_mem s | _ => k_mem vm_demo end.

Lemma user_demo_ok :
  ∃ T, pt_inv (LY := small_layout) user_demo_mem 0x80030000 T ∧
       user_range (LY := small_layout) user_demo_mem T PTE_W 0x1000 (2 * PGSIZE).
Proof.
  destruct (mappages_ok (LY := small_layout) (LOk := small_layout_ok) vm_demo 0x80030000
    {[ [] := 0x80030000 ]} [0x80024000; 0x80025000; 0x80026000] 0x1000 2 0x80100000
    (Z.lor (Z.lor PTE_W PTE_U) PTE_R)) as (r & s' & T & fl' & k & E & M & Hr);
    [exact vm_demo_ok|lia|lia|by vm_compute|by vm_compute| |lia|by vm_compute|by vm_compute|by vm_compute|].
  { intros x _. unfold pte_at. by rewrite lookup_singleton_ne. }
  fold user_demo_run in E.
  assert (Hr0 : match user_demo_run with Ok r _ => r | _ => 1 end = 0) by (by vm_compute).
  assert (Hmem : user_demo_mem = k_mem s') by (unfold user_demo_mem; by rewrite E).
  rewrite E in Hr0. clear E. subst r. destruct Hr as [[_ ->]|[? _]]; [|lia].
  exists T. rewrite Hmem. clear Hmem. split; [apply M|].
  assert (Hat : ∀ x, 0x1000 ≤ x < 0x1000 + 2 * PGSIZE →
    pte_at (k_mem s') T x = pte_of (0x80100000 + (x - 0x1000) / PGSIZE * PGSIZE) (Z.lor (Z.lor PTE_W PTE_U) PTE_R)).
  { intros x Hx. rewrite (mp_range _ _ _ _ _ _ _ _ _ _ _ M x).
    - by replace ((0x1000 <=? x) && _) with true by lia.
    - unfold PGSIZE in Hx. change MAXVA with (2 ^ 38). lia. }
  assert (Hq : ∀ x, 0x1000 ≤ x < 0x1000 + 2 * PGSIZE →
    ((x - 0x1000) / PGSIZE = 0 ∧ x / PGSIZE = 1) ∨ ((x - 0x1000) / PGSIZE = 1 ∧ x / PGSIZE = 2)).
  { intros x Hx. unfold PGSIZE in *. dlia. }
  split.
  - by vm_compute.
  - intros x Hx. rewrite Hat by done. destruct (Hq x Hx) as [[-> _]|[-> _]]; by vm_compute.
  - intros x Hx. rewrite Hat by done. destruct (Hq x Hx) as [[-> _]|[-> _]]; by vm_compute.
  - intros x π p Hx Hp. rewrite Hat by done.
    destruct (mp_new _ _ _ _ _ _ _ _ _ _ _ M π p Hp) as [[_ <-]%lookup_singleton_Some|Hin];
      destruct (Hq x Hx) as [[-> _]|[-> _]]; try by vm_compute.
    + intros ->. revert Hin. apply (bool_decide_unpack _). by vm_compute.
    + intros ->. revert Hin. apply (bool_decide_unpack _). by vm_compute.
  - intros x y Hx Hy. rewrite !Hat by done.
    destruct (Hq x Hx) as [[-> ->]|[-> ->]], (Hq y Hy) as [[-> ->]|[-> ->]]; by vm_compute.
Qed.

(** Ten bytes across the boundary of the two pages. *)
Lemma copyout_then_copyin_witness :
  ∃ T m', copyout (LY := small_layout) 0x80030000 0x1ffb [1; 2; 3; 4; 5; 6; 7; 8; 9; 10]
            (set_mem user_demo_mem boot_state) = Ok 0 (set_mem m' boot_state) ∧
    wrote user_demo_mem m' T 0x1ffb [1; 2; 3; 4; 5; 6; 7; 8; 9; 10] ∧
    pt_inv (LY := small_layout) m' 0x80030000 T ∧
    copyin (LY := small_layout) 0x80030000 0x1ffb 10 (set_mem m' boot_state) =
      Ok (0, [1; 2; 3; 4; 5; 6; 7; 8; 9; 10]) (set_mem m' boot_state).
Proof.
  destruct user_demo_ok as (T & HT & HR). exists T.
  apply (copyout_then_copyin (LY := small_layout) (LOk := small_layout_ok)
    (set_mem user_demo_mem boot_state) 0x80030000 T 0x1ffb [1; 2; 3; 4; 5; 6; 7; 8; 9; 10]); [exact HT|].
  eapply user_range_sub; [exact HR|lia|by vm_compute].
Defined.
