(* ===== verification/Sleeplock.v ===== *)
(** Sleeping locks: kernel/sleeplock.c. *)

From Stdlib Require Import ZArith Lia.
From stdpp Require Import base numbers list gmap strings.
From S2P Require Import Prelude Params Machine Spinlock Printf Sched.

(** A loop around sleep() goes round once for every wakeup that finds its
    condition still false.  There is no bound on their number in the code; the
    model unrolls such loops [S wakeups] times, and statements hold for every
    value of the bound. *)
Class Wakeups := wakeups : nat.

(** The sleeplocks of the kernel, by the object they are part of. *)
Inductive slid := SL_buf (i : nat) | SL_inode (i : nat).

Definition sl_lk (lk : slid) : lockid :=
  match lk with SL_buf i => L_bufsl i | SL_inode i => L_inodesl i end.
Definition sl_chan (lk : slid) : chan :=
  match lk with SL_buf i => Ch_bufsl i | SL_inode i => Ch_inodesl i end.

Definition get_buf (i : nat) : K buf := gets (λ s, k_bufs s !!! i).
#[global] Hint Transparent get_buf : kernel.
Definition upd_buf (i : nat) (f : buf → buf) : K () :=
  modify (λ s, set_bufs (alter f i (k_bufs s)) s).
Definition get_inode (i : nat) : K inode := gets (λ s, k_inodes s !!! i).
#[global] Hint Transparent get_inode : kernel.
Definition upd_inode (i : nat) (f : inode → inode) : K () :=
  modify (λ s, set_inodes (alter f i (k_inodes s)) s).

Lemma run_get_buf i s : get_buf i s = Ok (k_bufs s !!! i) s.
Proof. reflexivity. Qed.

Lemma run_upd_buf i f s : upd_buf i f s = Ok tt (set_bufs (alter f i (k_bufs s)) s).
Proof. reflexivity. Qed.

Lemma run_get_inode i s : get_inode i s = Ok (k_inodes s !!! i) s.
Proof. reflexivity. Qed.

Lemma run_upd_inode i f s : upd_inode i f s = Ok tt (set_inodes (alter f i (k_inodes s)) s).
Proof. reflexivity. Qed.

Definition sl_of (lk : slid) (s : kstate) : sleeplock :=
  match lk with SL_buf i => b_lock (k_bufs s !!! i) | SL_inode i => i_lock (k_inodes s !!! i) end.
Definition set_sl (lk : slid) (l : sleeplock) (s : kstate) : kstate :=
  match lk with
  | SL_buf i => set_bufs (alter (set_b_lock l) i (k_bufs s)) s
  | SL_inode i => set_inodes (alter (set_i_lock l) i (k_inodes s)) s
  end.

Definition get_sl (lk : slid) : K sleeplock := gets (sl_of lk).
#[global] Hint Transparent get_sl : kernel.
Definition put_sl (lk : slid) (locked pid : Z) : K () := modify (set_sl lk (mk_sleeplock locked pid)).

Definition initsleeplock (lk : slid) : K () :=
  initlock (sl_lk lk);;
  put_sl lk 0 0.

Definition releasesleep (lk : slid) : K () :=
  acquire (sl_lk lk);;
  put_sl lk 0 0;;
  wakeup (sl_chan lk);;
  release (sl_lk lk).

(** myproc()->pid *)
Definition mypid : K Z :=
  i ← curproc;
  p ← get_proc i;
  mret (p_pid p).

Definition holdingsleep (lk : slid) : K bool :=
  acquire (sl_lk lk);;
  l ← get_sl lk;
  r ← (if sl_locked l =? 0 then mret false else
       pid ← mypid;
       mret (sl_pid l =? pid));
  release (sl_lk lk);;
  mret r.

Section sleeplock.
Context {W : Wakeups}.

Definition acquiresleep (lk : slid) : K () :=
  acquire (sl_lk lk);;
  loop (S wakeups) (λ _,
    l ← get_sl lk;
    if sl_locked l =? 0 then mret (inr tt) else
    sleep (sl_chan lk) (sl_lk lk);;
    mret (inl tt)) tt;;
  pid ← mypid;
  put_sl lk 1 pid;;
  release (sl_lk lk).
End sleeplock.
