(* ===== verification/Idle.v ===== *)
(** Sleeping locks: that they exclude, under contention as well, and that the calls
    of kernel/sleeplock.c return at once when no other process contends for them.
    The file system's contracts are stated for such a machine. *)

From Stdlib Require Import ZArith Lia ZifyBool.
From stdpp Require Import base numbers list gmap strings.
From S2P Require Import Prelude Params Machine Spinlock Printf Sched Sleep Sleeplock.

(** Channels of the file system. *)
Definition fs_chan (ch : chan) : bool :=
  match ch with Ch_log | Ch_bufsl _ | Ch_inodesl _ => true | _ => false end.

(** Process [me] runs on this CPU, nobody waits for the file system, and every
    spinlock is free but possibly those of the log and of the inode table, below
    which the other file system locks are taken. *)
Record idle (me : nat) (s : kstate) : Prop := {
  id_cpu : cpu_ok s;
  id_noff : c_noff (cur_cpu s) < 2 ^ 29;
  id_me : c_proc (cur_cpu s) = Some me;
  id_slots : length (k_proc s) = Z.to_nat NPROC;
  id_locks lk : lk ≠ L_log → lk ≠ L_itable → k_locks s !! lk = None;
  id_waits ch i : fs_chan ch = true → p_chan (k_proc s !!! i) ≠ Some ch;
}.

(** The parts of the state that [idle] looks at. *)
Definition same_procs (s t : kstate) : Prop := same_cpu s t ∧ k_proc t = k_proc s.

Lemma same_procs_trans s t u : same_procs s t → same_procs t u → same_procs s u.
Proof. intros [(? & ? & ?) ?] [(? & ? & ?) ?]. repeat split; congruence. Qed.

Lemma idle_same me s t : same_procs s t → idle me s → idle me t.
Proof.
  intros [(Hh & Hc & Hl) Hp] [H1 H2 H3 H4 H5 H6].
  split; unfold cpu_ok, cur_cpu in *; rewrite ?Hh, ?Hc, ?Hl, ?Hp; done.
Qed.

(** Inside the critical section of the log. *)
Lemma idle_locked me s :
  idle me s → c_noff (cur_cpu s) + 1 < 2 ^ 29 → idle me (locked L_log s).
Proof.
  intros [H1 H2 H3 H4 H5 H6] Hn. pose proof (cpu_ok_locked L_log s H1 ltac:(lia)) as H1'.
  assert (E : cur_cpu (locked L_log s) = nested (cur_cpu s)).
  { unfold locked. change (cur_cpu (set_locks ?l ?x)) with (cur_cpu x). apply cur_set_cur_cpu, H1. }
  split; [done|by rewrite E|by rewrite E|done| |done].
  intros lk Ha Hb. cbn. rewrite lookup_insert_ne by done. by apply H5.
Qed.

Section idle.
Context (me : nat) (s : kstate) (Hidle : idle me s).

Lemma idle_quiet lk t :
  lk ≠ L_pr → (∀ i, lk ≠ L_proc i) → same_procs (locked lk s) t → quiet (2 ^ 29) t.
Proof using Hidle.
  destruct Hidle as [H1 H2 H3 H4 H5 H6]. intros Hpr Hp [Hsame _].
  eapply quiet_same; [exact Hsame|]. split_and!; [by apply cpu_ok_locked; [|lia]| | |].
  - unfold locked. change (cur_cpu (set_locks ?l ?x)) with (cur_cpu x).
    rewrite cur_set_cur_cpu by apply H1. cbn. lia.
  - intros i. cbn. rewrite lookup_insert_ne by done. by apply H5.
  - cbn. rewrite lookup_insert_ne by done. by apply H5.
Qed.

Lemma wakeup_nobody lk ch t :
  lk ≠ L_pr → (∀ i, lk ≠ L_proc i) → fs_chan ch = true → same_procs (locked lk s) t → wakeup ch t = Ok tt t.
Proof using Hidle.
  intros Hpr Hp Hch Hsame. pose proof (idle_quiet lk t Hpr Hp Hsame) as Hq. destruct Hsame as [_ Hps].
  cbn in Hps. rewrite (wakeup_ok (2 ^ 29)); [|done|lia|rewrite Hps; apply Hidle].
  assert (E : ∀ me, imap (λ i p, if bool_decide (me = Some i) then p else wake_fn ch p) (k_proc t) = k_proc t).
  { intros c. apply list_eq. intros i. rewrite list_lookup_imap. destruct (k_proc t !! i) as [p|] eqn:Ep; [|done]. cbn.
    case_bool_decide; [done|]. unfold wake_fn. rewrite (bool_decide_false (p_chan p = Some ch)), andb_false_r; [done|].
    rewrite Hps in Ep. apply list_lookup_total_correct in Ep. subst p. by apply Hidle. }
  rewrite E. done.
Qed.

Lemma idle_acquire lk :
  k_locks s !! lk = None → acquire lk s = Ok tt (locked lk s).
Proof using Hidle. intros Hl. apply acquire_ok; [apply Hidle|done]. Qed.

Lemma idle_release lk t :
  k_locks s !! lk = None → same_cpu (locked lk s) t → release lk t = Ok tt (unlocked s t).
Proof using Hidle. intros Hl Ht. by apply release_ok; [apply Hidle| |]. Qed.

Lemma sl_lk_free lk : k_locks s !! sl_lk lk = None.
Proof using Hidle. apply Hidle; by destruct lk. Qed.

(** myproc() works inside critical sections, too. *)
Lemma locked_curproc lk t :
  same_cpu (locked lk s) t → curproc t = Ok me t.
Proof using Hidle.
  intros Ht. destruct Hidle as [H1 H2 H3 H4 H5 H6]. pose proof (cpu_ok_locked lk s H1 ltac:(lia)) as [Ha Hb].
  destruct Ht as (Hh & Hc & Hl). apply curproc_ok.
  - unfold cpu_ok, cur_cpu in *. rewrite Hh, Hc. done.
  - unfold cur_cpu. rewrite Hh, Hc. unfold locked. cbn. rewrite list_lookup_total_insert_eq by apply H1. done.
Qed.

Definition my_pid : Z := p_pid (k_proc s !!! me).

Lemma mypid_ok : mypid s = Ok my_pid s.
Proof using Hidle. unfold mypid. rewrite run_bind, (curproc_ok me) by apply Hidle. by kgo. Qed.

Lemma acquiresleep_ok {W : Wakeups} lk :
  sl_locked (sl_of lk s) = 0 → acquiresleep lk s = Ok tt (set_sl lk (mk_sleeplock 1 my_pid) s).
Proof using Hidle.
  intros Hfree. unfold acquiresleep. rewrite run_bind, (idle_acquire (sl_lk lk) (sl_lk_free lk)). cbn [obind].
  assert (Hsl : sl_of lk (locked (sl_lk lk) s) = sl_of lk s) by (by destruct lk).
  cbn [loop]. rewrite run_bind. unfold get_sl. kgo. rewrite Hsl, Hfree, Z.eqb_refl. kgo.
  unfold mypid. rewrite run_bind, (locked_curproc (sl_lk lk)) by done. cbn [obind]. kgo.
  unfold put_sl. kgo. rewrite (idle_release (sl_lk lk)); [by destruct lk|apply sl_lk_free|by destruct lk].
Qed.

Lemma releasesleep_ok lk : releasesleep lk s = Ok tt (set_sl lk (mk_sleeplock 0 0) s).
Proof using Hidle.
  unfold releasesleep. rewrite run_bind, (idle_acquire (sl_lk lk) (sl_lk_free lk)). cbn [obind].
  unfold put_sl. kgo. rewrite (wakeup_nobody (sl_lk lk)); [|by destruct lk..]. cbn [obind].
  rewrite (idle_release (sl_lk lk)); [by destruct lk|apply sl_lk_free|by destruct lk].
Qed.

Lemma holdingsleep_ok lk :
  holdingsleep lk s = Ok (negb (sl_locked (sl_of lk s) =? 0) && (sl_pid (sl_of lk s) =? my_pid)) s.
Proof using Hidle.
  unfold holdingsleep. rewrite run_bind, (idle_acquire (sl_lk lk) (sl_lk_free lk)). cbn [obind].
  assert (Hsl : sl_of lk (locked (sl_lk lk) s) = sl_of lk s) by (by destruct lk).
  unfold get_sl. kgo. rewrite Hsl. destruct (sl_locked (sl_of lk s) =? 0); cbn [negb andb].
  - kgo. rewrite (idle_release (sl_lk lk)); [|apply sl_lk_free|done]. cbn [obind]. kgo. by rewrite unlocked_locked.
  - unfold mypid. rewrite run_bind, run_bind, (locked_curproc (sl_lk lk)) by done. cbn [obind]. kgo.
    rewrite (idle_release (sl_lk lk)); [|apply sl_lk_free|done]. cbn [obind]. kgo. by rewrite unlocked_locked.
Qed.
End idle.

(** ** Exclusion *)

(** The object that contains the lock exists. *)
Definition sl_exists (lk : slid) (s : kstate) : Prop :=
  match lk with SL_buf i => (i < length (k_bufs s))%nat | SL_inode i => (i < length (k_inodes s))%nat end.

Lemma sl_of_set_sl lk l s : sl_exists lk s → sl_of lk (set_sl lk l s) = l.
Proof.
  destruct lk as [i|i]; cbn; intros Hi.
  - erewrite list_lookup_total_correct; [|by rewrite list_lookup_alter_eq, list_lookup_lookup_total_lt]. done.
  - erewrite list_lookup_total_correct; [|by rewrite list_lookup_alter_eq, list_lookup_lookup_total_lt]. done.
Qed.

(** Process [me] runs on this CPU with no lock held; its own lock and the
    spinlock inside [lk] are free. *)
Record ready (me : nat) (lk : slid) (s : kstate) : Prop := {
  rd_cpu : cpu_ok s;
  rd_noff : c_noff (cur_cpu s) = 0;
  rd_me : c_proc (cur_cpu s) = Some me;
  rd_slot : (me < length (k_proc s))%nat;
  rd_lock : k_locks s !! sl_lk lk = None;
  rd_plock : k_locks s !! L_proc me = None;
}.

(** The state in which a scheduler resumes [me]: it has taken the process lock in
    [v], and its CPU may have recorded any interrupt state. *)
Definition dispatched (me : nat) (intena : bool) (v : kstate) : kstate :=
  set_cur_cpu (set_c_intena intena (nested (cur_cpu v))) (locked (L_proc me) v).

(** What acquiresleep() may do from [s], in [n] rounds.  If the lock is free, it
    returns with the caller recorded as the holder and nothing else changed.  If
    it is held, by whomever, the caller goes to sleep on the lock's channel, with
    the lock unchanged and the spinlock inside it free; and when it is resumed, in
    whatever state and on whatever CPU, everything is as before: it returns only
    if the lock is free then, and goes back to sleep otherwise. *)
Fixpoint excludes (me : nat) (lk : slid) (n : nat) (s : kstate) (o : outcome kstate ()) : Prop :=
  match n with
  | O => o = NoFuel
  | S n =>
      if sl_locked (sl_of lk s) =? 0 then o = Ok tt (set_sl lk (mk_sleeplock 1 (my_pid me s)) s)
      else ∃ k, o = Switch (asleep me (sl_chan lk) s (locked (sl_lk lk) s)) k ∧
        ∀ v b, let v' := alter_proc me (set_chan None) v in
          ready me lk v' → c_intena (cur_cpu v) = c_intena (cur_cpu s) → excludes me lk n v' (k (dispatched me b v))
  end.

Lemma sl_of_locked lk l s : sl_of lk (locked l s) = sl_of lk s.
Proof. by destruct lk. Qed.

Lemma run_get_sl lk s : get_sl lk s = Ok (sl_of lk s) s.
Proof. reflexivity. Qed.

Lemma ready_release me lk s t : ready me lk s → same_cpu (locked (sl_lk lk) s) t → release (sl_lk lk) t = Ok tt (unlocked s t).
Proof. intros [] Ht. by apply release_ok. Qed.

Lemma ready_mypid me lk s : ready me lk s → mypid (locked (sl_lk lk) s) = Ok (my_pid me s) (locked (sl_lk lk) s).
Proof.
  intros [Hc Hn Hme Hs _ _]. unfold mypid. rewrite run_bind, (curproc_ok me).
  - by kgo.
  - apply cpu_ok_locked; [done|lia].
  - unfold locked. change (cur_cpu (set_locks ?l ?x)) with (cur_cpu x). by rewrite cur_set_cur_cpu by apply Hc.
Qed.

(** Resumed after sleep(), the process takes the spinlock again. *)
Lemma sleep_resumes me lk v b :
  let v' := alter_proc me (set_chan None) v in ready me lk v' →
  obind (λ _, upd_proc me (set_chan None);; release (L_proc me);; acquire (sl_lk lk))
    (Ok tt (set_cur_cpu (set_c_intena (c_intena (cur_cpu v)) (cur_cpu (dispatched me b v))) (dispatched me b v))) =
  Ok tt (locked (sl_lk lk) v').
Proof.
  intros v' [Hc Hn Hme Hs Hl Hp]. assert (Hh : (k_hart v < length (k_cpus v))%nat) by apply Hc.
  assert (E : set_cur_cpu (set_c_intena (c_intena (cur_cpu v)) (cur_cpu (dispatched me b v))) (dispatched me b v) = locked (L_proc me) v).
  { unfold dispatched. rewrite cur_set_cur_cpu by (unfold locked, set_cur_cpu; cbn; by rewrite length_insert).
    rewrite set_set_cur_cpu. unfold locked, set_cur_cpu. cbn. rewrite list_insert_insert_eq. done. }
  rewrite E. cbn [obind]. rewrite run_bind, run_upd_proc. cbn [obind].
  change (alter_proc me (set_chan None) (locked (L_proc me) v)) with (locked (L_proc me) v').
  rewrite run_bind, (release_ok (L_proc me) v') by done. cbn [obind]. rewrite unlocked_locked. by apply acquire_ok.
Qed.

Lemma acquiresleep_rounds me lk n s :
  ready me lk s →
  excludes me lk n s ((loop n (λ _,
      l ← get_sl lk;
      if sl_locked l =? 0 then mret (inr tt) else
      sleep (sl_chan lk) (sl_lk lk);;
      mret (inl tt)) tt;;
    pid ← mypid;
    put_sl lk 1 pid;;
    release (sl_lk lk)) (locked (sl_lk lk) s)).
Proof.
  revert s. induction n as [|n IH]; intros s Hr; cbn [excludes]; [done|].
  rewrite run_bind. cbn [loop]. rewrite run_bind, run_bind, run_get_sl. cbn [obind]. rewrite sl_of_locked.
  destruct (sl_locked (sl_of lk s) =? 0) eqn:E.
  - cbn [obind mret M_ret]. rewrite run_bind, (ready_mypid me lk s Hr). cbn [obind]. unfold put_sl. kgo.
    rewrite (ready_release me lk s); [by destruct lk|done|by destruct lk].
  - destruct (sleep_switches me (sl_chan lk) (sl_lk lk) s (locked (sl_lk lk) s)) as (k & Hk & Hres).
    { destruct Hr. split; try done. by destruct lk. }
    rewrite run_bind, Hk. cbn [obind]. eexists. split; [reflexivity|]. intros v b. cbn zeta. intros Hv Hint. set (v' := alter_proc me (set_chan None) v) in *.
    cbn beta. rewrite Hres. change (c_intena (nested (cur_cpu s))) with (c_intena (cur_cpu s)). rewrite <-Hint, sleep_resumes by done.
    specialize (IH v' Hv). rewrite run_bind in IH. exact IH.
Qed.

Lemma ready_set_sl me lk l s : ready me lk s → ready me lk (set_sl lk l s).
Proof. intros []. destruct lk; by split. Qed.

Lemma ready_holdingsleep me lk s : ready me lk s →
  holdingsleep lk s = Ok (negb (sl_locked (sl_of lk s) =? 0) && (sl_pid (sl_of lk s) =? my_pid me s)) s.
Proof.
  intros Hr. unfold holdingsleep. rewrite run_bind, acquire_ok by apply Hr. cbn [obind].
  rewrite run_bind, run_get_sl. cbn [obind]. rewrite sl_of_locked, run_bind. destruct (sl_locked (sl_of lk s) =? 0); cbn [negb andb].
  - cbn [obind mret M_ret]. rewrite run_bind, (ready_release me lk s) by done. cbn [obind]. by rewrite unlocked_locked.
  - rewrite run_bind, (ready_mypid me lk s Hr). cbn [obind mret M_ret]. rewrite run_bind, (ready_release me lk s) by done.
    cbn [obind]. by rewrite unlocked_locked.
Qed.

(** C30: Sleeping locks exclude.  acquiresleep() returns only from a state in
    which the lock is free, with the caller recorded as its holder and nothing else
    changed.  While the lock is held it gives up the CPU, asleep on the lock's
    channel, with the lock unchanged and the spinlock inside it free; every time it
    is resumed, in whatever state of the lock, the same holds again, for any number
    of rounds.  holdingsleep() tells whether the caller is the holder, which it is
    after acquiresleep(), and releasesleep() frees the lock and wakes every process
    that sleeps on its channel. *)
Theorem sleeplock_exclusive {W : Wakeups} me lk s :
  ready me lk s → sl_exists lk s →
  excludes me lk (S wakeups) s (acquiresleep lk s) ∧
  holdingsleep lk s = Ok (negb (sl_locked (sl_of lk s) =? 0) && (sl_pid (sl_of lk s) =? my_pid me s)) s ∧
  (let t := set_sl lk (mk_sleeplock 1 (my_pid me s)) s in holdingsleep lk t = Ok true t) ∧
  (quiet 0 s → length (k_proc s) = Z.to_nat NPROC →
   releasesleep lk s = Ok tt (set_proc (woken (Some me) (sl_chan lk) (k_proc s)) (set_sl lk (mk_sleeplock 0 0) s))).
Proof.
  intros Hr Hex. pose proof (ready_set_sl me lk (mk_sleeplock 1 (my_pid me s)) s Hr) as Hr'. split_and!.
  - unfold acquiresleep. rewrite run_bind, acquire_ok by apply Hr. by apply acquiresleep_rounds.
  - by apply ready_holdingsleep.
  - cbn zeta. rewrite (ready_holdingsleep me) by done. rewrite sl_of_set_sl by done. cbn [sl_locked sl_pid]. f_equal.
    apply Z.eqb_eq. by destruct lk.
  - intros Hq Hlen. unfold releasesleep. rewrite run_bind, acquire_ok by apply Hr. cbn [obind]. unfold put_sl. kgo.
    set (t := set_sl lk (mk_sleeplock 0 0) (locked (sl_lk lk) s)).
    assert (Ht : same_cpu (locked (sl_lk lk) s) t ∧ k_proc t = k_proc s) by (by destruct lk). destruct Ht as [Ht Hpt].
    assert (Hqt : quiet 1 t).
    { eapply quiet_same; [exact Ht|]. apply (quiet_locked 0); [done|lia|by destruct lk..]. }
    rewrite (wakeup_ok 1) by (done || by rewrite Hpt). cbn [obind].
    assert (Hct : c_proc (cur_cpu t) = Some me).
    { destruct Ht as (Eh & Ec & _). unfold cur_cpu. rewrite Eh, Ec. unfold locked. cbn.
      rewrite list_lookup_total_insert_eq by apply Hr. apply Hr. }
    rewrite Hct, Hpt. fold (woken (Some me) (sl_chan lk) (k_proc s)).
    rewrite (ready_release me lk s); [by destruct lk|done|by destruct lk].
Qed.

(** Buffer 5 is locked by another process. *)
Definition lock_taken : kstate :=
  set_bufs (alter (set_b_lock (mk_sleeplock 1 9)) 5%nat (k_bufs boot_state)) sleeper.

Lemma lock_taken_ready : ready 2 (SL_buf 5) lock_taken.
Proof.
  split; [|vm_compute; reflexivity..| | |].
  - split; [apply Nat.ltb_lt; vm_compute; reflexivity|]. vm_compute. repeat split; discriminate.
  - apply Nat.ltb_lt. reflexivity.
  - apply lookup_empty.
  - apply lookup_empty.
Qed.

(** The caller sleeps, and does not hold the lock. *)
Lemma sleeplock_exclusive_witness :
  excludes 2 (SL_buf 5) 4 lock_taken (@acquiresleep 3%nat (SL_buf 5) lock_taken) ∧
  holdingsleep (SL_buf 5) lock_taken = Ok false lock_taken.
Proof.
  destruct (@sleeplock_exclusive 3%nat 2 (SL_buf 5) lock_taken lock_taken_ready) as (H1 & H2 & _).
  - apply Nat.ltb_lt. reflexivity.
  - split; [exact H1|exact H2].
Defined.
