(* ===== verification/Pipe.v ===== *)
(** Pipes: pipeclose(), pipewrite() and piperead() of kernel/pipe.c.

    A pipe is a page from kalloc(); its fields are kept in [k_pipes] under the
    page's address while the page is in use as a pipe.  An access to the fields of
    a page that has been freed, or by a CPU that does not hold the pipe's lock, is
    undefined. *)

From Stdlib Require Import ZArith Lia ZifyBool.
From stdpp Require Import base numbers list gmap strings.
From S2P Require Import Prelude Params Machine Spinlock Printf Sched Kalloc Vm Sleeplock.

Definition get_pipe (pi : Z) : K pipe :=
  h ← holding (L_pipe pi);
  o ← gets (λ s, k_pipes s !! pi);
  match o with
  | Some p => if h : bool then mret p else race
  | None => race
  end.
Definition upd_pipe (pi : Z) (f : pipe → pipe) : K () :=
  p ← get_pipe pi;
  modify (λ s, set_pipes (<[pi := f p]> (k_pipes s)) s).

(** pi->data[pi->nwrite++ % PIPESIZE] = ch; *)
Definition pipe_put (ch : Z) (p : pipe) : pipe :=
  set_pi_nwrite (u32 (pi_nwrite p + 1))
    (set_pi_data (<[Z.to_nat (pi_nwrite p mod PIPESIZE) := ch]> (pi_data p)) p).

(** pi->data[pi->nread % PIPESIZE] *)
Definition pipe_head (p : pipe) : Z := pi_data p !!! Z.to_nat (pi_nread p mod PIPESIZE).

Section pipe.
Context {LY : Layout} {W : Wakeups}.

Definition pipeclose (pi writable : Z) : K () :=
  acquire (L_pipe pi);;
  (if negb (writable =? 0) then
     upd_pipe pi (set_pi_writeopen 0);;
     wakeup (Ch_nread pi)
   else
     upd_pipe pi (set_pi_readopen 0);;
     wakeup (Ch_nwrite pi));;
  p ← get_pipe pi;
  if (pi_readopen p =? 0) && (pi_writeopen p =? 0) then
    release (L_pipe pi);;
    modify (λ s, set_pipes (delete pi (k_pipes s)) s);;
    kfree pi
  else release (L_pipe pi).

(** One iteration of the while loop of pipewrite(): [Some i] goes on with the
    count [i], [None] returns -1 with the lock released; a [break] is [inr]. *)
Definition pipewrite_step (pr : nat) (pi addr n i : Z) : K (Z + option Z) :=
  if negb (i <? n) then mret (inr (Some i)) else
  p ← get_pipe pi;
  k ← (if pi_readopen p =? 0 then mret 1 else killed pr);
  if negb (k =? 0) then
    release (L_pipe pi);;
    mret (inr None)
  else
    p ← get_pipe pi;
    if pi_nwrite p =? u32 (pi_nread p + PIPESIZE) then
      wakeup (Ch_nread pi);;
      sleep (Ch_nwrite pi) (L_pipe pi);;
      mret (inl i)
    else
      pp ← get_proc pr;
      r ← copyin (p_pagetable pp) (u64 (addr + i)) 1;
      if r.1 =? -1 then mret (inr (Some i)) else
      upd_pipe pi (pipe_put (r.2 !!! 0%nat));;
      mret (inl (i32 (i + 1))).

(** Every iteration that does not sleep moves a byte. *)
Definition pipewrite (pi addr n : Z) : K Z :=
  pr ← curproc;
  acquire (L_pipe pi);;
  r ← loop (S (Z.to_nat n + wakeups)) (pipewrite_step pr pi addr n) 0;
  match r with
  | None => mret (-1)
  | Some i =>
      wakeup (Ch_nread pi);;
      release (L_pipe pi);;
      mret i
  end.

(** The waiting loop of piperead(); [false] when the reader was killed. *)
Definition piperead_wait (pr : nat) (pi : Z) : K bool :=
  loop (S wakeups) (λ _,
    p ← get_pipe pi;
    if (pi_nread p =? pi_nwrite p) && negb (pi_writeopen p =? 0) then
      k ← killed pr;
      if negb (k =? 0) then
        release (L_pipe pi);;
        mret (inr false)
      else
        sleep (Ch_nread pi) (L_pipe pi);;
        mret (inl tt)
    else mret (inr true)) tt.

(** The copying loop of piperead(); its result is the value of [i]. *)
Definition piperead_step (pr : nat) (pi addr n i : Z) : K (Z + Z) :=
  if negb (i <? n) then mret (inr i) else
  p ← get_pipe pi;
  if pi_nread p =? pi_nwrite p then mret (inr i) else
  let ch := pipe_head p in
  pp ← get_proc pr;
  r ← copyout (p_pagetable pp) (u64 (addr + i)) [ch];
  if r =? -1 then mret (inr (if i =? 0 then -1 else i)) else
  upd_pipe pi (λ p, set_pi_nread (u32 (pi_nread p + 1)) p);;
  mret (inl (i32 (i + 1))).

Definition piperead (pi addr n : Z) : K Z :=
  pr ← curproc;
  acquire (L_pipe pi);;
  go ← piperead_wait pr pi;
  if negb go then mret (-1) else
  i ← loop (S (Z.to_nat n)) (piperead_step pr pi addr n) 0;
  wakeup (Ch_nwrite pi);;
  release (L_pipe pi);;
  mret i.
End pipe.
