(* ===== verification/PipeFifo.v ===== *)
(** What a pipe promises: a bounded first-in first-out queue of bytes.  The ring
    buffer of kernel/pipe.c, whose indices run modulo 2^32, implements it, and
    no interleaving of readers, writers and closers breaks it: each call touches
    the pipe only with its lock held and only by queue operations, whatever the
    others do while it sleeps. *)

From Stdlib Require Import ZArith Lia ZifyBool.
From stdpp Require Import base numbers list gmap strings.
From S2P Require Import Prelude Params Machine Spinlock CString Printf Sched Kalloc Vm PageTable UserMem Sleeplock Pipe.

(** ** The ring buffer *)

Record pipe_ok (p : pipe) : Prop := {
  po_data : length (pi_data p) = Z.to_nat PIPESIZE;
  po_nread : 0 ≤ pi_nread p < 2 ^ 32;
  po_nwrite : 0 ≤ pi_nwrite p < 2 ^ 32;
  po_full : u32 (pi_nwrite p - pi_nread p) ≤ PIPESIZE;
}.

(** The bytes in the pipe, oldest first. *)
Definition pipe_count (p : pipe) : nat := Z.to_nat (u32 (pi_nwrite p - pi_nread p)).
Definition pipe_slot (p : pipe) (i : nat) : nat := Z.to_nat ((pi_nread p + Z.of_nat i) mod PIPESIZE).
Definition queue (p : pipe) : list Z := (λ i, pi_data p !!! pipe_slot p i) <$> seq 0 (pipe_count p).

Lemma queue_length p : length (queue p) = pipe_count p.
Proof. unfold queue. by rewrite length_fmap, length_seq. Qed.

Lemma pipe_is_full p : pipe_ok p →
  (pi_nwrite p =? u32 (pi_nread p + PIPESIZE)) = (length (queue p) =? Z.to_nat PIPESIZE)%nat.
Proof.
  intros [_ Hr Hw Hf]. rewrite queue_length. unfold pipe_count, u32, uwrap, PIPESIZE in *.
  destruct (Z.eqb_spec (pi_nwrite p) ((pi_nread p + 512) mod 2 ^ 32)),
    (Nat.eqb_spec (Z.to_nat ((pi_nwrite p - pi_nread p) mod 2 ^ 32)) (Z.to_nat 512)); try done; exfalso; dlia.
Qed.

Lemma pipe_is_empty p : pipe_ok p → (pi_nread p =? pi_nwrite p) = (length (queue p) =? 0)%nat.
Proof.
  intros [_ Hr Hw Hf]. rewrite queue_length. unfold pipe_count, u32, uwrap, PIPESIZE in *.
  destruct (Z.eqb_spec (pi_nread p) (pi_nwrite p)),
    (Nat.eqb_spec (Z.to_nat ((pi_nwrite p - pi_nread p) mod 2 ^ 32)) 0); try done; exfalso; dlia.
Qed.

Lemma pipe_has_room p : pipe_ok p → (pi_nwrite p =? u32 (pi_nread p + PIPESIZE)) = false → (length (queue p) < Z.to_nat PIPESIZE)%nat.
Proof.
  intros Hp Hfull. rewrite pipe_is_full, queue_length in Hfull by done. rewrite queue_length. unfold pipe_count in *.
  destruct Hp as [_ _ _ Hp]. unfold u32, uwrap, PIPESIZE in *. dlia.
Qed.

Lemma pipe_has_bytes p : pipe_ok p → (pi_nread p =? pi_nwrite p) = false → ∃ c q, queue p = c :: q.
Proof. intros Hp He. rewrite pipe_is_empty in He by done. destruct (queue p) as [|c q]; [done|]. by exists c, q. Qed.

Lemma pipe_put_ok ch p :
  pipe_ok p → (length (queue p) < Z.to_nat PIPESIZE)%nat →
  pipe_ok (pipe_put ch p) ∧ queue (pipe_put ch p) = queue p ++ [ch].
Proof.
  intros [Hd Hr Hw Hf] Hq. rewrite queue_length in Hq.
  assert (Hc : pipe_count (pipe_put ch p) = S (pipe_count p)).
  { unfold pipe_count, pipe_put, u32, uwrap, PIPESIZE in *. cbn. dlia. }
  split.
  - split; cbn; [by rewrite length_insert|done|apply uwrap_bound; lia|].
    unfold pipe_count, pipe_put, u32, uwrap, PIPESIZE in *. cbn in Hc. dlia.
  - unfold queue. rewrite Hc, seq_S, fmap_app. f_equal.
    + apply list_fmap_ext. intros k i Hi. apply lookup_seq in Hi as [-> Hk]. cbn.
      apply list_lookup_total_insert_ne. unfold pipe_slot, pipe_put, pipe_count, u32, uwrap, PIPESIZE in *.
      cbn. dlia.
    + cbn. f_equal. unfold pipe_slot. cbn.
      replace (Z.to_nat ((pi_nread p + Z.of_nat (pipe_count p)) mod PIPESIZE))
        with (Z.to_nat (pi_nwrite p mod PIPESIZE))
        by (unfold pipe_count, u32, uwrap, PIPESIZE in *; dlia).
      apply list_lookup_total_insert_eq. rewrite Hd. unfold PIPESIZE. dlia.
Qed.

(** pi->nread++ *)
Definition pipe_drop (p : pipe) : pipe := set_pi_nread (u32 (pi_nread p + 1)) p.

Lemma pipe_drop_ok p c q :
  pipe_ok p → queue p = c :: q →
  pipe_ok (pipe_drop p) ∧ queue (pipe_drop p) = q ∧ pipe_head p = c.
Proof.
  intros [Hd Hr Hw Hf] Hq.
  assert (Hc : pipe_count p = S (pipe_count (pipe_drop p))).
  { assert (0 < pipe_count p)%nat by (rewrite <-queue_length, Hq; cbn; lia).
    unfold pipe_count, pipe_drop, u32, uwrap, PIPESIZE in *. cbn. dlia. }
  unfold queue in Hq. rewrite Hc in Hq. cbn in Hq. injection Hq as Hh Ht. split_and!.
  - split; cbn; [done|apply uwrap_bound; lia|done|].
    unfold pipe_count, pipe_drop, u32, uwrap, PIPESIZE in *. cbn in Hc. dlia.
  - rewrite <-Ht. unfold queue. rewrite <-fmap_S_seq, <-list_fmap_compose.
    apply list_fmap_ext. intros k i _. cbn. f_equal. unfold pipe_slot, pipe_drop, u32, uwrap, PIPESIZE. cbn. dlia.
  - rewrite <-Hh. unfold pipe_head, pipe_slot. f_equal. f_equal. f_equal. lia.
Qed.

Lemma pipe_puts_ok bs p :
  pipe_ok p → (length (queue p) + length bs ≤ Z.to_nat PIPESIZE)%nat →
  let p' := foldl (λ p c, pipe_put c p) p bs in pipe_ok p' ∧ queue p' = queue p ++ bs.
Proof.
  revert p. induction bs as [|c bs IH]; intros p Hp Hq; cbn [foldl length] in *.
  - by rewrite app_nil_r.
  - destruct (pipe_put_ok c p Hp ltac:(lia)) as [Hp' Hq'].
    destruct (IH (pipe_put c p) Hp') as [H1 H2]; [rewrite Hq', length_app; cbn; lia|].
    split; [done|]. by rewrite H2, Hq', <-app_assoc.
Qed.

(** ** One call at a time *)

Definition put_pipe (pi : Z) (p : pipe) (s : kstate) : kstate := set_pipes (<[pi := p]> (k_pipes s)) s.

(** An access under the lock. *)
Lemma get_pipe_ok pi p s :
  k_pipes s !! pi = Some p → k_locks s !! L_pipe pi = Some (k_hart s) → get_pipe pi s = Ok p s.
Proof. intros Hp Hl. unfold get_pipe, holding. kgo. by rewrite Hl, bool_decide_true, Hp. Qed.

Lemma upd_pipe_ok pi f p s :
  k_pipes s !! pi = Some p → k_locks s !! L_pipe pi = Some (k_hart s) → upd_pipe pi f s = Ok tt (put_pipe pi (f p) s).
Proof. intros Hp Hl. unfold upd_pipe. by rewrite run_bind, (get_pipe_ok pi p). Qed.

Lemma killed_ok i s :
  cpu_ok s → k_locks s !! L_proc i = None → killed i s = Ok (p_killed (k_proc s !!! i)) s.
Proof.
  intros Hc Hl. unfold killed. rewrite run_bind, acquire_ok by done. cbn [obind]. kgo.
  by rewrite (release_ok (L_proc i) s).
Qed.

(** Process [me], not killed, is about to call a pipe operation on [pi]; its page
    table is [T] at [root]. *)
Record pipe_user (me : nat) (pi root : Z) (T : gmap (list Z) Z) (s : kstate) `{LY : Layout} : Prop := {
  pu_quiet : quiet 0 s;
  pu_proc : c_proc (cur_cpu s) = Some me;
  pu_slots : length (k_proc s) = Z.to_nat NPROC;
  pu_root : p_pagetable (k_proc s !!! me) = root;
  pu_table : pt_inv (k_mem s) root T;
  pu_alive : p_killed (k_proc s !!! me) = 0;
  pu_lock : k_locks s !! L_pipe pi = None;
}.

Section calls.
Context {LY : Layout} {LOk : LayoutOk} {W : Wakeups}.
Context (me : nat) (pi root : Z) (T : gmap (list Z) Z) (s : kstate).
Hypothesis (HU : pipe_user me pi root T s).

Let held := locked (L_pipe pi) s.

Lemma held_quiet t : same_cpu held t → quiet 1 t.
Proof using HU. intros Hs. apply (quiet_same 1 held); [done|]. by apply (quiet_locked 0 (L_pipe pi) s); [apply HU|lia|..]. Qed.

Lemma held_me t : same_cpu held t → c_proc (cur_cpu t) = Some me.
Proof using HU.
  intros (Hh & Hc & _). unfold cur_cpu. rewrite Hh, Hc. unfold held, locked. cbn.
  rewrite list_lookup_total_insert_eq by apply (pu_quiet _ _ _ _ _ HU). apply HU.
Qed.

Lemma put_put_pipe p p' t : put_pipe pi p' (put_pipe pi p t) = put_pipe pi p' t.
Proof. unfold put_pipe. cbn. by rewrite insert_insert_eq. Qed.

Lemma pipe_put_lookup p t : k_pipes (put_pipe pi p t) !! pi = Some p.
Proof. apply lookup_insert_eq. Qed.

Lemma held_lock t : same_cpu held t → k_locks t !! L_pipe pi = Some (k_hart t).
Proof. intros (-> & _ & ->). apply lookup_insert_eq. Qed.

(** One byte from user memory into the ring buffer. *)
Lemma pipewrite_step_ok p w addr n i :
  pipe_ok p → pi_readopen p ≠ 0 → (length (queue p) < Z.to_nat PIPESIZE)%nat →
  user_range (k_mem s) T w addr n → 0 ≤ i < n → n < 2 ^ 31 →
  pipewrite_step me pi addr n i (put_pipe pi p held) =
    Ok (inl (i + 1)) (put_pipe pi (pipe_put (k_mem s (pa_of (k_mem s) T (addr + i))) p) held).
Proof using HU LOk.
  intros Hp Hro Hq HR Hi Hn. unfold pipewrite_step. replace (negb (i <? n)) with false by lia.
  set (t := put_pipe pi p held). assert (Ht : quiet 1 t) by (by apply held_quiet).
  assert (Hpt : k_pipes t !! pi = Some p) by apply pipe_put_lookup.
  assert (Hlt : k_locks t !! L_pipe pi = Some (k_hart t)) by by apply held_lock.
  rewrite run_bind, (get_pipe_ok pi p) by done. cbn [obind].
  replace (pi_readopen p =? 0) with false by lia.
  rewrite run_bind, killed_ok by apply Ht. cbn [obind]. change (k_proc t) with (k_proc s).
  rewrite (pu_alive _ _ _ _ _ HU), Z.eqb_refl. cbn [negb]. rewrite run_bind, (get_pipe_ok pi p) by done. cbn [obind].
  rewrite pipe_is_full by done.
  replace (length (queue p) =? Z.to_nat PIPESIZE)%nat with false by lia. kgo.
  change (k_proc t) with (k_proc s). rewrite (pu_root _ _ _ _ _ HU).
  destruct (ur_bound _ _ _ _ _ HR). unfold MAXVA in *. change (Z.shiftl 1 _) with (2 ^ 38) in *.
  rewrite (u64_small (addr + i)) by lia.
  rewrite (copyin_ok t root T w (addr + i) 1);
    [|apply HU|eapply user_range_sub; [exact HR|lia|lia]|lia].
  cbn [obind]. change (_ =? -1) with false. cbv iota. rewrite run_bind, (upd_pipe_ok pi _ p) by done. cbn [obind].
  rewrite run_ret, i32_small by lia. f_equal.
  unfold t. rewrite put_put_pipe. unfold user_bytes. change (Z.to_nat 1) with 1%nat. cbn. by rewrite Z.add_0_r.
Qed.

Lemma pipewrite_loop_ok k fuel p w addr n :
  pipe_ok p → pi_readopen p ≠ 0 → (length (queue p) + k ≤ Z.to_nat PIPESIZE)%nat →
  user_range (k_mem s) T w addr n → Z.of_nat k ≤ n < 2 ^ 31 → (k < fuel)%nat →
  loop fuel (pipewrite_step me pi addr n) (n - Z.of_nat k) (put_pipe pi p held) =
    Ok (Some n) (put_pipe pi (foldl (λ p c, pipe_put c p) p
      (user_bytes (k_mem s) T (addr + (n - Z.of_nat k)) k)) held).
Proof using HU LOk.
  revert fuel p. induction k as [|k IH]; intros fuel p Hp Hro Hq HR Hn Hf;
    (destruct fuel as [|fuel]; [lia|]); cbn [loop].
  - rewrite run_bind. unfold pipewrite_step. replace (negb _) with true by lia. kgo. do 2 f_equal. lia.
  - rewrite run_bind, (pipewrite_step_ok p w) by (done || lia). cbn [obind].
    destruct (pipe_put_ok (k_mem s (pa_of (k_mem s) T (addr + (n - Z.of_nat (S k))))) p Hp ltac:(lia)) as [Hp' Hq'].
    replace (n - Z.of_nat (S k) + 1) with (n - Z.of_nat k) by lia.
    rewrite IH; [|done|done|rewrite Hq', length_app; cbn; lia|done|lia|lia].
    change (S k) with (1 + k)%nat at 3. rewrite user_bytes_app. unfold user_bytes at 2. cbn [seq fmap list_fmap app foldl].
    rewrite Z.add_0_r.
    by replace (addr + (n - Z.of_nat (S k)) + Z.of_nat 1) with (addr + (n - Z.of_nat k)) by lia.
Qed.

Lemma put_pipe_id p : k_pipes s !! pi = Some p → put_pipe pi p held = held.
Proof using. intros Hp. unfold put_pipe. by rewrite insert_id. Qed.

(** The wakeup and release that end both calls. *)
Lemma pipe_finish ch t :
  same_cpu held t → k_proc t = k_proc s →
  wakeup ch t = Ok tt (set_proc (woken (Some me) ch (k_proc s)) t) ∧
  release (L_pipe pi) (set_proc (woken (Some me) ch (k_proc s)) t) =
    Ok tt (unlocked s (set_proc (woken (Some me) ch (k_proc s)) t)).
Proof using HU.
  intros Hs Hp. split.
  - rewrite (wakeup_ok 1); [|by apply held_quiet|lia|rewrite Hp; apply HU].
    by rewrite (held_me t Hs), Hp.
  - apply release_ok; [apply (pu_quiet _ _ _ _ _ HU)|apply HU|done].
Qed.

Lemma pipewrite_ok p w addr n :
  k_pipes s !! pi = Some p → pipe_ok p → pi_readopen p ≠ 0 → 0 ≤ n →
  Z.of_nat (length (queue p)) + n ≤ PIPESIZE → user_range (k_mem s) T w addr n →
  pipewrite pi addr n s =
    Ok n (set_proc (woken (Some me) (Ch_nread pi) (k_proc s))
           (put_pipe pi (foldl (λ p c, pipe_put c p) p (user_bytes (k_mem s) T addr (Z.to_nat n))) s)).
Proof using HU LOk.
  intros Hpi Hp Hro Hn Hq HR. pose proof (pu_quiet _ _ _ _ _ HU) as (Hc & Hd & Hpl & Hpr).
  unfold pipewrite. rewrite run_bind, (curproc_ok me) by (done || apply HU). cbn [obind].
  rewrite run_bind, acquire_ok by (done || apply HU). cbn [obind].
  fold held. rewrite run_bind, <-(put_pipe_id p Hpi).
  pose proof (pipewrite_loop_ok (Z.to_nat n) (S (Z.to_nat n + wakeups)) p w addr n Hp Hro) as E.
  rewrite Z2Nat.id, Z.sub_diag, Z.add_0_r in E by lia.
  rewrite E by (done || (unfold PIPESIZE in *; lia)). cbn [obind].
  set (t := put_pipe pi _ held). destruct (pipe_finish (Ch_nread pi) t) as [H1 H2]; [done|done|].
  rewrite run_bind, H1. cbn [obind]. rewrite run_bind, H2. done.
Qed.

(** One byte from the ring buffer to user memory. *)
Lemma piperead_step_ok m p c q addr n i :
  pt_inv m root T → user_range m T PTE_W addr n → pipe_ok p → queue p = c :: q →
  0 ≤ i < n → n < 2 ^ 31 →
  ∃ m', piperead_step me pi addr n i (put_pipe pi p (set_mem m held)) =
      Ok (inl (i + 1)) (put_pipe pi (pipe_drop p) (set_mem m' held)) ∧ wrote m m' T (addr + i) [c].
Proof using HU LOk.
  intros HT HR Hp Hq Hi Hn. unfold piperead_step. replace (negb (i <? n)) with false by lia.
  set (t := put_pipe pi p (set_mem m held)).
  destruct (copyout_ok t root T (addr + i) [c]) as (m' & E & HW);
    [exact HT|eapply user_range_sub; [exact HR|lia|cbn; lia]|].
  assert (Hpt : k_pipes t !! pi = Some p) by apply pipe_put_lookup.
  assert (Hlt : k_locks t !! L_pipe pi = Some (k_hart t)) by by apply held_lock.
  exists m'. split; [|done]. rewrite run_bind, (get_pipe_ok pi p) by done. cbn [obind].
  rewrite pipe_is_empty, Hq by done. cbn [length Nat.eqb]. kgo.
  change (k_proc t) with (k_proc s). rewrite (pu_root _ _ _ _ _ HU).
  destruct (ur_bound _ _ _ _ _ HR). unfold MAXVA in *. change (Z.shiftl 1 _) with (2 ^ 38) in *.
  rewrite (u64_small (addr + i)) by lia.
  destruct (pipe_drop_ok p c q Hp Hq) as (_ & _ & ->). rewrite E. cbn [obind].
  change (0 =? -1) with false. cbv iota. rewrite run_bind, (upd_pipe_ok pi _ p) by done. cbn [obind].
  rewrite run_ret, i32_small by lia. f_equal. unfold t, put_pipe. cbn. by rewrite insert_insert_eq.
Qed.

Lemma piperead_loop_ok k fuel m p addr n i :
  pt_inv m root T → user_range m T PTE_W addr n → pipe_ok p → 0 ≤ i ≤ n → n < 2 ^ 31 →
  Z.of_nat k = Z.min (n - i) (Z.of_nat (length (queue p))) → (k < fuel)%nat →
  ∃ m', loop fuel (piperead_step me pi addr n) i (put_pipe pi p (set_mem m held)) =
      Ok (i + Z.of_nat k) (put_pipe pi (Nat.iter k pipe_drop p) (set_mem m' held)) ∧
    wrote m m' T (addr + i) (take k (queue p)).
Proof using HU LOk.
  revert fuel m p i. induction k as [|k IH]; intros fuel m p i HT HR Hp Hi Hn Hk Hf;
    (destruct fuel as [|fuel]; [lia|]); cbn [loop]; rewrite run_bind.
  - exists m. split; [|by rewrite take_0]. rewrite Z.add_0_r. unfold piperead_step.
    destruct (i <? n) eqn:Hin; cbn [negb]; [|by kgo].
    rewrite run_bind, (get_pipe_ok pi p) by (apply pipe_put_lookup || by apply held_lock). cbn [obind]. rewrite pipe_is_empty by done.
    by replace (length (queue p) =? 0)%nat with true by lia.
  - destruct (queue p) as [|c q] eqn:Hq; [cbn in Hk; lia|]. cbn [length] in Hk.
    destruct (piperead_step_ok m p c q addr n i) as (m1 & E1 & HW1); [done..|lia|lia|].
    rewrite E1. cbn [obind]. destruct (pipe_drop_ok p c q Hp Hq) as (Hp' & Hq' & _).
    assert (HRc : user_range m T PTE_W (addr + i) (Z.of_nat (length [c])))
      by (eapply user_range_sub; [exact HR|lia|cbn; lia]).
    assert (Htab : ∀ π q x, T !! π = Some q → q ≤ x < q + PGSIZE → m1 x = m x)
      by (intros π q' x; by eapply wrote_table).
    destruct (IH fuel m1 (pipe_drop p) (i + 1)) as (m2 & E2 & HW2).
    + by eapply pt_inv_ext.
    + eapply user_range_ext; [|exact HR]. intros x. by eapply pte_at_ext.
    + done.
    + lia.
    + done.
    + rewrite Hq'. lia.
    + lia.
    + exists m2. split.
      * rewrite E2. rewrite Nat.iter_succ_r. f_equal. lia.
      * change (take (S k) (c :: q)) with ([c] ++ take k q).
        eapply wrote_app; [done| |exact HW1|by rewrite <-Z.add_assoc; rewrite Hq' in HW2].
        eapply user_range_sub; [exact HR|lia|]. rewrite length_app, length_take. cbn. lia.
Qed.

Lemma iter_drop_ok k p :
  pipe_ok p → (k ≤ length (queue p))%nat →
  pipe_ok (Nat.iter k pipe_drop p) ∧ queue (Nat.iter k pipe_drop p) = drop k (queue p).
Proof using.
  intros Hp. induction k as [|k IH]; intros Hk; [done|]. destruct IH as [H1 H2]; [lia|].
  change (Nat.iter (S k) pipe_drop p) with (pipe_drop (Nat.iter k pipe_drop p)).
  destruct (queue (Nat.iter k pipe_drop p)) as [|c q] eqn:E.
  - exfalso. assert (length (drop k (queue p)) = 0%nat) by (by rewrite <-H2). rewrite length_drop in *. lia.
  - destruct (pipe_drop_ok _ _ _ H1 E) as (H3 & H4 & _). split; [done|].
    rewrite H4. replace (S k) with (k + 1)%nat by lia. rewrite <-drop_drop, <-H2. done.
Qed.

Lemma piperead_ok p addr n :
  k_pipes s !! pi = Some p → pipe_ok p → (queue p ≠ [] ∨ pi_writeopen p = 0) → 0 ≤ n < 2 ^ 31 →
  user_range (k_mem s) T PTE_W addr n →
  let k := Z.to_nat (Z.min n (Z.of_nat (length (queue p)))) in
  ∃ m', piperead pi addr n s =
      Ok (Z.of_nat k) (set_proc (woken (Some me) (Ch_nwrite pi) (k_proc s))
        (put_pipe pi (Nat.iter k pipe_drop p) (set_mem m' s))) ∧
    wrote (k_mem s) m' T addr (take k (queue p)).
Proof using HU LOk.
  intros Hpi Hp Hne Hn HR k. pose proof (pu_quiet _ _ _ _ _ HU) as (Hc & Hd & Hpl & Hpr).
  assert (Hk : Z.of_nat k = Z.min (n - 0) (Z.of_nat (length (queue p)))) by lia.
  destruct (piperead_loop_ok k (S (Z.to_nat n)) (k_mem s) p addr n 0) as (m' & E & HW);
    [apply HU|done|done|lia|lia|done|lia|].
  exists m'. rewrite Z.add_0_r in HW. split; [|done].
  unfold piperead. rewrite run_bind, (curproc_ok me) by (done || apply HU). cbn [obind].
  rewrite run_bind, acquire_ok by (done || apply HU). cbn [obind]. fold held.
  assert (Hw : piperead_wait me pi held = Ok true held).
  { unfold piperead_wait. cbn [loop]. rewrite run_bind, run_bind, (get_pipe_ok pi p) by (done || by apply held_lock). cbn [obind].
    rewrite pipe_is_empty by done. destruct (queue p); cbn [length Nat.eqb andb]; [|by kgo].
    destruct Hne as [?| ->]; [done|]. by kgo. }
  rewrite run_bind, Hw. cbn [obind negb]. rewrite run_bind.
  change (set_mem (k_mem s) held) with held in E. rewrite (put_pipe_id p Hpi) in E. rewrite E. cbn [obind].
  set (t := put_pipe pi _ _). destruct (pipe_finish (Ch_nwrite pi) t) as [H1 H2]; [done|done|].
  rewrite run_bind, H1. cbn [obind]. rewrite run_bind, H2. done.
Qed.
End calls.

(** ** Any number of calls, interleaved *)

Definition pipes_ok (s : kstate) : Prop := ∀ pi p, k_pipes s !! pi = Some p → pipe_ok p.

Global Instance pipes_ok_proc : ProcInsensitive pipes_ok.
Proof. split; [split|..]; intros v s Hs; exact Hs. Qed.
Global Instance pipes_ok_mem : MemoryInsensitive pipes_ok.
Proof. split; [split|..]; intros v s Hs; exact Hs. Qed.

(** What an invariant has to ask of pipes, and no more, to be kept by the pipe
    operations. *)
Class PipeInv (I : kstate → Prop) : Prop := {
  pv_mem :: MemoryInsensitive I;
  pv_wakeup ch : preserves I (wakeup ch);
  pv_sleep ch lk : preserves I (sleep ch lk);
  pv_killed i : preserves I (killed i);
  pv_ok s : I s → pipes_ok s;
  pv_put s pi p : I s → pipe_ok p → I (put_pipe pi p s);
  pv_delete s pi : I s → I (set_pipes (delete pi (k_pipes s)) s);
}.

Global Instance pipes_ok_inv : PipeInv pipes_ok.
Proof.
  split; [apply _|intros; preserve..|done| |].
  - intros s pi p Hs Hp qi q. cbn. intros [[<- <-]|[_ H]]%lookup_insert_Some; [done|by eapply Hs].
  - intros s pi Hs qi q. cbn. intros [_ H]%lookup_delete_Some. by eapply Hs.
Qed.

Section interleaved.
Context {LY : Layout} {W : Wakeups} (I : kstate → Prop) {PV : PipeInv I}.
Hint Resolve pv_wakeup pv_sleep pv_killed : kernel.

Lemma keep_get_pipe pi : preserves I (get_pipe pi).
Proof using PV. unfold get_pipe, holding. preserve. Qed.
Hint Resolve keep_get_pipe : kernel.

(** An update that keeps this pipe in order. *)
Lemma upd_pipe_keeps pi f s :
  I s → (∀ p, k_pipes s !! pi = Some p → pipe_ok (f p)) → keeps I (λ _, I) (upd_pipe pi f s).
Proof using PV.
  intros Hs Hf. unfold upd_pipe, get_pipe, holding. krun. destruct (k_pipes s !! pi) as [p|] eqn:E; [|done].
  destruct (bool_decide _); [|done]. krun. apply (pv_put s pi (f p)); [done|by apply Hf].
Qed.

Lemma preserves_upd_pipe pi f :
  (∀ p, pipe_ok p → pipe_ok (f p)) → preserves I (upd_pipe pi f).
Proof using PV. intros Hf s Hs. apply upd_pipe_keeps; [done|]. intros p Hp. by apply Hf, (pv_ok s Hs pi). Qed.

Lemma pipeclose_pipes pi w : preserves I (pipeclose pi w).
Proof using PV.
  unfold pipeclose. preserve;
    try (apply preserves_upd_pipe; intros p [H1 H2 H3 H4]; by split).
  apply preserves_modify. intros s Hs. by apply pv_delete.
Qed.

(** Code after a look at the pipe, until which the pipe stays as it was. *)
Lemma get_pipe_keeps {B} pi (f : pipe → K B) s :
  I s → (∀ p, k_pipes s !! pi = Some p → pipe_ok p → keeps I (λ _, I) (f p s)) → keeps I (λ _, I) ((get_pipe pi ≫= f) s).
Proof using PV.
  intros Hs Hf. unfold get_pipe, holding. krun. destruct (k_pipes s !! pi) as [p|] eqn:E; [|done].
  destruct (bool_decide _); [|done]. krun. apply Hf; [done|]. by eapply (pv_ok s).
Qed.

Lemma pipewrite_step_pipes pr pi addr n i : preserves I (pipewrite_step pr pi addr n i).
Proof using PV.
  unfold pipewrite_step. apply preserves_if; [preserve|].
  apply preserves_bind; [preserve|intros p0]. apply preserves_bind; [preserve|intros k].
  apply preserves_if; [preserve|]. intros s Hs. apply get_pipe_keeps; [done|]. intros p Epi Hp.
  destruct (pi_nwrite p =? u32 (pi_nread p + PIPESIZE)) eqn:Hfull.
  { clear Epi Hp Hfull. revert s Hs. change (preserves I
      (wakeup (Ch_nread pi);; sleep (Ch_nwrite pi) (L_pipe pi);; mret (inl i) : K (Z + option Z))). preserve. }
  pose proof (pipe_has_room p Hp Hfull) as Hroom.
  apply (keeps_bind_frames k_pipes I (λ ps, ps !! pi = Some p)); [frame|preserve|done|done|]. intros pp t Ht Et.
  apply (keeps_bind_frames k_pipes I (λ ps, ps !! pi = Some p)); [frame|preserve|done|done|]. intros r u Hu Eu.
  destruct (r.1 =? -1); [done|]. rewrite run_bind.
  eapply keeps_bind; [apply upd_pipe_keeps; [done|]|by intros].
  intros p' Ep'. assert (p' = p) as -> by (apply (inj Some); by rewrite <-Ep'). by apply pipe_put_ok.
Qed.

Lemma piperead_step_pipes pr pi addr n i : preserves I (piperead_step pr pi addr n i).
Proof using PV.
  unfold piperead_step. apply preserves_if; [preserve|]. intros s Hs. apply get_pipe_keeps; [done|]. intros p Epi Hp.
  destruct (pi_nread p =? pi_nwrite p) eqn:Hempty; [done|].
  destruct (pipe_has_bytes p Hp Hempty) as (c & q & Hq).
  apply (keeps_bind_frames k_pipes I (λ ps, ps !! pi = Some p)); [frame|preserve|done|done|]. intros pp t Ht Et.
  apply (keeps_bind_frames k_pipes I (λ ps, ps !! pi = Some p)); [frame|preserve|done|done|]. intros r u Hu Eu.
  destruct (r =? -1); [done|]. rewrite run_bind.
  eapply keeps_bind; [apply upd_pipe_keeps; [done|]|by intros].
  intros p' Ep'. assert (p' = p) as -> by (apply (inj Some); by rewrite <-Ep'). by apply (pipe_drop_ok _ c q).
Qed.
Hint Resolve pipewrite_step_pipes piperead_step_pipes : kernel.

Lemma pipewrite_pipes pi addr n : preserves I (pipewrite pi addr n).
Proof using PV. unfold pipewrite. preserve. Qed.

Lemma piperead_pipes pi addr n : preserves I (piperead pi addr n).
Proof using PV. unfold piperead, piperead_wait. preserve. Qed.
End interleaved.
Global Hint Resolve pipewrite_pipes piperead_pipes pipeclose_pipes : kernel.

(** ** Rely and guarantee

    What the operations may do to one pipe, one step at a time, whoever runs them:
    append a byte when there is room, take the oldest one, mark an end closed, and
    free the pipe when both ends are closed. *)

Inductive pipe_action := AWrite | ARead | AClose (w : bool) | AFree.

(** The write end ([true]) and the read end. *)
Definition open_end (w : bool) (p : pipe) : Z := if w then pi_writeopen p else pi_readopen p.
Definition close_end (w : bool) (p : pipe) : pipe := if w then set_pi_writeopen 0 p else set_pi_readopen 0 p.

Inductive pipe_step : pipe_action → option pipe → option pipe → Prop :=
  | ps_write p c : (length (queue p) < Z.to_nat PIPESIZE)%nat → pipe_step AWrite (Some p) (Some (pipe_put c p))
  | ps_read p : queue p ≠ [] → pipe_step ARead (Some p) (Some (pipe_drop p))
  | ps_close w p : pipe_step (AClose w) (Some p) (Some (close_end w p))
  | ps_free p : pi_readopen p = 0 → pi_writeopen p = 0 → pipe_step AFree (Some p) None.

Definition steps_of (As : pipe_action → Prop) : option pipe → option pipe → Prop :=
  rtc (λ o o', ∃ a, As a ∧ pipe_step a o o').

(** What a call on pipe [pi] guarantees: only steps of the kinds [As] on [pi], and
    no other pipe is touched. *)
Definition does (As : pipe_action → Prop) (pi : Z) (s t : kstate) : Prop :=
  steps_of As (k_pipes s !! pi) (k_pipes t !! pi) ∧ ∀ qi, qi ≠ pi → k_pipes t !! qi = k_pipes s !! qi.

(** What a call that holds an end of [pi] open relies on: nobody else closes that
    end.  Others may write, read, and close the other end. *)
Definition others (w : bool) (pi : Z) (s t : kstate) : Prop :=
  steps_of (λ a, a ≠ AClose w) (k_pipes s !! pi) (k_pipes t !! pi).

(** The pipe is there, in order, and the end is open. *)
Definition live (w : bool) (pi : Z) (s : kstate) : Prop :=
  ∃ p, k_pipes s !! pi = Some p ∧ pipe_ok p ∧ open_end w p ≠ 0.

Global Instance does_preorder As pi : PreOrder (does As pi).
Proof.
  split.
  - intros s. split; [apply rtc_refl|done].
  - intros s t u [H1 H2] [H3 H4]. split; [by etrans|]. intros qi Hq. by rewrite H4, H2.
Qed.

(** The guarantees are what the others rely on. *)
Lemma does_others As w pi qi s t : (∀ a, As a → a ≠ AClose w) → does As pi s t → others w qi s t.
Proof.
  intros Ha [H1 H2]. unfold others, steps_of in *. destruct (decide (qi = pi)) as [->|Hne]; [|rewrite H2 by done; apply rtc_refl].
  eapply rtc_subrel; [|exact H1]. intros o o' (a & ? & ?). exists a. auto.
Qed.

Lemma live_step w a p o' :
  pipe_ok p → open_end w p ≠ 0 → a ≠ AClose w → pipe_step a (Some p) o' →
  ∃ p', o' = Some p' ∧ pipe_ok p' ∧ open_end w p' ≠ 0.
Proof.
  intros Hp Ho Ha Hs. inversion Hs; subst.
  - eexists. split; [done|]. split; [by apply pipe_put_ok|by destruct w].
  - eexists. split; [done|]. destruct (queue p) as [|c q] eqn:Hq; [done|]. split; [by apply (pipe_drop_ok p c q)|by destruct w].
  - eexists. split; [done|]. destruct Hp as [H1 H2 H3 H4]. split; [by destruct w0; split|]. destruct w, w0; try done; by destruct Ha.
  - by destruct w.
Qed.

Lemma live_others w pi s t : live w pi s → others w pi s t → live w pi t.
Proof.
  intros (p & E & Hp & Ho) Hs. unfold others, steps_of in Hs. rewrite E in Hs. unfold live. clear E.
  remember (Some p) as o eqn:Eo. revert p Hp Ho Eo.
  induction Hs as [o|o o1 o2 (a & Ha & H1) _ IH]; intros p Hp Ho ->; [by exists p|].
  destruct (live_step w a p o1 Hp Ho Ha H1) as (p1 & -> & Hp1 & Ho1). by apply (IH p1).
Qed.

(** The part of the state that an access looks at. *)
Definition pipe_view (pi : Z) (s : kstate) : gmap Z pipe * option nat * nat := (k_pipes s, k_locks s !! L_pipe pi, k_hart s).

Lemma pipe_view_lock pi lk : lk ≠ L_pipe pi → OutsideLock (pipe_view pi) lk.
Proof.
  intros Hne. split; intros; unfold pipe_view; cbn; [by rewrite lookup_insert_ne|by rewrite lookup_delete_ne].
Qed.
Global Instance pipe_view_proc pi i : OutsideLock (pipe_view pi) (L_proc i).
Proof. by apply pipe_view_lock. Qed.
Global Instance pipe_view_outside pi : OutsideMemory (pipe_view pi).
Proof. split; try done. by apply pipe_view_lock. Qed.

(** Code that leaves the process table out of [f]. *)
Class OutsideProc {X} (f : kstate → X) : Prop := op_proc v s : f (set_proc v s) = f s.
Global Instance outside_proc_pipes : OutsideProc k_pipes.
Proof. done. Qed.
Global Instance outside_proc_view pi : OutsideProc (pipe_view pi).
Proof. done. Qed.

Section processes.
Context {X : Type} (f : kstate → X) {HM : OutsideMemory f} {HP : OutsideProc f} {HL : ∀ i, OutsideLock f (L_proc i)}.

Lemma frames_upd_proc i g : frames f (upd_proc i g).
Proof using HP. apply frames_modify. intros s. apply op_proc. Qed.
Hint Resolve frames_upd_proc : kernel.

Lemma frames_wakeup ch : frames f (wakeup ch).
Proof using HM HP HL.
  pose proof (frames_push_off f). pose proof (frames_pop_off f). unfold wakeup, wakeup_step, myproc. frame.
Qed.

Lemma frames_killed i : frames f (killed i).
Proof using HM HL. unfold killed. frame. Qed.
End processes.
Global Hint Resolve frames_upd_proc frames_wakeup frames_killed : kernel.

Section guarantee.
Context {LY : Layout} {W : Wakeups} (w : bool) (pi : Z) (As : pipe_action → Prop).
Abbreviation rgp := (rg (others w pi) (does As pi)).

(** The lock is held as well. *)
Definition guarded (s : kstate) : Prop := live w pi s ∧ k_locks s !! L_pipe pi = Some (k_hart s).

Lemma does_same s t : k_pipes t = k_pipes s → does As pi s t.
Proof. intros E. split; [rewrite E; apply rtc_refl|]. intros qi _. by rewrite E. Qed.

Lemma live_same s t : k_pipes t = k_pipes s → live w pi s → live w pi t.
Proof. intros E. unfold live. by rewrite E. Qed.

Lemma rg_live {A} (m : K A) s : frames k_pipes m → live w pi s → rgp (λ _ t, live w pi t) s (m s).
Proof.
  intros Hm Hl. eapply rg_mono; [apply (rg_frames _ _ k_pipes); [by apply does_same|done]|].
  intros a t E. exact (live_same s t E Hl).
Qed.

Lemma rg_guarded {A} (m : K A) s : frames (pipe_view pi) m → guarded s → rgp (λ _ t, guarded t ∧ k_pipes t = k_pipes s) s (m s).
Proof.
  intros Hm [Hl Hh]. eapply rg_mono; [apply (rg_frames _ _ (pipe_view pi)); [|done]|].
  - intros u t [= E _ _]. by apply does_same.
  - intros a t [= E1 E2 E3]. split_and!; [split|done]; [exact (live_same s t E1 Hl)|congruence].
Qed.

Ltac rgb := eapply (rg_bind (others w pi) (does As pi)).

Lemma rg_acquire s : live w pi s → rgp (λ _ t, guarded t) s (acquire (L_pipe pi) s).
Proof.
  intros Hl. unfold acquire, holding. rgb; [apply rg_live; [apply frames_push_off, _|done]|].
  intros ? t Ht. rewrite run_bind. cbn [obind gets]. destruct (bool_decide _); [done|]. rewrite run_bind. cbn [obind gets].
  destruct (k_locks t !! L_pipe pi); [by apply does_same|]. split; [by apply does_same|]. split; [done|]. apply lookup_insert_eq.
Qed.

Lemma rg_swtch s : live w pi s → rgp (λ _ t, live w pi t) s (swtch s).
Proof. intros Hl. split; [by apply does_same|]. intros t Ht. split; [by apply does_same|]. by eapply live_others. Qed.

Lemma rg_sched s : live w pi s → rgp (λ _ t, live w pi t) s (sched s).
Proof.
  intros Hl. unfold sched, holding, intr_get.
  rgb; [apply rg_live; [frame|done]|]. intros i t Ht.
  rgb; [apply rg_live; [frame|done]|]. intros h t1 Ht1. destruct h; cbn [negb]; [|done].
  rgb; [apply rg_live; [frame|done]|]. intros c t2 Ht2. destruct (_ =? _); cbn [negb]; [|done].
  rgb; [apply rg_live; [frame|done]|]. intros p t3 Ht3. destruct (bool_decide _); [done|].
  rgb; [apply rg_live; [frame|done]|]. intros e t4 Ht4. destruct e; [done|].
  rgb; [apply rg_live; [frame|done]|]. intros c' t5 Ht5.
  rgb; [by apply rg_swtch|]. intros ? t6 Ht6. apply rg_live; [apply frames_upd_cpu, _|done].
Qed.

(** sleep() comes back with the lock held and the pipe still there. *)
Lemma rg_sleep ch s : live w pi s → rgp (λ _ t, guarded t) s (sleep ch (L_pipe pi) s).
Proof.
  intros Hl. unfold sleep, sleep_steps. cbn [statements].
  rgb; [apply rg_live; [frame|done]|]. intros i t Ht.
  do 4 (rgb; [apply rg_live; [frame|eassumption]|]; intros ? ? ?).
  rgb; [by apply rg_sched|]. intros ? ? ?.
  do 2 (rgb; [apply rg_live; [frame|eassumption]|]; intros ? ? ?). by apply rg_acquire.
Qed.

(** An access under the lock does not race. *)
Lemma rg_get_pipe {B} (Q : B → kstate → Prop) (f : pipe → K B) s :
  guarded s → (∀ p, k_pipes s !! pi = Some p → pipe_ok p → open_end w p ≠ 0 → rgp Q s (f p s)) → rgp Q s ((get_pipe pi ≫= f) s).
Proof. intros [(p & E & Hp & Ho) Hl] Hf. rewrite run_bind, (get_pipe_ok pi p) by done. by apply Hf. Qed.

Lemma rg_upd_pipe f p a s :
  guarded s → k_pipes s !! pi = Some p → As a → pipe_step a (Some p) (Some (f p)) →
  rgp (λ _ t, k_pipes t !! pi = Some (f p) ∧ k_locks t !! L_pipe pi = Some (k_hart t)) s (upd_pipe pi f s).
Proof.
  intros [_ Hl] E Ha Hst. rewrite (upd_pipe_ok pi f p) by done. split.
  - split; [|intros qi Hq; cbn; by rewrite lookup_insert_ne]. cbn. rewrite E, lookup_insert_eq. apply rtc_once. by exists a.
  - split; [apply lookup_insert_eq|exact Hl].
Qed.

Lemma rg_upd_guarded f p a s :
  guarded s → k_pipes s !! pi = Some p → As a → a ≠ AClose w → pipe_step a (Some p) (Some (f p)) →
  rgp (λ _ t, guarded t) s (upd_pipe pi f s).
Proof.
  intros Hg E Ha Hne Hst. eapply rg_mono; [by eapply rg_upd_pipe|]. intros ? t [E' Hl]. split; [|done].
  destruct Hg as [(p' & Ep & Hp & Ho) _]. rewrite E in Ep. injection Ep as <-.
  destruct (live_step w a p _ Hp Ho Hne Hst) as (p1 & [= <-] & H1 & H2). by exists (f p).
Qed.
End guarantee.

Lemma rg_return {A} R As pi (Q : A → kstate → Prop) a s : Q a s → rg R (does As pi) Q s ((mret a : K A) s).
Proof. intros HQ. split; [reflexivity|exact HQ]. Qed.

Section operations.
Context {LY : Layout} {W : Wakeups} (pi : Z).

Section write.
Abbreviation rgw := (rg (others true pi) (does (λ a, a = AWrite) pi)).
Ltac rgb := eapply (rg_bind (others true pi) (does (λ a, a = AWrite) pi)).

Lemma pipewrite_step_rg pr addr n i s :
  guarded true pi s →
  rgw (λ r t, match r with inl _ | inr (Some _) => guarded true pi t | inr None => True end) s (pipewrite_step pr pi addr n i s).
Proof.
  intros Hg. unfold pipewrite_step. destruct (i <? n); cbn [negb]; [|by apply rg_return].
  apply rg_get_pipe; [done|]. intros p E Hp Ho.
  eapply (rg_bind _ (does (λ a, a = AWrite) pi) (λ _ t, guarded true pi t ∧ k_pipes t = k_pipes s)).
  { destruct (pi_readopen p =? 0); [by apply rg_return|]. apply rg_guarded; [frame|done]. }
  intros k t [Hgt Et]. destruct (k =? 0); cbn [negb].
  2:{ rgb; [apply rg_live; [frame|apply Hgt]|]. intros. by apply rg_return. }
  apply rg_get_pipe; [done|]. intros p1 E1 Hp1 Ho1. destruct (_ =? _) eqn:Hfull.
  { rgb; [apply rg_guarded; [frame|done]|]. intros ? u [Hu _]. rgb; [apply rg_sleep; apply Hu|]. intros. by apply rg_return. }
  rgb; [apply rg_guarded; [frame|done]|]. intros pp u [Hu Eu].
  rgb; [apply rg_guarded; [frame|done]|]. intros r v [Hv Ev]. destruct (r.1 =? -1); [by apply rg_return|].
  rgb; [eapply (rg_upd_guarded _ _ _ _ p1 AWrite); [done|by rewrite Ev, Eu|done|done|apply ps_write; by apply pipe_has_room]|].
  intros. by apply rg_return.
Qed.

Lemma pipewrite_rg addr n s : live true pi s → rgw (λ _ _, True) s (pipewrite pi addr n s).
Proof.
  intros Hl. unfold pipewrite. rgb; [apply rg_live; [frame|done]|]. intros pr t Ht.
  rgb; [by apply rg_acquire|]. intros ? u Hu.
  rgb; [apply (rg_loop _ (does (λ a, a = AWrite) pi) (λ _, guarded true pi)); [intros; by apply pipewrite_step_rg|done]|].
  intros [i|] v Hv; [|by apply rg_return]. rgb; [apply rg_guarded; [frame|done]|]. intros ? x [Hx _].
  rgb; [apply rg_live; [frame|apply Hx]|]. intros. by apply rg_return.
Qed.
End write.

Section read.
Abbreviation rgr := (rg (others false pi) (does (λ a, a = ARead) pi)).
Ltac rgb := eapply (rg_bind (others false pi) (does (λ a, a = ARead) pi)).

Lemma piperead_wait_rg pr s :
  guarded false pi s → rgr (λ go t, if go : bool then guarded false pi t else True) s (piperead_wait pr pi s).
Proof.
  intros Hg. unfold piperead_wait. apply (rg_loop _ (does (λ a, a = ARead) pi) (λ _, guarded false pi)); [|done]. intros _ t Ht.
  apply rg_get_pipe; [done|]. intros p E Hp Ho. destruct (_ && _); [|by apply rg_return].
  rgb; [apply rg_guarded; [frame|done]|]. intros k u [Hu _]. destruct (k =? 0); cbn [negb].
  - rgb; [apply rg_sleep; apply Hu|]. intros. by apply rg_return.
  - rgb; [apply rg_live; [frame|apply Hu]|]. intros. by apply rg_return.
Qed.

Lemma piperead_step_rg pr addr n i s :
  guarded false pi s → rgr (λ _ t, guarded false pi t) s (piperead_step pr pi addr n i s).
Proof.
  intros Hg. unfold piperead_step. destruct (i <? n); cbn [negb]; [|by apply rg_return].
  apply rg_get_pipe; [done|]. intros p E Hp Ho. destruct (_ =? _) eqn:Hempty; [by apply rg_return|].
  rgb; [apply rg_guarded; [frame|done]|]. intros pp u [Hu Eu].
  rgb; [apply rg_guarded; [frame|done]|]. intros r v [Hv Ev]. destruct (r =? -1); [by apply rg_return|].
  rgb; [eapply (rg_upd_guarded _ _ _ _ p ARead); [done|by rewrite Ev, Eu|done|done|]|intros; by apply rg_return].
  apply ps_read. destruct (pipe_has_bytes p Hp Hempty) as (c & q & ->). done.
Qed.

Lemma piperead_rg addr n s : live false pi s → rgr (λ _ _, True) s (piperead pi addr n s).
Proof.
  intros Hl. unfold piperead. rgb; [apply rg_live; [frame|done]|]. intros pr t Ht.
  rgb; [by apply rg_acquire|]. intros ? u Hu. rgb; [by apply piperead_wait_rg|]. intros [] v Hv; cbn [negb]; [|by apply rg_return].
  rgb; [apply (rg_loop _ (does (λ a, a = ARead) pi) (λ _, guarded false pi) (λ _, guarded false pi)); [|done]|].
  { intros i x Hx. eapply rg_mono; [by apply piperead_step_rg|]. by intros []. }
  intros i x Hx. rgb; [apply rg_guarded; [frame|done]|]. intros ? y [Hy _].
  rgb; [apply rg_live; [frame|apply Hy]|]. intros. by apply rg_return.
Qed.
End read.

Section close.
Context (w : bool).
Abbreviation rgc := (rg (others w pi) (does (λ a, a = AClose w ∨ a = AFree) pi)).
Ltac rgb := eapply (rg_bind (others w pi) (does (λ a, a = AClose w ∨ a = AFree) pi)).

(** Freed if the other end was closed already. *)
Definition closed (t : kstate) : Prop :=
  match k_pipes t !! pi with None => True | Some p => open_end w p = 0 ∧ open_end (negb w) p ≠ 0 end.

Lemma pipeclose_eq : pipeclose pi (if w then 1 else 0) =
  (acquire (L_pipe pi);;
   (upd_pipe pi (close_end w);; wakeup (if w then Ch_nread pi else Ch_nwrite pi));;
   p ← get_pipe pi;
   if (pi_readopen p =? 0) && (pi_writeopen p =? 0) then
     release (L_pipe pi);;
     modify (λ s, set_pipes (delete pi (k_pipes s)) s);;
     kfree pi
   else release (L_pipe pi)).
Proof. by destruct w. Qed.

Lemma pipeclose_rg s : live w pi s → rgc (λ _ t, closed t) s (pipeclose pi (if w then 1 else 0) s).
Proof.
  intros Hl. rewrite pipeclose_eq. rgb; [by apply rg_acquire|]. intros ? t Hg. pose proof Hg as [(p & E & Hp & Ho) _].
  set (mine := λ u, k_pipes u !! pi = Some (close_end w p) ∧ k_locks u !! L_pipe pi = Some (k_hart u)).
  eapply (rg_bind _ (does (λ a, a = AClose w ∨ a = AFree) pi) (λ _ u, mine u)).
  { rgb; [eapply rg_upd_pipe; [done|done|by left|apply (ps_close _ p)]|]. intros ? u [E1 Hl1].
    eapply rg_mono; [apply (rg_frames _ _ (pipe_view pi)); [by intros ? ? [= ? _ _]; apply does_same|frame]|].
    intros ? v [= E2 E3 E4]. split; congruence. }
  intros ? u [Eu Hlu]. rewrite run_bind, (get_pipe_ok pi (close_end w p)) by done. cbn [obind].
  destruct ((pi_readopen _ =? 0) && _) eqn:Eb.
  - eapply (rg_bind _ (does (λ a, a = AClose w ∨ a = AFree) pi)); [apply (rg_frames _ _ k_pipes); [intros; by apply does_same|frame]|].
    intros ? v Ev. change (k_pipes v = k_pipes u) in Ev. eapply (rg_bind _ (does (λ a, a = AClose w ∨ a = AFree) pi) (λ _ x, k_pipes x !! pi = None)).
    + split; [|apply lookup_delete_eq]. split; [|intros qi Hq; cbn; by rewrite lookup_delete_ne].
      cbn. rewrite lookup_delete_eq, Ev, Eu. apply rtc_once. exists AFree. split; [by right|]. apply ps_free; lia.
    + intros ? x Ex. eapply rg_mono; [apply (rg_frames _ _ k_pipes); [intros; by apply does_same|frame]|].
      intros ? y Ey. change (k_pipes y = k_pipes x) in Ey. unfold closed. by rewrite Ey, Ex.
  - eapply rg_mono; [apply (rg_frames _ _ k_pipes); [intros; by apply does_same|frame]|].
    intros ? v Ev. change (k_pipes v = k_pipes u) in Ev. unfold closed. rewrite Ev, Eu. destruct w; cbn in *; lia.
Qed.
End close.
End operations.

(** ** Claims *)

Section claims.
Context {LY : Layout} {LOk : LayoutOk} {W : Wakeups}.

(** C14: Writing to a pipe with room appends to its queue. pipewrite()
    of [n] bytes of mapped user memory into a pipe that has at most PIPESIZE - n
    bytes and an open read end returns [n] without sleeping; the queue is then
    the old one followed by those bytes, also when the write counter passes
    2^32; the processes that sleep on the read channel are RUNNABLE, and nothing
    else of the machine has changed. *)
Theorem pipewrite_appends me pi root T s p w addr n :
  pipe_user me pi root T s → k_pipes s !! pi = Some p → pipe_ok p → pi_readopen p ≠ 0 → 0 ≤ n →
  Z.of_nat (length (queue p)) + n ≤ PIPESIZE → user_range (k_mem s) T w addr n →
  ∃ p', pipewrite pi addr n s =
      Ok n (set_proc (woken (Some me) (Ch_nread pi) (k_proc s)) (put_pipe pi p' s)) ∧
    pipe_ok p' ∧ queue p' = queue p ++ user_bytes (k_mem s) T addr (Z.to_nat n).
Proof using LOk.
  intros HU Hpi Hp Hro Hn Hq HR. eexists. split; [by eapply pipewrite_ok|].
  apply pipe_puts_ok; [done|]. unfold user_bytes. rewrite length_fmap, length_seq. lia.
Qed.

(** C15: Reading takes the oldest bytes. piperead() of at most [n] bytes
    from a pipe that has some, or whose write end is closed, returns the number
    [k] of bytes it moved without sleeping; the user memory at [addr] then holds
    the first [k] bytes of the queue, which are gone from the pipe; the
    processes that sleep on the write channel are RUNNABLE. *)
Theorem piperead_takes me pi root T s p addr n :
  pipe_user me pi root T s → k_pipes s !! pi = Some p → pipe_ok p →
  (queue p ≠ [] ∨ pi_writeopen p = 0) → 0 ≤ n < 2 ^ 31 → user_range (k_mem s) T PTE_W addr n →
  let k := Z.to_nat (Z.min n (Z.of_nat (length (queue p)))) in
  ∃ p' m', piperead pi addr n s =
      Ok (Z.of_nat k) (set_proc (woken (Some me) (Ch_nwrite pi) (k_proc s)) (put_pipe pi p' (set_mem m' s))) ∧
    wrote (k_mem s) m' T addr (take k (queue p)) ∧ pipe_ok p' ∧ queue p' = drop k (queue p).
Proof using LOk.
  intros HU Hpi Hp Hne Hn HR k.
  destruct (piperead_ok me pi root T s HU p addr n Hpi Hp Hne Hn HR) as (m' & E & HW).
  eexists _, m'. split_and!; [exact E|exact HW|apply iter_drop_ok; [done|lia]..].
Qed.


End claims.

(** Process 2, with two pages of user memory, and a pipe with five bytes whose
    write counter has passed 2^32 and whose read counter has not. *)
Definition pipe_demo : pipe := mk_pipe (replicate (Z.to_nat PIPESIZE) 7) (2 ^ 32 - 3) 2 1 1.
Definition pipe_demo_state : kstate :=
  set_pipes {[ 0x80040000 := pipe_demo ]}
    (set_proc (alter (set_pagetable 0x80030000) 2%nat (k_proc boot_state))
      (set_mem user_demo_mem (set_cur_cpu (set_c_proc (Some 2%nat) zero_cpu) boot_state))).

Lemma pipe_demo_ok : pipe_ok pipe_demo.
Proof. by split; vm_compute. Qed.

Lemma pipe_demo_user T :
  pt_inv (LY := small_layout) user_demo_mem 0x80030000 T →
  pipe_user (LY := small_layout) 2 0x80040000 0x80030000 T pipe_demo_state.
Proof.
  intros HT. split; [|by vm_compute|by vm_compute|by vm_compute|exact HT|by vm_compute|by vm_compute].
  split; [|split; [by vm_compute|split; [intros j|]; by vm_compute]].
  split; [by apply Nat.ltb_lt; vm_compute|]. split_and!; by vm_compute.
Qed.

Lemma pipe_demo_live w : live w 0x80040000 pipe_demo_state.
Proof. exists pipe_demo. split; [reflexivity|]. split; [apply pipe_demo_ok|by destruct w]. Qed.


Lemma pipewrite_appends_witness :
  ∃ p', pipewrite (LY := small_layout) (W := 0%nat) 0x80040000 0x1ffe 4 pipe_demo_state =
      Ok 4 (set_proc (woken (Some 2%nat) (Ch_nread 0x80040000) (k_proc pipe_demo_state))
              (put_pipe 0x80040000 p' pipe_demo_state)) ∧
    pipe_ok p' ∧ ∃ T, queue p' = queue pipe_demo ++ user_bytes user_demo_mem T 0x1ffe 4.
Proof.
  destruct user_demo_ok as (T & HT & HR).
  destruct (pipewrite_appends (LY := small_layout) (LOk := small_layout_ok) (W := 0%nat) 2 0x80040000 0x80030000
    T pipe_demo_state pipe_demo PTE_W 0x1ffe 4) as (p' & E & Hp & Hq);
    [by apply pipe_demo_user|by vm_compute|apply pipe_demo_ok|by vm_compute|by vm_compute|by vm_compute
    |eapply user_range_sub; [exact HR|lia|by vm_compute]|].
  exists p'. split; [exact E|]. split; [exact Hp|]. exists T. exact Hq.
Defined.

Lemma piperead_takes_witness :
  ∃ p' m' T, piperead (LY := small_layout) (W := 0%nat) 0x80040000 0x1ffe 4 pipe_demo_state =
      Ok 4 (set_proc (woken (Some 2%nat) (Ch_nwrite 0x80040000) (k_proc pipe_demo_state))
              (put_pipe 0x80040000 p' (set_mem m' pipe_demo_state))) ∧
    wrote user_demo_mem m' T 0x1ffe [7; 7; 7; 7] ∧ pipe_ok p' ∧ queue p' = [7].
Proof.
  destruct user_demo_ok as (T & HT & HR).
  destruct (piperead_takes (LY := small_layout) (LOk := small_layout_ok) (W := 0%nat) 2 0x80040000 0x80030000
    T pipe_demo_state pipe_demo 0x1ffe 4) as (p' & m' & E & HW & Hp & Hq);
    [by apply pipe_demo_user|by vm_compute|apply pipe_demo_ok|left; by vm_compute|by vm_compute
    |eapply user_range_sub; [exact HR|lia|by vm_compute]|].
  exists p', m', T. split_and!; [exact E|exact HW|exact Hp|exact Hq].
Defined.
