(* ===== verification/Bio.v ===== *)
(** The buffer cache: kernel/bio.c.

    bcache.buf[] and bcache.head are the entries of [k_bufs], the head last; the
    list through prev/next is kept as the indices of the entries.  The disk
    driver is an interface, so that the cache and the file system above it can
    be run on the virtio driver as well as on a disk that answers at once. *)

From Stdlib Require Import ZArith Lia ZifyBool.
From stdpp Require Import base numbers list gmap strings.
From S2P Require Import Prelude Params Machine Spinlock Printf Sched Sleeplock.

(** virtio_disk_rw(b, write), seen from the buffer cache. *)
Class BlockDev := disk_rw : nat → bool → K ().

(** &bcache.head *)
Definition bhead : nat := Z.to_nat NBUF.

(** b->next = bcache.head.next; b->prev = &bcache.head;
    bcache.head.next->prev = b; bcache.head.next = b; *)
Definition push_front (b : nat) : K () :=
  h ← get_buf bhead;
  upd_buf b (set_b_next (b_next h));;
  upd_buf b (set_b_prev bhead);;
  h ← get_buf bhead;
  upd_buf (b_next h) (set_b_prev b);;
  upd_buf bhead (set_b_next b).

Definition binit : K () :=
  initlock L_bcache;;
  upd_buf bhead (set_b_prev bhead);;
  upd_buf bhead (set_b_next bhead);;
  for_ (seq 0 (Z.to_nat NBUF)) (λ b,
    h ← get_buf bhead;
    upd_buf b (set_b_next (b_next h));;
    upd_buf b (set_b_prev bhead);;
    initsleeplock (SL_buf b);;
    h ← get_buf bhead;
    upd_buf (b_next h) (set_b_prev b);;
    upd_buf bhead (set_b_next b)).

(** Follow a link from [b] to the first buffer that satisfies [P]; the list has
    NBUF entries besides the head. *)
Definition scan_list (link : buf → nat) (P : buf → bool) (b : nat) : K (option nat) :=
  loop (S (Z.to_nat NBUF)) (λ b,
    if (b =? bhead)%nat then mret (inr None) else
    x ← get_buf b;
    if P x then mret (inr (Some b)) else mret (inl (link x))) b.

Definition bpin (b : nat) : K () :=
  acquire L_bcache;;
  upd_buf b (λ x, set_b_refcnt (u32 (b_refcnt x + 1)) x);;
  release L_bcache.

Definition bunpin (b : nat) : K () :=
  acquire L_bcache;;
  upd_buf b (λ x, set_b_refcnt (u32 (b_refcnt x - 1)) x);;
  release L_bcache.

(** Is the block already cached?  Otherwise recycle the least recently used
    buffer that is not in use. *)
Definition bget_scan (dev blockno : Z) : K nat :=
  h ← get_buf bhead;
  r ← scan_list b_next (λ x, (b_dev x =? dev) && (b_blockno x =? blockno)) (b_next h);
  match r with
  | Some b =>
      upd_buf b (λ x, set_b_refcnt (u32 (b_refcnt x + 1)) x);;
      release L_bcache;;
      mret b
  | None =>
      h ← get_buf bhead;
      r ← scan_list b_prev (λ x, b_refcnt x =? 0) (b_prev h);
      match r with
      | Some b =>
          upd_buf b (set_b_dev dev);;
          upd_buf b (set_b_blockno blockno);;
          upd_buf b (set_b_valid 0);;
          upd_buf b (set_b_refcnt 1);;
          release L_bcache;;
          mret b
      | None => panic "bget: no buffers"
      end
  end.

(** The entry of the block, claimed but not yet locked. *)
Definition bget_claim (dev blockno : Z) : K nat :=
  acquire L_bcache;;
  bget_scan dev blockno.

Section bio.
Context {W : Wakeups} {BD : BlockDev}.

Definition bget (dev blockno : Z) : K nat :=
  b ← bget_claim dev blockno;
  acquiresleep (SL_buf b);;
  mret b.

Definition bread (dev blockno : Z) : K nat :=
  b ← bget dev blockno;
  x ← get_buf b;
  when (b_valid x =? 0) (
    disk_rw b false;;
    upd_buf b (set_b_valid 1));;
  mret b.

Definition bwrite (b : nat) : K () :=
  h ← holdingsleep (SL_buf b);
  if negb h then panic "bwrite" else
  disk_rw b true.
End bio.

Definition brelse (b : nat) : K () :=
  h ← holdingsleep (SL_buf b);
  if negb h then panic "brelse" else
  releasesleep (SL_buf b);;
  acquire L_bcache;;
  upd_buf b (λ x, set_b_refcnt (u32 (b_refcnt x - 1)) x);;
  x ← get_buf b;
  when (b_refcnt x =? 0) (
    upd_buf (b_next x) (set_b_prev (b_prev x));;
    x ← get_buf b;
    upd_buf (b_prev x) (set_b_next (b_next x));;
    push_front b);;
  release L_bcache.
