(* ===== verification/BufCache.v ===== *)
(** The buffer cache as a ring: the doubly linked list of kernel/bio.c always
    links all NBUF buffers, and no two of them cache the same block. *)

From Stdlib Require Import ZArith Lia ZifyBool.
From stdpp Require Import base numbers list gmap strings.
From S2P Require Import Prelude Params Machine Spinlock Printf Sched Sleeplock Bio.

(** ** Doubly linked rings *)

(** The nodes [l] are linked, in this order, between [a] and [z]. *)
Fixpoint chain (bufs : list buf) (a : nat) (l : list nat) (z : nat) : Prop :=
  match l with
  | [] => b_next (bufs !!! a) = z ∧ b_prev (bufs !!! z) = a
  | b :: l => b_next (bufs !!! a) = b ∧ b_prev (bufs !!! b) = a ∧ chain bufs b l z
  end.

Lemma chain_app bufs a l1 b l2 z :
  chain bufs a (l1 ++ b :: l2) z ↔ chain bufs a l1 b ∧ chain bufs b l2 z.
Proof.
  revert a. induction l1 as [|c l1 IH]; intros a; cbn.
  - tauto.
  - rewrite IH. tauto.
Qed.

(** A chain looks at [next] of all its nodes but the last and at [prev] of all
    but the first. *)
Lemma ring_chain_ext bufs bufs' a l z :
  (∀ x, x = a ∨ x ∈ l → b_next (bufs' !!! x) = b_next (bufs !!! x)) →
  (∀ x, x = z ∨ x ∈ l → b_prev (bufs' !!! x) = b_prev (bufs !!! x)) →
  chain bufs a l z → chain bufs' a l z.
Proof.
  revert a. induction l as [|b l IH]; intros a Hn Hp; cbn.
  - rewrite Hn, Hp by auto. done.
  - rewrite Hn by auto. rewrite Hp by (right; left). intros (? & ? & ?). split_and!; [done|done|].
    apply IH; [|intros x []; apply Hp; [by left|right; by right]|done].
    intros x [->|Hx]; apply Hn; right; [left|by right].
Qed.

(** The node before [z] and the node after [a]. *)
Definition before (a : nat) (l : list nat) : nat := default a (last l).
Definition after (l : list nat) (z : nat) : nat := default z (head l).

Lemma chain_prev bufs a l z : chain bufs a l z → b_prev (bufs !!! z) = before a l.
Proof.
  revert a. induction l as [|b l IH]; intros a; cbn; [tauto|]. intros (_ & _ & H).
  rewrite (IH _ H). unfold before. destruct l as [|c l]; [done|]. cbn.
  by destruct (last (c :: l)) eqn:E; [|by apply last_None in E].
Qed.

Lemma chain_next bufs a l z : chain bufs a l z → b_next (bufs !!! a) = after l z.
Proof. destruct l; cbn; tauto. Qed.

Lemma before_elem a l : before a l = a ∨ before a l ∈ l.
Proof. unfold before. destruct (last l) as [b|] eqn:E; [right|by left]. cbn. by eapply last_Some_elem_of. Qed.

Lemma after_elem l z : after l z = z ∨ after l z ∈ l.
Proof. unfold after. destruct l; [by left|right; left]. Qed.

Lemma chain_unlink bufs bufs' a l1 b l2 z :
  NoDup (l1 ++ b :: l2) → a ∉ l1 ++ b :: l2 → z ∉ l1 ++ b :: l2 →
  chain bufs a (l1 ++ b :: l2) z →
  (∀ x, b_next (bufs' !!! x) = if decide (x = before a l1) then after l2 z else b_next (bufs !!! x)) →
  (∀ x, b_prev (bufs' !!! x) = if decide (x = after l2 z) then before a l1 else b_prev (bufs !!! x)) →
  chain bufs' a (l1 ++ l2) z.
Proof.
  rewrite chain_app. intros Hnd Ha Hz [H1 H2] Hn Hp.
  apply NoDup_app in Hnd as (Hd1 & Hd12 & [_ Hd2]%NoDup_cons).
  rewrite not_elem_of_app, not_elem_of_cons in Ha, Hz.
  destruct Ha as (Ha1 & _ & Ha2), Hz as (Hz1 & _ & Hz2).
  (* the part after b, and then the part before it *)
  assert (Htail : match l2 with [] => True | n :: l2 => chain bufs' n l2 z end).
  { destruct l2 as [|n l2]; [done|]. cbn in H2. apply NoDup_cons in Hd2 as [Hn2 Hd2].
    rewrite not_elem_of_cons in Ha2, Hz2. eapply ring_chain_ext; [| |apply H2]; intros x Hx.
    - rewrite Hn, decide_False; [done|]. intros ->. destruct (before_elem a l1) as [E|E].
      + rewrite E in Hx. destruct Hx as [<-|Hx]; tauto.
      + apply (Hd12 _ E). right. destruct Hx as [->|Hx]; [left|by right].
    - rewrite Hp, decide_False; [done|]. intros ->. cbn in Hx. destruct Hx as [<-|Hx]; tauto. }
  destruct l1 as [|p l1 _] using rev_ind.
  - destruct l2 as [|n l2]; cbn; rewrite Hn, Hp, !decide_True by done; done.
  - assert (Eb : before a (l1 ++ [p]) = p) by (unfold before; by rewrite last_snoc).
    rewrite Eb in Hn, Hp. rewrite chain_app in H1. destruct H1 as [H1 [H3 H4]]. rewrite <-app_assoc. cbn [app]. rewrite chain_app.
    apply NoDup_app in Hd1 as (Hd1 & Hd1p & _).
    rewrite not_elem_of_app, list_elem_of_singleton in Ha1, Hz1. split.
    + eapply ring_chain_ext; [| |exact H1]; intros x Hx.
      * rewrite Hn, decide_False; [done|]. intros ->. destruct Hx as [->|Hx]; [tauto|].
        apply (Hd1p _ Hx). left.
      * rewrite Hp, decide_False; [done|]. intros ->. destruct (after_elem l2 z) as [E|E].
        -- rewrite E in Hx. destruct Hx as [->|Hx]; tauto.
        -- apply (Hd12 (after l2 z)); [|by right]. apply elem_of_app.
           destruct Hx as [->|Hx]; [right; left|by left].
    + destruct l2 as [|n l2]; cbn; rewrite Hn, Hp, !decide_True by done; done.
Qed.

Lemma chain_insert bufs bufs' a b l z :
  NoDup l → a ∉ l → z ∉ l → b ∉ l → b ≠ a → b ≠ z →
  chain bufs a l z →
  (∀ x, b_next (bufs' !!! x) = if decide (x = a) then b else if decide (x = b) then after l z else b_next (bufs !!! x)) →
  (∀ x, b_prev (bufs' !!! x) = if decide (x = after l z) then b else if decide (x = b) then a else b_prev (bufs !!! x)) →
  chain bufs' a (b :: l) z.
Proof.
  intros Hd Ha Hz Hb Hba Hbz H Hn Hp.
  assert (Hab : b ≠ after l z) by (destruct (after_elem l z) as [->|E]; [done|by intros ->]).
  cbn. rewrite Hn, decide_True, Hp, decide_False, decide_True by done. split_and!; [done|done|].
  destruct l as [|n l]; cbn in *.
  - rewrite Hn, Hp, decide_False, !decide_True by done. done.
  - rewrite Hn, Hp, decide_False, !decide_True by done. split_and!; [done|done|].
    apply NoDup_cons in Hd as [Hn1 Hd]. rewrite not_elem_of_cons in Ha, Hz, Hb.
    eapply ring_chain_ext; [| |apply H]; intros x Hx.
    + rewrite Hn, !decide_False; [done|destruct Hx as [->|Hx]; intros ->; tauto..].
    + rewrite Hp, !decide_False; [done|destruct Hx as [->|Hx]; intros ->; tauto..].
Qed.

(** ** The invariant *)

Record cache_ok (bufs : list buf) : Prop := {
  ca_length : length bufs = S (Z.to_nat NBUF);
  ca_ring : ∃ order, order ≡ₚ seq 0 (Z.to_nat NBUF) ∧ chain bufs bhead order bhead;
  ca_unique i j : (i < Z.to_nat NBUF)%nat → (j < Z.to_nat NBUF)%nat →
    b_dev (bufs !!! i) = b_dev (bufs !!! j) → b_blockno (bufs !!! i) = b_blockno (bufs !!! j) →
    b_dev (bufs !!! i) ≠ 0 → i = j;
}.

Lemma lookup_alter_buf (f : buf → buf) i j bufs :
  (i < length bufs)%nat → alter f i bufs !!! j = if decide (j = i) then f (bufs !!! j) else bufs !!! j.
Proof.
  intros Hi. case_decide as Hij.
  - subst j. apply list_lookup_total_correct.
    rewrite list_lookup_alter_eq, list_lookup_lookup_total_lt by done. done.
  - rewrite !list_lookup_total_alt. by rewrite list_lookup_alter_ne by done.
Qed.

(** An update that keeps links and block numbers. *)
Lemma cache_ok_alter f i bufs :
  (∀ x, b_next (f x) = b_next x ∧ b_prev (f x) = b_prev x ∧ b_dev (f x) = b_dev x ∧ b_blockno (f x) = b_blockno x) →
  cache_ok bufs → cache_ok (alter f i bufs).
Proof.
  intros Hf [Hl (order & Ho & Hc) Hu].
  destruct (decide (i < length bufs)%nat) as [Hi|Hi]; cycle 1.
  { rewrite alter_ge by lia. by split; [|exists order|]. }
  assert (E : ∀ j, b_next (alter f i bufs !!! j) = b_next (bufs !!! j) ∧ b_prev (alter f i bufs !!! j) = b_prev (bufs !!! j) ∧
              b_dev (alter f i bufs !!! j) = b_dev (bufs !!! j) ∧ b_blockno (alter f i bufs !!! j) = b_blockno (bufs !!! j)).
  { intros j. rewrite lookup_alter_buf by done. case_decide; [apply Hf|done]. }
  split.
  - by rewrite length_alter.
  - exists order. split; [done|]. by eapply ring_chain_ext; [| |exact Hc]; intros x _; apply E.
  - intros j k Hj Hk. destruct (E j) as (_ & _ & -> & ->), (E k) as (_ & _ & -> & ->). by apply Hu.
Qed.

(** ** Moving a buffer to the front *)

Definition ring (bufs : list buf) (order : list nat) : Prop :=
  order ≡ₚ seq 0 (Z.to_nat NBUF) ∧ chain bufs bhead order bhead.

Lemma ring_facts bufs order :
  ring bufs order →
  NoDup order ∧ (bhead ∉ order) ∧ length order = Z.to_nat NBUF ∧ (∀ x, x ∈ order ↔ (x < Z.to_nat NBUF)%nat).
Proof.
  intros [Ho _]. assert (Hin : ∀ x, x ∈ order ↔ (x < Z.to_nat NBUF)%nat).
  { intros x. rewrite Ho, elem_of_seq. lia. }
  split_and!; [rewrite Ho; apply NoDup_seq| |by rewrite Ho, length_seq|done].
  rewrite Hin. unfold bhead. lia.
Qed.

(** Only the links of the buffers differ. *)
Definition relinked (bufs bufs' : list buf) : Prop :=
  length bufs' = length bufs ∧ ∀ j, ∃ n p, bufs' !!! j = set_b_next n (set_b_prev p (bufs !!! j)).

Lemma relinked_trans b1 b2 b3 : relinked b1 b2 → relinked b2 b3 → relinked b1 b3.
Proof.
  intros [Hl1 H1] [Hl2 H2]. split; [congruence|]. intros j.
  destruct (H1 j) as (n1 & p1 & E1), (H2 j) as (n2 & p2 & E2). exists n2, p2. by rewrite E2, E1.
Qed.

Lemma relinked_next v i bufs : (i < length bufs)%nat → relinked bufs (alter (set_b_next v) i bufs).
Proof.
  intros Hi. split; [apply length_alter|]. intros j. rewrite lookup_alter_buf by done.
  case_decide; [by eexists v, _|by exists (b_next (bufs !!! j)), (b_prev (bufs !!! j))].
Qed.

Lemma relinked_prev v i bufs : (i < length bufs)%nat → relinked bufs (alter (set_b_prev v) i bufs).
Proof.
  intros Hi. split; [apply length_alter|]. intros j. rewrite lookup_alter_buf by done.
  case_decide; [by eexists (b_next (bufs !!! j)), v|by exists (b_next (bufs !!! j)), (b_prev (bufs !!! j))].
Qed.

(** b->next->prev = b->prev; b->prev->next = b->next; *)
Definition unlink_buf (b : nat) (bufs : list buf) : list buf :=
  let bufs := alter (set_b_prev (b_prev (bufs !!! b))) (b_next (bufs !!! b)) bufs in
  alter (set_b_next (b_next (bufs !!! b))) (b_prev (bufs !!! b)) bufs.

(** The assignments of [push_front]. *)
Definition link_front (b : nat) (bufs : list buf) : list buf :=
  let bufs := alter (set_b_prev bhead) b (alter (set_b_next (b_next (bufs !!! bhead))) b bufs) in
  let bufs := alter (set_b_prev b) (b_next (bufs !!! bhead)) bufs in
  alter (set_b_next b) bhead bufs.

Lemma push_front_run b s : push_front b s = Ok tt (set_bufs (link_front b (k_bufs s)) s).
Proof. reflexivity. Qed.

Section relink.
Context (bufs : list buf) (b : nat) (l1 l2 : list nat).
Hypotheses (Hlen : length bufs = S (Z.to_nat NBUF)) (Hring : ring bufs (l1 ++ b :: l2)).

Lemma relink_bounds :
  (b < Z.to_nat NBUF)%nat ∧ (before bhead l1 < length bufs)%nat ∧ (after l2 bhead < length bufs)%nat ∧
  before bhead l1 ≠ b ∧ after l2 bhead ≠ b ∧
  b_prev (bufs !!! b) = before bhead l1 ∧ b_next (bufs !!! b) = after l2 bhead.
Proof using Hlen Hring.
  destruct (ring_facts _ _ Hring) as (Hnd & Hh & _ & Hin). destruct Hring as [_ Hc].
  rewrite chain_app in Hc. destruct Hc as [H1 H2].
  apply NoDup_app in Hnd as (_ & Hd12 & [Hb _]%NoDup_cons). rewrite not_elem_of_app, not_elem_of_cons in Hh.
  split_and!; [apply Hin, elem_of_app; right; left| | | | |by apply chain_prev|by apply chain_next].
  - destruct (before_elem bhead l1) as [->|E]; [unfold bhead; lia|].
    enough (before bhead l1 < Z.to_nat NBUF)%nat by lia. apply Hin, elem_of_app. by left.
  - destruct (after_elem l2 bhead) as [->|E]; [unfold bhead; lia|].
    enough (after l2 bhead < Z.to_nat NBUF)%nat by lia. apply Hin, elem_of_app. right. by right.
  - intros E. destruct (before_elem bhead l1) as [E'|E']; rewrite E in E'; [by destruct Hh as (_ & [] & _)|]. apply (Hd12 _ E'). left.
  - intros E. destruct (after_elem l2 bhead) as [E'|E']; rewrite E in E'; [by destruct Hh as (_ & [] & _)|done].
Qed.

Lemma unlink_buf_ok :
  chain (unlink_buf b bufs) bhead (l1 ++ l2) bhead ∧ relinked bufs (unlink_buf b bufs).
Proof using Hlen Hring.
  destruct (ring_facts _ _ Hring) as (Hnd & Hh & _ & _). destruct relink_bounds as (Hb & Hp & Hn & Hpb & Hnb & Ep & En).
  assert (Hu : unlink_buf b bufs =
    alter (set_b_next (after l2 bhead)) (before bhead l1) (alter (set_b_prev (before bhead l1)) (after l2 bhead) bufs)).
  { unfold unlink_buf. rewrite Ep, En, lookup_alter_buf, decide_False by done. by rewrite Ep, En. }
  rewrite Hu. split.
  - apply (chain_unlink bufs _ bhead l1 b l2 bhead); [done|done|done|apply Hring| |]; intros x;
      rewrite lookup_alter_buf by (by rewrite length_alter); rewrite lookup_alter_buf by done;
      repeat case_decide; done.
  - eapply relinked_trans; [apply relinked_prev|apply relinked_next]; [done|by rewrite length_alter].
Qed.

Lemma relink_ok :
  let bufs' := link_front b (unlink_buf b bufs) in
  ring bufs' (b :: l1 ++ l2) ∧ relinked bufs bufs'.
Proof using Hlen Hring.
  destruct (ring_facts _ _ Hring) as (Hnd & Hh & _ & Hin). destruct relink_bounds as (Hb & Hp & Hn & Hpb & Hnb & Ep & En).
  destruct unlink_buf_ok as [Hc Hr]. set (u := unlink_buf b bufs) in *.
  assert (Hlu : length u = S (Z.to_nat NBUF)) by (rewrite <-Hlen; apply Hr).
  assert (Hbh : bhead = Z.to_nat NBUF) by done.
  assert (Hne : b_next (u !!! bhead) = after (l1 ++ l2) bhead) by (by apply (chain_next u)).
  assert (Haft : (after (l1 ++ l2) bhead < length u)%nat).
  { destruct (after_elem (l1 ++ l2) bhead) as [->|E]; [lia|].
    enough (after (l1 ++ l2) bhead < Z.to_nat NBUF)%nat by lia. apply Hin. rewrite elem_of_app in *.
    destruct E; [by left|right; by right]. }
  rewrite <-Permutation_middle in Hnd. apply NoDup_cons in Hnd as [Hb12 Hnd].
  assert (Hh' : bhead ∉ b :: l1 ++ l2) by (by rewrite Permutation_middle).
  rewrite not_elem_of_cons in Hh'.
  assert (Hl : link_front b u = alter (set_b_next b) bhead (alter (set_b_prev b) (after (l1 ++ l2) bhead)
    (alter (set_b_prev bhead) b (alter (set_b_next (after (l1 ++ l2) bhead)) b u)))).
  { unfold link_front. rewrite Hne. rewrite !lookup_alter_buf, !decide_False by (rewrite ?length_alter; (tauto || lia)).
    by rewrite Hne. }
  split.
  - split; [rewrite Permutation_middle; apply Hring|]. rewrite Hl.
    apply (chain_insert u); [done|tauto|tauto|done|intros ->; tauto|intros ->; tauto|done| |]; intros x;
      rewrite !lookup_alter_buf by (rewrite ?length_alter; lia); repeat case_decide; done.
  - eapply relinked_trans; [exact Hr|]. rewrite Hl.
    eapply relinked_trans; [apply (relinked_next (after (l1 ++ l2) bhead) b); lia|].
    eapply relinked_trans; [apply (relinked_prev bhead b); rewrite length_alter; lia|].
    eapply relinked_trans; [apply (relinked_prev b (after (l1 ++ l2) bhead)); rewrite !length_alter; lia|].
    apply relinked_next. rewrite !length_alter. lia.
Qed.
End relink.

(** ** Scans *)

(** The first buffer of the list that satisfies [P]. *)
Fixpoint first_buf (P : buf → bool) (bufs : list buf) (l : list nat) : option nat :=
  match l with
  | [] => None
  | b :: l => if P (bufs !!! b) then Some b else first_buf P bufs l
  end.

Lemma first_buf_Some P bufs l b : first_buf P bufs l = Some b → b ∈ l ∧ P (bufs !!! b) = true.
Proof.
  induction l as [|c l IH]; cbn; [done|]. destruct (P (bufs !!! c)) eqn:E.
  - intros [= ->]. by split; [left|].
  - intros [??]%IH. by split; [right|].
Qed.

Lemma first_buf_None P bufs l b : first_buf P bufs l = None → b ∈ l → P (bufs !!! b) = false.
Proof.
  induction l as [|c l IH]; cbn; [by intros _ ?%not_elem_of_nil|]. destruct (P (bufs !!! c)) eqn:E; [done|].
  intros Hf [->|Hb]%elem_of_cons; [done|]. by apply IH.
Qed.

Lemma first_buf_app P bufs l1 l2 :
  first_buf P bufs (l1 ++ l2) = match first_buf P bufs l1 with Some b => Some b | None => first_buf P bufs l2 end.
Proof. induction l1 as [|c l IH]; [done|]. cbn. by destruct (P (bufs !!! c)). Qed.

Definition scan_step (link : buf → nat) (P : buf → bool) (b : nat) : K (nat + option nat) :=
  if (b =? bhead)%nat then mret (inr None) else
  x ← get_buf b;
  if P x then mret (inr (Some b)) else mret (inl (link x)).

Lemma scan_step_head link P s : scan_step link P bhead s = Ok (inr None) s.
Proof. unfold scan_step. by rewrite Nat.eqb_refl. Qed.

Lemma scan_step_node link P b s : b ≠ bhead →
  scan_step link P b s = Ok (if P (k_bufs s !!! b) then inr (Some b) else inl (link (k_bufs s !!! b))) s.
Proof.
  intros Hb. unfold scan_step, get_buf. rewrite (proj2 (Nat.eqb_neq b bhead) Hb). krun.
  by destruct (P (k_bufs s !!! b)).
Qed.

Lemma scan_next fuel P a l s :
  chain (k_bufs s) a l bhead → bhead ∉ l → (length l < fuel)%nat →
  loop fuel (scan_step b_next P) (after l bhead) s = Ok (first_buf P (k_bufs s) l) s.
Proof.
  revert fuel a. induction l as [|b l IH]; intros fuel a Hc Hh Hf; (destruct fuel as [|fuel]; [cbn in Hf; lia|]);
    cbn [loop]; rewrite run_bind.
  - change (after [] bhead) with bhead. by rewrite scan_step_head.
  - rewrite not_elem_of_cons in Hh. change (after (b :: l) bhead) with b.
    rewrite scan_step_node by (intros ->; tauto). cbn [first_buf obind]. destruct Hc as (_ & _ & Hc).
    destruct (P (k_bufs s !!! b)); [done|]. cbv iota.
    rewrite <-(IH fuel b); [|done|tauto|cbn in Hf; lia]. by rewrite <-(chain_next _ _ _ _ Hc).
Qed.

Lemma scan_prev fuel P z l s :
  chain (k_bufs s) bhead l z → bhead ∉ l → (length l < fuel)%nat →
  loop fuel (scan_step b_prev P) (before bhead l) s = Ok (first_buf P (k_bufs s) (reverse l)) s.
Proof.
  revert fuel z. induction l as [|b l IH] using rev_ind; intros fuel z Hc Hh Hf;
    (destruct fuel as [|fuel]; [rewrite ?length_app in Hf; cbn in Hf; lia|]);
    cbn [loop]; rewrite run_bind.
  - change (before bhead []) with bhead. by rewrite scan_step_head.
  - rewrite not_elem_of_app, list_elem_of_singleton in Hh. rewrite length_app in Hf. cbn in Hf.
    assert (Eb : before bhead (l ++ [b]) = b) by (unfold before; by rewrite last_snoc). rewrite Eb.
    rewrite scan_step_node by (intros ->; tauto). rewrite reverse_snoc. cbn [first_buf obind].
    rewrite chain_app in Hc. destruct Hc as [Hc _]. destruct (P (k_bufs s !!! b)); [done|]. cbv iota.
    rewrite <-(IH fuel b); [|done|tauto|lia]. by rewrite <-(chain_prev _ _ _ _ Hc).
Qed.

Lemma scan_list_next P s order :
  ring (k_bufs s) order →
  scan_list b_next P (b_next (k_bufs s !!! bhead)) s = Ok (first_buf P (k_bufs s) order) s.
Proof.
  intros HR. destruct (ring_facts _ _ HR) as (_ & Hh & Hl & _). destruct HR as [_ Hc].
  rewrite (chain_next _ _ _ _ Hc). apply (scan_next _ P bhead); [done|done|lia].
Qed.

Lemma scan_list_prev P s order :
  ring (k_bufs s) order →
  scan_list b_prev P (b_prev (k_bufs s !!! bhead)) s = Ok (first_buf P (k_bufs s) (reverse order)) s.
Proof.
  intros HR. destruct (ring_facts _ _ HR) as (_ & Hh & Hl & _). destruct HR as [_ Hc].
  rewrite (chain_prev _ _ _ _ Hc). apply (scan_prev _ P bhead); [done|done|lia].
Qed.

(** ** Claiming and releasing a buffer *)

Definition is_block (dev blockno : Z) (x : buf) : bool := (b_dev x =? dev) && (b_blockno x =? blockno).

(** A recycled buffer. *)
Definition recycle (dev blockno : Z) (x : buf) : buf :=
  set_b_refcnt 1 (set_b_valid 0 (set_b_blockno blockno (set_b_dev dev x))).

(** What bget() does to the buffers, with the most recently used first in
    [order]: the block's buffer, or the least recently used free one. *)
Definition claim_buf (dev blockno : Z) (order : list nat) (bufs : list buf) : option (nat * list buf) :=
  match first_buf (is_block dev blockno) bufs order with
  | Some b => Some (b, alter (λ x, set_b_refcnt (u32 (b_refcnt x + 1)) x) b bufs)
  | None =>
      match first_buf (λ x, b_refcnt x =? 0) bufs (reverse order) with
      | Some b => Some (b, alter (recycle dev blockno) b bufs)
      | None => None
      end
  end.

Lemma bget_scan_run dev blockno order t :
  ring (k_bufs t) order →
  bget_scan dev blockno t =
    match claim_buf dev blockno order (k_bufs t) with
    | Some (b, bufs) => (release L_bcache;; mret b) (set_bufs bufs t)
    | None => Panic "bget: no buffers"
    end.
Proof.
  intros HR. unfold bget_scan, get_buf, upd_buf. krun.
  rewrite (scan_list_next _ t order HR). fold (is_block dev blockno). cbn [obind]. unfold claim_buf.
  destruct (first_buf (is_block dev blockno) (k_bufs t) order) as [b|]; [by krun|]. krun.
  rewrite (scan_list_prev _ t order HR). cbn [obind].
  destruct (first_buf _ (k_bufs t) (reverse order)) as [b|]; [|done]. krun.
  cbn [k_bufs set_bufs]. by rewrite !list_alter_alter_eq.
Qed.

Lemma cache_ring bufs : cache_ok bufs → ∃ order, ring bufs order.
Proof. intros Hc. destruct (ca_ring _ Hc) as [order Ho]. by exists order. Qed.

Lemma cache_ok_relinked bufs bufs' order :
  cache_ok bufs → relinked bufs bufs' → ring bufs' order → cache_ok bufs'.
Proof.
  intros [Hl _ Hu] [Hl' Hr] HR. split.
  - congruence.
  - exists order. apply HR.
  - intros i j Hi Hj. destruct (Hr i) as (n & p & ->), (Hr j) as (n' & p' & ->). by apply (Hu i j).
Qed.

Lemma cache_ok_relink b bufs :
  cache_ok bufs → (b < Z.to_nat NBUF)%nat → cache_ok (link_front b (unlink_buf b bufs)).
Proof.
  intros Hc Hb. destruct (cache_ring _ Hc) as [order HR].
  destruct (ring_facts _ _ HR) as (_ & _ & _ & Hin).
  apply Hin in Hb. apply list_elem_of_split in Hb as (l1 & l2 & Hsp). subst order.
  destruct (relink_ok bufs b l1 l2) as [HR' Hr]; [apply Hc|done|]. by eapply cache_ok_relinked.
Qed.

Lemma claim_buf_ok dev blockno order bufs b bufs' :
  cache_ok bufs → ring bufs order → claim_buf dev blockno order bufs = Some (b, bufs') →
  cache_ok bufs' ∧ (b < Z.to_nat NBUF)%nat ∧ b_dev (bufs' !!! b) = dev ∧ b_blockno (bufs' !!! b) = blockno.
Proof.
  intros Hc HR. unfold claim_buf. destruct (ring_facts _ _ HR) as (_ & _ & _ & Hin).
  destruct (first_buf (is_block dev blockno) bufs order) as [c|] eqn:E1.
  - intros [= <- <-]. apply first_buf_Some in E1 as [H1 H2]. apply Hin in H1.
    split_and!; [by apply cache_ok_alter|done|..];
      (rewrite lookup_alter_buf by (rewrite (ca_length _ Hc); lia)); rewrite decide_True by done; cbn;
      unfold is_block in H2; lia.
  - destruct (first_buf _ bufs (reverse order)) as [c|] eqn:E2; [|done]. intros [= <- <-].
    apply first_buf_Some in E2 as [H1 _]. rewrite elem_of_reverse in H1. apply Hin in H1.
    destruct Hc as [Hl _ Hu].
    assert (E : ∀ j, alter (recycle dev blockno) c bufs !!! j =
                  if decide (j = c) then recycle dev blockno (bufs !!! j) else bufs !!! j)
      by (intros j; apply lookup_alter_buf; lia).
    assert (Hno : ∀ j, (j < Z.to_nat NBUF)%nat → b_dev (bufs !!! j) = dev → b_blockno (bufs !!! j) = blockno → False).
    { intros j Hj Hd Hn. pose proof (first_buf_None _ _ _ j E1 (proj2 (Hin j) Hj)) as H. unfold is_block in H. lia. }
    split_and!; [split|done|..].
    + by rewrite length_alter.
    + exists order. split; [apply HR|]. eapply ring_chain_ext; [| |apply HR]; intros x _; rewrite E; by case_decide.
    + intros i j Hi Hj. rewrite !E. do 2 case_decide; cbn; subst; try done.
      * intros H3 H4. by destruct (Hno j).
      * intros H3 H4. by destruct (Hno i).
      * by apply Hu.
    + by rewrite E, decide_True.
    + by rewrite E, decide_True.
Qed.

(** ** binit() *)

(** One buffer of binit(). *)
Definition binit_one (b : nat) : K () :=
  h ← get_buf bhead;
  upd_buf b (set_b_next (b_next h));;
  upd_buf b (set_b_prev bhead);;
  initsleeplock (SL_buf b);;
  h ← get_buf bhead;
  upd_buf (b_next h) (set_b_prev b);;
  upd_buf bhead (set_b_next b).

Definition contents (x : buf) : Z * Z * Z * Z * list Z := (b_dev x, b_blockno x, b_valid x, b_refcnt x, b_data x).

Lemma binit_one_ok n s :
  (n < Z.to_nat NBUF)%nat → length (k_bufs s) = S (Z.to_nat NBUF) →
  chain (k_bufs s) bhead (reverse (seq 0 n)) bhead →
  ∃ l bufs, binit_one n s = Ok tt (set_bufs bufs (set_locks l s)) ∧ length bufs = S (Z.to_nat NBUF) ∧
    chain bufs bhead (n :: reverse (seq 0 n)) bhead ∧
    ∀ x, contents (bufs !!! x) = contents (k_bufs s !!! x).
Proof.
  intros Hn Hl Hc. assert (Hbh : bhead = Z.to_nat NBUF) by done.
  assert (Hin : ∀ x, x ∈ reverse (seq 0 n) → (x < n)%nat) by (intros x; rewrite elem_of_reverse, elem_of_seq; lia).
  assert (Hne : b_next (k_bufs s !!! bhead) = after (reverse (seq 0 n)) bhead) by (by apply (chain_next (k_bufs s))).
  set (a := after (reverse (seq 0 n)) bhead) in *.
  assert (Ha : (a ≤ bhead)%nat ∧ a ≠ n).
  { destruct (after_elem (reverse (seq 0 n)) bhead) as [E|E]; fold a in E; [lia|]. apply Hin in E. lia. }
  eexists _, (alter (set_b_next n) bhead (alter (set_b_prev n) a (alter (set_b_lock (mk_sleeplock 0 0)) n
    (alter (set_b_prev bhead) n (alter (set_b_next a) n (k_bufs s)))))).
  split_and!; [|by rewrite !length_alter| |].
  - unfold binit_one, get_buf, upd_buf, initsleeplock, initlock, put_sl. krun.
    cbn [k_bufs set_bufs set_locks set_sl]. rewrite Hne.
    rewrite !(lookup_alter_buf _ _ bhead) by (rewrite ?length_alter; lia).
    rewrite !decide_False by lia. rewrite Hne. reflexivity.
  - apply (chain_insert (k_bufs s)); [|intros E%Hin; lia|intros E%Hin; lia|intros E%Hin; lia|lia|lia|done| |].
    + rewrite reverse_Permutation. apply NoDup_seq.
    + intros x. fold a. rewrite !lookup_alter_buf by (rewrite ?length_alter; lia). repeat case_decide; done.
    + intros x. fold a. rewrite !lookup_alter_buf by (rewrite ?length_alter; lia). repeat case_decide; done.
  - intros x. rewrite !lookup_alter_buf by (rewrite ?length_alter; lia). repeat case_decide; done.
Qed.

(** binit() makes the ring out of zeroed memory. *)
Lemma binit_ok s :
  length (k_bufs s) = S (Z.to_nat NBUF) → (∀ x, b_dev (k_bufs s !!! x) = 0) →
  ∃ l bufs, binit s = Ok tt (set_bufs bufs (set_locks l s)) ∧ cache_ok bufs ∧
    ∀ x, contents (bufs !!! x) = contents (k_bufs s !!! x).
Proof.
  intros Hl Hd. assert (Hbh : bhead = Z.to_nat NBUF) by done.
  unfold binit, initlock, upd_buf. krun. cbn [k_bufs set_bufs set_locks].
  set (bufs0 := alter _ bhead (alter _ bhead (k_bufs s))). set (s0 := set_bufs bufs0 _).
  assert (Hx : ∀ x, contents (bufs0 !!! x) = contents (k_bufs s !!! x)).
  { intros x. unfold bufs0. rewrite !lookup_alter_buf by (rewrite ?length_alter; lia). by repeat case_decide. }
  assert (H : ∀ n, (n ≤ Z.to_nat NBUF)%nat →
    ∃ l bufs, for_ (seq 0 n) binit_one s0 = Ok tt (set_bufs bufs (set_locks l s0)) ∧
      length bufs = S (Z.to_nat NBUF) ∧ chain bufs bhead (reverse (seq 0 n)) bhead ∧
      ∀ x, contents (bufs !!! x) = contents (k_bufs s !!! x)).
  { induction n as [|n IH]; intros Hn.
    - exists (k_locks s0), bufs0. split_and!; [done|by unfold bufs0; rewrite !length_alter| |done].
      cbn. unfold bufs0. rewrite !lookup_alter_buf, !decide_True by (rewrite ?length_alter; lia || done). done.
    - destruct IH as (l & bufs & E & Hlb & Hc & Hz); [lia|].
      destruct (binit_one_ok n (set_bufs bufs (set_locks l s0))) as (l' & bufs' & E' & Hlb' & Hc' & Hz'); [lia|done|done|].
      rewrite seq_S, (for_app _ _ _ _ _ E). cbn [for_ plus]. exists l', bufs'. rewrite run_bind, E'.
      split_and!; [done|done|by rewrite reverse_snoc|]. intros x. rewrite Hz'. apply Hz. }
  destruct (H (Z.to_nat NBUF)) as (l & bufs & E & Hlb & Hc & Hz); [lia|].
  exists l, bufs. split; [exact E|]. split; [|exact Hz]. split; [done| |].
  - exists (reverse (seq 0 (Z.to_nat NBUF))). split; [apply reverse_Permutation|done].
  - intros i j _ _ _ _ Hne. specialize (Hz i). unfold contents in Hz. injection Hz as Hz _ _ _ _.
    rewrite Hz in Hne. destruct (Hne (Hd i)).
Qed.
