(* ===== verification/CacheSpec.v ===== *)
(** The contract of the buffer cache: kernel/bio.c implements a map from block
    numbers to contents on top of a disk, with a reference count and a lock for
    every block in use.

    The disk is any block device that transfers one block per call and may stop
    the machine before or after a transfer. *)

From Stdlib Require Import ZArith Lia ZifyBool.
From stdpp Require Import base numbers list gmap strings.
From S2P Require Import Prelude Params Machine Spinlock Printf Sched Sleeplock Idle Bio BufCache.

(** ** The disk *)

Definition put_block (bn : Z) (d : list Z) (B : Z → list Z) : Z → list Z :=
  λ x, if x =? bn then d else B x.

(** One transfer between buffer [b] and its block. *)
Definition transfer (b : nat) (write : bool) (s : kstate) : kstate :=
  let x := k_bufs s !!! b in
  if write then set_blocks (put_block (b_blockno x) (b_data x) (k_blocks s)) s
  else set_bufs (alter (set_b_data (k_blocks s (b_blockno x))) b (k_bufs s)) s.

(** A disk that is done when the call returns; the power may fail. *)
Class SyncDisk {BD : BlockDev} : Prop :=
  sync_disk b w s :
    disk_rw b w s = Ok tt (transfer b w s) ∨ disk_rw b w s = Spin s ∨ disk_rw b w s = Spin (transfer b w s).

(** ** The abstract cache *)

Record acache := mk_acache {
  ac_view : Z → list Z;         (* the current contents of every block *)
  ac_refs : gmap Z Z;           (* reference counts of the blocks in use *)
  ac_held : gset Z;             (* blocks whose lock the caller holds *)
}.

Definition refs (a : acache) (bn : Z) : Z := default 0 (ac_refs a !! bn).

Definition set_refs (bn c : Z) (a : acache) : acache :=
  mk_acache (ac_view a) (if c =? 0 then delete bn (ac_refs a) else <[bn := c]> (ac_refs a)) (ac_held a).
Definition set_view (bn : Z) (d : list Z) (a : acache) : acache :=
  mk_acache (put_block bn d (ac_view a)) (ac_refs a) (ac_held a).
Definition hold (bn : Z) (a : acache) : acache := mk_acache (ac_view a) (ac_refs a) ({[bn]} ∪ ac_held a).
Definition unhold (bn : Z) (a : acache) : acache := mk_acache (ac_view a) (ac_refs a) (ac_held a ∖ {[bn]}).

(** bread() and brelse(), abstractly. *)
Definition a_get (bn : Z) (a : acache) : acache := hold bn (set_refs bn (refs a bn + 1) a).
Definition a_put (bn : Z) (a : acache) : acache := unhold bn (set_refs bn (refs a bn - 1) a).

(** ** Representation *)

(** Buffer [b] is the one of block [bn] of device [dev]. *)
Definition is_buf (dev : Z) (bufs : list buf) (b : nat) (bn : Z) : Prop :=
  (b < Z.to_nat NBUF)%nat ∧ b_dev (bufs !!! b) = dev ∧ b_blockno (bufs !!! b) = bn.

Record buf_rep (pid : Z) (B : Z → list Z) (a : acache) (x : buf) (bn : Z) : Prop := {
  br_refs : b_refcnt x = refs a bn;
  br_held : bn ∈ ac_held a → b_lock x = mk_sleeplock 1 pid ∧ b_valid x ≠ 0;
  br_free : bn ∉ ac_held a → sl_locked (b_lock x) = 0;
  br_view : ac_view a bn = if b_valid x =? 0 then B bn else b_data x;
}.

Record cache_rep (dev pid : Z) (bufs : list buf) (B : Z → list Z) (a : acache) : Prop := {
  cr_ok : cache_ok bufs;
  cr_buf b bn : is_buf dev bufs b bn → buf_rep pid B a (bufs !!! b) bn;
  cr_other b : (b < Z.to_nat NBUF)%nat → b_dev (bufs !!! b) ≠ dev →
    b_refcnt (bufs !!! b) = 0 ∧ sl_locked (b_lock (bufs !!! b)) = 0;
  cr_absent bn : (∀ b, ¬ is_buf dev bufs b bn) → ac_refs a !! bn = None;
  cr_clean bn : ac_refs a !! bn = None → ac_view a bn = B bn;
  cr_count bn c : ac_refs a !! bn = Some c → 0 < c < 2 ^ 31;
  cr_in_use bn : bn ∈ ac_held a → is_Some (ac_refs a !! bn);
}.

Lemma put_block_eq bn d B : put_block bn d B bn = d.
Proof. unfold put_block. by rewrite Z.eqb_refl. Qed.

Lemma put_block_ne bn d B x : x ≠ bn → put_block bn d B x = B x.
Proof. unfold put_block. by intros ->%Z.eqb_neq. Qed.

Lemma refs_set_eq bn c a : refs (set_refs bn c a) bn = c.
Proof.
  unfold set_refs. destruct (Z.eqb_spec c 0) as [->|]; unfold refs; cbn; [by rewrite lookup_delete_eq|].
  by rewrite lookup_insert_eq.
Qed.

Lemma set_refs_ne bn c a x : x ≠ bn → ac_refs (set_refs bn c a) !! x = ac_refs a !! x.
Proof.
  intros Hx. unfold set_refs. destruct (c =? 0); cbn; [by rewrite lookup_delete_ne|by rewrite lookup_insert_ne].
Qed.

Lemma hold_eq bn a : bn ∈ ac_held (hold bn a).
Proof. apply elem_of_union_l, elem_of_singleton_2; done. Qed.

Lemma hold_ne bn a x : x ≠ bn → x ∈ ac_held (hold bn a) ↔ x ∈ ac_held a.
Proof. intros Hx. unfold hold. cbn. rewrite elem_of_union, elem_of_singleton. tauto. Qed.

Lemma unhold_eq bn a : bn ∉ ac_held (unhold bn a).
Proof. unfold unhold. cbn. rewrite elem_of_difference, elem_of_singleton. tauto. Qed.

Lemma unhold_ne bn a x : x ≠ bn → x ∈ ac_held (unhold bn a) ↔ x ∈ ac_held a.
Proof. intros Hx. unfold unhold. cbn. rewrite elem_of_difference, elem_of_singleton. tauto. Qed.

Lemma is_buf_inj dev bufs b b' bn : cache_ok bufs → dev ≠ 0 → is_buf dev bufs b bn → is_buf dev bufs b' bn → b = b'.
Proof. intros Hc Hd (H1 & H2 & H3) (H4 & H5 & H6). apply (ca_unique _ Hc); congruence. Qed.

Lemma find_buf dev bufs bn : (∃ b, is_buf dev bufs b bn) ∨ (∀ b, ¬ is_buf dev bufs b bn).
Proof.
  destruct (first_buf (is_block dev bn) bufs (seq 0 (Z.to_nat NBUF))) as [b|] eqn:E.
  - left. apply first_buf_Some in E as [H1 H2]. rewrite elem_of_seq in H1. unfold is_block in H2.
    exists b. unfold is_buf. lia.
  - right. intros b (H1 & H2 & H3). apply (first_buf_None _ _ _ b) in E; [|rewrite elem_of_seq; lia].
    unfold is_block in E. lia.
Qed.

(** The abstract caches, and the disks, differ at most in block [bn]. *)
Definition agree_off (bn : Z) (a a' : acache) (B B' : Z → list Z) : Prop :=
  ∀ x, x ≠ bn → ac_view a' x = ac_view a x ∧ ac_refs a' !! x = ac_refs a !! x ∧
    (x ∈ ac_held a' ↔ x ∈ ac_held a) ∧ B' x = B x.

Lemma buf_rep_agree pid bn a a' B B' x y :
  agree_off bn a a' B B' → y ≠ bn → buf_rep pid B a x y → buf_rep pid B' a' x y.
Proof.
  intros Ha Hy [H1 H2 H3 H4]. destruct (Ha y Hy) as (E1 & E2 & E3 & E4).
  split; unfold refs in *; rewrite ?E1, ?E2, ?E3, ?E4; done.
Qed.

Section rep.
Context (dev pid : Z) (bufs : list buf) (B : Z → list Z) (a : acache).
Hypotheses (Hdev : dev ≠ 0) (HR : cache_rep dev pid bufs B a).

(** One block changes, in its buffer, abstractly or on disk. *)
Lemma rep_update b bn f a' B' :
  is_buf dev bufs b bn →
  (∀ x, b_next (f x) = b_next x ∧ b_prev (f x) = b_prev x ∧ b_dev (f x) = b_dev x ∧ b_blockno (f x) = b_blockno x) →
  agree_off bn a a' B B' →
  buf_rep pid B' a' (f (bufs !!! b)) bn →
  (ac_refs a' !! bn = None → ac_view a' bn = B' bn) →
  (∀ c, ac_refs a' !! bn = Some c → 0 < c < 2 ^ 31) →
  (bn ∈ ac_held a' → is_Some (ac_refs a' !! bn)) →
  cache_rep dev pid (alter f b bufs) B' a' ∧
  ∀ b' bn', is_buf dev (alter f b bufs) b' bn' ↔ is_buf dev bufs b' bn'.
Proof using HR Hdev.
  intros Hb Hf Ha Hx Hcl Hcn Hiu. destruct HR as [Hok Hbuf Hoth Habs Hclean Hcount Huse].
  assert (Hlen : (b < length bufs)%nat) by (rewrite (ca_length _ Hok); destruct Hb; lia).
  assert (E : ∀ j, alter f b bufs !!! j = if decide (j = b) then f (bufs !!! j) else bufs !!! j)
    by (intros j; by apply lookup_alter_buf).
  assert (Hid : ∀ b' bn', is_buf dev (alter f b bufs) b' bn' ↔ is_buf dev bufs b' bn').
  { intros b' bn'. unfold is_buf. rewrite E. case_decide; [|done].
    destruct (Hf (bufs !!! b')) as (_ & _ & -> & ->). done. }
  split; [|exact Hid]. split.
  - by apply cache_ok_alter.
  - intros b' bn' Hb'%Hid. rewrite E. case_decide as Hc.
    + subst b'. assert (bn' = bn) as -> by (destruct Hb as (_ & _ & H1), Hb' as (_ & _ & H2); congruence). done.
    + assert (bn' ≠ bn) by (intros ->; by destruct Hc; eapply is_buf_inj). by eapply buf_rep_agree, Hbuf.
  - intros b' Hlt. rewrite E. case_decide; [|by apply Hoth]. subst b'.
    destruct (Hf (bufs !!! b)) as (_ & _ & -> & _). by destruct Hb as (_ & -> & _).
  - intros bn' Hno. destruct (decide (bn' = bn)) as [->|Hne]; [by destruct (Hno b); apply Hid|].
    destruct (Ha bn' Hne) as (_ & -> & _ & _). apply Habs. intros b' Hb'. by apply (Hno b'), Hid.
  - intros bn' Hn. destruct (decide (bn' = bn)) as [->|Hne]; [by apply Hcl|].
    destruct (Ha bn' Hne) as (-> & E2 & _ & ->). apply Hclean. by rewrite <-E2.
  - intros bn' c. destruct (decide (bn' = bn)) as [->|Hne]; [apply Hcn|].
    destruct (Ha bn' Hne) as (_ & -> & _ & _). apply Hcount.
  - intros bn'. destruct (decide (bn' = bn)) as [->|Hne]; [apply Hiu|].
    destruct (Ha bn' Hne) as (_ & -> & -> & _). apply Huse.
Qed.

Lemma rep_relinked bufs' order :
  relinked bufs bufs' → ring bufs' order →
  cache_rep dev pid bufs' B a ∧ ∀ b' bn', is_buf dev bufs' b' bn' ↔ is_buf dev bufs b' bn'.
Proof using HR.
  intros Hr Hring. destruct HR as [Hok Hbuf Hoth Habs Hclean Hcount Huse].
  assert (Hid : ∀ b' bn', is_buf dev bufs' b' bn' ↔ is_buf dev bufs b' bn').
  { intros b' bn'. unfold is_buf. destruct (proj2 Hr b') as (n & p & ->). done. }
  split; [|exact Hid]. split; [by eapply cache_ok_relinked| | | |done|done|done].
  - intros b' bn' Hb'%Hid. destruct (proj2 Hr b') as (n & p & ->). destruct (Hbuf b' bn' Hb'). by split.
  - intros b'. destruct (proj2 Hr b') as (n & p & ->). apply Hoth.
  - intros bn' Hno. apply Habs. intros b' Hb'. by apply (Hno b'), Hid.
Qed.

(** A buffer that is not in use is given to a block that has none. *)
Lemma rep_recycle b bn :
  (b < Z.to_nat NBUF)%nat → b_refcnt (bufs !!! b) = 0 → (∀ b', ¬ is_buf dev bufs b' bn) →
  cache_ok (alter (recycle dev bn) b bufs) →
  let bufs' := alter (recycle dev bn) b bufs in
  cache_rep dev pid bufs' B (set_refs bn (refs a bn + 1) a) ∧ is_buf dev bufs' b bn ∧
  ∀ b' bn', is_Some (ac_refs a !! bn') → is_buf dev bufs b' bn' → is_buf dev bufs' b' bn'.
Proof using HR.
  intros Hb Hz Hno Hok'. destruct HR as [Hok Hbuf Hoth Habs Hclean Hcount Huse].
  assert (Hn : ac_refs a !! bn = None) by (by apply Habs).
  assert (Hnh : bn ∉ ac_held a) by (intros [c Hc]%Huse; congruence).
  assert (E : ∀ j, alter (recycle dev bn) b bufs !!! j = if decide (j = b) then recycle dev bn (bufs !!! j) else bufs !!! j).
  { intros j. apply lookup_alter_buf. rewrite (ca_length _ Hok). lia. }
  assert (Hfree : sl_locked (b_lock (bufs !!! b)) = 0).
  { destruct (decide (b_dev (bufs !!! b) = dev)) as [Hd|Hd]; [|by apply Hoth].
    destruct (Hbuf b (b_blockno (bufs !!! b))) as [H1 H2 H3 H4]; [done|]. apply H3. intros Hh.
    destruct (Huse _ Hh) as [c Hc]. pose proof (Hcount _ _ Hc). unfold refs in H1. rewrite Hc in H1. cbn in H1. lia. }
  assert (Hr : refs a bn = 0) by (unfold refs; by rewrite Hn).
  assert (Hrefs : ac_refs (set_refs bn (refs a bn + 1) a) = <[bn := 1]> (ac_refs a)) by (unfold set_refs; by rewrite Hr).
  assert (Hb' : is_buf dev (alter (recycle dev bn) b bufs) b bn) by (unfold is_buf; by rewrite E, decide_True).
  assert (Hkeep : ∀ b' bn', is_Some (ac_refs a !! bn') → is_buf dev bufs b' bn' →
    is_buf dev (alter (recycle dev bn) b bufs) b' bn').
  { intros b' bn' [c Hc] Hi. unfold is_buf. rewrite E. case_decide; [|done]. subst b'. exfalso.
    destruct (Hbuf b bn' Hi) as [H1 _ _ _]. pose proof (Hcount _ _ Hc). unfold refs in H1. rewrite Hc in H1. cbn in H1. lia. }
  cbn zeta. split_and!; [|done|done].
  - split; [done| | | | | |].
    + intros b' bn' Hi. rewrite E. case_decide as Hc.
      * subst b'. assert (bn' = bn) as -> by (destruct Hi as (_ & _ & H1), Hb' as (_ & _ & H2); congruence).
        split; [|done|done|by apply Hclean]. by rewrite refs_set_eq, Hr.
      * assert (Hi' : is_buf dev bufs b' bn') by (unfold is_buf in *; by rewrite E, decide_False in Hi).
        assert (bn' ≠ bn) by (intros ->; by destruct (Hno b')). destruct (Hbuf b' bn' Hi') as [H1 H2 H3 H4].
        split; [|done..]. rewrite H1. unfold refs at 1. by rewrite <-(set_refs_ne bn (refs a bn + 1) a bn').
    + intros b' Hlt. rewrite E. case_decide; [done|by apply Hoth].
    + intros bn' Hno'. rewrite Hrefs. destruct (decide (bn' = bn)) as [->|Hne]; [by destruct (Hno' b)|].
      rewrite lookup_insert_ne by done. destruct (ac_refs a !! bn') as [c|] eqn:Ec; [|done]. exfalso.
      destruct (find_buf dev bufs bn') as [[b' Hi]|Hx]; [|by rewrite Habs in Ec].
      by apply (Hno' b'), Hkeep; [eexists|].
    + intros bn'. rewrite Hrefs. intros [? ?]%lookup_insert_None. by apply Hclean.
    + intros bn' c. rewrite Hrefs. intros [[<- <-]|[? ?]]%lookup_insert_Some; [lia|by eapply Hcount].
    + intros bn' Hh. rewrite Hrefs. destruct (decide (bn' = bn)) as [->|Hne]; [done|].
      rewrite lookup_insert_ne by done. by apply Huse.
Qed.

(** Not all buffers are in use while fewer than NBUF blocks are. *)
Lemma some_buf_free :
  (size (ac_refs a) < Z.to_nat NBUF)%nat → (∀ b, (b < Z.to_nat NBUF)%nat → b_refcnt (bufs !!! b) ≠ 0) → False.
Proof using HR Hdev.
  intros Hsz Hall. destruct HR as [Hok Hbuf Hoth Habs Hclean Hcount Huse].
  assert (Hd : ∀ b, (b < Z.to_nat NBUF)%nat → b_dev (bufs !!! b) = dev).
  { intros b Hb. destruct (decide (b_dev (bufs !!! b) = dev)) as [|Hne]; [done|]. destruct (Hoth b Hb Hne) as [Hz _].
    by destruct (Hall b Hb). }
  set (l := (λ b, b_blockno (bufs !!! b)) <$> seq 0 (Z.to_nat NBUF)).
  assert (Hl : length l = Z.to_nat NBUF) by (unfold l; by rewrite length_fmap, length_seq).
  assert (Hnd : NoDup l).
  { apply NoDup_fmap_2_strong; [|apply NoDup_seq]. intros x y Hx%elem_of_seq Hy%elem_of_seq Hxy.
    apply (is_buf_inj dev bufs x y (b_blockno (bufs !!! x)) Hok Hdev); split_and!; try apply Hd; (lia || done). }
  assert (Hsub : list_to_set l ⊆ dom (ac_refs a)).
  { intros bn [b [-> Hb]]%elem_of_list_to_set%list_elem_of_fmap. rewrite elem_of_seq in Hb.
    destruct (Hbuf b (b_blockno (bufs !!! b))) as [H1 _ _ _]; [split_and!; [lia|apply Hd; lia|done]|].
    apply elem_of_dom. unfold refs in H1. destruct (ac_refs a !! b_blockno (bufs !!! b)); [by eexists|].
    by destruct (Hall b ltac:(lia)). }
  apply subseteq_size in Hsub. rewrite size_dom, size_list_to_set in Hsub by done. lia.
Qed.

Lemma claim_rep order bn :
  ring bufs order → refs a bn + 1 < 2 ^ 31 →
  (is_Some (ac_refs a !! bn) ∨ (size (ac_refs a) < Z.to_nat NBUF)%nat) →
  ∃ b bufs', claim_buf dev bn order bufs = Some (b, bufs') ∧
    cache_rep dev pid bufs' B (set_refs bn (refs a bn + 1) a) ∧ is_buf dev bufs' b bn ∧
    ∀ b' bn', is_Some (ac_refs a !! bn') → is_buf dev bufs b' bn' → is_buf dev bufs' b' bn'.
Proof using HR Hdev.
  intros Hring Hbound Hroom. pose proof (cr_ok _ _ _ _ _ HR) as Hok.
  destruct (ring_facts _ _ Hring) as (_ & _ & _ & Hin).
  destruct (claim_buf dev bn order bufs) as [[b bufs']|] eqn:Ec; cycle 1.
  { exfalso. unfold claim_buf in Ec. destruct (first_buf (is_block dev bn) bufs order) eqn:E1; [done|].
    destruct (first_buf _ bufs (reverse order)) eqn:E2; [done|]. destruct Hroom as [[c Hc]|Hsz].
    - destruct (find_buf dev bufs bn) as [[b (H1 & H2 & H3)]|Hno]; [|by rewrite (cr_absent _ _ _ _ _ HR bn Hno) in Hc].
      apply Hin in H1. pose proof (first_buf_None _ _ _ b E1 H1) as H. unfold is_block in H. lia.
    - apply some_buf_free; [done|]. intros b Hb%Hin.
      pose proof (first_buf_None _ _ _ b E2 ltac:(by apply elem_of_reverse)) as H. cbn in H. lia. }
  exists b, bufs'. split; [done|].
  destruct (claim_buf_ok _ _ _ _ _ _ Hok Hring Ec) as (Hok' & Hb & Hd & Hn).
  unfold claim_buf in Ec. destruct (first_buf (is_block dev bn) bufs order) as [c|] eqn:E1.
  - injection Ec as <- <-. apply first_buf_Some in E1 as [_ H2].
    assert (Hi : is_buf dev bufs c bn) by (unfold is_buf, is_block in *; lia).
    destruct (cr_buf _ _ _ _ _ HR c bn Hi) as [H3 H4 H5 H6].
    assert (Hpos : 0 ≤ refs a bn).
    { unfold refs. destruct (ac_refs a !! bn) as [n|] eqn:En; [|done]. pose proof (cr_count _ _ _ _ _ HR _ _ En). cbn. lia. }
    destruct (rep_update c bn (λ x, set_b_refcnt (u32 (b_refcnt x + 1)) x) (set_refs bn (refs a bn + 1) a) B) as [HR' Hid];
      [done|done| | | | | |].
    + intros x Hx. split_and!; try done. by apply set_refs_ne.
    + split; cbn; [|done..]. rewrite refs_set_eq, H3. apply u32_small. lia.
    + unfold set_refs. replace (refs a bn + 1 =? 0) with false by lia. cbn. by rewrite lookup_insert_eq.
    + unfold set_refs. replace (refs a bn + 1 =? 0) with false by lia. cbn. rewrite lookup_insert_eq.
      intros n [= <-]. lia.
    + unfold set_refs. replace (refs a bn + 1 =? 0) with false by lia. cbn. by rewrite lookup_insert_eq.
    + split_and!; [done|by apply Hid|]. intros b' bn' _ ?. by apply Hid.
  - destruct (first_buf _ bufs (reverse order)) as [c|] eqn:E2; [|done]. injection Ec as <- <-.
    apply first_buf_Some in E2 as [H1 H2]. apply rep_recycle; [done|lia| |done].
    intros b' (H3 & H4 & H5). pose proof (first_buf_None _ _ _ b' E1 (proj2 (Hin b') H3)) as H. unfold is_block in H. lia.
Qed.
End rep.

(** ** Operations *)

(** After binit(), every block is as on disk and none is in use. *)
Lemma cache_rep_init dev pid bufs B :
  dev ≠ 0 → cache_ok bufs →
  (∀ b, (b < Z.to_nat NBUF)%nat →
     b_dev (bufs !!! b) = 0 ∧ b_refcnt (bufs !!! b) = 0 ∧ sl_locked (b_lock (bufs !!! b)) = 0) →
  cache_rep dev pid bufs B (mk_acache B ∅ ∅).
Proof.
  intros Hdev Hok Hz. split; [done| | |done|done| |].
  - intros b bn (H1 & H2 & _). destruct (Hz b H1) as [H3 _]. congruence.
  - intros b Hb _. by apply Hz.
  - intros bn c. cbn. by rewrite lookup_empty.
  - by intros bn []%not_elem_of_empty.
Qed.

(** The cache of a machine at rest. *)
Definition cached (me : nat) (dev : Z) (s : kstate) (a : acache) : Prop :=
  idle me s ∧ cache_rep dev (my_pid me s) (k_bufs s) (k_blocks s) a.

(** Buffers in use stay with their blocks. *)
Definition keeps_bufs (dev : Z) (a : acache) (bufs bufs' : list buf) : Prop :=
  ∀ b bn, is_Some (ac_refs a !! bn) → is_buf dev bufs b bn → is_buf dev bufs' b bn.

Section ops.
Context {W : Wakeups} {BD : BlockDev} {SD : SyncDisk}.
Context (me : nat) (dev : Z) (Hdev : dev ≠ 0) (C : (Z → list Z) → Prop).
Implicit Types (s t : kstate) (a : acache).

Abbreviation crash := (λ s, C (k_blocks s)).

Lemma idle_bufs s bufs : idle me s → idle me (set_bufs bufs s).
Proof. by apply idle_same. Qed.

Lemma bcache_free s : idle me s → k_locks s !! L_bcache = None.
Proof. intros Hi. by apply Hi. Qed.

Lemma bget_claim_ok s bn order b bufs :
  idle me s → ring (k_bufs s) order → claim_buf dev bn order (k_bufs s) = Some (b, bufs) →
  bget_claim dev bn s = Ok b (set_bufs bufs s).
Proof.
  intros Hi Hring Hc. unfold bget_claim. rewrite run_bind, (idle_acquire me s Hi) by by apply bcache_free.
  cbn [obind]. rewrite (bget_scan_run _ _ order) by done. change (k_bufs (locked L_bcache s)) with (k_bufs s).
  rewrite Hc. krun. rewrite (idle_release me s Hi); [done|by apply bcache_free|done].
Qed.

Lemma bread_ok s a bn :
  cached me dev s a → bn ∉ ac_held a → refs a bn + 1 < 2 ^ 31 →
  (is_Some (ac_refs a !! bn) ∨ (size (ac_refs a) < Z.to_nat NBUF)%nat) → C (k_blocks s) →
  runs crash (λ b t, ∃ bufs, t = set_bufs bufs s ∧ cached me dev t (a_get bn a) ∧
      is_buf dev bufs b bn ∧ b_data (bufs !!! b) = ac_view a bn ∧ keeps_bufs dev a (k_bufs s) bufs)
    (bread dev bn s).
Proof using Hdev SD.
  intros [Hi HR] Hnh Hbound Hroom HC. destruct (cache_ring _ (cr_ok _ _ _ _ _ HR)) as [order Hring].
  destruct (claim_rep dev _ _ _ _ Hdev HR order bn Hring Hbound Hroom) as (b & bufs1 & Hc & HR1 & Hb & Hkeep).
  unfold bread, bget. rewrite !run_bind, (bget_claim_ok s bn order b bufs1) by done. cbn [obind].
  destruct (cr_buf _ _ _ _ _ HR1 b bn Hb) as [H1 H2 H3 H4].
  rewrite run_bind, (acquiresleep_ok me _ (idle_bufs s bufs1 Hi)) by (by apply H3). cbn [obind]. krun.
  unfold get_buf. krun. cbn [set_sl k_bufs set_bufs].
  assert (Hlen : (b < length bufs1)%nat) by (rewrite (ca_length _ (cr_ok _ _ _ _ _ HR1)); destruct Hb; lia).
  set (l := mk_sleeplock 1 _). rewrite lookup_alter_buf, decide_True by done. cbn [set_b_lock b_valid].
  assert (Hfin : ∀ f, (∀ x, b_next (f x) = b_next x ∧ b_prev (f x) = b_prev x ∧ b_dev (f x) = b_dev x ∧ b_blockno (f x) = b_blockno x) →
    b_refcnt (f (bufs1 !!! b)) = b_refcnt (bufs1 !!! b) → b_lock (f (bufs1 !!! b)) = l →
    b_valid (f (bufs1 !!! b)) ≠ 0 → b_data (f (bufs1 !!! b)) = ac_view a bn →
    ∃ bufs, set_bufs (alter f b bufs1) s = set_bufs bufs s ∧
      cached me dev (set_bufs (alter f b bufs1) s) (a_get bn a) ∧
      is_buf dev bufs b bn ∧ b_data (bufs !!! b) = ac_view a bn ∧ keeps_bufs dev a (k_bufs s) bufs).
  { intros f Hf F1 F2 F3 F4.
    destruct (rep_update dev _ _ _ _ Hdev HR1 b bn f (a_get bn a) (k_blocks s) Hb Hf) as [HR2 Hid].
    - intros x Hx. split_and!; [done|done|by apply hold_ne|done].
    - split; [by rewrite F1|by split|by intros []; apply hold_eq|].
      replace (b_valid (f (bufs1 !!! b)) =? 0) with false by lia. by rewrite F4.
    - apply (cr_clean _ _ _ _ _ HR1).
    - apply (cr_count _ _ _ _ _ HR1).
    - intros _. destruct (ac_refs (set_refs bn (refs a bn + 1) a) !! bn) eqn:E; [by eexists|].
      assert (Hz : refs (set_refs bn (refs a bn + 1) a) bn = refs a bn + 1) by apply refs_set_eq.
      unfold refs in Hz at 1. rewrite E in Hz. cbn in Hz. exfalso.
      assert (0 ≤ refs a bn); [|lia]. unfold refs. destruct (ac_refs a !! bn) as [n|] eqn:En; [|done].
      pose proof (cr_count _ _ _ _ _ HR _ _ En). cbn. lia.
    - exists (alter f b bufs1). split_and!; [done|by split; [apply idle_bufs|]|by apply Hid| |].
      + by rewrite lookup_alter_buf, decide_True.
      + intros b' bn' Hs Hb'. by apply Hid, Hkeep. }
  destruct (b_valid (bufs1 !!! b) =? 0) eqn:Hv; cbn [when].
  - rewrite run_bind.
    assert (Htr : transfer b false (set_bufs (alter (set_b_lock l) b bufs1) (set_bufs bufs1 s)) =
                  set_bufs (alter (λ x, set_b_data (k_blocks s bn) (set_b_lock l x)) b bufs1) s).
    { unfold transfer. cbn. rewrite lookup_alter_buf, decide_True by done. cbn [set_b_lock b_blockno].
      destruct Hb as (_ & _ & ->). rewrite list_alter_alter_eq. done. }
    destruct (sync_disk b false (set_bufs (alter (set_b_lock l) b bufs1) (set_bufs bufs1 s))) as [-> | [-> | ->]];
      rewrite ?Htr; [|exact HC|exact HC].
    cbn [obind]. unfold upd_buf. krun. cbn [runs k_bufs set_bufs]. rewrite list_alter_alter_eq.
    by apply Hfin.
  - krun. cbn [runs]. apply Hfin; try done; cbn; lia.
Qed.

(** What holds of the buffer of a block whose lock the caller holds. *)
Lemma held_buf s a b bn :
  cached me dev s a → bn ∈ ac_held a → is_buf dev (k_bufs s) b bn →
  (b < length (k_bufs s))%nat ∧ b_lock (k_bufs s !!! b) = mk_sleeplock 1 (my_pid me s) ∧
  b_valid (k_bufs s !!! b) ≠ 0 ∧ b_data (k_bufs s !!! b) = ac_view a bn ∧
  b_refcnt (k_bufs s !!! b) = refs a bn ∧ 0 < refs a bn < 2 ^ 31.
Proof using Type.
  intros [Hi HR] Hh Hb. destruct (cr_buf _ _ _ _ _ HR b bn Hb) as [H1 H2 H3 H4]. destruct (H2 Hh) as [H5 H6].
  destruct (cr_in_use _ _ _ _ _ HR bn Hh) as [c Hc]. pose proof (cr_count _ _ _ _ _ HR _ _ Hc).
  split_and!; try done.
  - rewrite (ca_length _ (cr_ok _ _ _ _ _ HR)). destruct Hb. lia.
  - rewrite H4. by replace (b_valid (k_bufs s !!! b) =? 0) with false by lia.
  - unfold refs. rewrite Hc. cbn. lia.
  - unfold refs. rewrite Hc. cbn. lia.
Qed.

(** A change of one held block, in its buffer, abstractly and on disk. *)
Lemma cached_update s a b bn f a' B' :
  cached me dev s a → bn ∈ ac_held a → is_buf dev (k_bufs s) b bn →
  (∀ x, b_next (f x) = b_next x ∧ b_prev (f x) = b_prev x ∧ b_dev (f x) = b_dev x ∧ b_blockno (f x) = b_blockno x) →
  agree_off bn a a' (k_blocks s) B' →
  buf_rep (my_pid me s) B' a' (f (k_bufs s !!! b)) bn →
  (ac_refs a' !! bn = None → ac_view a' bn = B' bn) →
  (∀ c, ac_refs a' !! bn = Some c → 0 < c < 2 ^ 31) →
  (bn ∈ ac_held a' → is_Some (ac_refs a' !! bn)) →
  cached me dev (set_blocks B' (set_bufs (alter f b (k_bufs s)) s)) a' ∧
  ∀ b' bn', is_buf dev (alter f b (k_bufs s)) b' bn' ↔ is_buf dev (k_bufs s) b' bn'.
Proof using Hdev.
  intros [Hi HR] Hh Hb Hf Ha Hx H1 H2 H3.
  destruct (rep_update dev _ _ _ _ Hdev HR b bn f a' B') as [HR' Hid]; try done.
  split; [|done]. split; [|done]. by eapply idle_same, Hi.
Qed.

(** Assigning to b->data. *)
Lemma write_data_ok s a b bn d :
  cached me dev s a → bn ∈ ac_held a → is_buf dev (k_bufs s) b bn →
  let t := set_bufs (alter (set_b_data d) b (k_bufs s)) s in
  cached me dev t (set_view bn d a) ∧
  ∀ b' bn', is_buf dev (k_bufs t) b' bn' ↔ is_buf dev (k_bufs s) b' bn'.
Proof using Hdev.
  intros Hc Hh Hb. destruct (held_buf s a b bn Hc Hh Hb) as (Hl & H1 & H2 & H3 & H4 & H5).
  apply (cached_update s a b bn (set_b_data d) (set_view bn d a) (k_blocks s)); try done.
  - intros x Hx. split_and!; try done. by apply put_block_ne.
  - split; [done|by split|done|]. cbn. replace (b_valid (k_bufs s !!! b) =? 0) with false by lia. apply put_block_eq.
  - cbn. intros Hn. unfold refs in H5. rewrite Hn in H5. cbn in H5. lia.
  - apply Hc.
  - intros _. by apply (cr_in_use _ _ _ _ _ (proj2 Hc)).
Qed.

Lemma bwrite_ok s a b bn :
  cached me dev s a → bn ∈ ac_held a → is_buf dev (k_bufs s) b bn →
  let B' := put_block bn (ac_view a bn) (k_blocks s) in
  C (k_blocks s) → C B' →
  runs crash (λ _ t, t = set_blocks B' s ∧ cached me dev t a) (bwrite b s).
Proof using Hdev SD.
  intros Hc Hh Hb B' HC1 HC2. destruct (held_buf s a b bn Hc Hh Hb) as (Hl & H1 & H2 & H3 & H4 & H5).
  unfold bwrite. rewrite run_bind, (holdingsleep_ok me s (proj1 Hc)). cbn [obind sl_of]. rewrite H1. cbn [sl_locked sl_pid].
  rewrite Z.eqb_refl. cbn [negb andb Z.eqb].
  assert (Htr : transfer b true s = set_blocks B' s).
  { unfold transfer. rewrite H3. by destruct Hb as (_ & _ & ->). }
  destruct (sync_disk b true s) as [-> | [-> | ->]]; rewrite ?Htr; [|exact HC1|exact HC2]. cbn [runs]. split; [done|].
  destruct (cached_update s a b bn (λ x, x) a B') as [Hc' _]; try done.
  - intros x Hx. split_and!; try done. by apply put_block_ne.
  - split; [done|by split|done|]. replace (b_valid (k_bufs s !!! b) =? 0) with false by lia. done.
  - intros _. unfold B'. by rewrite put_block_eq.
  - apply Hc.
  - intros _. by apply (cr_in_use _ _ _ _ _ (proj2 Hc)).
  - by rewrite list_alter_id in Hc'.
Qed.

(** brelse() of the buffers: one user and the lock less, and to the front of the
    list with the last user. *)
Definition put_buf (b : nat) (bufs : list buf) : list buf :=
  let bufs' := alter (λ x, set_b_refcnt (u32 (b_refcnt x - 1)) (set_b_lock (mk_sleeplock 0 0) x)) b bufs in
  if b_refcnt (bufs' !!! b) =? 0 then link_front b (unlink_buf b bufs') else bufs'.

Lemma brelse_run s a b bn :
  cached me dev s a → bn ∈ ac_held a → is_buf dev (k_bufs s) b bn →
  brelse b s = Ok tt (set_bufs (put_buf b (k_bufs s)) s).
Proof using Type.
  intros Hc Hh Hb. destruct (held_buf s a b bn Hc Hh Hb) as (Hl & H1 & _). destruct Hc as [Hi _].
  unfold brelse. rewrite run_bind, (holdingsleep_ok me s Hi). cbn [obind sl_of]. rewrite H1. cbn [sl_locked sl_pid].
  rewrite Z.eqb_refl. cbn [negb andb Z.eqb].
  rewrite run_bind, (releasesleep_ok me s Hi). cbn [obind set_sl].
  set (u := set_bufs _ s). assert (Hu : idle me u) by by apply idle_bufs.
  rewrite run_bind, (idle_acquire me u Hu) by by apply bcache_free. cbn [obind].
  rewrite run_bind, run_upd_buf. cbn [obind]. rewrite run_bind, run_get_buf. cbn [obind].
  assert (Hk : alter (λ x, set_b_refcnt (u32 (b_refcnt x - 1)) x) b (k_bufs (locked L_bcache u)) =
               alter (λ x, set_b_refcnt (u32 (b_refcnt x - 1)) (set_b_lock (mk_sleeplock 0 0) x)) b (k_bufs s))
    by (cbn; by rewrite list_alter_alter_eq).
  rewrite Hk. cbn [k_bufs set_bufs]. unfold put_buf.
  set (bufs' := alter _ b (k_bufs s)). destruct (b_refcnt (bufs' !!! b) =? 0) eqn:E; cbn [when].
  - unfold upd_buf, get_buf. krun. rewrite push_front_run. cbn [obind].
    rewrite (idle_release me u Hu); [done|by apply bcache_free|done].
  - krun. rewrite (idle_release me u Hu); [done|by apply bcache_free|done].
Qed.

Lemma brelse_ok s a b bn :
  cached me dev s a → bn ∈ ac_held a → is_buf dev (k_bufs s) b bn →
  (refs a bn = 1 → ac_view a bn = k_blocks s bn) →
  ∃ bufs, brelse b s = Ok tt (set_bufs bufs s) ∧ cached me dev (set_bufs bufs s) (a_put bn a) ∧
    ∀ b' bn', is_buf dev bufs b' bn' ↔ is_buf dev (k_bufs s) b' bn'.
Proof using Hdev.
  intros Hc Hh Hb Hclean. destruct (held_buf s a b bn Hc Hh Hb) as (Hl & H1 & H2 & H3 & H4 & H5).
  exists (put_buf b (k_bufs s)). split; [by eapply brelse_run|].
  assert (Hrefs : refs (a_put bn a) bn = refs a bn - 1).
  { change (refs (a_put bn a) bn) with (refs (set_refs bn (refs a bn - 1) a) bn). apply refs_set_eq. }
  destruct (cached_update s a b bn (λ x, set_b_refcnt (u32 (b_refcnt x - 1)) (set_b_lock (mk_sleeplock 0 0) x))
    (a_put bn a) (k_blocks s)) as [[Hi HR] Hid]; try done.
  - intros x Hx. split_and!; [done|by apply set_refs_ne|exact (unhold_ne bn (set_refs bn (refs a bn - 1) a) x Hx)|done].
  - split; [|by intros []%unhold_eq|done|]; cbn [set_b_refcnt set_b_lock b_refcnt b_valid b_data].
    + rewrite Hrefs, H4. apply u32_small. lia.
    + replace (b_valid (k_bufs s !!! b) =? 0) with false by lia. done.
  - intros Hn. apply Hclean. unfold refs in Hrefs at 1. rewrite Hn in Hrefs. cbn in Hrefs. lia.
  - intros c Hn. unfold refs in Hrefs at 1. rewrite Hn in Hrefs. cbn in Hrefs.
    cbn in Hn. destruct (refs a bn - 1 =? 0) eqn:E; [by rewrite lookup_delete_eq in Hn|]. lia.
  - by intros []%unhold_eq.
  - unfold put_buf. set (bufs' := alter _ b (k_bufs s)) in *. destruct (b_refcnt (bufs' !!! b) =? 0); [|by split; [split|]].
    destruct (cache_ring _ (cr_ok _ _ _ _ _ HR)) as [order Hring]. destruct (ring_facts _ _ Hring) as (_ & _ & _ & Hin).
    destruct (list_elem_of_split order b) as (l1 & l2 & Hsp); [apply Hin, Hb|]. subst order.
    destruct (relink_ok bufs' b l1 l2) as [Hring' Hr]; [apply HR|done|].
    destruct (rep_relinked _ _ _ _ _ HR _ _ Hr Hring') as [HR' Hid']. split.
    + split; [by eapply idle_same, Hi|exact HR'].
    + intros b' bn'. rewrite Hid'. apply Hid.
Qed.

(** A user more or less of a held block. *)
Lemma recount_ok s a b bn d :
  cached me dev s a → bn ∈ ac_held a → is_buf dev (k_bufs s) b bn → 0 < refs a bn + d < 2 ^ 31 →
  let bufs := alter (λ x, set_b_refcnt (u32 (b_refcnt x + d)) x) b (k_bufs s) in
  cached me dev (set_bufs bufs s) (set_refs bn (refs a bn + d) a) ∧
  ∀ b' bn', is_buf dev bufs b' bn' ↔ is_buf dev (k_bufs s) b' bn'.
Proof using Hdev.
  intros Hc Hh Hb Hn. destruct (held_buf s a b bn Hc Hh Hb) as (Hl & H1 & H2 & H3 & H4 & H5).
  assert (Hr : ac_refs (set_refs bn (refs a bn + d) a) = <[bn := refs a bn + d]> (ac_refs a)).
  { unfold set_refs. by replace (refs a bn + d =? 0) with false by lia. }
  apply (cached_update s a b bn (λ x, set_b_refcnt (u32 (b_refcnt x + d)) x) _ (k_blocks s)); try done.
  - intros x Hx. split_and!; try done. by apply set_refs_ne.
  - split; [|by split|done|]; cbn [set_b_refcnt b_refcnt b_valid b_data].
    + rewrite refs_set_eq, H4. apply u32_small. lia.
    + replace (b_valid (k_bufs s !!! b) =? 0) with false by lia. done.
  - rewrite Hr. by rewrite lookup_insert_eq.
  - rewrite Hr. intros c. rewrite lookup_insert_eq. intros [= <-]. lia.
  - rewrite Hr. by rewrite lookup_insert_eq.
Qed.

Lemma bpin_ok s a b bn :
  cached me dev s a → bn ∈ ac_held a → is_buf dev (k_bufs s) b bn → refs a bn + 1 < 2 ^ 31 →
  ∃ bufs, bpin b s = Ok tt (set_bufs bufs s) ∧ cached me dev (set_bufs bufs s) (set_refs bn (refs a bn + 1) a) ∧
    ∀ b' bn', is_buf dev bufs b' bn' ↔ is_buf dev (k_bufs s) b' bn'.
Proof using Hdev.
  intros Hc Hh Hb Hn. destruct (held_buf s a b bn Hc Hh Hb) as (_ & _ & _ & _ & _ & H5).
  eexists. split; [|apply recount_ok; [done|done|done|lia]].
  unfold bpin, upd_buf. rewrite run_bind, (idle_acquire me s (proj1 Hc)) by apply bcache_free, Hc. cbn [obind]. krun.
  rewrite (idle_release me s (proj1 Hc)); [done|apply bcache_free, Hc|done].
Qed.

Lemma bunpin_ok s a b bn :
  cached me dev s a → bn ∈ ac_held a → is_buf dev (k_bufs s) b bn → 1 < refs a bn →
  ∃ bufs, bunpin b s = Ok tt (set_bufs bufs s) ∧ cached me dev (set_bufs bufs s) (set_refs bn (refs a bn - 1) a) ∧
    ∀ b' bn', is_buf dev bufs b' bn' ↔ is_buf dev (k_bufs s) b' bn'.
Proof using Hdev.
  intros Hc Hh Hb Hn. destruct (held_buf s a b bn Hc Hh Hb) as (_ & _ & _ & _ & _ & H5).
  eexists. split; [|apply (recount_ok s a b bn (-1)); [done|done|done|lia]].
  unfold bunpin, upd_buf. rewrite run_bind, (idle_acquire me s (proj1 Hc)) by apply bcache_free, Hc. cbn [obind]. krun.
  rewrite (idle_release me s (proj1 Hc)); [done|apply bcache_free, Hc|done].
Qed.
End ops.

(** ** The contract *)

(** The calls a client makes, by the block they are about; [CData] is an
    assignment to the data of a buffer it has locked. *)
Inductive cop :=
  | CRead (bn : Z) | CData (bn : Z) (d : list Z) | CWrite (bn : Z)
  | CRelse (bn : Z) | CPin (bn : Z) | CUnpin (bn : Z).

Definition op_block (op : cop) : Z :=
  match op with CRead bn | CData bn _ | CWrite bn | CRelse bn | CPin bn | CUnpin bn => bn end.

(** The call, with the buffer that an earlier bread() returned. *)
Definition run_op {W : Wakeups} {BD : BlockDev} (dev : Z) (op : cop) (b : nat) : K nat :=
  match op with
  | CRead bn => bread dev bn
  | CData bn d => upd_buf b (set_b_data d);; mret b
  | CWrite bn => bwrite b;; mret b
  | CRelse bn => brelse b;; mret b
  | CPin bn => bpin b;; mret b
  | CUnpin bn => bunpin b;; mret b
  end.

(** What the call does to the abstract cache and to the disk. *)
Definition spec_op (op : cop) (a : acache) (B : Z → list Z) : acache * (Z → list Z) :=
  match op with
  | CRead bn => (a_get bn a, B)
  | CData bn d => (set_view bn d a, B)
  | CWrite bn => (a, put_block bn (ac_view a bn) B)
  | CRelse bn => (a_put bn a, B)
  | CPin bn => (set_refs bn (refs a bn + 1) a, B)
  | CUnpin bn => (set_refs bn (refs a bn - 1) a, B)
  end.

(** When the call may be made. *)
Definition op_allowed (op : cop) (a : acache) (B : Z → list Z) : Prop :=
  match op with
  | CRead bn => (bn ∉ ac_held a) ∧ refs a bn + 1 < 2 ^ 31 ∧
      (is_Some (ac_refs a !! bn) ∨ (size (ac_refs a) < Z.to_nat NBUF)%nat)
  | CData bn _ | CWrite bn => bn ∈ ac_held a
  | CRelse bn => bn ∈ ac_held a ∧ (refs a bn = 1 → ac_view a bn = B bn)
  | CPin bn => bn ∈ ac_held a ∧ refs a bn + 1 < 2 ^ 31
  | CUnpin bn => bn ∈ ac_held a ∧ 1 < refs a bn
  end.

(** C23: The buffer cache implements the abstract cache.  In a machine
    whose cache represents [a], every call that the specification allows
    returns, and leaves a machine whose cache and disk are the specified ones;
    bread() returns a buffer with the current contents of its block, and buffers
    in use stay with their blocks.  If the power fails on the way, the disk
    is the one before or the one after the call. *)
Theorem buffer_cache_refines {W : Wakeups} {BD : BlockDev} {SD : SyncDisk} me dev op b s a :
  dev ≠ 0 → cached me dev s a → op_allowed op a (k_blocks s) →
  (op ≠ CRead (op_block op) → is_buf dev (k_bufs s) b (op_block op)) →
  let '(a', B') := spec_op op a (k_blocks s) in
  runs (λ t, k_blocks t = k_blocks s ∨ k_blocks t = B')
    (λ b' t, cached me dev t a' ∧ k_blocks t = B' ∧ is_buf dev (k_bufs t) b' (op_block op) ∧
       (op = CRead (op_block op) → b_data (k_bufs t !!! b') = ac_view a (op_block op)) ∧
       keeps_bufs dev a (k_bufs s) (k_bufs t))
    (run_op dev op b s).
Proof.
  intros Hdev Hc Hop Hb. set (C := λ B, B = k_blocks s ∨ B = (spec_op op a (k_blocks s)).2).
  assert (HC : C (k_blocks s)) by (by left).
  destruct op as [bn|bn d|bn|bn|bn|bn]; cbn [spec_op op_allowed op_block run_op] in *;
    try (specialize (Hb ltac:(done))).
  - destruct Hop as (H1 & H2 & H3).
    eapply runs_mono; [apply (bread_ok me dev Hdev C s a bn); done|by intros t [?|?]; [left|right]|].
    intros b' t (bufs & -> & H4 & H5 & H6 & H7). cbn. by split_and!.
  - rewrite run_bind, run_upd_buf. cbn [obind]. destruct (write_data_ok me dev Hdev s a b bn d) as [H1 H2]; [done..|].
    cbn [runs mret M_ret]. split_and!; [done|done|by apply H2|done|]. intros x y _ Hx. by apply H2.
  - eapply runs_bind; [apply (bwrite_ok me dev Hdev C s a b bn); try done; by right|]. cbn. intros _ t [-> H1].
    split_and!; try done. by intros x y _ Hx.
  - destruct Hop as [Hh Hcl]. rewrite run_bind.
    destruct (brelse_ok me dev Hdev s a b bn) as (bufs & -> & H1 & H2); [done..|].
    cbn. split_and!; [done|done|by apply H2|done|]. intros x y _ Hx. by apply H2.
  - destruct Hop as [Hh Hcl]. rewrite run_bind.
    destruct (bpin_ok me dev Hdev s a b bn) as (bufs & -> & H1 & H2); [done..|].
    cbn. split_and!; [done|done|by apply H2|done|]. intros x y _ Hx. by apply H2.
  - destruct Hop as [Hh Hcl]. rewrite run_bind.
    destruct (bunpin_ok me dev Hdev s a b bn) as (bufs & -> & H1 & H2); [done..|].
    cbn. split_and!; [done|done|by apply H2|done|]. intros x y _ Hx. by apply H2.
Qed.

(** A disk without failures. *)
Definition plain_disk : BlockDev := λ b w s, Ok tt (transfer b w s).

Lemma plain_disk_sync : @SyncDisk plain_disk.
Proof. intros b w s. by left. Qed.

(** Process 2 runs after binit(). *)
Definition before_binit : kstate := set_cur_cpu (set_c_proc (Some 2%nat) zero_cpu) boot_state.

Definition fresh_cache : kstate :=
  match binit before_binit with Ok _ t => t | _ => boot_state end.

Lemma fresh_cache_eq :
  ∃ bufs, fresh_cache = set_bufs bufs before_binit ∧ cache_ok bufs ∧
    ∀ b, (b < Z.to_nat NBUF)%nat →
      b_dev (bufs !!! b) = 0 ∧ b_refcnt (bufs !!! b) = 0 ∧ sl_locked (b_lock (bufs !!! b)) = 0.
Proof.
  destruct (binit_ok before_binit) as (l & bufs & E & Hok & Hz).
  { by vm_compute. }
  { intros x. change (b_dev (replicate (Z.to_nat (NBUF + 1)) zero_buf !!! x) = 0).
    rewrite list_lookup_total_alt. by destruct (_ !! x) as [y|] eqn:Hy; [apply lookup_replicate in Hy as [-> _]|]. }
  assert (Hf : fresh_cache = set_bufs bufs (set_locks l before_binit)) by (unfold fresh_cache; by rewrite E).
  assert (Hl : k_locks fresh_cache = ∅) by (vm_compute; reflexivity).
  assert (Hb : forallb (λ x, (b_dev x =? 0) && (b_refcnt x =? 0) && (sl_locked (b_lock x) =? 0)) (k_bufs fresh_cache) = true)
    by (vm_compute; reflexivity).
  rewrite Hf in Hl, Hb. cbn in Hl. subst l. exists bufs. split_and!; [exact Hf|done|].
  intros b Hlt. rewrite forallb_forall in Hb. assert (Hin : In (bufs !!! b) bufs).
  { apply list_elem_of_In, list_elem_of_lookup_total_2. rewrite (ca_length _ Hok). lia. }
  specialize (Hb _ Hin). lia.
Qed.

Lemma before_binit_idle : idle 2 before_binit.
Proof.
  split; [|vm_compute; reflexivity..| |].
  - split; [apply Nat.ltb_lt; vm_compute; reflexivity|]. vm_compute. repeat split; discriminate.
  - intros lk _ _. apply lookup_empty.
  - intros ch i _. change (k_proc before_binit) with (replicate (Z.to_nat NPROC) zero_proc).
    rewrite list_lookup_total_alt. by destruct (_ !! i) as [y|] eqn:Hy; [apply lookup_replicate in Hy as [-> _]|].
Qed.

Lemma fresh_cache_cached : cached 2 1 fresh_cache (mk_acache (k_blocks fresh_cache) ∅ ∅).
Proof.
  destruct fresh_cache_eq as (bufs & -> & Hok & Hb). split; [apply idle_bufs, before_binit_idle|].
  by apply cache_rep_init.
Qed.

(** bread() of block 45 in it. *)
Lemma buffer_cache_refines_witness :
  runs (λ t, k_blocks t = k_blocks fresh_cache ∨ k_blocks t = k_blocks fresh_cache)
    (λ b t, cached 2 1 t (a_get 45 (mk_acache (k_blocks fresh_cache) ∅ ∅)) ∧ k_blocks t = k_blocks fresh_cache ∧
       is_buf 1 (k_bufs t) b 45 ∧
       (CRead 45 = CRead 45 → b_data (k_bufs t !!! b) = k_blocks fresh_cache 45) ∧
       keeps_bufs 1 (mk_acache (k_blocks fresh_cache) ∅ ∅) (k_bufs fresh_cache) (k_bufs t))
    (@bread 0%nat plain_disk 1 45 fresh_cache).
Proof.
  apply (@buffer_cache_refines 0%nat plain_disk plain_disk_sync 2 1 (CRead 45) 0 fresh_cache
    (mk_acache (k_blocks fresh_cache) ∅ ∅)); [done|exact fresh_cache_cached| |].
  - split_and!; [by apply not_elem_of_empty|by vm_compute|right; apply Nat.ltb_lt; by vm_compute].
  - intros H. by destruct H.
Defined.
