(* ===== verification/Log.v ===== *)
(** The redo log: kernel/log.c. *)

From Stdlib Require Import ZArith Lia ZifyBool.
From stdpp Require Import base numbers list gmap strings.
From S2P Require Import Prelude Params Machine Spinlock Printf Sched Sleeplock Bio.

Definition get_log : K log := gets (λ s, k_log s).
#[global] Hint Transparent get_log : kernel.
Definition upd_log (f : log → log) : K () := modify (λ s, set_log (f (k_log s)) s).

Lemma run_get_log s : get_log s = Ok (k_log s) s.
Proof. reflexivity. Qed.

Lemma run_upd_log f s : upd_log f s = Ok tt (set_log (f (k_log s)) s).
Proof. reflexivity. Qed.

(** [krun], with the accesses to the file system's tables. *)
Ltac fgo :=
  repeat (first [rewrite run_bind | rewrite run_ret | rewrite run_gets | rewrite run_modify
                | rewrite run_get_buf | rewrite run_upd_buf | rewrite run_get_inode | rewrite run_upd_inode
                | rewrite run_get_log | rewrite run_upd_log];
          cbn [obind]).

(** Words of a block: the [i]th uint of the data. *)
Definition word (data : list Z) (i : nat) : Z := le_value (slice (4 * i) 4 data).
Definition set_word (i : nat) (v : Z) (data : list Z) : list Z := splice (4 * i) (le_bytes 4 v) data.

(** log.lh.block[i] *)
Definition lh_block (i : Z) : K Z :=
  lg ← get_log;
  match lg_block lg !! Z.to_nat i with Some v => mret v | None => undefined end.

(** The loops over log.lh.block[] end before they leave the array. *)
Definition log_fuel : nat := Z.to_nat LOGBLOCKS + 2.

Definition begin_op_step : K (() + ()) :=
  lg ← get_log;
  if negb (lg_committing lg =? 0) then
    sleep Ch_log L_log;;
    mret (inl tt)
  else if LOGBLOCKS <? lg_n lg + (lg_outstanding lg + 1) * MAXOPBLOCKS then
    sleep Ch_log L_log;;
    mret (inl tt)
  else
    upd_log (λ lg, set_lg_outstanding (i32 (lg_outstanding lg + 1)) lg);;
    release L_log;;
    mret (inr tt).

Definition begin_op {W : Wakeups} : K () :=
  acquire L_log;;
  loop (S wakeups) (λ _, begin_op_step) tt.

(** The slot of log.lh.block[] that a block goes to: the one that already holds
    it, or the first free one. *)
Fixpoint log_slot (blocks : list Z) (n : nat) (blockno : Z) : nat :=
  match n, blocks with
  | S n, b :: blocks => if u32 b =? blockno then O else S (log_slot blocks n blockno)
  | _, _ => O
  end.

Definition log_write (b : nat) : K () :=
  acquire L_log;;
  lg ← get_log;
  if LOGBLOCKS <=? lg_n lg then panic "too big a transaction" else
  if lg_outstanding lg <? 1 then panic "log_write outside of trans" else
  x ← get_buf b;
  let i := log_slot (lg_block lg) (Z.to_nat (lg_n lg)) (b_blockno x) in
  upd_log (λ lg, set_lg_block (<[i := i32 (b_blockno x)]> (lg_block lg)) lg);;
  when (Z.of_nat i =? lg_n lg) (
    bpin b;;
    upd_log (λ lg, set_lg_n (i32 (lg_n lg + 1)) lg));;
  release L_log.

Section log.
Context {W : Wakeups} {BD : BlockDev}.

Definition install_trans_step (recovering : bool) (tail : Z) : K (Z + ()) :=
  lg ← get_log;
  if negb (tail <? lg_n lg) then mret (inr tt) else
  bno ← lh_block tail;
  when recovering
    (printf (str "recovering tail %d dst %d" ++ [10]) [AWord tail; AWord bno]);;
  lbuf ← bread (u32 (lg_dev lg)) (u32 (lg_start lg + tail + 1));
  bno ← lh_block tail;
  dbuf ← bread (u32 (lg_dev lg)) (u32 bno);
  x ← get_buf lbuf;
  upd_buf dbuf (set_b_data (b_data x));;
  bwrite dbuf;;
  when (negb recovering) (bunpin dbuf);;
  brelse lbuf;;
  brelse dbuf;;
  mret (inl (tail + 1)).

Definition install_trans (recovering : bool) : K () :=
  loop log_fuel (install_trans_step recovering) 0.

Definition read_head : K () :=
  lg ← get_log;
  b ← bread (u32 (lg_dev lg)) (u32 (lg_start lg));
  x ← get_buf b;
  upd_log (set_lg_n (i32 (word (b_data x) 0)));;
  loop log_fuel (λ i,
    lg ← get_log;
    if negb (i <? lg_n lg) then mret (inr tt) else
    x ← get_buf b;
    if LOGBLOCKS <=? i then undefined else
    upd_log (λ lg, set_lg_block (<[Z.to_nat i := i32 (word (b_data x) (Z.to_nat (i + 1)))]> (lg_block lg)) lg);;
    mret (inl (i + 1))) 0;;
  brelse b.

Definition write_head : K () :=
  lg ← get_log;
  b ← bread (u32 (lg_dev lg)) (u32 (lg_start lg));
  lg ← get_log;
  upd_buf b (λ x, set_b_data (set_word 0 (lg_n lg) (b_data x)) x);;
  loop log_fuel (λ i,
    lg ← get_log;
    if negb (i <? lg_n lg) then mret (inr tt) else
    bno ← lh_block i;
    upd_buf b (λ x, set_b_data (set_word (Z.to_nat (i + 1)) bno (b_data x)) x);;
    mret (inl (i + 1))) 0;;
  bwrite b;;
  brelse b.

Definition recover_from_log : K () :=
  read_head;;
  install_trans true;;
  upd_log (set_lg_n 0);;
  write_head.

(** sizeof(struct logheader) is 4 * (1 + LOGBLOCKS). *)
Definition initlog (dev : Z) : K () :=
  if BSIZE <=? 4 * (1 + LOGBLOCKS) then panic "initlog: too big logheader" else
  initlock L_log;;
  sb ← gets (λ s, k_sb s);
  upd_log (set_lg_start (i32 (sb_logstart sb)));;
  upd_log (set_lg_dev dev);;
  recover_from_log.

Definition write_log_step (tail : Z) : K (Z + ()) :=
  lg ← get_log;
  if negb (tail <? lg_n lg) then mret (inr tt) else
  to ← bread (u32 (lg_dev lg)) (u32 (lg_start lg + tail + 1));
  bno ← lh_block tail;
  from ← bread (u32 (lg_dev lg)) (u32 bno);
  x ← get_buf from;
  upd_buf to (set_b_data (b_data x));;
  bwrite to;;
  brelse from;;
  brelse to;;
  mret (inl (tail + 1)).

Definition write_log : K () := loop log_fuel write_log_step 0.

Definition commit : K () :=
  lg ← get_log;
  when (0 <? lg_n lg) (
    write_log;;
    write_head;;
    install_trans false;;
    upd_log (set_lg_n 0);;
    write_head).

Definition end_op : K () :=
  acquire L_log;;
  upd_log (λ lg, set_lg_outstanding (i32 (lg_outstanding lg - 1)) lg);;
  lg ← get_log;
  if negb (lg_committing lg =? 0) then panic "log.committing" else
  do_commit ← (if lg_outstanding lg =? 0 then
                 upd_log (set_lg_committing 1);;
                 mret true
               else
                 wakeup Ch_log;;
                 mret false);
  release L_log;;
  when do_commit (
    commit;;
    acquire L_log;;
    upd_log (set_lg_committing 0);;
    wakeup Ch_log;;
    release L_log).
End log.

(** ** The words of a block *)

Lemma set_word_length i v d : (4 * i + 4 ≤ length d)%nat → length (set_word i v d) = length d.
Proof. intros Hl. apply splice_length. rewrite le_bytes_length. lia. Qed.
