(* ===== verification/LogSpec.v ===== *)
(** The contract of kernel/log.c: a transaction reaches the disk as a whole or
    not at all, wherever the power fails, and recovery after a failure completes
    or discards it. *)

From Stdlib Require Import ZArith Lia ZifyBool.
From stdpp Require Import base numbers list gmap strings.
From S2P Require Import Prelude Params Machine Spinlock Printf Sched Sleeplock Idle Bio BufCache CacheSpec Log.

(** ** The on-disk log *)

(** The destinations named by the header block [d]. *)
Definition hdr_n (d : list Z) : Z := i32 (word d 0).
Definition hdr_block (d : list Z) (i : nat) : Z := u32 (i32 (word d (S i))).
Definition hdr_blocks (d : list Z) : list Z := hdr_block d <$> seq 0 (Z.to_nat (hdr_n d)).

(** Copy the [i]th and following log blocks of [B] to their places in [D]. *)
Fixpoint replay (start : Z) (B : Z → list Z) (i : Z) (bl : list Z) (D : Z → list Z) : Z → list Z :=
  match bl with
  | [] => D
  | bn :: bl => replay start B (i + 1) bl (put_block bn (B (start + i + 1)) D)
  end.

(** The file system that a disk stands for: its blocks, with the committed
    transaction in its log applied. *)
Definition recovered (start : Z) (B : Z → list Z) : Z → list Z := replay start B 0 (hdr_blocks (B start)) B.

(** Blocks outside the log. *)
Definition home (start bn : Z) : Prop := ¬ (start ≤ bn ≤ start + LOGBLOCKS).

(** The disk [B] stands for the file system [V]. *)
Definition stands_for (start : Z) (B V : Z → list Z) : Prop := ∀ bn, home start bn → recovered start B bn = V bn.

Lemma replay_other start B i bl D bn : bn ∉ bl → replay start B i bl D bn = D bn.
Proof.
  revert i D. induction bl as [|x bl IH]; intros i D Hn; [done|]. apply not_elem_of_cons in Hn as [Hx Hn].
  cbn. rewrite IH by done. by apply put_block_ne.
Qed.

Lemma replay_lookup start B i bl D k bn :
  NoDup bl → bl !! k = Some bn → replay start B i bl D bn = B (start + i + Z.of_nat k + 1).
Proof.
  revert i D k. induction bl as [|x bl IH]; intros i D k Hnd Hk; [done|]. apply NoDup_cons in Hnd as [Hx Hnd].
  destruct k as [|k]; cbn in Hk |- *.
  - injection Hk as ->. rewrite replay_other, put_block_eq by done. f_equal. lia.
  - rewrite (IH _ _ k) by done. f_equal. lia.
Qed.

Lemma replay_snoc start B i bl bn D :
  replay start B i (bl ++ [bn]) D = put_block bn (B (start + i + Z.of_nat (length bl) + 1)) (replay start B i bl D).
Proof.
  revert i D. induction bl as [|x bl IH]; intros i D; cbn.
  - do 2 f_equal. lia.
  - rewrite IH. do 2 f_equal. lia.
Qed.

(** A header with the blocks [bl]. *)
Definition header_is (d : list Z) (bl : list Z) : Prop := hdr_n d = Z.of_nat (length bl) ∧ hdr_blocks d = bl.

Lemma stands_for_empty start B V :
  header_is (B start) [] → (∀ bn, home start bn → B bn = V bn) → stands_for start B V.
Proof. intros [_ Hh] Hv bn Hb. unfold recovered. rewrite Hh. by apply Hv. Qed.

(** A committed log, with some of its blocks already at their places. *)
Lemma stands_for_log start B V bl :
  header_is (B start) bl → NoDup bl →
  (∀ bn, home start bn → bn ∉ bl → B bn = V bn) →
  (∀ k bn, bl !! k = Some bn → B (start + Z.of_nat k + 1) = V bn) → stands_for start B V.
Proof.
  intros [_ Hh] Hnd Hout Hin bn Hb. unfold recovered. rewrite Hh. destruct (decide (bn ∈ bl)) as [He|He].
  - apply list_elem_of_lookup in He as [k Hk]. rewrite (replay_lookup _ _ _ _ _ k) by done.
    rewrite <-(Hin k bn Hk). f_equal. lia.
  - rewrite replay_other by done. by apply Hout.
Qed.

(** ** The in-memory header *)

(** [lg] describes a transaction of the blocks [bl] in the log at [start]. *)
Record log_is (dev start : Z) (lg : log) (bl : list Z) : Prop := {
  li_dev : u32 (lg_dev lg) = dev;
  li_start : lg_start lg = start;
  li_n : lg_n lg = Z.of_nat (length bl);
  li_size : length (lg_block lg) = Z.to_nat LOGBLOCKS;
  li_blocks : take (length bl) (lg_block lg) = bl;
}.

(** A transaction that fits the log and the cache. *)
Record txn_ok (start : Z) (bl : list Z) : Prop := {
  tx_nodup : NoDup bl;
  tx_size : Z.of_nat (length bl) < NBUF;
  tx_home bn : bn ∈ bl → 0 ≤ bn < 2 ^ 31 ∧ home start bn;
}.

(** The log fits the disk's address range. *)
Definition log_range (start : Z) : Prop := 0 ≤ start ∧ start + LOGBLOCKS < 2 ^ 31.

Lemma lh_block_ok dev start bl k bn s :
  log_is dev start (k_log s) bl → bl !! k = Some bn → lh_block (Z.of_nat k) s = Ok bn s.
Proof.
  intros Hl Hk. unfold lh_block. fgo. rewrite Nat2Z.id.
  assert (E : lg_block (k_log s) !! k = Some bn); [|by rewrite E].
  rewrite <-Hk, <-(li_blocks _ _ _ _ Hl), lookup_take, decide_True; [done|].
  by eapply lookup_lt_Some.
Qed.

(** ** Header words *)

Lemma word_set_word i v d : (4 * i + 4 ≤ length d)%nat → 0 ≤ v < 2 ^ 32 → word (set_word i v d) i = v.
Proof.
  intros Hl Hv. unfold word, set_word.
  replace 4%nat with (length (le_bytes 4 v)) at 2 by apply le_bytes_length.
  rewrite slice_splice by (rewrite le_bytes_length; lia). by apply le_value_bytes.
Qed.

Lemma word_set_word_ne i j v d : i ≠ j → (4 * i + 4 ≤ length d)%nat → word (set_word i v d) j = word d j.
Proof.
  intros Hne Hl. unfold word, set_word. rewrite slice_splice_ne; [done|rewrite le_bytes_length; lia..].
Qed.

(** ** Reference counts *)

Lemma refs_set bn c a y : refs (set_refs bn c a) y = if y =? bn then c else refs a y.
Proof.
  destruct (Z.eqb_spec y bn) as [->|Hne]; [apply refs_set_eq|]. unfold refs. by rewrite set_refs_ne.
Qed.

Lemma refs_get bn a y : refs (a_get bn a) y = refs a y + (if y =? bn then 1 else 0).
Proof.
  change (refs (a_get bn a) y) with (refs (set_refs bn (refs a bn + 1) a) y). rewrite refs_set.
  destruct (Z.eqb_spec y bn) as [->|]; lia.
Qed.

Lemma refs_put bn a y : refs (a_put bn a) y = refs a y - (if y =? bn then 1 else 0).
Proof.
  change (refs (a_put bn a) y) with (refs (set_refs bn (refs a bn - 1) a) y). rewrite refs_set.
  destruct (Z.eqb_spec y bn) as [->|]; lia.
Qed.

Lemma refs_view bn d a y : refs (set_view bn d a) y = refs a y.
Proof. done. Qed.

Lemma held_get bn a y : y ∈ ac_held (a_get bn a) ↔ y = bn ∨ y ∈ ac_held a.
Proof. cbn. by rewrite elem_of_union, elem_of_singleton. Qed.

Lemma held_put bn a y : y ∈ ac_held (a_put bn a) ↔ y ≠ bn ∧ y ∈ ac_held a.
Proof. cbn. rewrite elem_of_difference, elem_of_singleton. tauto. Qed.

Lemma in_use a bn : refs a bn ≠ 0 → is_Some (ac_refs a !! bn).
Proof. unfold refs. intros H. destruct (ac_refs a !! bn); [by eexists|by destruct H]. Qed.

(** Goals on reference counts. *)
Ltac counts :=
  repeat rewrite ?refs_put, ?refs_get, ?refs_set, ?refs_view;
  repeat match goal with Hr : ∀ y, refs _ y = _ |- _ => rewrite !Hr; clear Hr end;
  repeat match goal with |- context [?x =? ?y] => destruct (Z.eqb_spec x y) end;
  repeat case_bool_decide; subst; first [lia|done].

(** ** Between the calls of a transaction *)

Section spec.
Context {W : Wakeups} {BD : BlockDev} {SD : SyncDisk}.
Context (me : nat) (dev start : Z) (Hdev : dev ≠ 0) (Hstart : log_range start).
Context (C : (Z → list Z) → Prop).
Implicit Types (s t : kstate) (a : acache) (V B : Z → list Z) (ps bl : list Z).

Abbreviation crash := (λ s, C (k_blocks s)).

(** No buffer is locked, the blocks [ps] are pinned once, the contents of the
    blocks are [V] and the disk is [B]; no spinlock is held by this CPU, and log.lock is free. *)
Record at_rest s ps V B : Prop := {
  ar_cache : ∃ a, cached me dev s a ∧ (∀ y, refs a y = if bool_decide (y ∈ ps) then 1 else 0) ∧
    (∀ y, y ∉ ac_held a) ∧ ac_view a = V;
  ar_blocks : k_blocks s = B;
  ar_lock : k_locks s !! L_log = None;
  ar_noff : c_noff (cur_cpu s) = 0;
}.

Lemma at_rest_clean s ps V B bn : at_rest s ps V B → bn ∉ ps → V bn = B bn.
Proof using Type.
  intros [(a & [_ HR] & Hr & _ & <-) <- _ _] Hn. apply (cr_clean _ _ _ _ _ HR). specialize (Hr bn).
  rewrite bool_decide_false in Hr by done. destruct (ac_refs a !! bn) as [c|] eqn:E; [|done].
  pose proof (cr_count _ _ _ _ _ HR _ _ E). unfold refs in Hr. rewrite E in Hr. cbn in Hr. lia.
Qed.

(** The number of buffers in use. *)
Lemma in_use_size s l a :
  cached me dev s a → (∀ y, refs a y ≠ 0 → y ∈ l) → (size (ac_refs a) ≤ length l)%nat.
Proof using Type.
  intros [_ HR] Hr. rewrite <-size_dom. assert (Hsub : dom (ac_refs a) ⊆ list_to_set l).
  { intros y [c Hc]%elem_of_dom. apply elem_of_list_to_set, Hr.
    pose proof (cr_count _ _ _ _ _ HR _ _ Hc). unfold refs. rewrite Hc. cbn. lia. }
  apply subseteq_size in Hsub. etrans; [exact Hsub|]. clear. induction l as [|p ps IH]; [done|].
  cbn. pose proof (size_union_alt {[p]} (list_to_set (C := gset Z) ps)) as H. rewrite H, size_singleton.
  pose proof (subseteq_size (list_to_set (C := gset Z) ps ∖ {[p]}) (list_to_set ps) ltac:(by intros y [? _]%elem_of_difference)). lia.
Qed.

Lemma at_rest_size s ps a :
  cached me dev s a → (∀ y, refs a y = if bool_decide (y ∈ ps) then 1 else 0) → (size (ac_refs a) ≤ length ps)%nat.
Proof using Type. intros Hc Hr. apply (in_use_size s); [done|]. intros y. rewrite Hr. by case_bool_decide. Qed.

(** A change of the state outside the cache and the disk. *)
Lemma at_rest_same s t ps V B :
  same_procs s t → k_bufs t = k_bufs s → k_blocks t = k_blocks s → at_rest s ps V B → at_rest t ps V B.
Proof using Type.
  intros Hp Hb Hd [(a & [Hi HR] & Ha) HB Hlk Hno]. split; [|congruence|by destruct Hp as [(_ & _ & ->) _]|].
  2:{ destruct Hp as [(E1 & E2 & _) _]. unfold cur_cpu in *. by rewrite E1, E2. }
  exists a. split; [|done].
  split; [by eapply idle_same|]. unfold my_pid. destruct Hp as [_ ->]. by rewrite Hb, Hd.
Qed.

(** bread() that allocates a buffer, when the cache is not full. *)
Lemma bread_new s a bn :
  cached me dev s a → bn ∉ ac_held a → refs a bn = 0 → (size (ac_refs a) < Z.to_nat NBUF)%nat → C (k_blocks s) →
  runs crash (λ b t, ∃ bufs, t = set_bufs bufs s ∧ cached me dev t (a_get bn a) ∧
      is_buf dev bufs b bn ∧ b_data (bufs !!! b) = ac_view a bn ∧ keeps_bufs dev a (k_bufs s) bufs)
    (bread dev bn s).
Proof using Hdev SD. intros Hc Hh Hr Hs HC. apply bread_ok; try done; [lia|by right]. Qed.

Lemma bread_pinned s a bn :
  cached me dev s a → bn ∉ ac_held a → refs a bn = 1 → C (k_blocks s) →
  runs crash (λ b t, ∃ bufs, t = set_bufs bufs s ∧ cached me dev t (a_get bn a) ∧
      is_buf dev bufs b bn ∧ b_data (bufs !!! b) = ac_view a bn ∧ keeps_bufs dev a (k_bufs s) bufs)
    (bread dev bn s).
Proof using Hdev SD. intros Hc Hh Hr HC. apply bread_ok; try done; [lia|left; apply in_use; lia]. Qed.

(** Log blocks are not among the blocks of a transaction. *)
Lemma log_block_new bl k :
  txn_ok start bl → (k < length bl)%nat → (start + Z.of_nat k + 1 ∉ bl) ∧ u32 (start + Z.of_nat k + 1) = start + Z.of_nat k + 1.
Proof using Hstart.
  intros Ht Hk. pose proof (tx_size _ _ Ht) as Hs. destruct Hstart as [H1 H2]. unfold NBUF, LOGBLOCKS, MAXOPBLOCKS in *. split.
  - intros [_ Hh]%(tx_home _ _ Ht). apply Hh. unfold LOGBLOCKS, MAXOPBLOCKS. lia.
  - apply u32_small. lia.
Qed.

(** One round of write_log(). *)
Lemma write_log_step_ok s k bn bl V B :
  at_rest s bl V B → log_is dev start (k_log s) bl → txn_ok start bl → bl !! k = Some bn →
  let x := start + Z.of_nat k + 1 in
  C B → C (put_block x (V bn) B) →
  runs crash (λ r t, r = inl (Z.of_nat k + 1) ∧ at_rest t bl (put_block x (V bn) V) (put_block x (V bn) B) ∧
      k_log t = k_log s) (write_log_step (Z.of_nat k) s).
Proof using Hdev Hstart SD.
  intros [(a & Hc & Hr & Hh & Hv) HB Hlk Hno] Hl Ht Hk x HC1 HC2. pose proof (lookup_lt_Some _ _ _ Hk) as Hlt.
  destruct (log_block_new bl k Ht Hlt) as [Hx Hux]. fold x in Hx. unfold write_log_step. fgo.
  rewrite (li_n _ _ _ _ Hl), (li_start _ _ _ _ Hl), (li_dev _ _ _ _ Hl), Hux. fold x.
  replace (Z.of_nat k <? Z.of_nat (length bl)) with true by lia. cbn [negb].
  assert (Hbn : bn ∈ bl) by (by eapply list_elem_of_lookup_2). destruct (tx_home _ _ Ht bn Hbn) as [Hrange _].
  assert (Hne : x ≠ bn) by (by intros ->).
  eapply runs_bind; [apply (bread_new s a x Hc); [done|by rewrite Hr, bool_decide_false| |by rewrite HB]|].
  { pose proof (at_rest_size s bl a Hc Hr). pose proof (tx_size _ _ Ht). lia. }
  intros to_ t1 (bufs1 & -> & Hc1 & Hto & Hd1 & _).
  rewrite run_bind, (lh_block_ok dev start bl k bn) by done. cbn [obind]. rewrite u32_small by lia.
  eapply runs_bind; [apply (bread_pinned _ _ bn Hc1)|].
  { rewrite held_get. intros [->|?]; [done|by eapply Hh]. }
  { counts. }
  { by rewrite <-HB in HC1. }
  intros from t2 (bufs2 & -> & Hc2 & Hfrom & Hd2 & Hk2). fgo. cbn [set_bufs k_bufs].
  assert (Hto2 : is_buf dev bufs2 to_ x).
  { apply Hk2; [|done]. apply in_use. counts. }
  set (u := set_bufs bufs2 _) in *. rewrite Hd2. cbn [ac_view a_get hold set_refs]. rewrite Hv.
  assert (Hxh : x ∈ ac_held (a_get bn (a_get x a))) by (rewrite !held_get; tauto).
  destruct (write_data_ok me dev Hdev u _ to_ x (V bn) Hc2 Hxh Hto2) as [Hc3 Hid3]. cbn zeta in Hc3, Hid3.
  set (u3 := set_bufs (alter _ to_ _) _) in *. set (a3 := set_view x (V bn) (a_get bn (a_get x a))) in *.
  eapply runs_bind; [apply (bwrite_ok me dev Hdev C u3 a3 to_ x Hc3)|].
  { exact Hxh. } { by apply Hid3. } { change (k_blocks u3) with (k_blocks s). by rewrite HB. }
  { change (k_blocks u3) with (k_blocks s). rewrite HB. cbn. by rewrite put_block_eq. }
  intros _ t4 [-> Hc4]. cbn [ac_view a3 set_view] in Hc4 |- *. rewrite put_block_eq in Hc4 |- *.
  change (k_blocks u3) with (k_blocks s) in Hc4 |- *. rewrite HB in Hc4 |- *.
  set (u4 := set_blocks _ u3) in *.
  rewrite run_bind. destruct (brelse_ok me dev Hdev u4 a3 from bn Hc4) as (bufs5 & -> & Hc5 & Hid5).
  { unfold a3. cbn [set_view ac_held]. rewrite held_get. tauto. } { by apply Hid3. }
  { unfold a3. counts. }
  cbn [obind]. rewrite run_bind. destruct (brelse_ok me dev Hdev _ _ to_ x Hc5) as (bufs6 & -> & Hc6 & Hid6).
  { rewrite held_put. by split. } { by apply Hid5, Hid3. }
  { intros _. cbn. by rewrite !put_block_eq. }
  cbn [obind mret M_ret runs]. split_and!; [done| |done]. split; [|done..].
  exists (a_put x (a_put bn a3)). split_and!; [done| | |].
  - intros y. unfold a3. counts.
  - intros y. rewrite !held_put. unfold a3. cbn [set_view ac_held]. rewrite !held_get. intros (?&?&[?|[?|?]]); try done. by eapply Hh.
  - cbn. by rewrite Hv.
Qed.

(** The disks agree outside the data blocks of the log. *)
Definition same_but_log B B' : Prop := (∀ bn, home start bn → B' bn = B bn) ∧ B' start = B start.

Lemma write_log_ok s bl V B :
  at_rest s bl V B → log_is dev start (k_log s) bl → txn_ok start bl →
  (∀ B', same_but_log B B' → C B') →
  runs crash (λ _ t, ∃ V' B', at_rest t bl V' B' ∧ k_log t = k_log s ∧ same_but_log B B' ∧
      (∀ bn, home start bn → V' bn = V bn) ∧
      ∀ j bn, bl !! j = Some bn → B' (start + Z.of_nat j + 1) = V bn) (write_log s).
Proof using Hdev Hstart SD.
  intros Ha Hl Ht HC. pose proof (tx_size _ _ Ht) as Hn.
  set (P := λ (tail : Z) t, ∃ k V' B', tail = Z.of_nat k ∧ (k ≤ length bl)%nat ∧ at_rest t bl V' B' ∧
    k_log t = k_log s ∧ same_but_log B B' ∧ (∀ bn, home start bn → V' bn = V bn) ∧
    ∀ j bn, (j < k)%nat → bl !! j = Some bn → B' (start + Z.of_nat j + 1) = V bn).
  eapply (runs_loop crash P _ (λ tail, (length bl - Z.to_nat tail)%nat)).
  - intros tail t (k & V' & B' & -> & Hk & Ht' & Hlg & HB & HV & Hj).
    destruct (decide (k = length bl)) as [->|Hne].
    { unfold write_log_step. fgo. rewrite Hlg, (li_n _ _ _ _ Hl), Z.ltb_irrefl. cbn. exists V', B'. split_and!; try done.
      intros j bn Hb. apply Hj; [by eapply lookup_lt_Some|done]. }
    destruct (lookup_lt_is_Some_2 bl k) as [bn Hb]; [lia|].
    assert (Hbn : home start bn) by (eapply (tx_home _ _ Ht), list_elem_of_lookup_2, Hb).
    assert (Hput : same_but_log B (put_block (start + Z.of_nat k + 1) (V' bn) B')).
    { split; [|rewrite put_block_ne by lia; apply HB]. intros y Hy. rewrite put_block_ne; [by apply HB|].
      intros ->. apply Hy. unfold LOGBLOCKS, NBUF in *. lia. }
    eapply runs_mono; [apply (write_log_step_ok t k bn bl V' B')|done|]; try done; [by rewrite Hlg|by apply HC|by apply HC|].
    intros r u (-> & Hu & Hlu). cbn beta iota. split; [|lia]. eexists (S k), _, _.
    split_and!; [lia|lia|exact Hu|congruence|done| |].
    + intros y Hy. rewrite put_block_ne; [by apply HV|]. intros ->. apply Hy. unfold LOGBLOCKS, NBUF in *. lia.
    + intros j y Hjk Hjy. destruct (decide (j = k)) as [->|Hjk'].
      * rewrite put_block_eq. replace y with bn by congruence. by apply HV.
      * rewrite put_block_ne by lia. apply Hj; [lia|done].
  - exists O, V, B. split_and!; try done; lia.
  - unfold log_fuel, NBUF, LOGBLOCKS in *. lia.
Qed.

(** Header words are assigned one by one to the locked buffer of block [start]. *)
Lemma set_data_ok s a b bn f :
  cached me dev s a → bn ∈ ac_held a → is_buf dev (k_bufs s) b bn →
  ∃ t, upd_buf b (λ x, set_b_data (f (b_data x)) x) s = Ok tt t ∧ cached me dev t (set_view bn (f (ac_view a bn)) a) ∧
    k_log t = k_log s ∧ k_blocks t = k_blocks s ∧ same_procs s t ∧
    ∀ b' bn', is_buf dev (k_bufs t) b' bn' ↔ is_buf dev (k_bufs s) b' bn'.
Proof using Hdev.
  intros Hc Hh Hb. destruct (write_data_ok me dev Hdev s a b bn (f (ac_view a bn)) Hc Hh Hb) as [Hc' Hid].
  destruct (held_buf me dev s a b bn Hc Hh Hb) as (Hlt & _ & _ & Hd & _). cbn zeta in *.
  eexists. split; [|by split_and!]. rewrite run_upd_buf. do 2 f_equal.
  apply list_alter_ext; [|done]. intros x Hx. apply list_lookup_total_correct in Hx. subst x. by rewrite Hd.
Qed.

(** A header in the making: the count and the first [k] blocks are in place. *)
Definition header_upto (d bl : list Z) (k : nat) : Prop :=
  (4 * Z.to_nat (1 + LOGBLOCKS) ≤ length d)%nat ∧ word d 0 = Z.of_nat (length bl) ∧
  ∀ j bn, (j < k)%nat → bl !! j = Some bn → word d (S j) = bn.

Lemma header_upto_start d bl :
  txn_ok start bl → (4 * Z.to_nat (1 + LOGBLOCKS) ≤ length d)%nat →
  header_upto (set_word 0 (Z.of_nat (length bl)) d) bl 0.
Proof using Type.
  intros Ht Hd. pose proof (tx_size _ _ Ht).
  assert (Hl : (4 ≤ length d)%nat) by (unfold LOGBLOCKS, MAXOPBLOCKS in *; lia).
  split_and!; [rewrite set_word_length by lia; lia| |lia].
  apply word_set_word; unfold NBUF, MAXOPBLOCKS in *; lia.
Qed.

Lemma header_upto_step d bl k bn :
  txn_ok start bl → header_upto d bl k → bl !! k = Some bn → header_upto (set_word (S k) bn d) bl (S k).
Proof using Type.
  intros Ht (Hd & H0 & Hj) Hk. pose proof (tx_size _ _ Ht). pose proof (lookup_lt_Some _ _ _ Hk).
  assert (Hl : (4 * S k + 4 ≤ length d)%nat) by (unfold NBUF, LOGBLOCKS, MAXOPBLOCKS in *; lia).
  destruct (tx_home _ _ Ht bn (list_elem_of_lookup_2 _ _ _ Hk)) as [Hbn _].
  split_and!; [rewrite set_word_length by lia; lia|by rewrite word_set_word_ne|].
  intros j y Hjk Hy. destruct (decide (j = k)) as [->|Hne].
  - replace y with bn by congruence. apply word_set_word; lia.
  - rewrite word_set_word_ne by lia. apply Hj; [lia|done].
Qed.

Lemma header_upto_is d bl : txn_ok start bl → header_upto d bl (length bl) → header_is d bl.
Proof using Type.
  intros Ht (Hd & H0 & Hj). pose proof (tx_size _ _ Ht). unfold header_is, hdr_blocks, hdr_n.
  rewrite H0, i32_small by (unfold NBUF, MAXOPBLOCKS in *; lia). rewrite Nat2Z.id. split; [done|].
  apply list_eq. intros i. rewrite list_lookup_fmap. destruct (decide (i < length bl)%nat) as [Hi|Hi].
  - rewrite lookup_seq_lt by done. destruct (lookup_lt_is_Some_2 bl i Hi) as [bn Hb]. rewrite Hb. cbn. f_equal.
    unfold hdr_block. rewrite (Hj i bn) by done. destruct (tx_home _ _ Ht bn (list_elem_of_lookup_2 _ _ _ Hb)) as [Hbn _].
    rewrite i32_small, u32_small by lia. done.
  - rewrite lookup_seq_ge by lia. by rewrite lookup_ge_None_2 by lia.
Qed.

(** The caches [a] and [a'] differ at most in the contents of block [start]. *)
Definition same_but_header a a' : Prop :=
  ac_refs a' = ac_refs a ∧ ac_held a' = ac_held a ∧ ∀ y, y ≠ start → ac_view a' y = ac_view a y.

(** The loop of write_head() fills the locked buffer of the header. *)
Lemma write_head_loop s a b bl :
  cached me dev s a → start ∈ ac_held a → is_buf dev (k_bufs s) b start →
  log_is dev start (k_log s) bl → txn_ok start bl → header_upto (ac_view a start) bl 0 →
  runs crash (λ _ t, ∃ a', cached me dev t a' ∧ same_but_header a a' ∧ k_log t = k_log s ∧ k_blocks t = k_blocks s ∧
      same_procs s t ∧ is_buf dev (k_bufs t) b start ∧ header_upto (ac_view a' start) bl (length bl))
    (loop log_fuel (λ i,
      lg ← get_log;
      if negb (i <? lg_n lg) then mret (inr tt) else
      bno ← lh_block i;
      upd_buf b (λ x, set_b_data (set_word (Z.to_nat (i + 1)) bno (b_data x)) x);;
      mret (inl (i + 1))) 0 s).
Proof using Hdev.
  intros Hc Hh Hb Hl Ht Hd. pose proof (tx_size _ _ Ht) as Hn.
  set (P := λ (i : Z) t, ∃ k a', i = Z.of_nat k ∧ (k ≤ length bl)%nat ∧ cached me dev t a' ∧ same_but_header a a' ∧
    k_log t = k_log s ∧ k_blocks t = k_blocks s ∧ same_procs s t ∧ is_buf dev (k_bufs t) b start ∧
    header_upto (ac_view a' start) bl k).
  eapply (runs_loop crash P _ (λ i, (length bl - Z.to_nat i)%nat)).
  - intros i t (k & a' & -> & Hk & Hc' & Hs & Hlg & HB & Hlk & Hb' & Hup). fgo. rewrite Hlg, (li_n _ _ _ _ Hl).
    destruct (decide (k = length bl)) as [->|Hne].
    { rewrite Z.ltb_irrefl. cbn. exists a'. split_and!; done. }
    destruct (lookup_lt_is_Some_2 bl k) as [bn Hbn]; [lia|].
    replace (Z.of_nat k <? Z.of_nat (length bl)) with true by lia. cbn [negb].
    rewrite run_bind, (lh_block_ok dev start bl k bn) by (by rewrite ?Hlg). cbn [obind]. rewrite run_bind.
    destruct (set_data_ok t a' b start (set_word (Z.to_nat (Z.of_nat k + 1)) bn)) as (u & -> & Hcu & H1 & H2 & H4 & H3); [done| |done|].
    { destruct Hs as (_ & -> & _). done. }
    cbn [obind mret M_ret runs]. split; [|lia]. eexists (S k), _. split_and!; [lia|lia|exact Hcu| |congruence|congruence|by eapply same_procs_trans|by apply H3|].
    + destruct Hs as (E1 & E2 & E3). split_and!; [done|done|]. intros y Hy. cbn. rewrite put_block_ne by done. by apply E3.
    + cbn. rewrite put_block_eq. replace (Z.to_nat (Z.of_nat k + 1)) with (S k) by lia. by apply header_upto_step.
  - exists O, a. split_and!; try done. lia.
  - unfold log_fuel, NBUF, LOGBLOCKS in *. lia.
Qed.

Lemma write_head_ok s ps bl V B :
  at_rest s ps V B → (start ∉ ps) → Z.of_nat (length ps) < NBUF →
  log_is dev start (k_log s) bl → txn_ok start bl → (4 * Z.to_nat (1 + LOGBLOCKS) ≤ length (B start))%nat →
  C B → (∀ d, header_is d bl → C (put_block start d B)) →
  runs crash (λ _ t, ∃ V' d, at_rest t ps V' (put_block start d B) ∧ k_log t = k_log s ∧ header_is d bl ∧
      (4 * Z.to_nat (1 + LOGBLOCKS) ≤ length d)%nat) (write_head s).
Proof using Hdev Hstart SD.
  intros Ha Hps Hsz Hl Ht Hd HC1 HC2. pose proof (at_rest_clean _ _ _ _ start Ha Hps) as Hclean.
  destruct Ha as [(a & Hc & Hr & Hh & Hv) HB Hlk Hno]. unfold write_head. fgo.
  rewrite (li_dev _ _ _ _ Hl), (li_start _ _ _ _ Hl), u32_small by (destruct Hstart; unfold LOGBLOCKS, MAXOPBLOCKS in *; lia).
  eapply runs_bind; [apply (bread_new s a start Hc); [done|by rewrite Hr, bool_decide_false| |by rewrite HB]|].
  { pose proof (at_rest_size s ps a Hc Hr). lia. }
  intros b t1 (bufs1 & -> & Hc1 & Hb1 & Hd1 & _). rewrite run_bind, run_get_log. cbn [obind].
  rewrite run_bind. change (k_log (set_bufs bufs1 s)) with (k_log s). rewrite (li_n _ _ _ _ Hl).
  assert (Hst : start ∈ ac_held (a_get start a)) by (rewrite held_get; by left).
  destruct (set_data_ok _ _ b start (set_word 0 (Z.of_nat (length bl))) Hc1 Hst Hb1) as (u & Hu & Hc2 & Hlu & HBu & Hku & Hidu).
  rewrite Hu. cbn [obind]. clear Hu.
  eapply runs_bind; [apply (write_head_loop u _ b bl Hc2 Hst)|].
  { by apply Hidu. } { by rewrite Hlu. } { done. }
  { cbn. rewrite put_block_eq, Hv, Hclean. by apply header_upto_start. }
  intros _ t (a3 & Hc3 & (E1 & E2 & E3) & Hl3 & HB3 & Hk3 & Hb3 & Hup).
  pose proof (header_upto_is _ _ Ht Hup) as Hhd.
  assert (Hst3 : start ∈ ac_held a3) by (by rewrite E2).
  assert (HBt : k_blocks t = B) by (rewrite HB3, HBu; exact HB).
  eapply runs_bind; [apply (bwrite_ok me dev Hdev C t a3 b start Hc3 Hst3 Hb3)|].
  { by rewrite HBt. } { rewrite HBt. by apply HC2. }
  intros _ t4 [-> Hc4]. rewrite HBt in *.
  destruct (brelse_ok me dev Hdev _ a3 b start Hc4 Hst3 Hb3) as (bufs5 & -> & Hc5 & _); [cbn; by rewrite put_block_eq|].
  cbn [runs]. exists (ac_view a3), (ac_view a3 start). split_and!; [|cbn; by rewrite Hl3, Hlu|done|apply Hup].
  assert (Hsp : same_procs s t) by (by eapply same_procs_trans, Hk3).
  destruct Hsp as [(P1 & P2 & P3) P4].
  split; [|done|cbn; by rewrite P3|unfold cur_cpu in *; cbn; by rewrite P1, P2]. exists (a_put start a3). split_and!; [done| | |done].
  - assert (Hr3 : ∀ y, refs a3 y = refs (a_get start a) y) by (intros y; unfold refs; by rewrite E1).
    intros y. rewrite refs_put, Hr3, refs_get, Hr. lia.
  - intros y. rewrite held_put, E2. cbn [set_view ac_held]. rewrite held_get. intros [? [?|?]]; [done|by eapply Hh].
Qed.

(** ps without the pin that installing [bn] removes. *)
Definition unpinned (recovering : bool) (bn : Z) (ps ps' : list Z) : Prop :=
  if recovering then (bn ∉ ps) ∧ ps' = ps ∧ Z.of_nat (length ps) < NBUF - 1
  else bn ∈ ps ∧ (∀ y, y ∈ ps' ↔ y ∈ ps ∧ y ≠ bn) ∧ Z.of_nat (length ps) < NBUF.

Lemma unpinned_count bn ps ps' y :
  bn ∈ ps → (∀ y, y ∈ ps' ↔ y ∈ ps ∧ y ≠ bn) →
  (if bool_decide (y ∈ ps') then 1 else 0) = (if bool_decide (y ∈ ps) then 1 else 0) - (if y =? bn then 1 else 0).
Proof using Type.
  intros H1 H2. specialize (H2 y). destruct (Z.eqb_spec y bn) as [->|Hne].
  - rewrite (bool_decide_true (bn ∈ ps)), bool_decide_false by tauto. done.
  - rewrite (bool_decide_ext (y ∈ ps') (y ∈ ps)) by tauto. lia.
Qed.

(** The unpinning of install_trans(). *)
Lemma unpin_step (recovering : bool) s a b bn :
  cached me dev s a → bn ∈ ac_held a → is_buf dev (k_bufs s) b bn → (recovering = false → 1 < refs a bn) →
  ∃ bufs, when (negb recovering) (bunpin b) s = Ok tt (set_bufs bufs s) ∧
    cached me dev (set_bufs bufs s) (if recovering then a else set_refs bn (refs a bn - 1) a) ∧
    ∀ b' bn', is_buf dev bufs b' bn' ↔ is_buf dev (k_bufs s) b' bn'.
Proof using Hdev.
  intros Hc Hh Hb Hr. destruct recovering; cbn [negb when]; [|by apply bunpin_ok; auto].
  exists (k_bufs s). split_and!; [done|done|done].
Qed.

(** Reading the log block and the destination. *)
Lemma install_reads {A} recovering s a ps ps' bl k x bn (f : nat → nat → K A) Q :
  cached me dev s a → (∀ y, refs a y = if bool_decide (y ∈ ps) then 1 else 0) → (∀ y, y ∉ ac_held a) →
  log_is dev start (k_log s) bl → bl !! k = Some bn → 0 ≤ bn < 2 ^ 31 →
  (x ∉ ps) → x ≠ bn → unpinned recovering bn ps ps' → C (k_blocks s) →
  (∀ lbuf dbuf bufs, cached me dev (set_bufs bufs s) (a_get bn (a_get x a)) → is_buf dev bufs lbuf x →
     is_buf dev bufs dbuf bn → b_data (bufs !!! lbuf) = ac_view a x → runs crash Q (f lbuf dbuf (set_bufs bufs s))) →
  runs crash Q ((lbuf ← bread dev x; bno ← lh_block (Z.of_nat k); dbuf ← bread dev (u32 bno); f lbuf dbuf) s).
Proof using Hdev SD.
  intros Hc Hr Hh Hl Hk Hbn Hx Hne Hun HC Hf. pose proof (at_rest_size s ps a Hc Hr) as Hsz.
  assert (Hlen : Z.of_nat (length ps) < NBUF) by (unfold unpinned in Hun; destruct recovering; lia).
  eapply runs_bind; [apply (bread_new s a x Hc); [done|by rewrite Hr, bool_decide_false|lia|done]|].
  intros lbuf t1 (bufs1 & -> & Hc1 & Hlb & Hd1 & _).
  assert (Hnh : bn ∉ ac_held (a_get x a)) by (rewrite held_get; intros [->|?]; [done|by eapply Hh]).
  rewrite run_bind, (lh_block_ok dev start bl k bn) by done. cbn [obind]. rewrite u32_small by lia.
  eapply runs_bind.
  { apply (bread_ok me dev Hdev C _ _ bn Hc1 Hnh); [counts| |exact HC]. unfold unpinned in Hun. destruct recovering.
    - right. pose proof (in_use_size _ (x :: ps) _ Hc1) as H. cbn [length] in H.
      assert (size (ac_refs (a_get x a)) ≤ S (length ps))%nat; [|lia]. apply H. intros y Hy.
      rewrite refs_get, Hr in Hy. apply elem_of_cons. destruct (Z.eqb_spec y x) as [E|E]; [by left|right].
      case_bool_decide; [done|lia].
    - left. apply in_use. destruct Hun as (? & _). counts. }
  intros dbuf t2 (bufs2 & -> & Hc2 & Hdb & Hd2 & Hk2).
  assert (Hlb2 : is_buf dev bufs2 lbuf x) by (apply Hk2; [apply in_use; counts|done]).
  apply (Hf lbuf dbuf bufs2); try done.
  destruct (held_buf me dev _ _ lbuf x Hc2 ltac:(rewrite !held_get; tauto) Hlb2) as (_ & _ & _ & E & _). exact E.
Qed.

(** One round of install_trans(), after the message. *)
Lemma install_step_ok (recovering : bool) s ps ps' bl k bn V B :
  at_rest s ps V B → log_is dev start (k_log s) bl → txn_ok start bl → bl !! k = Some bn →
  let x := start + Z.of_nat k + 1 in
  (x ∉ ps) → unpinned recovering bn ps ps' → C B → C (put_block bn (V x) B) →
  runs crash (λ r t, r = inl (Z.of_nat k + 1) ∧ at_rest t ps' (put_block bn (V x) V) (put_block bn (V x) B) ∧ k_log t = k_log s)
    ((lbuf ← bread dev x; bno ← lh_block (Z.of_nat k); dbuf ← bread dev (u32 bno);
      y ← get_buf lbuf; upd_buf dbuf (set_b_data (b_data y));; bwrite dbuf;;
      when (negb recovering) (bunpin dbuf);; brelse lbuf;; brelse dbuf;; mret (inl (A := Z) (B := ()) (Z.of_nat k + 1))) s).
Proof using Hdev Hstart SD.
  intros Ha Hl Ht Hk x Hx Hun HC1 HC2. pose proof (at_rest_clean _ _ _ _ x Ha Hx) as Hclean.
  destruct Ha as [(a & Hc & Hr & Hh & Hv) HB Hlk Hno]. pose proof (list_elem_of_lookup_2 _ _ _ Hk) as Hin.
  destruct (log_block_new bl k Ht (lookup_lt_Some _ _ _ Hk)) as [Hxb _]. fold x in Hxb.
  destruct (tx_home _ _ Ht bn Hin) as [Hbn _]. assert (Hne : x ≠ bn) by (by intros ->).
  apply (install_reads recovering s a ps ps' bl k x bn); try done; [by rewrite HB|].
  intros lbuf dbuf bufs Hc2 Hlb Hdb Hd. fgo. cbn [k_bufs set_bufs]. rewrite Hd, Hv.
  set (u := set_bufs bufs s) in *. set (a2 := a_get bn (a_get x a)) in *.
  assert (Hbh : bn ∈ ac_held a2) by (unfold a2; rewrite held_get; tauto).
  assert (Hxh : x ∈ ac_held a2) by (unfold a2; rewrite !held_get; tauto).
  destruct (write_data_ok me dev Hdev u a2 dbuf bn (V x) Hc2 Hbh Hdb) as [Hc3 Hid3]. cbn zeta in Hc3, Hid3.
  change (k_bufs u) with bufs in Hc3, Hid3. set (u3 := set_bufs (alter _ dbuf bufs) u) in *. set (a3 := set_view bn (V x) a2) in *.
  eapply runs_bind; [apply (bwrite_ok me dev Hdev C u3 a3 dbuf bn Hc3 Hbh)|].
  { by apply Hid3. } { change (k_blocks u3) with (k_blocks s). by rewrite HB. }
  { change (k_blocks u3) with (k_blocks s). rewrite HB. cbn. by rewrite put_block_eq. }
  intros _ t4 [-> Hc4]. cbn [ac_view a3 set_view] in Hc4 |- *. rewrite put_block_eq in Hc4 |- *.
  change (k_blocks u3) with (k_blocks s) in Hc4 |- *. rewrite HB in Hc4 |- *. set (u4 := set_blocks _ u3) in *.
  rewrite run_bind. destruct (unpin_step recovering u4 a3 dbuf bn Hc4 Hbh) as (bufs5 & -> & Hc5 & Hid5).
  { by apply Hid3. } { intros ->. destruct Hun as (? & _). unfold a3, a2. counts. }
  cbn [obind]. set (a5 := if recovering then a3 else _) in *. set (u5 := set_bufs bufs5 u4) in *.
  assert (Hheld5 : ac_held a5 = ac_held a2) by (unfold a5; by destruct recovering).
  assert (Hview5 : ac_view a5 = put_block bn (V x) V) by (unfold a5, a3, a2; destruct recovering; cbn; by rewrite Hv).
  rewrite run_bind. destruct (brelse_ok me dev Hdev u5 a5 lbuf x Hc5) as (bufs6 & -> & Hc6 & Hid6).
  { by rewrite Hheld5. } { by apply Hid5, Hid3. }
  { intros _. rewrite Hview5. cbn. by rewrite !put_block_ne. }
  cbn [obind]. rewrite run_bind. destruct (brelse_ok me dev Hdev _ _ dbuf bn Hc6) as (bufs7 & -> & Hc7 & Hid7).
  { rewrite held_put, Hheld5. by split. } { by apply Hid6, Hid5, Hid3. }
  { intros _. cbn. rewrite Hview5. by rewrite !put_block_eq. }
  cbn [obind mret M_ret runs]. split_and!; [done| |done]. split; [|done..].
  exists (a_put bn (a_put x a5)). split_and!; [done| | |exact Hview5].
  - intros y. unfold a5, a3, a2. destruct recovering; destruct Hun as (H1 & H2 & _); [subst ps'; counts|].
    rewrite (unpinned_count bn ps ps' y H1 H2). counts.
  - intros y. rewrite !held_put, Hheld5. unfold a2. rewrite !held_get. intros (?&?&[?|[?|?]]); try done. by eapply Hh.
Qed.

(** The blocks that are pinned when [k] blocks have been installed. *)
Definition still_pinned (recovering : bool) bl (k : nat) : list Z := if recovering then [] else drop k bl.

Lemma still_pinned_step recovering bl k bn :
  txn_ok start bl → bl !! k = Some bn →
  unpinned recovering bn (still_pinned recovering bl k) (still_pinned recovering bl (S k)).
Proof using Type.
  intros Ht Hk. pose proof (tx_size _ _ Ht) as Hn. unfold unpinned, still_pinned. destruct recovering.
  - split_and!; [apply not_elem_of_nil|done|done].
  - rewrite (drop_S _ _ _ Hk). pose proof (tx_nodup _ _ Ht) as Hnd.
    rewrite <-(take_drop k bl), (drop_S _ _ _ Hk) in Hnd. apply NoDup_app in Hnd as (_ & _ & Hnd).
    apply NoDup_cons in Hnd as [Hb _]. split_and!; [left| |].
    + intros y. rewrite elem_of_cons. split; [intros Hy; split; [by right|by intros ->]|tauto].
    + cbn. rewrite length_drop. pose proof (lookup_lt_Some _ _ _ Hk). lia.
Qed.

(** The message of install_trans(), when recovering. *)
Lemma install_message (recovering : bool) s ps V B fmt ap :
  at_rest s ps V B → ∃ t, when recovering (printf fmt ap) s = Ok tt t ∧ at_rest t ps V B ∧ k_log t = k_log s.
Proof using Type.
  intros Ha. destruct recovering; cbn [when]; [|by exists s].
  assert (Hi : idle me s) by (destruct Ha as [(a & [Hi _] & _) _ _ _]; exact Hi).
  eexists. split; [apply printf_ok; [apply Hi|by apply Hi]|]. split; [|done]. by eapply at_rest_same, Ha.
Qed.

Lemma install_trans_ok (recovering : bool) s bl V B :
  at_rest s (still_pinned recovering bl 0) V B → log_is dev start (k_log s) bl → txn_ok start bl →
  (∀ k, C (replay start B 0 (take k bl) B)) →
  runs crash (λ _ t, ∃ V', at_rest t [] V' (replay start B 0 bl B) ∧ k_log t = k_log s) (install_trans recovering s).
Proof using Hdev Hstart SD.
  intros Ha Hl Ht HC. pose proof (tx_size _ _ Ht) as Hn.
  set (P := λ (tail : Z) t, ∃ k V', tail = Z.of_nat k ∧ (k ≤ length bl)%nat ∧
    at_rest t (still_pinned recovering bl k) V' (replay start B 0 (take k bl) B) ∧ k_log t = k_log s).
  eapply (runs_loop crash P _ (λ tail, (length bl - Z.to_nat tail)%nat)).
  - intros tail t (k & V' & -> & Hk & Ht' & Hlg). unfold install_trans_step. fgo. rewrite Hlg, (li_n _ _ _ _ Hl).
    destruct (decide (k = length bl)) as [->|Hne].
    { rewrite Z.ltb_irrefl. cbn. exists V'. split; [|done]. rewrite firstn_all in Ht'.
      replace (still_pinned recovering bl (length bl)) with (@nil Z) in Ht' by (unfold still_pinned; destruct recovering; by rewrite ?drop_all).
      done. }
    destruct (lookup_lt_is_Some_2 bl k) as [bn Hb]; [lia|]. destruct (log_block_new bl k Ht ltac:(lia)) as [Hx Hux].
    replace (Z.of_nat k <? Z.of_nat (length bl)) with true by lia. cbn [negb].
    rewrite run_bind, (lh_block_ok dev start bl k bn) by (by rewrite ?Hlg). cbn [obind].
    rewrite run_bind. edestruct (install_message recovering t) as (t1 & -> & Ha1 & Hl1); [exact Ht'|]. cbn [obind].
    rewrite (li_start _ _ _ _ Hl), (li_dev _ _ _ _ Hl), Hux.
    assert (Hxp : start + Z.of_nat k + 1 ∉ still_pinned recovering bl k).
    { unfold still_pinned. destruct recovering; [apply not_elem_of_nil|]. intros Hin. apply Hx.
      rewrite <-(take_drop k bl), elem_of_app. by right. }
    assert (Hsn : replay start B 0 (take (S k) bl) B =
                  put_block bn (V' (start + Z.of_nat k + 1)) (replay start B 0 (take k bl) B)).
    { rewrite (take_S_r _ _ _ Hb), replay_snoc, length_take_le by lia.
      rewrite (at_rest_clean _ _ _ _ _ Ha1 Hxp), replay_other.
      - do 2 f_equal. lia.
      - intros Hin. apply Hx. rewrite <-(take_drop k bl), elem_of_app. by left. }
    eapply runs_mono; [apply (install_step_ok recovering t1 (still_pinned recovering bl k) (still_pinned recovering bl (S k)) bl k bn V'
      (replay start B 0 (take k bl) B))|done|]; try done; [by rewrite Hl1, Hlg|by apply still_pinned_step|rewrite <-Hsn; apply HC|].
    intros r u (-> & Hu & Hlu). cbn beta iota. split; [|lia]. eexists (S k), _.
    split_and!; [lia|lia|by rewrite Hsn|congruence].
  - exists O, V. split_and!; try done; lia.
  - unfold log_fuel, NBUF, LOGBLOCKS in *. lia.
Qed.
End spec.

(** ** Commit *)

Section commit.
Context {W : Wakeups} {BD : BlockDev} {SD : SyncDisk}.
Context (me : nat) (dev start : Z) (Hdev : dev ≠ 0) (Hstart : log_range start).

(** The disks that the commit of the blocks [bl] goes through: they stand for the
    old contents [B] or for the new contents [V], and the header names no block or
    the blocks of the transaction. *)
Definition old_or_new (bl : list Z) (B V B' : Z → list Z) : Prop :=
  (header_is (B' start) [] ∨ header_is (B' start) bl) ∧ (stands_for start B' B ∨ stands_for start B' V).

Lemma start_not_home : ¬ home start start.
Proof using Type. unfold home, LOGBLOCKS, MAXOPBLOCKS. lia. Qed.

Lemma start_not_in bl : txn_ok start bl → start ∉ bl.
Proof using Type. intros Ht [_ Hh]%(tx_home _ _ Ht). by apply start_not_home. Qed.

Lemma txn_ok_nil : txn_ok start [].
Proof using Type. split; [apply NoDup_nil_2|done|by intros bn ?%not_elem_of_nil]. Qed.

Lemma log_is_cleared lg bl : log_is dev start lg bl → log_is dev start (set_lg_n 0 lg) [].
Proof using Type. intros [H1 H2 H3 H4 H5]. by split. Qed.

(** The log is complete on disk. *)
Record committed (bl : list Z) (V B : Z → list Z) : Prop := {
  cm_header : header_is (B start) bl;
  cm_home bn : home start bn → bn ∉ bl → B bn = V bn;
  cm_log k bn : bl !! k = Some bn → B (start + Z.of_nat k + 1) = V bn;
}.

(** Installing its blocks does not change what the disk stands for. *)
Lemma committed_replay bl V B k :
  txn_ok start bl → committed bl V B → committed bl V (replay start B 0 (take k bl) B).
Proof using Hstart.
  intros Ht [H1 H2 H3].
  assert (Hsub : ∀ y, y ∈ take k bl → y ∈ bl) by (intros y; apply subseteq_take).
  split.
  - rewrite replay_other; [done|]. intros Hy%Hsub. by apply (start_not_in bl Ht).
  - intros bn Hh Hn. rewrite replay_other; [by apply H2|]. intros Hy%Hsub. done.
  - intros j bn Hj. rewrite replay_other; [by apply H3|]. intros Hy%Hsub.
    by apply (log_block_new start Hstart bl j Ht (lookup_lt_Some _ _ _ Hj)).
Qed.

Lemma committed_stands bl V B : txn_ok start bl → committed bl V B → stands_for start B V.
Proof using Type. intros Ht [H1 H2 H3]. apply (stands_for_log start B V bl); [done|apply Ht|done|done]. Qed.

(** Afterwards the blocks are at their places. *)
Lemma committed_installed bl V B :
  txn_ok start bl → committed bl V B → ∀ bn, home start bn → replay start B 0 bl B bn = V bn.
Proof using Type.
  intros Ht [H1 H2 H3] bn Hb. destruct (decide (bn ∈ bl)) as [Hin|Hin]; [|rewrite replay_other by done; by apply H2].
  apply list_elem_of_lookup in Hin as [k Hk]. rewrite (replay_lookup _ _ _ _ _ k bn) by (apply Ht || done).
  rewrite <-(H3 k bn Hk). f_equal. lia.
Qed.

(** The second half of commit, and recovery: with the log complete on disk, its
    blocks are installed and the header is cleared. *)
Lemma finish_ok (recovering : bool) (C : (Z → list Z) → Prop) s bl V0 V B :
  at_rest me dev s (still_pinned recovering bl 0) V0 B → log_is dev start (k_log s) bl → txn_ok start bl →
  committed bl V B → (4 * Z.to_nat (1 + LOGBLOCKS) ≤ length (B start))%nat →
  (∀ B', committed bl V B' → C B') →
  (∀ B', header_is (B' start) [] → (∀ bn, home start bn → B' bn = V bn) → C B') →
  runs (λ t, C (k_blocks t))
    (λ _ t, ∃ V', at_rest me dev t [] V' (k_blocks t) ∧ (∀ bn, home start bn → k_blocks t bn = V bn) ∧
       header_is (k_blocks t start) [] ∧ k_log t = set_lg_n 0 (k_log s))
    ((install_trans recovering;; upd_log (set_lg_n 0);; write_head) s).
Proof using Hdev Hstart SD.
  intros Ha Hl Ht Hcm Hlen HC1 HC2.
  eapply runs_bind; [apply (install_trans_ok me dev start Hdev Hstart C recovering s bl V0 B Ha Hl Ht)|].
  { intros k. by apply HC1, committed_replay. }
  intros _ t3 (V3 & Ha3 & Hl3). rewrite run_bind, run_upd_log. cbn [obind].
  pose proof (committed_installed bl V B Ht Hcm) as Hin. pose proof (committed_replay bl V B (length bl) Ht Hcm) as Hc3.
  rewrite firstn_all in Hc3. set (B3 := replay start B 0 bl B) in *.
  assert (Hlen3 : B3 start = B start) by (apply replay_other; by apply start_not_in).
  assert (Hclear : ∀ d bn, home start bn → put_block start d B3 bn = V bn).
  { intros d bn Hb. rewrite put_block_ne by (intros ->; by apply start_not_home). by apply Hin. }
  eapply runs_mono; [apply (write_head_ok me dev start Hdev Hstart C _ [] [] V3 B3)|done|].
  { by eapply at_rest_same, Ha3. } { apply not_elem_of_nil. } { done. }
  { cbn. rewrite Hl3. by eapply log_is_cleared. } { apply txn_ok_nil. } { by rewrite Hlen3. }
  { by apply HC1. } { intros d Hd. by apply HC2; [rewrite put_block_eq|apply Hclear]. }
  intros _ t (V4 & d & Ha4 & Hl4 & Hd & _). pose proof (ar_blocks _ _ _ _ _ _ Ha4) as E. exists V4. rewrite E.
  split_and!; [done|apply Hclear|by rewrite put_block_eq|]. rewrite Hl4. cbn. by rewrite Hl3.
Qed.

Lemma commit_ok s bl V B :
  at_rest me dev s bl V B → log_is dev start (k_log s) bl → txn_ok start bl → header_is (B start) [] →
  (4 * Z.to_nat (1 + LOGBLOCKS) ≤ length (B start))%nat →
  runs (λ t, old_or_new bl B V (k_blocks t))
    (λ _ t, ∃ V', at_rest me dev t [] V' (k_blocks t) ∧ (∀ bn, home start bn → k_blocks t bn = V bn) ∧
       header_is (k_blocks t start) [] ∧ k_log t = set_lg_n 0 (k_log s))
    (commit s).
Proof using Hdev Hstart SD.
  intros Ha Hl Ht Hhd Hlen. unfold commit. fgo. rewrite (li_n _ _ _ _ Hl).
  destruct (0 <? Z.of_nat (length bl)) eqn:Hn; cbn [when]; cycle 1.
  { assert (bl = []) as -> by (destruct bl; [done|cbn in Hn; lia]). cbn [runs]. exists V.
    rewrite (ar_blocks _ _ _ _ _ _ Ha). split_and!; [done| |done|].
    - intros bn _. symmetry. eapply at_rest_clean; [exact Ha|apply not_elem_of_nil].
    - pose proof (li_n _ _ _ _ Hl) as E. cbn in E. destruct (k_log s). cbn in E. by subst. }
  clear Hn. pose proof (start_not_in bl Ht) as Hsn.
  eapply runs_bind; [apply (write_log_ok me dev start Hdev Hstart (old_or_new bl B V) s bl V B); try done|].
  { intros B' [H1 H2]. split; [left; by rewrite H2|]. left. apply stands_for_empty; [by rewrite H2|done]. }
  intros _ t1 (V1 & B1 & Ha1 & Hl1 & [HB1 HBs1] & HV1 & Hlog1).
  assert (Hcm : ∀ d, header_is d bl → committed bl V (put_block start d B1)).
  { intros d Hd. split.
    - by rewrite put_block_eq.
    - intros bn Hb Hn. rewrite put_block_ne by (intros ->; by apply start_not_home). rewrite HB1 by done.
      symmetry. by eapply at_rest_clean.
    - intros k bn Hk. rewrite put_block_ne by lia. by apply Hlog1. }
  eapply runs_bind; [apply (write_head_ok me dev start Hdev Hstart (old_or_new bl B V) t1 bl bl V1 B1 Ha1 Hsn)|].
  { apply Ht. } { by rewrite Hl1. } { done. } { by rewrite HBs1. }
  { split; [left; by rewrite HBs1|]. left. apply stands_for_empty; [by rewrite HBs1|done]. }
  { intros d Hd. split; [right; by rewrite put_block_eq|]. right. by apply committed_stands with bl; [|apply Hcm]. }
  intros _ t2 (V2 & d & Ha2 & Hl2 & Hd & Hdl). rewrite <-Hl1, <-Hl2.
  apply (finish_ok false (old_or_new bl B V) t2 bl V2 V (put_block start d B1)); [done|by rewrite Hl2, Hl1|done|by apply Hcm| | |].
  - by rewrite put_block_eq.
  - intros B' Hc. split; [right; apply Hc|right]. by apply committed_stands with bl.
  - intros B' Hh HB'. split; [by left|right]. by apply stands_for_empty.
Qed.

(** The wakeup of the operations that wait for log space finds none. *)
Lemma log_wakeup s lg :
  idle me s → k_locks s !! L_log = None →
  (wakeup Ch_log ≫= λ _, release L_log) (set_log lg (locked L_log s)) = Ok tt (set_log lg s).
Proof using Type.
  intros Hi Hlk. rewrite run_bind, (wakeup_nobody me s Hi L_log) by done. cbn [obind].
  by rewrite (idle_release me s Hi).
Qed.

(** The last end_op() commits. *)
Lemma end_op_ok s bl V B :
  at_rest me dev s bl V B → log_is dev start (k_log s) bl → txn_ok start bl → header_is (B start) [] →
  (4 * Z.to_nat (1 + LOGBLOCKS) ≤ length (B start))%nat →
  lg_outstanding (k_log s) = 1 → lg_committing (k_log s) = 0 →
  runs (λ t, old_or_new bl B V (k_blocks t))
    (λ _ t, ∃ V', at_rest me dev t [] V' (k_blocks t) ∧ (∀ bn, home start bn → k_blocks t bn = V bn) ∧
       header_is (k_blocks t start) [] ∧ k_log t = set_lg_n 0 (set_lg_outstanding 0 (k_log s)))
    (end_op s).
Proof using Hdev Hstart SD.
  intros Ha Hl Ht Hhd Hlen Ho Hcm. pose proof (ar_lock _ _ _ _ _ _ Ha) as Hlk.
  assert (Hi : idle me s) by (destruct Ha as [(a & [Hi _] & _) _ _ _]; exact Hi).
  unfold end_op. rewrite run_bind, (idle_acquire me s Hi) by done. cbn [obind]. fgo.
  change (k_log (locked L_log s)) with (k_log s). rewrite Ho. change (i32 (1 - 1)) with 0.
  set (lg0 := set_lg_outstanding 0 (k_log s)). change (k_log (set_log lg0 ?t)) with lg0.
  change (lg_committing lg0) with (lg_committing (k_log s)). change (lg_outstanding lg0) with 0. rewrite Hcm.
  cbn [Z.eqb negb]. fgo. rewrite (idle_release me s Hi) by done. cbn [obind when].
  set (lg1 := set_lg_committing 1 _). change (unlocked s _) with (set_log lg1 s).
  eapply runs_bind; [apply (commit_ok (set_log lg1 s) bl V B); try done|].
  { by eapply at_rest_same, Ha. } { destruct Hl as [H1 H2 H3 H4 H5]. by split. }
  intros _ t (V' & Ha' & HV & Hh & Hlg). pose proof (ar_lock _ _ _ _ _ _ Ha') as Hlk'.
  assert (Hi' : idle me t) by (destruct Ha' as [(a & [Hi' _] & _) _ _ _]; exact Hi').
  rewrite run_bind, (idle_acquire me t Hi') by done. cbn [obind]. rewrite run_bind, run_upd_log. cbn [obind].
  rewrite log_wakeup by done. cbn [runs]. exists V'. split_and!; [by eapply at_rest_same, Ha'|done|done|].
  cbn. rewrite Hlg. cbn. unfold lg1. destruct (k_log s). cbn in *. by subst.
Qed.

(** ** Recovery *)

Lemma u32_i32_eq z bn : u32 (i32 z) = bn → bn < 2 ^ 31 → i32 z = bn.
Proof using Type.
  intros Hu Hb. pose proof (swrap_bound 32 z eq_refl : - 2 ^ 31 ≤ i32 z < 2 ^ 31) as Hz. destruct (decide (0 ≤ i32 z)) as [Hp|Hp].
  - rewrite <-Hu. symmetry. apply u32_small. lia.
  - exfalso. revert Hu. replace (u32 (i32 z)) with (i32 z + 2 ^ 32); [lia|].
    unfold u32, uwrap. rewrite <-(Z.mod_add _ 1) by lia. rewrite Z.mod_small; lia.
Qed.

(** The fields of log that recovery leaves alone. *)
Definition log_frame (lg lg' : log) : Prop :=
  lg_dev lg' = lg_dev lg ∧ lg_start lg' = lg_start lg ∧ lg_outstanding lg' = lg_outstanding lg ∧
  lg_committing lg' = lg_committing lg ∧ length (lg_block lg') = length (lg_block lg).

(** The loop of read_head() copies the blocks of the header [d]. *)
Lemma read_head_loop_ok (C : (Z → list Z) → Prop) s b d bl :
  b_data (k_bufs s !!! b) = d → header_is d bl → txn_ok start bl → length (lg_block (k_log s)) = Z.to_nat LOGBLOCKS →
  lg_n (k_log s) = Z.of_nat (length bl) →
  runs (λ t, C (k_blocks t)) (λ _ t, ∃ lg, t = set_log lg s ∧ log_frame (k_log s) lg ∧ lg_n lg = Z.of_nat (length bl) ∧
      take (length bl) (lg_block lg) = bl)
    (loop log_fuel (λ i,
      lg ← get_log;
      if negb (i <? lg_n lg) then mret (inr tt) else
      x ← get_buf b;
      if LOGBLOCKS <=? i then undefined else
      upd_log (λ lg, set_lg_block (<[Z.to_nat i := i32 (word (b_data x) (Z.to_nat (i + 1)))]> (lg_block lg)) lg);;
      mret (inl (i + 1))) 0 s).
Proof using Type.
  intros Hd [Hn Hbl] Ht Hsz Hlg. pose proof (tx_size _ _ Ht) as Hlen.
  set (P := λ (i : Z) t, ∃ k lg, i = Z.of_nat k ∧ (k ≤ length bl)%nat ∧ t = set_log lg s ∧ log_frame (k_log s) lg ∧
    lg_n lg = Z.of_nat (length bl) ∧ ∀ j, (j < k)%nat → lg_block lg !! j = bl !! j).
  eapply (runs_loop _ P _ (λ i, (length bl - Z.to_nat i)%nat)).
  - intros i t (k & lg & -> & Hk & -> & Hf & Hlgn & Hj). fgo. cbn [k_log set_log]. rewrite Hlgn.
    destruct Hf as (F1 & F2 & F3 & F4 & F5). destruct (decide (k = length bl)) as [->|Hne].
    { rewrite Z.ltb_irrefl. cbn. exists lg. split_and!; try done. apply list_eq. intros j.
      destruct (decide (j < length bl)%nat) as [Hlt|Hge]; [rewrite lookup_take_lt by done; by apply Hj|].
      rewrite lookup_take_ge by lia. symmetry. apply lookup_ge_None_2. lia. }
    replace (Z.of_nat k <? Z.of_nat (length bl)) with true by lia. cbn [negb]. fgo. cbn [k_bufs set_log].
    replace (LOGBLOCKS <=? Z.of_nat k) with false by (unfold LOGBLOCKS, NBUF in *; lia). fgo. rewrite Hd.
    cbn [runs k_log set_log]. split; [|lia]. eexists (S k), _. split_and!; [lia|lia|done| |done|].
    + split_and!; try done. cbn. by rewrite length_insert.
    + intros j Hjk. cbn. rewrite Nat2Z.id. destruct (decide (j = k)) as [->|Hjk'].
      * rewrite list_lookup_insert_eq by (unfold LOGBLOCKS, NBUF in *; lia).
        destruct (lookup_lt_is_Some_2 bl k) as [bn Hb]; [lia|]. rewrite Hb. f_equal.
        apply u32_i32_eq; [|apply (tx_home _ _ Ht bn), (list_elem_of_lookup_2 _ _ _ Hb)].
        rewrite <-Hbl in Hb. unfold hdr_blocks in Hb. rewrite list_lookup_fmap, Hn, Nat2Z.id, lookup_seq_lt in Hb by lia.
        injection Hb as <-. by replace (Z.to_nat (Z.of_nat k + 1)) with (S k) by lia.
      * rewrite list_lookup_insert_ne by done. apply Hj. lia.
  - exists O, (k_log s). split_and!; try done; lia.
  - unfold log_fuel, NBUF, LOGBLOCKS in *. lia.
Qed.

Lemma read_head_ok (C : (Z → list Z) → Prop) s bl V B :
  at_rest me dev s [] V B → u32 (lg_dev (k_log s)) = dev → lg_start (k_log s) = start →
  length (lg_block (k_log s)) = Z.to_nat LOGBLOCKS → header_is (B start) bl → txn_ok start bl → C B →
  runs (λ t, C (k_blocks t)) (λ _ t, at_rest me dev t [] V B ∧ log_is dev start (k_log t) bl ∧ log_frame (k_log s) (k_log t))
    (read_head s).
Proof using Hdev Hstart SD.
  intros Ha Hld Hls Hsz Hh Ht HC. pose proof (at_rest_clean _ _ _ _ _ _ start Ha (not_elem_of_nil _)) as Hclean.
  destruct Ha as [(a & Hc & Hr & Hnh & Hv) HB Hlk Hno]. unfold read_head. fgo.
  rewrite Hld, Hls, u32_small by (destruct Hstart; unfold LOGBLOCKS, MAXOPBLOCKS in *; lia).
  eapply runs_bind; [apply (bread_new me dev Hdev C s a start Hc); [done|by rewrite Hr| |by rewrite HB]|].
  { pose proof (at_rest_size me dev s [] a Hc Hr) as H. cbn in H. unfold NBUF, MAXOPBLOCKS. lia. }
  intros b t1 (bufs1 & -> & Hc1 & Hb1 & Hd1 & _). fgo. cbn [k_bufs k_log set_bufs]. rewrite Hd1, Hv, Hclean.
  destruct Hh as [Hn Hbl]. unfold hdr_n in Hn. rewrite Hn.
  set (s2 := set_log _ (set_bufs bufs1 s)).
  eapply runs_bind; [apply (read_head_loop_ok C s2 b (B start) bl); try done; cbn; by rewrite Hd1, Hv, Hclean|].
  intros _ t (lg & -> & (F1 & F2 & F3 & F4 & F5) & Hlgn & Htk).
  assert (Hst : start ∈ ac_held (a_get start a)) by (rewrite held_get; by left).
  assert (Hc3 : cached me dev (set_log lg s2) (a_get start a)).
  { destruct Hc1 as [Hi HR]. split; [by eapply idle_same, Hi|exact HR]. }
  destruct (brelse_ok me dev Hdev _ _ b start Hc3 Hst Hb1) as (bufs4 & -> & Hc4 & _).
  { intros _. cbn. by rewrite Hv, Hclean, HB. }
  cbn [runs]. cbn in F1, F2, F3, F4, F5. split_and!; [| |by split_and!].
  - split; [|done..]. exists (a_put start (a_get start a)). split_and!; [done| | |done].
    + intros y. rewrite refs_put, refs_get, Hr. lia.
    + intros y. rewrite held_put, held_get. intros [? [?|?]]; [done|by eapply Hnh].
  - cbn. split; congruence.
Qed.

(** A disk is committed to what it stands for. *)
Lemma committed_recovered bl B :
  txn_ok start bl → header_is (B start) bl → committed bl (recovered start B) B.
Proof using Type.
  intros Ht Hh. pose proof Hh as [_ Hbl]. unfold recovered. rewrite Hbl. split; [done| |].
  - intros bn _ Hn. by rewrite replay_other.
  - intros k bn Hk. rewrite (replay_lookup _ _ _ _ _ k bn) by (apply Ht || done). f_equal. lia.
Qed.

Lemma recover_ok s bl V B :
  at_rest me dev s [] V B → u32 (lg_dev (k_log s)) = dev → lg_start (k_log s) = start →
  length (lg_block (k_log s)) = Z.to_nat LOGBLOCKS → header_is (B start) bl → txn_ok start bl →
  (4 * Z.to_nat (1 + LOGBLOCKS) ≤ length (B start))%nat →
  runs (λ t, (header_is (k_blocks t start) [] ∨ header_is (k_blocks t start) bl) ∧
          stands_for start (k_blocks t) (recovered start B))
    (λ _ t, ∃ V', at_rest me dev t [] V' (k_blocks t) ∧
       (∀ bn, home start bn → k_blocks t bn = recovered start B bn) ∧ header_is (k_blocks t start) [] ∧
       log_is dev start (k_log t) [] ∧ log_frame (k_log s) (k_log t))
    (recover_from_log s).
Proof using Hdev Hstart SD.
  intros Ha Hld Hls Hsz Hh Ht Hlen. pose proof (committed_recovered bl B Ht Hh) as Hcm.
  set (C := λ B', (header_is (B' start) [] ∨ header_is (B' start) bl) ∧ stands_for start B' (recovered start B)).
  assert (HC : ∀ B', committed bl (recovered start B) B' → C B').
  { intros B' Hc. split; [right; apply Hc|by apply committed_stands with bl]. }
  unfold recover_from_log. eapply runs_bind; [apply (read_head_ok C s bl V B); try done; by apply HC|].
  intros _ t (Ha1 & Hl1 & (F1 & F2 & F3 & F4 & F5)).
  eapply runs_mono; [apply (finish_ok true C t bl V (recovered start B) B Ha1 Hl1 Ht Hcm Hlen HC)|done|].
  - intros B' Hh' HB'. split; [by left|by apply stands_for_empty].
  - intros _ u (V' & Ha' & HV & Hh' & Hl'). exists V'. split_and!; try done; rewrite Hl'; [by eapply log_is_cleared|done..].
Qed.
End commit.

(** ** Transactions *)

(** The blocks of a transaction after log_write() of [bn]. *)
Definition log_add (bn : Z) (bl : list Z) : list Z := if bool_decide (bn ∈ bl) then bl else bl ++ [bn].

Lemma log_slot_spec blocks bl bn :
  take (length bl) blocks = bl → (∀ y, y ∈ bl → 0 ≤ y < 2 ^ 31) →
  (bn ∈ bl → bl !! log_slot blocks (length bl) bn = Some bn) ∧
  (bn ∉ bl → log_slot blocks (length bl) bn = length bl).
Proof.
  revert blocks. induction bl as [|x bl IH]; intros blocks Htk Hr.
  { split; [by intros ?%not_elem_of_nil|by destruct blocks]. }
  destruct blocks as [|y blocks]; [done|]. cbn in Htk. injection Htk as -> Htk. cbn [length log_slot].
  pose proof (Hr x ltac:(left)) as Hx. rewrite u32_small by lia.
  destruct (IH blocks Htk) as [IH1 IH2]; [intros z Hz; apply Hr; by right|].
  destruct (Z.eqb_spec x bn) as [->|Hne]; split; intros H.
  - done.
  - by destruct H; left.
  - apply IH1. by apply elem_of_cons in H as [->|].
  - f_equal. apply IH2. intros ?. by destruct H; right.
Qed.

Section txn.
Context {W : Wakeups} {BD : BlockDev} {SD : SyncDisk}.
Context (me : nat) (dev start : Z) (Hdev : dev ≠ 0) (Hstart : log_range start).
Context (C : (Z → list Z) → Prop).

(** What log_write() does to the in-memory header. *)
Definition log_added (bn : Z) (bl : list Z) (lg : log) : log :=
  if bool_decide (bn ∈ bl) then lg
  else set_lg_n (lg_n lg + 1) (set_lg_block (<[length bl := bn]> (lg_block lg)) lg).

Lemma log_is_added bn bl lg :
  log_is dev start lg bl → txn_ok start (log_add bn bl) → log_is dev start (log_added bn bl lg) (log_add bn bl).
Proof using Type.
  intros [H1 H2 H3 H4 H5] Ht. pose proof (tx_size _ _ Ht) as Hn. unfold log_added, log_add in *. case_bool_decide; [by split|].
  rewrite length_app in Hn. cbn in Hn. assert ((length bl < length (lg_block lg))%nat) by (unfold LOGBLOCKS, NBUF in *; lia).
  split; cbn; [done|done| | |].
  - rewrite length_app. cbn. lia.
  - by rewrite length_insert.
  - rewrite length_app, Nat.add_1_r. rewrite (take_S_r _ _ bn) by by apply list_lookup_insert_eq.
    by rewrite take_insert_ge, H5 by lia.
Qed.

(** log_write() of a locked buffer. *)
Lemma log_write_ok s a b bn bl :
  cached me dev s a → bn ∈ ac_held a → is_buf dev (k_bufs s) b bn → k_locks s !! L_log = None → c_noff (cur_cpu s) = 0 →
  log_is dev start (k_log s) bl → txn_ok start bl → txn_ok start (log_add bn bl) → 1 ≤ lg_outstanding (k_log s) →
  refs a bn + 1 < 2 ^ 31 → 0 ≤ bn < 2 ^ 31 →
  ∃ bufs, log_write b s = Ok tt (set_log (log_added bn bl (k_log s)) (set_bufs bufs s)) ∧
    cached me dev (set_bufs bufs s) (if bool_decide (bn ∈ bl) then a else set_refs bn (refs a bn + 1) a) ∧
    ∀ b' bn', is_buf dev bufs b' bn' ↔ is_buf dev (k_bufs s) b' bn'.
Proof using Hdev.
  intros Hc Hh Hb Hlk Hno Hl Ht Ht' Ho Hr Hbn. destruct Hc as [Hi HR]. pose proof (tx_size _ _ Ht) as Hn.
  destruct (log_slot_spec (lg_block (k_log s)) bl bn) as [Hs1 Hs2]; [apply Hl|intros y Hy; by apply (tx_home _ _ Ht)|].
  unfold log_write. rewrite run_bind, (idle_acquire me s Hi) by done. cbn [obind]. fgo.
  change (k_log (locked L_log s)) with (k_log s). change (k_bufs (locked L_log s)) with (k_bufs s).
  replace (LOGBLOCKS <=? lg_n (k_log s)) with false by (rewrite (li_n _ _ _ _ Hl); unfold NBUF, LOGBLOCKS in *; lia).
  replace (lg_outstanding (k_log s) <? 1) with false by lia. fgo.
  change (k_log (locked L_log s)) with (k_log s). change (k_bufs (locked L_log s)) with (k_bufs s).
  destruct Hb as (Hb1 & Hb2 & Hb3). rewrite Hb3, (li_n _ _ _ _ Hl), Nat2Z.id, i32_small by lia.
  unfold log_added. case_bool_decide as Hin.
  - specialize (Hs1 Hin). pose proof (lookup_lt_Some _ _ _ Hs1) as Hlt.
    set (i := log_slot (lg_block (k_log s)) (length bl) bn) in *.
    replace (Z.of_nat i =? Z.of_nat (length bl)) with false by lia. cbn [when]. fgo.
    rewrite list_insert_id; cycle 1.
    { rewrite <-Hs1, <-(li_blocks _ _ _ _ Hl) at 1. rewrite lookup_take_lt by lia. done. }
    exists (k_bufs s). split_and!; [|done|done].
    rewrite (idle_release me s Hi) by done. by destruct (k_log s).
  - rewrite Hs2 by done. rewrite Z.eqb_refl. cbn [when]. set (t := set_log _ (locked L_log s)).
    assert (Hct : cached me dev t a).
    { split; [|exact HR]. apply (idle_same me (locked L_log s)); [done|]. apply idle_locked; [done|]. rewrite Hno. lia. }
    rewrite run_bind. destruct (bpin_ok me dev Hdev t a b bn Hct Hh) as (bufs & -> & Hcb & Hid); [by split_and!|done|].
    cbn [obind]. rewrite run_upd_log. cbn [obind]. rewrite (idle_release me s Hi) by done.
    exists bufs. split_and!; [|split; [by eapply idle_same, Hi|apply Hcb]|done].
    cbn. rewrite (li_n _ _ _ _ Hl), i32_small by (unfold NBUF, MAXOPBLOCKS in *; lia). done.
Qed.

(** One block of a transaction, the way fs.c writes it. *)
Definition update_block (bn : Z) (d : list Z) : K () :=
  b ← bread dev bn;
  upd_buf b (set_b_data d);;
  log_write b;;
  brelse b.

Lemma update_block_ok s bl V B bn d :
  at_rest me dev s bl V B → log_is dev start (k_log s) bl → txn_ok start bl → txn_ok start (log_add bn bl) →
  1 ≤ lg_outstanding (k_log s) → 0 ≤ bn < 2 ^ 31 → C B →
  runs (λ t, C (k_blocks t)) (λ _ t, at_rest me dev t (log_add bn bl) (put_block bn d V) B ∧
      k_log t = log_added bn bl (k_log s)) (update_block bn d s).
Proof using Hdev SD.
  intros [(a & Hc & Hr & Hh & Hv) HB Hlk Hno] Hl Ht Ht' Ho Hbn HC. pose proof (tx_size _ _ Ht) as Hn.
  pose proof (at_rest_size me dev s bl a Hc Hr) as Hsz. unfold update_block.
  eapply runs_bind; [apply (bread_ok me dev Hdev C s a bn Hc); [done|counts|right; lia|by rewrite HB]|].
  intros b t1 (bufs1 & -> & Hc1 & Hb1 & _). rewrite run_bind, run_upd_buf. cbn [obind].
  assert (Hbh : bn ∈ ac_held (a_get bn a)) by (rewrite held_get; by left).
  destruct (write_data_ok me dev Hdev _ _ b bn d Hc1 Hbh Hb1) as [Hc2 Hid2]. cbn zeta in Hc2, Hid2.
  set (u := set_bufs (alter _ b _) _) in *. rewrite run_bind.
  destruct (log_write_ok u _ b bn bl Hc2 Hbh) as (bufs3 & -> & Hc3 & Hid3); try done; [by apply Hid2|counts|].
  cbn [obind]. set (a3 := if bool_decide (bn ∈ bl) then _ else _) in *.
  assert (Hh3 : ac_held a3 = ac_held (a_get bn a)) by (unfold a3; by case_bool_decide).
  assert (Hv3 : ac_view a3 = put_block bn d V) by (unfold a3; case_bool_decide; cbn; by rewrite Hv).
  assert (Hr3 : ∀ y, refs a3 y = (if bool_decide (y ∈ log_add bn bl) then 1 else 0) + (if y =? bn then 1 else 0)).
  { intros y. unfold a3, log_add. case_bool_decide as Hin; [counts|].
    rewrite refs_set, !refs_view, !refs_get, !Hr, bool_decide_false by done. rewrite Z.eqb_refl.
    rewrite (bool_decide_ext (y ∈ bl ++ [bn]) (y ∈ bl ∨ y = bn)) by (by rewrite elem_of_app, list_elem_of_singleton).
    destruct (Z.eqb_spec y bn) as [->|Hne]; [rewrite bool_decide_true by tauto; lia|].
    rewrite (bool_decide_ext (y ∈ bl ∨ y = bn) (y ∈ bl)) by tauto. lia. }
  assert (Hc4 : cached me dev (set_log (log_added bn bl (k_log u)) (set_bufs bufs3 u)) a3).
  { destruct Hc3 as [Hi HR]. split; [by eapply idle_same, Hi|exact HR]. }
  destruct (brelse_ok me dev Hdev _ a3 b bn Hc4) as (bufs5 & -> & Hc5 & _); [by rewrite Hh3|by apply Hid3, Hid2| |].
  { rewrite Hr3, Z.eqb_refl, bool_decide_true; [lia|]. unfold log_add. case_bool_decide; [done|].
    rewrite elem_of_app, list_elem_of_singleton. by right. }
  cbn [runs]. split; [|done]. split; [|done..]. exists (a_put bn a3). split_and!; [done| | |exact Hv3].
  - intros y. rewrite refs_put, Hr3. lia.
  - intros y. rewrite held_put, Hh3, held_get. intros [? [?|?]]; [done|by eapply Hh].
Qed.

Lemma begin_op_ok s bl V B :
  at_rest me dev s bl V B → lg_committing (k_log s) = 0 →
  0 ≤ lg_outstanding (k_log s) → lg_n (k_log s) + (lg_outstanding (k_log s) + 1) * MAXOPBLOCKS ≤ LOGBLOCKS → 0 ≤ lg_n (k_log s) →
  begin_op s = Ok tt (set_log (set_lg_outstanding (lg_outstanding (k_log s) + 1) (k_log s)) s).
Proof using Type.
  intros Ha Hc Ho Hn Hp. pose proof (ar_lock _ _ _ _ _ _ Ha) as Hlk.
  assert (Hi : idle me s) by (destruct Ha as [(a & [Hi _] & _) _ _ _]; exact Hi).
  unfold begin_op. rewrite run_bind, (idle_acquire me s Hi) by done. cbn [obind loop]. rewrite run_bind.
  unfold begin_op_step. fgo. change (k_log (locked L_log s)) with (k_log s). rewrite Hc. cbn [Z.eqb negb].
  replace (LOGBLOCKS <? _) with false by lia. fgo. rewrite (idle_release me s Hi) by done. cbn [obind]. fgo.
  change (k_log (locked L_log s)) with (k_log s). rewrite i32_small by (unfold LOGBLOCKS, MAXOPBLOCKS in *; lia). done.
Qed.
End txn.

(** A file system operation that assigns new contents to some blocks. *)
Definition transaction {W : Wakeups} {BD : BlockDev} (dev : Z) (ups : list (Z * list Z)) : K () :=
  begin_op;;
  for_ ups (λ u, update_block dev u.1 u.2);;
  end_op.

(** What it means for the blocks, and the blocks that are logged for it. *)
Definition apply_updates (ups : list (Z * list Z)) (B : Z → list Z) : Z → list Z :=
  foldl (λ B u, put_block u.1 u.2 B) B ups.
Definition txn_blocks (ups : list (Z * list Z)) (bl : list Z) : list Z := foldl (λ bl u, log_add u.1 bl) bl ups.

Lemma apply_updates_ext ups V B : (∀ y, V y = B y) → ∀ y, apply_updates ups V y = apply_updates ups B y.
Proof.
  revert V B. induction ups as [|[bn d] ups IH]; intros V B H; [done|]. cbn. apply IH. intros y.
  unfold put_block. by destruct (y =? bn).
Qed.

Lemma txn_blocks_app ups bl : ∃ k, txn_blocks ups bl = bl ++ k.
Proof.
  revert bl. induction ups as [|[bn d] ups IH]; intros bl; [exists []; by rewrite app_nil_r|].
  destruct (IH (log_add bn bl)) as [k Hk]. change (txn_blocks _ bl) with (txn_blocks ups (log_add bn bl)). rewrite Hk.
  unfold log_add. case_bool_decide; [by exists k|]. exists (bn :: k). by rewrite <-app_assoc.
Qed.

Lemma txn_ok_prefix start bl k : txn_ok start (bl ++ k) → txn_ok start bl.
Proof.
  intros [H1 H2 H3]. split.
  - by apply NoDup_app in H1 as [H1 _].
  - rewrite length_app in H2. lia.
  - intros bn Hb. apply H3, elem_of_app. by left.
Qed.

(** Distinct blocks outside the log make a transaction. *)
Lemma txn_blocks_ok start ups bl :
  txn_ok start bl → Forall (λ u, 0 ≤ u.1 < 2 ^ 31 ∧ home start u.1) ups → Z.of_nat (length (txn_blocks ups bl)) < NBUF →
  txn_ok start (txn_blocks ups bl).
Proof.
  revert bl. induction ups as [|[bn d] ups IH]; intros bl Ht Hf Hn; [done|]. inversion Hf as [|? ? Hb Hf']; subst.
  change (txn_blocks (_ :: _) bl) with (txn_blocks ups (log_add bn bl)) in *. cbn in Hb.
  apply IH; [|done|done]. destruct (txn_blocks_app ups (log_add bn bl)) as [k Hk].
  rewrite Hk, length_app in Hn. unfold log_add in *. case_bool_decide as Hin; [done|]. rewrite length_app in Hn. cbn in Hn.
  destruct Ht as [H1 H2 H3]. split; [|rewrite length_app; cbn; lia|].
  - apply NoDup_app. split_and!; [done| |apply NoDup_singleton]. intros y Hy ->%list_elem_of_singleton. done.
  - intros y [?| ->%list_elem_of_singleton]%elem_of_app; [by apply H3|done].
Qed.

Section claims.
Context {W : Wakeups} {BD : BlockDev} {SD : SyncDisk}.

Lemma updates_ok me dev start (C : (Z → list Z) → Prop) ups s bl V B :
  dev ≠ 0 → log_range start → at_rest me dev s bl V B → log_is dev start (k_log s) bl →
  txn_ok start (txn_blocks ups bl) → Forall (λ u, 0 ≤ u.1 < 2 ^ 31 ∧ home start u.1) ups →
  lg_outstanding (k_log s) = 1 → lg_committing (k_log s) = 0 → C B →
  runs (λ t, C (k_blocks t)) (λ _ t, at_rest me dev t (txn_blocks ups bl) (apply_updates ups V) B ∧
      log_is dev start (k_log t) (txn_blocks ups bl) ∧ lg_outstanding (k_log t) = 1 ∧ lg_committing (k_log t) = 0)
    (for_ ups (λ u, update_block dev u.1 u.2) s).
Proof using SD.
  intros Hdev Hstart. revert s bl V. induction ups as [|[bn d] ups IH]; intros s bl V Ha Hl Ht Hf Ho Hc HC; [done|].
  inversion Hf as [|? ? [Hb Hh] Hf']; subst. cbn in Hb. change (txn_blocks (_ :: _) bl) with (txn_blocks ups (log_add bn bl)) in *.
  assert (Ht' : txn_ok start (log_add bn bl)).
  { destruct (txn_blocks_app ups (log_add bn bl)) as [k Hk]. rewrite Hk in Ht. by eapply txn_ok_prefix. }
  assert (Htb : txn_ok start bl) by (revert Ht'; unfold log_add; case_bool_decide; [done|apply txn_ok_prefix]).
  cbn [for_]. eapply runs_bind; [apply (update_block_ok me dev start Hdev C s bl V B bn d); try done; lia|].
  intros _ t [Ha' Hl']. cbn. unfold log_added in Hl'.
  assert (Hli : log_is dev start (k_log t) (log_add bn bl)) by (rewrite Hl'; by apply log_is_added).
  apply IH; try done; rewrite Hl'; by case_bool_decide.
Qed.

(** C21: Transactions are atomic.  An operation that updates blocks through
    the log, from begin_op() to end_op(), either returns with all its updates on
    disk at their places and an empty log, or, if the power fails at any disk
    write on the way, leaves a disk whose log and blocks together stand for
    exactly the old contents or exactly the new contents. Updates of the same
    block are absorbed; the number of distinct blocks is less than NBUF. *)
Theorem transaction_atomic me dev start ups s V B :
  dev ≠ 0 → log_range start → at_rest me dev s [] V B → log_is dev start (k_log s) [] →
  lg_outstanding (k_log s) = 0 → lg_committing (k_log s) = 0 →
  header_is (B start) [] → (4 * Z.to_nat (1 + LOGBLOCKS) ≤ length (B start))%nat →
  Forall (λ u, 0 ≤ u.1 < 2 ^ 31 ∧ home start u.1) ups → Z.of_nat (length (txn_blocks ups [])) < NBUF →
  runs (λ t, old_or_new start (txn_blocks ups []) B (apply_updates ups B) (k_blocks t))
    (λ _ t, (∀ bn, home start bn → k_blocks t bn = apply_updates ups B bn) ∧ header_is (k_blocks t start) [] ∧
       (∃ V', at_rest me dev t [] V' (k_blocks t)) ∧ log_is dev start (k_log t) [] ∧
       lg_outstanding (k_log t) = 0 ∧ lg_committing (k_log t) = 0)
    (transaction dev ups s).
Proof using SD.
  intros Hdev Hstart Ha Hl Ho Hc Hh Hlen Hf Hn. pose proof (li_n _ _ _ _ Hl) as Hlgn. cbn in Hlgn.
  pose proof (txn_blocks_ok start ups [] (txn_ok_nil start) Hf Hn) as Ht. set (bl := txn_blocks ups []) in *.
  assert (HV : ∀ y, V y = B y) by (intros y; by eapply at_rest_clean, not_elem_of_nil).
  unfold transaction. rewrite run_bind, (begin_op_ok me dev s [] V B) by (rewrite ?Ho, ?Hlgn; done). cbn [obind].
  set (s1 := set_log _ s). set (C := old_or_new start bl B (apply_updates ups B)).
  eapply runs_bind; [apply (updates_ok me dev start C ups s1 [] V B); try done|].
  { by eapply at_rest_same, Ha. } { destruct Hl as [H1 H2 H3 H4 H5]. by split. } { cbn. by rewrite Ho. }
  { split; [by left|left]. by apply stands_for_empty. }
  intros _ t (Ha' & Hl' & Ho' & Hc').
  eapply runs_mono; [apply (end_op_ok me dev start Hdev Hstart t bl (apply_updates ups V) B); done| |].
  - intros u [H1 [H2|H2]]; split; try done; [by left|right]. intros bn Hb. rewrite H2 by done. by apply apply_updates_ext.
  - intros _ u (V' & Ha2 & HV2 & Hh2 & Hl2). split_and!; [|done|by exists V'| | |].
    + intros bn Hb. rewrite HV2 by done. by apply apply_updates_ext.
    + rewrite Hl2. destruct Hl' as [H1 H2 H3 H4 H5]. by split.
    + by rewrite Hl2.
    + by rewrite Hl2.
Qed.

(** C22: Recovery completes or discards an interrupted transaction.  From
    any disk that a power failure during a transaction can leave, in a machine
    whose cache is empty, recover_from_log() returns with exactly the old or
    exactly the new contents at their places and an empty log; if the power fails
    again on the way, the disk is still one that recovery can start from. *)
Theorem recovery_completes_transaction me dev start s bl Bold Bnew V B :
  dev ≠ 0 → log_range start → txn_ok start bl → old_or_new start bl Bold Bnew B →
  at_rest me dev s [] V B → u32 (lg_dev (k_log s)) = dev → lg_start (k_log s) = start →
  length (lg_block (k_log s)) = Z.to_nat LOGBLOCKS → (4 * Z.to_nat (1 + LOGBLOCKS) ≤ length (B start))%nat →
  runs (λ t, old_or_new start bl Bold Bnew (k_blocks t))
    (λ _ t, ((∀ bn, home start bn → k_blocks t bn = Bold bn) ∨ (∀ bn, home start bn → k_blocks t bn = Bnew bn)) ∧
       header_is (k_blocks t start) [] ∧ log_is dev start (k_log t) [] ∧ (∃ V', at_rest me dev t [] V' (k_blocks t)))
    (recover_from_log s).
Proof using SD.
  intros Hdev Hstart Ht [Hh Hst] Ha Hld Hls Hsz Hlen.
  assert (∃ bl', header_is (B start) bl' ∧ txn_ok start bl' ∧ (bl' = [] ∨ bl' = bl)) as (bl' & Hh' & Ht' & Hbl).
  { destruct Hh as [Hh|Hh]; [exists []|exists bl]; split_and!; try done; [apply txn_ok_nil|by left|by right]. }
  assert (Hrec : ∀ B', stands_for start B' (recovered start B) → stands_for start B' Bold ∨ stands_for start B' Bnew).
  { intros B' HB'. destruct Hst as [Hst|Hst]; [left|right]; intros bn Hb; by rewrite HB', Hst. }
  eapply runs_mono; [apply (recover_ok me dev start Hdev Hstart s bl' V B); done| |].
  - intros t [H1 H2]. split; [|by apply Hrec]. destruct Hbl as [-> | ->]; tauto.
  - intros _ t (V' & Ha' & HV & Hh2 & Hl2 & _). split_and!; [|done|done|by exists V'].
    destruct Hst as [Hst|Hst]; [left|right]; intros bn Hb; by rewrite HV, Hst.
Qed.
End claims.

(** ** Examples *)

(** A machine with an empty cache and the disk [B]. *)
Definition log_machine (B : Z → list Z) : kstate :=
  set_log (mk_log 2 0 0 1 0 (replicate (Z.to_nat LOGBLOCKS) 0)) (set_blocks B fresh_cache).

Lemma at_rest_init me dev s bufs B lg :
  dev ≠ 0 → idle me s → k_locks s !! L_log = None → c_noff (cur_cpu s) = 0 → cache_ok bufs →
  (∀ b, (b < Z.to_nat NBUF)%nat →
     b_dev (bufs !!! b) = 0 ∧ b_refcnt (bufs !!! b) = 0 ∧ sl_locked (b_lock (bufs !!! b)) = 0) →
  at_rest me dev (set_log lg (set_blocks B (set_bufs bufs s))) [] B B.
Proof.
  intros Hdev Hi Hlk Hno Hok Hb. split; [|done..].
  exists (mk_acache B ∅ ∅). split_and!; [|done|by intros y ?%not_elem_of_empty|done]. split.
  - by eapply idle_same, Hi.
  - by apply cache_rep_init.
Qed.

Lemma log_machine_at_rest B : at_rest 2 1 (log_machine B) [] B B.
Proof.
  destruct fresh_cache_eq as (bufs & E & Hok & Hb). unfold log_machine. rewrite E.
  apply at_rest_init; [lia|apply before_binit_idle|apply lookup_empty|vm_compute; reflexivity|exact Hok|exact Hb].
Qed.

Definition zeros : list Z := replicate (Z.to_nat BSIZE) 0.

(** Two writes of block 45 and one of block 46. *)
Definition some_updates : list (Z * list Z) := [(45, replicate 1024 7); (46, replicate 1024 8); (45, replicate 1024 9)].

Lemma transaction_atomic_witness :
  runs (λ t, old_or_new 2 [45; 46] (λ _, zeros) (apply_updates some_updates (λ _, zeros)) (k_blocks t))
    (λ _ t, (∀ bn, home 2 bn → k_blocks t bn = apply_updates some_updates (λ _, zeros) bn) ∧ header_is (k_blocks t 2) [] ∧
       (∃ V', at_rest 2 1 t [] V' (k_blocks t)) ∧ log_is 1 2 (k_log t) [] ∧
       lg_outstanding (k_log t) = 0 ∧ lg_committing (k_log t) = 0)
    (@transaction 0%nat plain_disk 1 some_updates (log_machine (λ _, zeros))).
Proof.
  apply (@transaction_atomic 0%nat plain_disk plain_disk_sync 2 1 2 some_updates (log_machine (λ _, zeros)) (λ _, zeros) (λ _, zeros)).
  - discriminate.
  - split; [discriminate|reflexivity].
  - apply log_machine_at_rest.
  - split; reflexivity.
  - reflexivity.
  - reflexivity.
  - split; vm_compute; reflexivity.
  - apply Nat.leb_le. vm_compute. reflexivity.
  - repeat constructor; cbn; unfold home, LOGBLOCKS, MAXOPBLOCKS; lia.
  - vm_compute. reflexivity.
Defined.

(** The power failed when block 45 was in the log and the header written. *)
Definition interrupted : Z → list Z :=
  put_block 2 (set_word 0 1 (set_word 1 45 zeros)) (put_block 3 (replicate 1024 7) (λ _, zeros)).

Lemma recovery_completes_transaction_witness :
  runs (λ t, old_or_new 2 [45] (λ _, zeros) (apply_updates [(45, replicate 1024 7)] (λ _, zeros)) (k_blocks t))
    (λ _ t, ((∀ bn, home 2 bn → k_blocks t bn = zeros) ∨
             (∀ bn, home 2 bn → k_blocks t bn = apply_updates [(45, replicate 1024 7)] (λ _, zeros) bn)) ∧
       header_is (k_blocks t 2) [] ∧ log_is 1 2 (k_log t) [] ∧ (∃ V', at_rest 2 1 t [] V' (k_blocks t)))
    (@recover_from_log 0%nat plain_disk (log_machine interrupted)).
Proof.
  apply (@recovery_completes_transaction 0%nat plain_disk plain_disk_sync 2 1 2 (log_machine interrupted) [45] (λ _, zeros)
    (apply_updates [(45, replicate 1024 7)] (λ _, zeros)) interrupted interrupted).
  - discriminate.
  - split; [discriminate|reflexivity].
  - split; [apply NoDup_singleton|done|]. intros bn ->%list_elem_of_singleton. unfold home, LOGBLOCKS, MAXOPBLOCKS. lia.
  - assert (Hh : header_is (interrupted 2) [45]) by (split; vm_compute; reflexivity).
    split; [by right|right]. apply (stands_for_log 2 _ _ [45]); [done|apply NoDup_singleton| |].
    + intros bn Hb Hn. unfold apply_updates, interrupted. cbn.
      rewrite !put_block_ne; [done|by intros ->; apply Hn; left|..]; intros ->; apply Hb; unfold LOGBLOCKS, MAXOPBLOCKS; lia.
    + intros [|k] bn; [|done]. intros [= <-]. reflexivity.
  - apply log_machine_at_rest.
  - reflexivity.
  - reflexivity.
  - reflexivity.
  - apply Nat.leb_le. vm_compute. reflexivity.
Defined.
