(* ===== verification/Fs.v ===== *)
(** The file system: kernel/fs.c, and either_copyout() and either_copyin() of
    kernel/proc.c.

    The data of a block is a list of BSIZE bytes; struct dinode and struct
    dirent are read and written at their offsets in it. *)

From Stdlib Require Import ZArith Lia ZifyBool Ascii.
From stdpp Require Import base numbers list gmap strings.
From S2P Require Import Prelude Params Machine Spinlock CString Printf Sched Kalloc Vm Sleeplock Bio Log.

(** ** Copying to and from either address space

    A kernel address is in a page (loadseg()), or it is an offset into a variable
    on the kernel stack, whose contents are passed along. *)

Inductive dest := ToUser (va : Z) | ToKernel (pa : Z) | ToLocal (o : Z).
Inductive source := FromUser (va : Z) | FromKernel (pa : Z) | FromLocal (bs : list Z).

Definition dest_add (d : dest) (m : Z) : dest :=
  match d with
  | ToUser va => ToUser (u64 (va + m)) | ToKernel pa => ToKernel (u64 (pa + m)) | ToLocal o => ToLocal (o + m)
  end.
Definition source_add (src : source) (m : Z) : source :=
  match src with
  | FromUser va => FromUser (u64 (va + m)) | FromKernel pa => FromKernel (u64 (pa + m))
  | FromLocal bs => FromLocal (drop (Z.to_nat m) bs)
  end.

(** ** struct superblock, struct dinode, struct dirent *)

Definition superblock_of (data : list Z) : superblock :=
  mk_superblock (word data 0) (word data 1) (word data 2) (word data 3) (word data 4) (word data 5)
    (word data 6) (word data 7).

Definition IBLOCK (i : Z) (sb : superblock) : Z := u32 (i / IPB + sb_inodestart sb).
Definition BBLOCK (b : Z) (sb : superblock) : Z := u32 (b / BPB + sb_bmapstart sb).

Definition half (data : list Z) (off : nat) : Z := le_value (slice off 2 data).
Definition sizeof_dinode : Z := 64.

(** bp->data + inum % IPB, as an array of struct dinode: an offset into the data. *)
Definition dinode_off (inum : Z) : nat := Z.to_nat (inum mod IPB * sizeof_dinode).

Definition dip_type (data : list Z) (off : nat) : Z := i16 (half data off).
Definition dip_nlink (data : list Z) (off : nat) : Z := i16 (half data (off + 6)).
Definition dip_addrs (data : list Z) (off : nat) : list Z :=
  (λ k, le_value (slice (off + 12 + 4 * k) 4 data)) <$> seq 0 (Z.to_nat (NDIRECT + 1)).

(** The on-disk bytes of an inode. *)
Definition dinode_bytes (ip : inode) : list Z :=
  le_bytes 2 (i_type ip) ++ le_bytes 2 (i_major ip) ++ le_bytes 2 (i_minor ip) ++
  le_bytes 2 (i_nlink ip) ++ le_bytes 4 (i_size ip) ++ (i_addrs ip ≫= le_bytes 4).

(** The fields that ilock() copies from the disk inode. *)
Definition load_dinode (data : list Z) (off : nat) (ip : inode) : inode :=
  set_i_addrs (dip_addrs data off) (set_i_size (le_value (slice (off + 8) 4 data))
    (set_i_nlink (dip_nlink data off) (set_i_minor (i16 (half data (off + 4)))
      (set_i_major (i16 (half data (off + 2))) (set_i_type (dip_type data off) ip))))).

Definition sizeof_dirent : Z := 16.
Definition de_inum (de : list Z) : Z := half de 0.
Definition de_name (de : list Z) : list Z := slice 2 (Z.to_nat DIRSIZ) de.
Definition dirent_bytes (inum : Z) (name : list Z) : list Z := le_bytes 2 inum ++ name.

(** ** The free bitmap *)

(** data[bi/8] & (1 << (bi % 8)) *)
Definition bit_free (data : list Z) (bi : Z) : bool :=
  Z.land (data !!! Z.to_nat (bi / 8)) (Z.shiftl 1 (bi mod 8)) =? 0.
Definition bit_set (bi : Z) (data : list Z) : list Z :=
  alter (λ v, u8 (Z.lor v (Z.shiftl 1 (bi mod 8)))) (Z.to_nat (bi / 8)) data.
Definition bit_clear (bi : Z) (data : list Z) : list Z :=
  alter (λ v, u8 (Z.land v (Z.lnot (Z.shiftl 1 (bi mod 8))))) (Z.to_nat (bi / 8)) data.

(** for(bi = 0; bi < BPB && b + bi < sb.size; bi++): the first free bit. *)
Fixpoint scan_bits (fuel : nat) (data : list Z) (b size bi : Z) : option Z :=
  match fuel with
  | O => None
  | S fuel =>
      if (bi <? BPB) && (u32 (b + bi) <? size) then
        if bit_free data bi then Some bi else scan_bits fuel data b size (bi + 1)
      else None
  end.

(** ** Names *)

(** Bytes of a path up to its terminating NUL; [name] is the caller's buffer of
    DIRSIZ bytes. *)
Fixpoint skip_slashes (path : list Z) : list Z :=
  match path with c :: rest => if c =? chr "/" then skip_slashes rest else path | [] => [] end.

Fixpoint elem_len (path : list Z) : nat :=
  match path with c :: rest => if c =? chr "/" then O else S (elem_len rest) | [] => O end.

Definition skipelem (path name : list Z) : option (list Z * list Z) :=
  let path := skip_slashes path in
  match path with
  | [] => None
  | _ =>
      let len := elem_len path in
      let s := take len path in
      let name' := if DIRSIZ <=? Z.of_nat len then splice 0 (take (Z.to_nat DIRSIZ) s) name
                   else splice 0 (s ++ [0]) name in
      Some (skip_slashes (drop len path), name')
  end.

Definition namecmp (s t : list Z) : Z := strncmp (view s) (view t) DIRSIZ.

(** ** The in-memory inode table *)

Definition iinit : K () :=
  initlock L_itable;;
  for_ (seq 0 (Z.to_nat NINODE)) (λ i, initsleeplock (SL_inode i)).

(** The scan of iget(): the entry of the inode, or the first empty entry. *)
Fixpoint iget_scan (l : list inode) (i : nat) (dev inum : Z) (empty : option nat) : nat + option nat :=
  match l with
  | [] => inr empty
  | ip :: l =>
      if (0 <? i_ref ip) && (i_dev ip =? dev) && (i_inum ip =? inum) then inl i else
      iget_scan l (S i) dev inum
        (if bool_decide (empty = None) && (i_ref ip =? 0) then Some i else empty)
  end.

Definition iget (dev inum : Z) : K nat :=
  acquire L_itable;;
  table ← gets (λ s, k_inodes s);
  match iget_scan table 0 dev inum None with
  | inl i =>
      upd_inode i (λ ip, set_i_ref (i32 (i_ref ip + 1)) ip);;
      release L_itable;;
      mret i
  | inr None => panic "iget: no inodes"
  | inr (Some i) =>
      upd_inode i (set_i_dev dev);;
      upd_inode i (set_i_inum inum);;
      upd_inode i (set_i_ref 1);;
      upd_inode i (set_i_valid 0);;
      release L_itable;;
      mret i
  end.

Definition idup (ip : nat) : K nat :=
  acquire L_itable;;
  upd_inode ip (λ ip, set_i_ref (i32 (i_ref ip + 1)) ip);;
  release L_itable;;
  mret ip.

Definition iunlock (ip : option nat) : K () :=
  match ip with
  | None => panic "iunlock"
  | Some i =>
      h ← holdingsleep (SL_inode i);
      x ← get_inode i;
      if negb h || (i_ref x <? 1) then panic "iunlock" else
      releasesleep (SL_inode i)
  end.

(** struct stat, with the four bytes of padding that stati() leaves as they are. *)
Definition stat_bytes (pad : list Z) (ip : inode) : list Z :=
  le_bytes 4 (i_dev ip) ++ le_bytes 4 (i_inum ip) ++ le_bytes 2 (i_type ip) ++
  le_bytes 2 (i_nlink ip) ++ pad ++ le_bytes 8 (i_size ip).

Section fs.
Context {LY : Layout} {W : Wakeups} {BD : BlockDev}.

(** [var] is the variable that a [ToLocal] destination points into; a store
    outside it is undefined. *)
Definition either_copyout (dst : dest) (var src : list Z) : K (Z * list Z) :=
  i ← curproc;
  match dst with
  | ToUser va =>
      p ← get_proc i;
      r ← copyout (p_pagetable p) va src;
      mret (r, var)
  | ToKernel pa =>
      modify (λ s, set_mem (store (k_mem s) pa src) s);;
      mret (0, var)
  | ToLocal o =>
      if (0 <=? o) && (o + Z.of_nat (length src) <=? Z.of_nat (length var))
      then mret (0, splice (Z.to_nat o) src var) else undefined
  end.

(** The bytes that reach the destination come with the result, also when the
    copy fails half-way. *)
Definition either_copyin (src : source) (len : Z) : K (Z * list Z) :=
  i ← curproc;
  match src with
  | FromUser va =>
      p ← get_proc i;
      copyin (p_pagetable p) va len
  | FromKernel pa =>
      bs ← gets (λ s, bytes_at (k_mem s) pa (Z.to_nat len));
      mret (0, bs)
  | FromLocal bs => mret (0, take (Z.to_nat len) bs)
  end.

(** ** Blocks *)

Definition readsb (dev : Z) : K () :=
  bp ← bread (u32 dev) 1;
  x ← get_buf bp;
  modify (set_sb (superblock_of (b_data x)));;
  brelse bp.

Definition bzero (dev bno : Z) : K () :=
  bp ← bread (u32 dev) (u32 bno);
  upd_buf bp (set_b_data (replicate (Z.to_nat BSIZE) 0));;
  log_write bp;;
  brelse bp.

Definition balloc (dev : Z) : K Z :=
  sb ← gets (λ s, k_sb s);
  loop (Z.to_nat (sb_size sb / BPB) + 2) (λ b,
    if negb (u32 b <? sb_size sb) then
      printf (str "balloc: out of blocks" ++ [10]) [];;
      mret (inr 0)
    else
      bp ← bread dev (BBLOCK b sb);
      x ← get_buf bp;
      match scan_bits (S (Z.to_nat BPB)) (b_data x) b (sb_size sb) 0 with
      | Some bi =>
          upd_buf bp (λ x, set_b_data (bit_set bi (b_data x)) x);;
          log_write bp;;
          brelse bp;;
          bzero dev (b + bi);;
          mret (inr (u32 (b + bi)))
      | None =>
          brelse bp;;
          mret (inl (i32 (b + BPB)))
      end) 0.

Definition bfree (dev b : Z) : K () :=
  sb ← gets (λ s, k_sb s);
  bp ← bread (u32 dev) (BBLOCK b sb);
  let bi := b mod BPB in
  x ← get_buf bp;
  if bit_free (b_data x) bi then panic "freeing free block" else
  upd_buf bp (λ x, set_b_data (bit_clear bi (b_data x)) x);;
  log_write bp;;
  brelse bp.

(** ** Inodes *)

(** dip->type = type, after memset(dip, 0, sizeof( *dip )). *)
Definition fresh_dinode (type : Z) : list Z :=
  splice 0 (le_bytes 2 type) (replicate (Z.to_nat sizeof_dinode) 0).

Definition ialloc (dev type : Z) : K (option nat) :=
  sb ← gets (λ s, k_sb s);
  loop (S (Z.to_nat (sb_ninodes sb))) (λ inum,
    if negb (u32 inum <? sb_ninodes sb) then
      printf (str "ialloc: no inodes" ++ [10]) [];;
      mret (inr None)
    else
      bp ← bread dev (IBLOCK inum sb);
      x ← get_buf bp;
      let off := dinode_off inum in
      if dip_type (b_data x) off =? 0 then
        upd_buf bp (λ x, set_b_data (splice off (fresh_dinode type) (b_data x)) x);;
        log_write bp;;
        brelse bp;;
        i ← iget dev (u32 inum);
        mret (inr (Some i))
      else
        brelse bp;;
        mret (inl (i32 (inum + 1)))) 1.

Definition iupdate (ip : nat) : K () :=
  sb ← gets (λ s, k_sb s);
  x ← get_inode ip;
  bp ← bread (i_dev x) (IBLOCK (i_inum x) sb);
  x ← get_inode ip;
  upd_buf bp (λ b, set_b_data (splice (dinode_off (i_inum x)) (dinode_bytes x) (b_data b)) b);;
  log_write bp;;
  brelse bp.

Definition ilock (ip : option nat) : K () :=
  match ip with
  | None => panic "ilock"
  | Some i =>
      x ← get_inode i;
      if i_ref x <? 1 then panic "ilock" else
      acquiresleep (SL_inode i);;
      x ← get_inode i;
      if negb (i_valid x =? 0) then mret tt else
      sb ← gets (λ s, k_sb s);
      bp ← bread (i_dev x) (IBLOCK (i_inum x) sb);
      b ← get_buf bp;
      upd_inode i (load_dinode (b_data b) (dinode_off (i_inum x)));;
      brelse bp;;
      upd_inode i (set_i_valid 1);;
      x ← get_inode i;
      if i_type x =? 0 then panic "ilock: no type" else mret tt
  end.

(** ** Inode content *)

(** The indirect block: entry [bn], allocated when it is 0. *)
Definition bmap_indirect (dev addr : Z) (bn : nat) : K Z :=
  bp ← bread dev addr;
  x ← get_buf bp;
  let a := word (b_data x) bn in
  r ← (if a =? 0 then
         a ← balloc dev;
         when (negb (a =? 0)) (
           upd_buf bp (λ x, set_b_data (set_word bn a (b_data x)) x);;
           log_write bp);;
         mret a
       else mret a);
  brelse bp;;
  mret r.

(** ip->addrs[k], allocated when it is 0. *)
Definition bmap_direct (ip k : nat) : K Z :=
  x ← get_inode ip;
  let addr := i_addrs x !!! k in
  if negb (addr =? 0) then mret addr else
  addr ← balloc (i_dev x);
  if addr =? 0 then mret 0 else
  upd_inode ip (λ x, set_i_addrs (<[k := addr]> (i_addrs x)) x);;
  mret addr.

Definition bmap (ip : nat) (bn : Z) : K Z :=
  if bn <? NDIRECT then bmap_direct ip (Z.to_nat bn)
  else
    let bn := bn - NDIRECT in
    if bn <? NINDIRECT then
      addr ← bmap_direct ip (Z.to_nat NDIRECT);
      if addr =? 0 then mret 0 else
      x ← get_inode ip;
      bmap_indirect (i_dev x) addr (Z.to_nat bn)
    else panic "bmap: out of range".

Definition itrunc (ip : nat) : K () :=
  for_ (seq 0 (Z.to_nat NDIRECT)) (λ i,
    x ← get_inode ip;
    when (negb (i_addrs x !!! i =? 0)) (
      bfree (i_dev x) (i_addrs x !!! i);;
      upd_inode ip (λ x, set_i_addrs (<[i := 0]> (i_addrs x)) x)));;
  x ← get_inode ip;
  when (negb (i_addrs x !!! Z.to_nat NDIRECT =? 0)) (
    bp ← bread (i_dev x) (i_addrs x !!! Z.to_nat NDIRECT);
    for_ (seq 0 (Z.to_nat NINDIRECT)) (λ j,
      b ← get_buf bp;
      when (negb (word (b_data b) j =? 0)) (bfree (i_dev x) (word (b_data b) j)));;
    brelse bp;;
    bfree (i_dev x) (i_addrs x !!! Z.to_nat NDIRECT);;
    upd_inode ip (λ x, set_i_addrs (<[Z.to_nat NDIRECT := 0]> (i_addrs x)) x));;
  upd_inode ip (set_i_size 0);;
  iupdate ip.

Definition iput (ip : nat) : K () :=
  acquire L_itable;;
  x ← get_inode ip;
  when ((i_ref x =? 1) && negb (i_valid x =? 0) && (i_nlink x =? 0)) (
    acquiresleep (SL_inode ip);;
    release L_itable;;
    itrunc ip;;
    upd_inode ip (set_i_type 0);;
    iupdate ip;;
    upd_inode ip (set_i_valid 0);;
    releasesleep (SL_inode ip);;
    acquire L_itable);;
  upd_inode ip (λ x, set_i_ref (i32 (i_ref x - 1)) x);;
  release L_itable.

Definition iunlockput (ip : nat) : K () :=
  iunlock (Some ip);;
  iput ip.

Definition ireclaim (dev : Z) : K () :=
  sb ← gets (λ s, k_sb s);
  loop (S (Z.to_nat (sb_ninodes sb))) (λ inum,
    if negb (u32 inum <? sb_ninodes sb) then mret (inr tt) else
    bp ← bread (u32 dev) (IBLOCK inum sb);
    x ← get_buf bp;
    let off := dinode_off inum in
    ip ← (if negb (dip_type (b_data x) off =? 0) && (dip_nlink (b_data x) off =? 0) then
            printf (str "ireclaim: orphaned inode %d" ++ [10]) [AWord inum];;
            i ← iget (u32 dev) (u32 inum);
            mret (Some i)
          else mret None);
    brelse bp;;
    match ip with
    | Some i =>
        begin_op;;
        ilock (Some i);;
        iunlock (Some i);;
        iput i;;
        end_op
    | None => mret tt
    end;;
    mret (inl (i32 (inum + 1)))) 1.

Definition fsinit (dev : Z) : K () :=
  readsb dev;;
  sb ← gets (λ s, k_sb s);
  if negb (sb_magic sb =? FSMAGIC) then panic "invalid file system" else
  initlog dev;;
  ireclaim dev.

(** Each iteration of the copying loops of readi() and writei() finishes a block
    or the request. *)
Definition rw_fuel (n : Z) : nat := Z.to_nat (n / BSIZE) + 3.

(** m = min(n - tot, BSIZE - off%BSIZE) *)
Definition rw_len (n tot off : Z) : Z := Z.min (u32 (n - tot)) (BSIZE - off mod BSIZE).

Definition readi_step (ip : nat) (n : Z) (st : Z * Z * dest * list Z) :
    K ((Z * Z * dest * list Z) + (Z * list Z)) :=
  let '(tot, off, dst, var) := st in
  if negb (tot <? n) then mret (inr (tot, var)) else
  addr ← bmap ip (off / BSIZE);
  if addr =? 0 then mret (inr (tot, var)) else
  x ← get_inode ip;
  bp ← bread (i_dev x) addr;
  let m := rw_len n tot off in
  b ← get_buf bp;
  r ← either_copyout dst var (slice (Z.to_nat (off mod BSIZE)) (Z.to_nat m) (b_data b));
  if r.1 =? -1 then
    brelse bp;;
    mret (inr (-1, r.2))
  else
    brelse bp;;
    mret (inl (u32 (tot + m), u32 (off + m), dest_add dst m, r.2)).

(** The second component is the variable [var] afterwards. *)
Definition readi (ip : nat) (dst : dest) (var : list Z) (off n : Z) : K (Z * list Z) :=
  x ← get_inode ip;
  if (i_size x <? off) || (u32 (off + n) <? off) then mret (0, var) else
  let n := if i_size x <? u32 (off + n) then u32 (i_size x - off) else n in
  r ← loop (rw_fuel n) (readi_step ip n) (0, off, dst, var);
  mret (i32 r.1, r.2).

Definition writei_step (ip : nat) (n : Z) (st : Z * Z * source) : K ((Z * Z * source) + (Z * Z)) :=
  let '(tot, off, src) := st in
  if negb (tot <? n) then mret (inr (tot, off)) else
  addr ← bmap ip (off / BSIZE);
  if addr =? 0 then mret (inr (tot, off)) else
  x ← get_inode ip;
  bp ← bread (i_dev x) addr;
  let m := rw_len n tot off in
  r ← either_copyin src m;
  upd_buf bp (λ b, set_b_data (splice (Z.to_nat (off mod BSIZE)) r.2 (b_data b)) b);;
  if r.1 =? -1 then
    brelse bp;;
    mret (inr (tot, off))
  else
    log_write bp;;
    brelse bp;;
    mret (inl (u32 (tot + m), u32 (off + m), source_add src m)).

Definition writei (ip : nat) (src : source) (off n : Z) : K Z :=
  x ← get_inode ip;
  if (i_size x <? off) || (u32 (off + n) <? off) then mret (-1) else
  if MAXFILE * BSIZE <? u32 (off + n) then mret (-1) else
  r ← loop (rw_fuel n) (writei_step ip n) (0, off, src);
  let '(tot, off) := r in
  x ← get_inode ip;
  when (i_size x <? off) (upd_inode ip (set_i_size off));;
  iupdate ip;;
  mret (i32 tot).

(** ** Directories *)

(** An uninitialised variable of [n] bytes.  Its contents are looked at only
    when readi() has filled all of it. *)
Definition local_var (n : Z) : list Z := replicate (Z.to_nat n) 0.

(** The directory entry at [off]. *)
Definition read_dirent (msg : string) (dp : nat) (off : Z) : K (list Z) :=
  r ← readi dp (ToLocal 0) (local_var sizeof_dirent) off sizeof_dirent;
  if negb (r.1 =? sizeof_dirent) then panic msg else mret r.2.

Definition dir_fuel (size : Z) : nat := Z.to_nat (size / sizeof_dirent) + 2.

(** The inode of the entry, and its offset for *poff. *)
Definition dirlookup (dp : nat) (name : list Z) : K (option (nat * Z)) :=
  x ← get_inode dp;
  if negb (i_type x =? T_DIR) then panic "dirlookup not DIR" else
  loop (dir_fuel (i_size x)) (λ off,
    x ← get_inode dp;
    if negb (off <? i_size x) then mret (inr None) else
    de ← read_dirent "dirlookup read" dp off;
    if de_inum de =? 0 then mret (inl (u32 (off + sizeof_dirent))) else
    if namecmp name (de_name de) =? 0 then
      x ← get_inode dp;
      i ← iget (i_dev x) (de_inum de);
      mret (inr (Some (i, off)))
    else mret (inl (u32 (off + sizeof_dirent)))) 0.

Definition dirlink (dp : nat) (name : list Z) (inum : Z) : K Z :=
  r ← dirlookup dp name;
  match r with
  | Some (ip, _) =>
      iput ip;;
      mret (-1)
  | None =>
      x ← get_inode dp;
      off ← loop (dir_fuel (i_size x)) (λ off,
        x ← get_inode dp;
        if negb (u32 off <? i_size x) then mret (inr off) else
        de ← read_dirent "dirlink read" dp (u32 off);
        if de_inum de =? 0 then mret (inr off) else mret (inl (i32 (off + sizeof_dirent)))) 0;
      let de := dirent_bytes inum (buffer (Z.to_nat DIRSIZ) (strncpy (view []) (view name) DIRSIZ)) in
      r ← writei dp (FromLocal de) (u32 off) sizeof_dirent;
      mret (if negb (r =? sizeof_dirent) then -1 else 0)
  end.

(** ** Paths *)

Definition namex_step (nameiparent : bool) (st : nat * list Z * list Z) :
    K ((nat * list Z * list Z) + (option nat * list Z)) :=
  let '(ip, path, name) := st in
  match skipelem path name with
  | None =>
      if nameiparent then
        iput ip;;
        mret (inr (None, name))
      else mret (inr (Some ip, name))
  | Some (path, name) =>
      ilock (Some ip);;
      x ← get_inode ip;
      if negb (i_type x =? T_DIR) then
        iunlockput ip;;
        mret (inr (None, name))
      else if nameiparent && bool_decide (path = []) then
        iunlock (Some ip);;
        mret (inr (Some ip, name))
      else
        next ← dirlookup ip name;
        match next with
        | None =>
            iunlockput ip;;
            mret (inr (None, name))
        | Some (next, _) =>
            iunlockput ip;;
            mret (inl (next, path, name))
        end
  end.

(** Every round takes at least one byte off the path. *)
Definition namex (path : list Z) (nameiparent : bool) (name : list Z) : K (option nat * list Z) :=
  ip ← (if bool_decide (path !! 0%nat = Some (chr "/")) then iget ROOTDEV ROOTINO
        else
          i ← curproc;
          p ← get_proc i;
          match p_cwd p with Some c => idup c | None => panic "kerneltrap" end);
  loop (S (length path)) (namex_step nameiparent) (ip, path, name).

Definition zero_name : list Z := replicate (Z.to_nat DIRSIZ) 0.

Definition namei (path : list Z) : K (option nat) :=
  r ← namex path false zero_name;
  mret r.1.

Definition nameiparent (path name : list Z) : K (option nat * list Z) := namex path true name.
End fs.

(** ** The bytes of a disk inode *)

Lemma words_length (l : list Z) : length (l ≫= le_bytes 4) = (4 * length l)%nat.
Proof.
  induction l as [|x l IH]; [done|]. change ((x :: l) ≫= le_bytes 4) with (le_bytes 4 x ++ (l ≫= le_bytes 4)).
  rewrite length_app, le_bytes_length, IH. cbn. lia.
Qed.

Lemma dinode_bytes_length x :
  length (i_addrs x) = Z.to_nat (NDIRECT + 1) → length (dinode_bytes x) = Z.to_nat sizeof_dinode.
Proof.
  intros Hx. unfold dinode_bytes. rewrite !length_app, !le_bytes_length, words_length, Hx. reflexivity.
Qed.

Lemma dinode_off_bound i : (dinode_off i + Z.to_nat sizeof_dinode ≤ Z.to_nat BSIZE)%nat.
Proof. unfold dinode_off, sizeof_dinode. change IPB with 16. change BSIZE with 1024. dlia. Qed.
