(* ===== verification/Paths.v ===== *)
(** Path names: skipelem() of kernel/fs.c takes a path apart at its slashes. *)

From Stdlib Require Import ZArith Lia ZifyBool Ascii.
From stdpp Require Import base numbers list strings.
From S2P Require Import Prelude Params Machine CString Fs.

(** The pieces of a path between slashes, empty ones included. *)
Fixpoint pieces (path : list Z) : list (list Z) :=
  match path with
  | [] => [[]]
  | c :: path =>
      if c =? chr "/" then [] :: pieces path
      else match pieces path with e :: es => (c :: e) :: es | [] => [[c]] end
  end.

(** The elements of a path. *)
Definition elems (path : list Z) : list (list Z) := filter (λ e, e ≠ []) (pieces path).

Lemma elems_slash path : elems (chr "/" :: path) = elems path.
Proof. unfold elems. cbn [pieces]. rewrite Z.eqb_refl. done. Qed.

Lemma elems_skip path : elems (skip_slashes path) = elems path.
Proof.
  induction path as [|c path IH]; [done|]. cbn [skip_slashes]. destruct (Z.eqb_spec c (chr "/")) as [->|]; [|done].
  by rewrite IH, elems_slash.
Qed.

Lemma skip_head path : head (skip_slashes path) ≠ Some (chr "/").
Proof.
  induction path as [|c path IH]; [done|]. cbn [skip_slashes]. destruct (Z.eqb_spec c (chr "/")) as [->|Hne]; [done|].
  cbn. congruence.
Qed.

Lemma skip_length path : (length (skip_slashes path) ≤ length path)%nat.
Proof. induction path as [|c path IH]; [done|]. cbn. destruct (c =? chr "/"); cbn; lia. Qed.

(** The first piece is what comes before the first slash. *)
Lemma pieces_first path :
  ∃ es, pieces path = take (elem_len path) path :: es ∧ pieces (drop (elem_len path) path) = [] :: es.
Proof.
  induction path as [|c path IH]; [by exists []|]. cbn [elem_len pieces].
  destruct (c =? chr "/") eqn:E.
  - eexists. split; [done|]. cbn [drop pieces]. by rewrite E.
  - destruct IH as (es & H1 & H2). exists es. cbn [take drop]. by rewrite H1, H2.
Qed.

Lemma elem_len_pos path : path ≠ [] → head path ≠ Some (chr "/") → (0 < elem_len path ≤ length path)%nat.
Proof.
  destruct path as [|c path]; [done|]. intros _ Hc. cbn [head] in Hc. cbn [elem_len].
  destruct (Z.eqb_spec c (chr "/")) as [->|]; [done|]. split; [lia|].
  assert (H : ∀ p, (elem_len p ≤ length p)%nat) by (induction p as [|d p IH]; cbn; [lia|destruct (d =? chr "/"); lia]).
  cbn. specialize (H path). lia.
Qed.

Lemma take_splice (bs l : list Z) n : (length bs ≤ length l)%nat → n = length bs → take n (splice 0 bs l) = bs.
Proof. intros Hl ->. unfold splice. rewrite take_0, app_nil_l. by rewrite take_app_length. Qed.

(** C29: skipelem() splits a path.  It fails exactly on paths without
    elements; otherwise it stores the first element in the name buffer, cut off
    at DIRSIZ bytes and NUL-terminated when it is shorter, and returns a strictly
    shorter path that has the remaining elements and no leading slash, so that
    the loop of namex() visits the elements in order. *)
Theorem skipelem_splits_path path name :
  length name = Z.to_nat DIRSIZ →
  match skipelem path name with
  | None => elems path = []
  | Some (rest, name') =>
      ∃ e, elems path = e :: elems rest ∧ length name' = length name ∧
        (if Z.of_nat (length e) <? DIRSIZ then take (length e + 1) name' = e ++ [0] else name' = take (Z.to_nat DIRSIZ) e) ∧
        head rest ≠ Some (chr "/") ∧ (length rest < length path)%nat
  end.
Proof.
  intros Hn. unfold skipelem. rewrite <-(elems_skip path). pose proof (skip_length path) as Hlen. pose proof (skip_head path) as Hhead.
  destruct (skip_slashes path) as [|c q] eqn:Ep; [done|]. cbn zeta. set (p := c :: q) in *.
  pose proof (elem_len_pos p ltac:(done) Hhead) as Hel. destruct (pieces_first p) as (es & H1 & H2).
  set (len := elem_len p) in *. set (e := take len p) in *. assert (Hle : length e = len) by (apply length_take_le; lia).
  assert (He : e ≠ []) by (intros E; apply (f_equal length) in E; rewrite Hle in E; change (length []) with 0%nat in E; lia).
  exists e. split_and!.
  - rewrite elems_skip. unfold elems. rewrite H1, H2, !filter_cons, decide_True by done.
    by rewrite decide_False by tauto.
  - destruct (DIRSIZ <=? Z.of_nat len) eqn:Ed; apply splice_length; rewrite ?length_take, ?length_app; cbn [length]; lia.
  - rewrite Hle. destruct (DIRSIZ <=? Z.of_nat len) eqn:Ed.
    + replace (Z.of_nat len <? DIRSIZ) with false by lia. assert (Ht : length (take (Z.to_nat DIRSIZ) e) = length name) by (rewrite length_take_le; lia).
      unfold splice. cbn [take Nat.add app]. by rewrite Ht, drop_all, app_nil_r.
    + replace (Z.of_nat len <? DIRSIZ) with true by lia. apply take_splice; rewrite length_app; cbn [length]; lia.
  - apply skip_head.
  - pose proof (skip_length (drop len p)) as Hd. rewrite length_drop in Hd. lia.
Qed.

(** The path a//b of two elements. *)
Lemma skipelem_splits_path_witness :
  ∃ e, elems [97; 47; 47; 98] = e :: elems [98] ∧ length (97 :: replicate 13 0) = 14%nat ∧
    (if Z.of_nat (length e) <? DIRSIZ then take (length e + 1) (97 :: replicate 13 0) = e ++ [0]
     else 97 :: replicate 13 0 = take (Z.to_nat DIRSIZ) e) ∧
    head [98] ≠ Some (chr "/") ∧ (length [98%Z] < length [97; 47; 47; 98]%Z)%nat.
Proof. apply (skipelem_splits_path [97; 47; 47; 98] (replicate 14 0)). reflexivity. Defined.
