(* ===== verification/FsSpec.v ===== *)
(** Buffers and the block allocator of kernel/fs.c, balloc() and bfree(), for code
    that runs inside a transaction. *)

From Stdlib Require Import ZArith Lia ZifyBool.
From stdpp Require Import base numbers list gmap strings.
From S2P Require Import Prelude Params Machine Spinlock CString Printf Sched Kalloc Vm Sleeplock Idle Bio BufCache CacheSpec Log LogSpec Fs.

(** ** Locked buffers inside a transaction *)

(** The parts of the state that block operations change. *)
Definition only_bufs (s t : kstate) : Prop := ∃ bufs lg, t = set_log lg (set_bufs bufs s).

Lemma only_bufs_refl s : only_bufs s s.
Proof. by exists (k_bufs s), (k_log s). Qed.

Lemma only_bufs_set s bufs : only_bufs s (set_bufs bufs s).
Proof. by exists bufs, (k_log s). Qed.

Lemma only_bufs_trans s t u : only_bufs s t → only_bufs t u → only_bufs s u.
Proof. intros (b1 & l1 & ->) (b2 & l2 & ->). by exists b2, l2. Qed.

Section held.
Context {W : Wakeups} {BD : BlockDev} {SD : SyncDisk}.
Context (me : nat) (dev start : Z) (Hdev : dev ≠ 0).
Implicit Types (s t : kstate) (a : acache) (V B : Z → list Z) (bl hs : list Z).

(** The blocks [hs] are locked, with those of [bl] pinned in the transaction. *)
Record at_held s bl hs V B : Prop := {
  ah_cache : ∃ a, cached me dev s a ∧
    (∀ y, refs a y = (if bool_decide (y ∈ bl) then 1 else 0) + (if bool_decide (y ∈ hs) then 1 else 0)) ∧
    (∀ y, y ∈ ac_held a ↔ y ∈ hs) ∧ ac_view a = V;
  ah_blocks : k_blocks s = B;
  ah_lock : k_locks s !! L_log = None;
  ah_noff : c_noff (cur_cpu s) = 0;
  ah_log : log_is dev start (k_log s) bl;
  ah_txn : txn_ok start bl;
  ah_open : 1 ≤ lg_outstanding (k_log s);
}.

(** The buffer of a locked block. *)
Definition buf_of s (b : nat) (bn : Z) : Prop := is_buf dev (k_bufs s) b bn.

(** Locked buffers stay where they are. *)
Definition keeps hs s t : Prop := only_bufs s t ∧ ∀ b bn, bn ∈ hs → buf_of s b bn → buf_of t b bn.

Lemma keeps_refl hs s : keeps hs s s.
Proof. split; [apply only_bufs_refl|done]. Qed.

Lemma keeps_trans hs s t u : keeps hs s t → keeps hs t u → keeps hs s u.
Proof. intros [H1 H2] [H3 H4]. split; [by eapply only_bufs_trans|]. auto. Qed.

Lemma keeps_sub hs hs' s t : (∀ y, y ∈ hs' → y ∈ hs) → keeps hs s t → keeps hs' s t.
Proof. intros Hs [H1 H2]. split; [done|]. auto. Qed.

Lemma at_held_rest s bl V B :
  at_held s bl [] V B ↔
  at_rest me dev s bl V B ∧ log_is dev start (k_log s) bl ∧ txn_ok start bl ∧ 1 ≤ lg_outstanding (k_log s).
Proof.
  split.
  - intros [(a & Hc & Hr & Hh & Hv) HB Hlk Hno Hl Ht Ho]. split_and!; try done. split; try done. exists a.
    split_and!; try done; [intros y; rewrite Hr, (bool_decide_false (y ∈ [])) by apply not_elem_of_nil; lia|]. intros y Hy%Hh. by apply not_elem_of_nil in Hy.
  - intros ([(a & Hc & Hr & Hh & Hv) HB Hlk Hno] & Hl & Ht & Ho). split; try done. exists a. split_and!; try done.
    + intros y. rewrite Hr, (bool_decide_false (y ∈ [])) by apply not_elem_of_nil. lia.
    + intros y. split; [by intros ?%Hh|by intros ?%not_elem_of_nil].
Qed.

(** A change of the state outside the cache, the log and the disk. *)
Lemma at_held_same s t bl hs V B :
  same_procs s t → k_bufs t = k_bufs s → k_blocks t = k_blocks s → k_log t = k_log s →
  at_held s bl hs V B → at_held t bl hs V B.
Proof.
  intros Hp Hb Hd Hlg [(a & [Hi HR] & Ha) HB Hlk Hno Hl Ht Ho].
  split; [|congruence|by destruct Hp as [(_ & _ & ->) _]| |by rewrite Hlg|done|by rewrite Hlg].
  - exists a. split; [|done]. split; [by eapply idle_same|]. unfold my_pid. destruct Hp as [_ ->]. by rewrite Hb, Hd.
  - destruct Hp as [(E1 & E2 & _) _]. unfold cur_cpu in *. by rewrite E1, E2.
Qed.

Lemma at_held_idle s bl hs V B : at_held s bl hs V B → idle me s.
Proof. by intros [(a & [Hi _] & _) _ _ _ _ _ _]. Qed.

Lemma bread_held (C : (Z → list Z) → Prop) s bl hs V B bn :
  at_held s bl hs V B → (bn ∉ hs) → Z.of_nat (length bl) + Z.of_nat (length hs) < NBUF → C B →
  runs (λ t, C (k_blocks t)) (λ b t, at_held t bl (bn :: hs) V B ∧ buf_of t b bn ∧ keeps hs s t ∧ k_log t = k_log s) (bread dev bn s).
Proof using Hdev SD.
  intros [(a & Hc & Hr & Hh & Hv) HB Hlk Hno Hl Ht Ho] Hn Hsz HC.
  assert (Hs : (size (ac_refs a) < Z.to_nat NBUF)%nat).
  { pose proof (in_use_size me dev s (bl ++ hs) a Hc) as H. rewrite length_app in H.
    assert (size (ac_refs a) ≤ length bl + length hs)%nat; [|lia]. apply H. intros y Hy. rewrite Hr in Hy.
    apply elem_of_app. repeat case_bool_decide; [by left|by left|by right|lia]. }
  eapply runs_mono; [apply (bread_ok me dev Hdev C s a bn Hc); [by rewrite Hh|counts|by right|by rewrite HB]|done|].
  intros b t (bufs & -> & Hc1 & Hb & Hd & Hk). split_and!; [|done| |done].
  - split; try done. exists (a_get bn a). split_and!; [done| | |done].
    + intros y. rewrite refs_get, Hr. rewrite (bool_decide_ext (y ∈ bn :: hs) (y = bn ∨ y ∈ hs)) by apply elem_of_cons.
      destruct (Z.eqb_spec y bn) as [->|Hne].
      * rewrite (bool_decide_false (bn ∈ hs)), (bool_decide_true (bn = bn ∨ bn ∈ hs)) by tauto. lia.
      * rewrite (bool_decide_ext (y = bn ∨ y ∈ hs) (y ∈ hs)) by tauto. lia.
    + intros y. rewrite held_get, Hh, elem_of_cons. done.
  - split; [by exists bufs, (k_log s)|]. intros b' bn' Hin Hb'. apply Hk; [|done]. apply in_use. rewrite Hr.
    rewrite (bool_decide_true (bn' ∈ hs)) by done. case_bool_decide; lia.
Qed.

(** The data of a locked buffer. *)
Lemma held_data s bl hs V B b bn :
  at_held s bl hs V B → bn ∈ hs → buf_of s b bn → b_data (k_bufs s !!! b) = V bn.
Proof using Type.
  intros [(a & Hc & Hr & Hh & Hv) _ _ _ _ _ _] Hin Hb.
  destruct (held_buf me dev s a b bn Hc ltac:(by apply Hh) Hb) as (_ & _ & _ & E & _). by rewrite E, Hv.
Qed.

Lemma set_data_held s bl hs V B b bn f :
  at_held s bl hs V B → bn ∈ hs → buf_of s b bn →
  ∃ t, upd_buf b (λ x, set_b_data (f (b_data x)) x) s = Ok tt t ∧ at_held t bl hs (put_block bn (f (V bn)) V) B ∧
    keeps hs s t ∧ k_log t = k_log s.
Proof using Hdev.
  intros [(a & Hc & Hr & Hh & Hv) HB Hlk Hno Hl Ht Ho] Hin Hb.
  destruct (set_data_ok me dev Hdev s a b bn f Hc ltac:(by apply Hh) Hb) as (t & E & Hc' & H1 & H2 & H3 & H4).
  exists t. split; [done|]. rewrite run_upd_buf in E. injection E as <-. split_and!; [|split|done].
  - split; try done. eexists. split; [exact Hc'|]. cbn [set_view ac_held ac_view]. split_and!; [|done|by rewrite Hv].
    intros y. by rewrite refs_view.
  - apply only_bufs_set.
  - intros b' bn' _ ?. by apply H4.
Qed.

Lemma log_write_held s bl hs V B b bn :
  at_held s bl hs V B → bn ∈ hs → buf_of s b bn → txn_ok start (log_add bn bl) →
  ∃ t, log_write b s = Ok tt t ∧ at_held t (log_add bn bl) hs V B ∧ keeps hs s t.
Proof using Hdev.
  intros [(a & Hc & Hr & Hh & Hv) HB Hlk Hno Hl Ht Ho] Hin Hb Ht'.
  assert (Hbn : 0 ≤ bn < 2 ^ 31).
  { apply (tx_home _ _ Ht'). unfold log_add. case_bool_decide; [done|]. apply elem_of_app. right. by apply list_elem_of_singleton. }
  destruct (log_write_ok me dev start Hdev s a b bn bl Hc ltac:(by apply Hh) Hb) as (bufs & E & Hc' & Hid); try done; [counts|].
  eexists. split; [exact E|]. split; [|split; [by eexists _, _|intros b' bn' _ ?; by apply Hid]].
  split; try done; [| |].
  - eexists. split; [destruct Hc' as [Hi HR]; split; [by eapply idle_same, Hi|exact HR]|].
    case_bool_decide as Hin'; unfold log_add; [rewrite bool_decide_true by done; done|]. rewrite bool_decide_false by done.
    cbn [set_refs ac_held ac_view]. split_and!; [|done|done]. intros y. rewrite refs_set, !Hr.
    rewrite (bool_decide_ext (y ∈ bl ++ [bn]) (y ∈ bl ∨ y = bn)) by (by rewrite elem_of_app, list_elem_of_singleton).
    destruct (Z.eqb_spec y bn) as [->|Hne].
    + rewrite (bool_decide_true (bn ∈ bl ∨ bn = bn)), (bool_decide_false (bn ∈ bl)) by tauto. lia.
    + rewrite (bool_decide_ext (y ∈ bl ∨ y = bn) (y ∈ bl)) by tauto. lia.
  - by apply log_is_added.
  - cbn. unfold log_added. by case_bool_decide.
Qed.

Lemma brelse_held s bl hs V B b bn :
  at_held s bl (bn :: hs) V B → (bn ∉ hs) → buf_of s b bn → (bn ∈ bl ∨ V bn = B bn) →
  ∃ t, brelse b s = Ok tt t ∧ at_held t bl hs V B ∧ keeps hs s t ∧ k_log t = k_log s.
Proof using Hdev.
  intros [(a & Hc & Hr & Hh & Hv) HB Hlk Hno Hl Ht Ho] Hn Hb Hcl.
  destruct (brelse_ok me dev Hdev s a b bn Hc) as (bufs & E & Hc' & Hid); [apply Hh; left|done| |].
  { rewrite Hr, (bool_decide_true (bn ∈ bn :: hs)) by left. rewrite Hv, HB. destruct Hcl as [Hcl|Hcl]; [|done].
    rewrite bool_decide_true by done. lia. }
  eexists. split; [exact E|]. split_and!; [|split; [apply only_bufs_set|intros b' bn' _ ?; by apply Hid]|done].
  split; try done. eexists. split; [exact Hc'|]. split_and!; [| |by rewrite <-Hv].
  - intros y. rewrite refs_put, Hr. rewrite (bool_decide_ext (y ∈ bn :: hs) (y = bn ∨ y ∈ hs)) by apply elem_of_cons.
    destruct (Z.eqb_spec y bn) as [->|Hne].
    + rewrite (bool_decide_true (bn = bn ∨ bn ∈ hs)), (bool_decide_false (bn ∈ hs)) by tauto. lia.
    + rewrite (bool_decide_ext (y = bn ∨ y ∈ hs) (y ∈ hs)) by tauto. lia.
  - intros y. rewrite held_put, Hh, elem_of_cons. split; [tauto|]. intros Hy. split; [by intros ->|by right].
Qed.

(** Blocks outside the transaction are as on disk. *)
Lemma held_clean s bl V B bn : at_held s bl [] V B → bn ∈ bl ∨ V bn = B bn.
Proof using Type.
  intros [Ha _]%at_held_rest. destruct (decide (bn ∈ bl)) as [?|Hn]; [by left|right].
  by eapply at_rest_clean.
Qed.

(** A locked block is modified, logged and released. *)
Lemma put_held s bl hs V B b bn f :
  at_held s bl (bn :: hs) V B → (bn ∉ hs) → buf_of s b bn → txn_ok start (log_add bn bl) →
  ∃ t, at_held t (log_add bn bl) hs (put_block bn (f (V bn)) V) B ∧ keeps hs s t ∧
    (upd_buf b (λ x, set_b_data (f (b_data x)) x);; log_write b;; brelse b) s = Ok tt t ∧
    ∀ A (k : K A), (upd_buf b (λ x, set_b_data (f (b_data x)) x);; log_write b;; brelse b;; k) s = k t.
Proof using Hdev.
  intros Ha Hn Hb Ht. assert (Hin : bn ∈ bn :: hs) by left.
  assert (Hsub : ∀ y, y ∈ hs → y ∈ bn :: hs) by (intros; by right).
  destruct (set_data_held s bl _ V B b bn f Ha Hin Hb) as (t1 & E1 & Ha1 & Hk1 & _).
  destruct (log_write_held t1 bl _ _ B b bn Ha1 Hin) as (t2 & E2 & Ha2 & Hk2); [by apply Hk1|done|].
  destruct (brelse_held t2 _ hs _ B b bn Ha2 Hn) as (t3 & E3 & Ha3 & Hk3 & _); [by apply Hk2, Hk1| |].
  { left. unfold log_add. case_bool_decide; [done|]. apply elem_of_app. right. by apply list_elem_of_singleton. }
  exists t3. split_and!; [done| | |].
  - eapply keeps_trans, Hk3. eapply keeps_trans; eapply keeps_sub; eauto.
  - rewrite run_bind, E1. cbn [obind]. rewrite run_bind, E2. cbn [obind]. done.
  - intros A k. rewrite run_bind, E1. cbn [obind]. rewrite run_bind, E2. cbn [obind]. by rewrite run_bind, E3.
Qed.
End held.

(** ** The free bitmap *)

Lemma bit_free_spec d bi : 0 ≤ bi → bit_free d bi = negb (Z.testbit (d !!! Z.to_nat (bi / 8)) (bi mod 8)).
Proof.
  intros Hb. unfold bit_free. pose proof (Z.mod_pos_bound bi 8 ltac:(lia)) as Hm. set (k := bi mod 8) in *.
  set (v := d !!! _). destruct (Z.testbit v k) eqn:E; cbn [negb].
  - apply Z.eqb_neq. intros H. assert (Ht : Z.testbit (Z.land v (Z.shiftl 1 k)) k = true); [|by rewrite H, Z.testbit_0_l in Ht].
    rewrite Z.land_spec, E, Z.shiftl_spec, Z.sub_diag by lia. done.
  - apply Z.eqb_eq, Z.bits_inj'. intros j Hj. rewrite Z.land_spec, Z.testbit_0_l, Z.shiftl_spec by lia.
    destruct (decide (j = k)) as [->|Hne]; [by rewrite E|].
    rewrite andb_comm. replace (Z.testbit 1 (j - k)) with false; [done|]. symmetry.
    destruct (decide (j < k)); [by apply Z.testbit_neg_r; lia|]. apply Z.bits_above_log2; cbn; lia.
Qed.

Lemma testbit_one j : Z.testbit 1 j = bool_decide (j = 0).
Proof.
  case_bool_decide as H; [by subst|]. destruct (decide (j < 0)); [by apply Z.testbit_neg_r|].
  apply Z.bits_above_log2; cbn; lia.
Qed.

(** The bits of a byte whose bit [k] is assigned. *)
Lemma testbit_u8 x j : 0 ≤ j < 8 → Z.testbit (u8 x) j = Z.testbit x j.
Proof. intros Hj. unfold u8, uwrap. by rewrite Z.mod_pow2_bits_low by lia. Qed.

Lemma same_bit bi bj : 0 ≤ bi → 0 ≤ bj → bi / 8 = bj / 8 → bi mod 8 = bj mod 8 → bi = bj.
Proof. intros. rewrite (Z.div_mod bi 8), (Z.div_mod bj 8) by lia. lia. Qed.

Lemma bit_change (f : Z → Z) (v : bool) d bi bj :
  0 ≤ bi → 0 ≤ bj → (Z.to_nat (bi / 8) < length d)%nat →
  (∀ x j, 0 ≤ j < 8 → Z.testbit (f x) j = if j =? bi mod 8 then v else Z.testbit x j) →
  bit_free (alter f (Z.to_nat (bi / 8)) d) bj = if bj =? bi then negb v else bit_free d bj.
Proof.
  intros Hi Hj Hl Hf. rewrite !bit_free_spec by done. pose proof (Z.mod_pos_bound bj 8 ltac:(lia)).
  destruct (decide (Z.to_nat (bj / 8) = Z.to_nat (bi / 8))) as [E|E].
  - rewrite E. erewrite (list_lookup_total_correct (alter _ _ _)); cycle 1.
    { rewrite list_lookup_alter_eq, list_lookup_lookup_total_lt by done. done. }
    assert (E' : bj / 8 = bi / 8) by (pose proof (Z.div_pos bj 8); pose proof (Z.div_pos bi 8); lia).
    rewrite Hf by done. destruct (Z.eqb_spec bj bi) as [->|Hne]; [by rewrite Z.eqb_refl|].
    destruct (Z.eqb_spec (bj mod 8) (bi mod 8)); [|done]. destruct Hne. by apply same_bit.
  - rewrite (list_lookup_total_alt (alter _ _ _)), list_lookup_alter_ne, <-list_lookup_total_alt by done.
    destruct (Z.eqb_spec bj bi) as [->|Hne]; done.
Qed.

Lemma bit_set_free d bi bj :
  0 ≤ bi → 0 ≤ bj → (Z.to_nat (bi / 8) < length d)%nat →
  bit_free (bit_set bi d) bj = if bj =? bi then false else bit_free d bj.
Proof.
  intros Hi Hj Hl. apply (bit_change _ true); try done. intros x j Hr. pose proof (Z.mod_pos_bound bi 8 ltac:(lia)).
  rewrite testbit_u8, Z.lor_spec, Z.shiftl_spec, testbit_one by lia.
  destruct (Z.eqb_spec j (bi mod 8)) as [->|Hne]; [by rewrite bool_decide_true, orb_true_r by lia|].
  by rewrite bool_decide_false, orb_false_r by lia.
Qed.

Lemma bit_clear_free d bi bj :
  0 ≤ bi → 0 ≤ bj → (Z.to_nat (bi / 8) < length d)%nat →
  bit_free (bit_clear bi d) bj = if bj =? bi then true else bit_free d bj.
Proof.
  intros Hi Hj Hl. apply (bit_change _ false); try done. intros x j Hr. pose proof (Z.mod_pos_bound bi 8 ltac:(lia)).
  rewrite testbit_u8, Z.land_spec, Z.lnot_spec, Z.shiftl_spec, testbit_one by lia.
  destruct (Z.eqb_spec j (bi mod 8)) as [->|Hne]; [by rewrite bool_decide_true, andb_false_r by lia|].
  by rewrite bool_decide_false, andb_true_r by lia.
Qed.

Lemma scan_bits_spec fuel d b size bi :
  0 ≤ b → b + BPB < 2 ^ 32 → 0 ≤ bi → BPB ≤ bi + Z.of_nat fuel →
  match scan_bits fuel d b size bi with
  | Some r => bi ≤ r < BPB ∧ b + r < size ∧ bit_free d r = true ∧ ∀ j, bi ≤ j < r → bit_free d j = false
  | None => ∀ j, bi ≤ j < BPB → b + j < size → bit_free d j = false
  end.
Proof.
  revert bi. induction fuel as [|fuel IH]; intros bi Hb Hbb Hbi Hf; cbn [scan_bits]; [lia|].
  destruct (bi <? BPB) eqn:E1; cbn [andb]; [|lia]. rewrite u32_small by lia.
  destruct (b + bi <? size) eqn:E2; [|lia]. destruct (bit_free d bi) eqn:E3.
  - split_and!; try lia; done.
  - specialize (IH (bi + 1) Hb Hbb ltac:(lia) ltac:(lia)). destruct (scan_bits fuel d b size (bi + 1)) as [r|].
    + destruct IH as (H1 & H2 & H3 & H4). split_and!; [lia..|]. intros j Hj.
      destruct (decide (j = bi)) as [->|]; [done|]. apply H4. lia.
    + intros j Hj Hs. destruct (decide (j = bi)) as [->|]; [done|]. apply IH; lia.
Qed.

(** The blocks that are free according to the bitmap. *)
Definition is_free (sb : superblock) (V : Z → list Z) (n : Z) : bool := bit_free (V (BBLOCK n sb)) (n mod BPB).

(** The bitmap covers the disk, lies outside the log, and marks the log's and its
    own blocks as used. *)
Record bitmap_ok (start : Z) (sb : superblock) (V : Z → list Z) : Prop := {
  bo_size : 0 ≤ sb_size sb < 2 ^ 30;
  bo_start : 0 ≤ sb_bmapstart sb < 2 ^ 30;
  bo_home n : 0 ≤ n < sb_size sb → home start (BBLOCK n sb);
  bo_length n : 0 ≤ n < sb_size sb → length (V (BBLOCK n sb)) = Z.to_nat BSIZE;
  bo_free n : 0 ≤ n < sb_size sb → is_free sb V n = true →
    home start n ∧ ∀ m, 0 ≤ m < sb_size sb → BBLOCK m sb ≠ n;
}.

Lemma BBLOCK_eq start sb V n : bitmap_ok start sb V → 0 ≤ n < sb_size sb → BBLOCK n sb = n / BPB + sb_bmapstart sb.
Proof.
  intros Hb Hn. pose proof (bo_size _ _ _ Hb). pose proof (bo_start _ _ _ Hb). unfold BBLOCK. apply u32_small.
  pose proof (Z.div_pos n BPB ltac:(lia) ltac:(done)). pose proof (Z.div_le_upper_bound n BPB n ltac:(done) ltac:(unfold BPB, BSIZE; lia)). lia.
Qed.

(** What changing the bit of block [n] does to the map. *)
Lemma is_free_change start sb V n m (v : bool) f :
  bitmap_ok start sb V → 0 ≤ n < sb_size sb → 0 ≤ m < sb_size sb →
  (∀ d bj, 0 ≤ bj → length d = Z.to_nat BSIZE → bit_free (f d) bj = if bj =? n mod BPB then v else bit_free d bj) →
  is_free sb (put_block (BBLOCK n sb) (f (V (BBLOCK n sb))) V) m = if m =? n then v else is_free sb V m.
Proof.
  intros Hb Hn Hm Hf. unfold is_free. pose proof (Z.mod_pos_bound m BPB ltac:(done)).
  pose proof (BBLOCK_eq _ _ _ n Hb Hn) as En. pose proof (BBLOCK_eq _ _ _ m Hb Hm) as Em.
  destruct (decide (BBLOCK m sb = BBLOCK n sb)) as [E|E].
  - rewrite E, put_block_eq, Hf by (try lia; by apply (bo_length _ _ _ Hb)).
    destruct (Z.eqb_spec m n) as [->|Hne]; [by rewrite Z.eqb_refl|].
    destruct (Z.eqb_spec (m mod BPB) (n mod BPB)) as [E'|]; [|done]. destruct Hne.
    rewrite (Z.div_mod m BPB), (Z.div_mod n BPB) by done. rewrite E'. do 2 f_equal. lia.
  - rewrite put_block_ne by done. destruct (Z.eqb_spec m n) as [->|]; [done|done].
Qed.

(** ** balloc() and bfree() *)

Section alloc.
Context {W : Wakeups} {BD : BlockDev} {SD : SyncDisk}.
Context (me : nat) (dev start : Z) (Hdev : u32 dev = dev ∧ dev ≠ 0) (C : (Z → list Z) → Prop).

Lemma bzero_held s bl V B n :
  at_held me dev start s bl [] V B → 0 ≤ n < 2 ^ 31 → Z.of_nat (length bl) < NBUF → txn_ok start (log_add n bl) → C B →
  runs (λ t, C (k_blocks t))
    (λ _ t, at_held me dev start t (log_add n bl) [] (put_block n (replicate (Z.to_nat BSIZE) 0) V) B ∧ only_bufs s t)
    (bzero dev n s).
Proof using Hdev SD.
  intros Ha Hn Hsz Ht HC. destruct Hdev as [Hu Hd]. unfold bzero. rewrite Hu, u32_small by lia.
  eapply runs_bind; [apply (bread_held me dev start Hd C s bl [] V B n Ha); [apply not_elem_of_nil|cbn; lia|done]|].
  intros b t1 (Ha1 & Hb1 & [Ho1 _] & _).
  destruct (put_held me dev start Hd t1 bl [] V B b n (λ _, replicate (Z.to_nat BSIZE) 0) Ha1) as (t & Ht2 & [Ho2 _] & E & _);
    [apply not_elem_of_nil|done|done|].
  cbn beta in E. change (upd_buf b (set_b_data ?d)) with (upd_buf b (λ x, set_b_data d x)). rewrite E. cbn [runs]. split; [done|by eapply only_bufs_trans].
Qed.

(** Block [n] of [V] has been allocated in [V']. *)
Definition allocated (sb : superblock) (V V' : Z → list Z) (n : Z) : Prop :=
  V' n = replicate (Z.to_nat BSIZE) 0 ∧
  (∀ m, 0 ≤ m < sb_size sb → is_free sb V' m = if m =? n then false else is_free sb V m) ∧
  (∀ bn, bn ≠ n → bn ≠ BBLOCK n sb → V' bn = V bn).

(** The bitmap block and the new block go into the transaction. *)
Definition alloc_blocks (sb : superblock) (n : Z) (bl : list Z) : list Z := log_add n (log_add (BBLOCK n sb) bl).

Lemma log_add_length n bl : (length (log_add n bl) ≤ S (length bl))%nat.
Proof using Type. unfold log_add. case_bool_decide; rewrite ?length_app; cbn; lia. Qed.

Lemma log_add_ok n bl :
  txn_ok start bl → 0 ≤ n < 2 ^ 31 → home start n → Z.of_nat (length bl) + 1 < NBUF → txn_ok start (log_add n bl).
Proof using Type.
  intros Ht Hn Hh Hl. apply (txn_blocks_ok start [(n, [])] bl Ht); [by rewrite Forall_singleton|].
  cbn. pose proof (log_add_length n bl). lia.
Qed.

Lemma allocated_intro sb V n :
  bitmap_ok start sb V → 0 ≤ n < sb_size sb → is_free sb V n = true →
  allocated sb V (put_block n (replicate (Z.to_nat BSIZE) 0)
    (put_block (BBLOCK n sb) (bit_set (n mod BPB) (V (BBLOCK n sb))) V)) n.
Proof using Type.
  intros Hb Hn Hf. destruct (bo_free _ _ _ Hb n Hn Hf) as [_ Hne]. split_and!.
  - apply put_block_eq.
  - intros m Hm. unfold is_free at 1. rewrite (put_block_ne n) by by apply Hne.
    apply (is_free_change start sb V n m false (bit_set (n mod BPB))); try done.
    intros d bj Hbj Hl. pose proof (Z.mod_pos_bound n BPB ltac:(done)). apply bit_set_free; try lia.
    rewrite Hl. pose proof (Z.div_lt_upper_bound (n mod BPB) 8 BSIZE). unfold BPB in *. lia.
  - intros bn H1 H2. by rewrite !put_block_ne.
Qed.

(** The rounds of balloc(): the blocks before [b] are all in use. *)
Definition balloc_inv (sb : superblock) bl V B s (b : Z) t : Prop :=
  ∃ k, b = Z.of_nat k * BPB ∧ b < sb_size sb + BPB ∧ at_held me dev start t bl [] V B ∧ only_bufs s t ∧
    ∀ m, 0 ≤ m < b → m < sb_size sb → is_free sb V m = false.

(** The result: the first free block, now allocated, or 0 with nothing changed. *)
Definition balloc_post (sb : superblock) bl V B s (r : Z) t : Prop :=
  (0 ≤ r < sb_size sb ∧ is_free sb V r = true ∧ (∀ m, 0 ≤ m < r → is_free sb V m = false) ∧ only_bufs s t ∧
   ∃ V', allocated sb V V' r ∧ at_held me dev start t (alloc_blocks sb r bl) [] V' B) ∨
  (r = 0 ∧ (∀ m, 0 ≤ m < sb_size sb → is_free sb V m = false) ∧ at_held me dev start t bl [] V B ∧
   ∃ o, only_bufs (set_out o s) t).

Lemma round_free sb V b j :
  bitmap_ok start sb V → 0 ≤ j < BPB → 0 ≤ b * BPB + j < sb_size sb →
  is_free sb V (b * BPB + j) = bit_free (V (BBLOCK (b * BPB) sb)) j.
Proof using Type.
  intros Hb Hj Hn. unfold is_free. rewrite Z.add_comm, Z.mod_add, Z.mod_small by (done || lia).
  f_equal. f_equal. unfold BBLOCK. by rewrite Z.div_add, Z.div_small, Z.div_mul by (done || lia).
Qed.

(** A round that finds the free block [b + bi]. *)
Lemma balloc_take s t bl V B b bi n bp :
  let sb := k_sb s in n = b + bi →
  at_held me dev start t bl [BBLOCK n sb] V B → only_bufs s t → buf_of dev t bp (BBLOCK n sb) →
  bitmap_ok start sb V → Z.of_nat (length bl) + 2 < NBUF → C B →
  0 ≤ n < sb_size sb → bi = n mod BPB → is_free sb V n = true → (∀ m, 0 ≤ m < n → is_free sb V m = false) →
  runs (λ t, C (k_blocks t)) (λ r t, match r with inl _ => False | inr r => balloc_post sb bl V B s r t end)
    ((upd_buf bp (λ x, set_b_data (bit_set bi (b_data x)) x);; log_write bp;; brelse bp;; bzero dev (b + bi);;
      mret (inr (A := Z) (u32 (b + bi)))) t).
Proof using Hdev SD.
  intros sb En Ha Ho Hb Hbm Hsz HC Hn -> Hf Hfirst. rewrite <-En. destruct (bo_free _ _ _ Hbm n Hn Hf) as [Hh Hne].
  pose proof (bo_size _ _ _ Hbm) as Hs. pose proof (bo_start _ _ _ Hbm) as Hst.
  assert (HB : 0 ≤ BBLOCK n sb < 2 ^ 31).
  { rewrite (BBLOCK_eq start sb V) by done. pose proof (Z.div_pos n BPB ltac:(lia) ltac:(done)).
    pose proof (Z.div_le_upper_bound n BPB n ltac:(done) ltac:(unfold BPB, BSIZE; lia)). lia. }
  pose proof (ah_txn _ _ _ _ _ _ _ _ Ha) as Ht.
  assert (Ht1 : txn_ok start (log_add (BBLOCK n sb) bl)) by (apply log_add_ok; try done; [by apply (bo_home _ _ _ Hbm)|lia]).
  pose proof (log_add_length (BBLOCK n sb) bl) as Hlen.
  assert (Ht2 : txn_ok start (alloc_blocks sb n bl)) by (apply log_add_ok; try done; lia).
  destruct (put_held me dev start (proj2 Hdev) t bl [] V B bp _ (bit_set (n mod BPB)) Ha) as (t1 & Ha1 & [Ho1 _] & _ & E);
    [apply not_elem_of_nil|done|done|].
  rewrite E. eapply runs_bind; [apply (bzero_held t1 _ _ B n Ha1); try done; lia|].
  intros _ u [Hau Hou]. cbn [runs mret M_ret]. rewrite u32_small by lia. left. split_and!; try done; try lia.
  - eapply only_bufs_trans, Hou. by eapply only_bufs_trans.
  - eexists. split; [by apply allocated_intro|done].
Qed.

Lemma balloc_ok s bl V B :
  at_held me dev start s bl [] V B → bitmap_ok start (k_sb s) V → Z.of_nat (length bl) + 2 < NBUF → C B →
  runs (λ t, C (k_blocks t)) (balloc_post (k_sb s) bl V B s) (balloc dev s).
Proof using Hdev SD.
  intros Ha Hbm Hsz HC. unfold balloc. fgo. set (sb := k_sb s) in *.
  pose proof (bo_size _ _ _ Hbm) as Hs. pose proof (Z.div_pos (sb_size sb) BPB ltac:(lia) ltac:(done)) as Hq.
  eapply (runs_loop _ (balloc_inv sb bl V B s) _ (λ b, Z.to_nat (sb_size sb / BPB + 1 - b / BPB))); cycle 1.
  { exists O. split_and!; try done; [unfold BPB, BSIZE; lia|apply only_bufs_refl|lia]. }
  { change (0 / BPB) with 0. lia. }
  intros b t (k & -> & Hbb & Hat & Hot & Hused). set (b := Z.of_nat k * BPB) in *.
  assert (Hb0 : 0 ≤ b) by (unfold b, BPB, BSIZE; lia).
  assert (Hu : u32 b = b) by (apply u32_small; unfold BPB, BSIZE in *; lia). rewrite Hu.
  destruct (b <? sb_size sb) eqn:Hlt; cbn [negb].
  - assert (Hbl : BBLOCK b sb = b / BPB + sb_bmapstart sb) by (apply (BBLOCK_eq start sb V); [done|lia]).
    assert (Hk : b / BPB = Z.of_nat k) by (unfold b; by rewrite Z.div_mul).
    pose proof (held_clean _ _ _ _ _ _ _ (BBLOCK b sb) Hat) as Hcl.
    eapply runs_bind; [apply (bread_held me dev start (proj2 Hdev) C t bl [] V B _ Hat); [apply not_elem_of_nil|cbn; lia|done]|].
    intros bp u (Hau & Hbu & [Hou _] & _). fgo. rewrite (held_data _ _ _ _ _ _ _ _ _ (BBLOCK b sb) Hau) by (left || done).
    assert (Hosu : only_bufs s u) by by eapply only_bufs_trans.
    pose proof (scan_bits_spec (S (Z.to_nat BPB)) (V (BBLOCK b sb)) b (sb_size sb) 0 Hb0) as Hscan.
    do 3 (specialize (Hscan ltac:(unfold BPB, BSIZE in *; lia))).
    assert (Hr : ∀ j, 0 ≤ j < BPB → b + j < sb_size sb → is_free sb V (b + j) = bit_free (V (BBLOCK b sb)) j).
    { intros j Hj Hjs. apply (round_free sb V (Z.of_nat k) j Hbm Hj). fold b. lia. }
    destruct (scan_bits _ _ b _ 0) as [bi|].
    + destruct Hscan as (Hbi & Hbis & Hfree & Hbef).
      assert (Hn : (b + bi) / BPB = Z.of_nat k ∧ (b + bi) mod BPB = bi).
      { unfold b. rewrite Z.add_comm, Z.div_add, Z.mod_add, Z.div_small, Z.mod_small by (done || lia). lia. }
      assert (HB : BBLOCK (b + bi) sb = BBLOCK b sb) by (unfold BBLOCK; by rewrite Hk, (proj1 Hn)).
      eapply runs_mono; [apply (balloc_take s u bl V B b bi (b + bi) bp); try done; try lia| |].
      * fold sb. by rewrite HB.
      * fold sb. by rewrite HB.
      * fold sb. lia.
      * by rewrite Hr.
      * intros m Hm. destruct (decide (m < b)); [apply Hused; lia|]. replace m with (b + (m - b)) by lia.
        rewrite Hr by lia. apply Hbef. lia.
      * done.
      * intros [?|r] v Hv; [done|exact Hv].
    + rewrite run_bind. destruct (brelse_held me dev start (proj2 Hdev) u bl [] V B bp (BBLOCK b sb) Hau) as (v & -> & Hav & [Hov _] & _);
        [apply not_elem_of_nil|done|done|].
      cbn [obind mret M_ret runs]. rewrite i32_small by (unfold BPB, BSIZE in *; lia). split.
      * exists (S k). split_and!; [unfold b; lia|lia|done|by eapply only_bufs_trans|]. intros m Hm Hms.
        destruct (decide (m < b)); [apply Hused; lia|]. replace m with (b + (m - b)) by lia. rewrite Hr by lia. apply Hscan; lia.
      * replace ((b + BPB) / BPB) with (Z.of_nat k + 1); [|unfold b; rewrite <-(Z.mul_1_l BPB) at 2; by rewrite Z.div_add, Z.div_mul].
        rewrite Hk. assert (Z.of_nat k ≤ sb_size sb / BPB) by (rewrite <-Hk; apply Z.div_le_mono; [done|lia]). lia.
  - assert (Hi : idle me t) by (destruct Hat as [(a & [Hi _] & _) _ _ _ _ _ _]; exact Hi).
    rewrite run_bind, printf_ok; [|apply Hi|by apply Hi]. cbn [obind mret M_ret runs]. right.
    split_and!; [done|intros m Hm; apply Hused; lia| |].
    + apply at_held_rest in Hat as (Hr & Hl & Ht & Ho). apply at_held_rest. split_and!; try done.
      eapply at_rest_same, Hr; done.
    + destruct Hot as (bufs & lg & ->). eexists _, bufs, lg. reflexivity.
Qed.

(** Block [n] of [V] has been freed in [V']. *)
Definition freed (sb : superblock) (V V' : Z → list Z) (n : Z) : Prop :=
  (∀ m, 0 ≤ m < sb_size sb → is_free sb V' m = if m =? n then true else is_free sb V m) ∧
  (∀ bn, bn ≠ BBLOCK n sb → V' bn = V bn).

Lemma bitmap_block sb V n :
  bitmap_ok start sb V → 0 ≤ n < sb_size sb → 0 ≤ BBLOCK n sb < 2 ^ 31.
Proof using Type.
  intros Hbm Hn. rewrite (BBLOCK_eq start sb V) by done. pose proof (Z.div_pos n BPB ltac:(lia) ltac:(done)).
  pose proof (bo_size _ _ _ Hbm). pose proof (bo_start _ _ _ Hbm).
  pose proof (Z.div_le_upper_bound n BPB n ltac:(done) ltac:(unfold BPB, BSIZE; lia)). lia.
Qed.

Lemma freed_intro sb V n :
  bitmap_ok start sb V → 0 ≤ n < sb_size sb →
  freed sb V (put_block (BBLOCK n sb) (bit_clear (n mod BPB) (V (BBLOCK n sb))) V) n.
Proof using Type.
  intros Hb Hn. split; [|intros bn Hne; by rewrite put_block_ne].
  intros m Hm. apply (is_free_change start sb V n m true (bit_clear (n mod BPB))); try done.
  intros d bj Hbj Hl. pose proof (Z.mod_pos_bound n BPB ltac:(done)). apply bit_clear_free; try lia.
  rewrite Hl. pose proof (Z.div_lt_upper_bound (n mod BPB) 8 BSIZE). unfold BPB in *. lia.
Qed.

(** A free block is freed twice only with a panic. *)
Lemma bfree_ok s bl V B n :
  at_held me dev start s bl [] V B → bitmap_ok start (k_sb s) V → Z.of_nat (length bl) + 1 < NBUF → C B →
  0 ≤ n < sb_size (k_sb s) →
  match bfree dev n s with
  | Ok _ t => is_free (k_sb s) V n = false ∧ only_bufs s t ∧
      ∃ V', freed (k_sb s) V V' n ∧ at_held me dev start t (log_add (BBLOCK n (k_sb s)) bl) [] V' B
  | Panic m => is_free (k_sb s) V n = true ∧ m = "freeing free block"%string
  | Spin t => C (k_blocks t)
  | _ => False
  end.
Proof using Hdev SD.
  intros Ha Hbm Hsz HC Hn. destruct Hdev as [Hu Hd]. unfold bfree. fgo. rewrite Hu. set (sb := k_sb s) in *.
  pose proof (bread_held me dev start Hd C s bl [] V B (BBLOCK n sb) Ha) as Hread.
  do 3 (specialize (Hread ltac:(first [apply not_elem_of_nil|done|cbn; lia]))).
  destruct (bread dev (BBLOCK n sb) s) as [bp t| | | |]; cbn [runs] in Hread; try done.
  destruct Hread as (Hat & Hb & [Ho _] & _). cbn [obind]. fgo.
  rewrite (held_data _ _ _ _ _ _ _ _ _ (BBLOCK n sb) Hat) by (left || done). fold (is_free sb V n).
  destruct (is_free sb V n) eqn:Hf; [done|].
  destruct (put_held me dev start Hd t bl [] V B bp _ (bit_clear (n mod BPB)) Hat) as (u & Hau & [Hou _] & E & _);
    [apply not_elem_of_nil|done| |].
  { apply log_add_ok; [apply Hat|by eapply bitmap_block|by apply (bo_home _ _ _ Hbm)|lia]. }
  rewrite E. split_and!; [done|by eapply only_bufs_trans|]. eexists. split; [by apply freed_intro|done].
Qed.
End alloc.

(** C25: The block allocator.  Inside a transaction with room for two
    blocks, balloc() finds the first block that the bitmap marks free, marks it,
    zeroes it and changes no other block, or returns 0 with the disk unchanged
    when none is free. bfree() marks a used block free and changes nothing else,
    and panics on a block that is free already. *)
Theorem block_allocator_correct {W : Wakeups} {BD : BlockDev} {SD : SyncDisk} me dev start C s bl V B :
  u32 dev = dev ∧ dev ≠ 0 → at_held me dev start s bl [] V B → bitmap_ok start (k_sb s) V →
  Z.of_nat (length bl) + 2 < NBUF → C B →
  runs (λ t, C (k_blocks t)) (balloc_post me dev start (k_sb s) bl V B s) (balloc dev s) ∧
  ∀ n, 0 ≤ n < sb_size (k_sb s) →
    match bfree dev n s with
    | Ok _ t => is_free (k_sb s) V n = false ∧ only_bufs s t ∧
        ∃ V', freed (k_sb s) V V' n ∧ at_held me dev start t (log_add (BBLOCK n (k_sb s)) bl) [] V' B
    | Panic m => is_free (k_sb s) V n = true ∧ m = "freeing free block"%string
    | Spin t => C (k_blocks t)
    | _ => False
    end.
Proof.
  intros Hdev Ha Hbm Hsz HC. split; [by apply balloc_ok|]. intros n Hn. apply bfree_ok; try done. lia.
Qed.

(** ** An example *)

(** The file system that mkfs makes: 2000 blocks, of which the first 47 are in use;
    the bitmap is block 46. *)
Definition demo_sb : superblock := mk_superblock FSMAGIC 2000 1953 200 31 2 33 46.
Definition demo_disk : Z → list Z :=
  put_block 46 (replicate 5 255 ++ [127] ++ replicate 1018 0) (λ _, zeros).
Definition demo_machine : kstate :=
  set_log (mk_log 2 1 0 1 0 (replicate (Z.to_nat LOGBLOCKS) 0)) (set_blocks demo_disk (set_sb demo_sb fresh_cache)).

Lemma idle_sb me sb s : idle me s → idle me (set_sb sb s).
Proof. by apply idle_same. Qed.

Lemma demo_at_held : at_held 2 1 2 demo_machine [] [] demo_disk demo_disk.
Proof.
  apply at_held_rest. split_and!; [|split; reflexivity|apply txn_ok_nil|discriminate].
  destruct fresh_cache_eq as (bufs & E & Hok & Hb). unfold demo_machine. rewrite E.
  apply (at_rest_init 2 1 (set_sb demo_sb before_binit));
    [discriminate|apply idle_sb, before_binit_idle|apply lookup_empty|vm_compute; reflexivity|exact Hok|exact Hb].
Qed.

Lemma demo_bitmap_ok : bitmap_ok 2 demo_sb demo_disk.
Proof.
  assert (HB : ∀ n, 0 ≤ n < 2000 → BBLOCK n demo_sb = 46).
  { intros n Hn. unfold BBLOCK. rewrite Z.div_small by (unfold BPB, BSIZE; lia). reflexivity. }
  split; cbn [sb_size sb_bmapstart demo_sb]; try lia.
  - intros n Hn. rewrite HB by done. unfold home, LOGBLOCKS, MAXOPBLOCKS. lia.
  - intros n Hn. rewrite HB by done. reflexivity.
  - intros n Hn Hf.
    assert (Hused : forallb (λ n, negb (is_free demo_sb demo_disk (Z.of_nat n))) (seq 0 47) = true) by (vm_compute; reflexivity).
    assert (Hge : 47 ≤ n).
    { destruct (decide (47 ≤ n)) as [|Hlt]; [done|]. exfalso. rewrite forallb_forall in Hused.
      specialize (Hused (Z.to_nat n) ltac:(apply in_seq; lia)). by rewrite Z2Nat.id, Hf in Hused by lia. }
    split; [unfold home, LOGBLOCKS, MAXOPBLOCKS; lia|]. intros m Hm. rewrite HB by done. lia.
Qed.

Lemma block_allocator_correct_witness :
  runs (λ t, k_blocks t = demo_disk) (balloc_post 2 1 2 demo_sb [] demo_disk demo_disk demo_machine)
    (@balloc 0%nat plain_disk 1 demo_machine) ∧
  ∀ n, 0 ≤ n < 2000 →
    match @bfree 0%nat plain_disk 1 n demo_machine with
    | Ok _ t => is_free demo_sb demo_disk n = false ∧ only_bufs demo_machine t ∧
        ∃ V', freed demo_sb demo_disk V' n ∧ at_held 2 1 2 t (log_add (BBLOCK n demo_sb) []) [] V' demo_disk
    | Panic m => is_free demo_sb demo_disk n = true ∧ m = "freeing free block"%string
    | Spin t => k_blocks t = demo_disk
    | _ => False
    end.
Proof.
  apply (@block_allocator_correct 0%nat plain_disk plain_disk_sync 2 1 2 (λ B, B = demo_disk) demo_machine [] demo_disk demo_disk).
  - split; [reflexivity|discriminate].
  - apply demo_at_held.
  - apply demo_bitmap_ok.
  - reflexivity.
  - reflexivity.
Defined.
