(* ===== verification/InodeSpec.v ===== *)
(** Inodes of kernel/fs.c on disk: what iupdate() stores is what ilock() loads. *)

From Stdlib Require Import ZArith Lia ZifyBool.
From stdpp Require Import base numbers list gmap strings.
From S2P Require Import Prelude Params Machine Spinlock CString Printf Sched Kalloc Vm Sleeplock Idle Bio BufCache CacheSpec Log LogSpec Fs FsSpec.

(** ** struct dinode *)

Lemma le_value_wrap n z : le_value (le_bytes n z) = z mod 2 ^ (8 * Z.of_nat n).
Proof.
  revert z. induction n as [|n IH]; intros z; cbn [le_bytes le_value]; [by rewrite Z.mod_1_r|].
  rewrite IH. replace (8 * Z.of_nat (S n)) with (8 + 8 * Z.of_nat n) by lia. rewrite Z.pow_add_r by lia.
  change (2 ^ 8) with 256. rewrite Z.rem_mul_r by lia. done.
Qed.

Lemma i16_wrap z : - 2 ^ 15 ≤ z < 2 ^ 15 → i16 (z mod 2 ^ 16) = z.
Proof.
  intros Hz. unfold i16, swrap. change (16 - 1) with 15. rewrite Zplus_mod_idemp_l, Z.mod_small by lia. lia.
Qed.

(** Reading inside what has been written. *)
Lemma slice_splice_in off k n bs l :
  (off + length bs ≤ length l)%nat → (k + n ≤ length bs)%nat → slice (off + k) n (splice off bs l) = slice k n bs.
Proof.
  intros Hl Hk. unfold slice, splice. rewrite drop_app_ge by (rewrite length_take; lia).
  rewrite length_take, Nat.min_l, Nat.add_comm, Nat.add_sub by lia. rewrite drop_app_le by lia.
  by rewrite take_app_le by (rewrite length_drop; lia).
Qed.

Lemma slice_app_r k n l1 l2 : (length l1 ≤ k)%nat → slice k n (l1 ++ l2) = slice (k - length l1) n l2.
Proof. intros Hk. unfold slice. by rewrite drop_app_ge. Qed.

Lemma slice_words (l : list Z) k :
  (k < length l)%nat → slice (4 * k) 4 (l ≫= le_bytes 4) = le_bytes 4 (l !!! k).
Proof.
  revert k. induction l as [|x l IH]; intros k Hk; [cbn in Hk; lia|].
  change ((x :: l) ≫= le_bytes 4) with (le_bytes 4 x ++ (l ≫= le_bytes 4)). destruct k as [|k]; [done|].
  rewrite slice_app_r by (rewrite le_bytes_length; lia). rewrite le_bytes_length.
  replace (4 * S k - 4)%nat with (4 * k)%nat by lia. apply IH. cbn in Hk. lia.
Qed.

(** The ranges of the fields of an inode. *)
Record inode_ok (x : inode) : Prop := {
  io_type : - 2 ^ 15 ≤ i_type x < 2 ^ 15;
  io_major : - 2 ^ 15 ≤ i_major x < 2 ^ 15;
  io_minor : - 2 ^ 15 ≤ i_minor x < 2 ^ 15;
  io_nlink : - 2 ^ 15 ≤ i_nlink x < 2 ^ 15;
  io_size : 0 ≤ i_size x < 2 ^ 32;
  io_addrs : length (i_addrs x) = Z.to_nat (NDIRECT + 1);
  io_addr a : a ∈ i_addrs x → 0 ≤ a < 2 ^ 32;
}.

(** The fields of [x] that are kept on disk, in inode [y]. *)
Definition copy_dinode (x y : inode) : inode :=
  set_i_addrs (i_addrs x) (set_i_size (i_size x) (set_i_nlink (i_nlink x) (set_i_minor (i_minor x)
    (set_i_major (i_major x) (set_i_type (i_type x) y))))).

Lemma load_stored d off x y :
  inode_ok x → (off + Z.to_nat sizeof_dinode ≤ length d)%nat →
  load_dinode (splice off (dinode_bytes x) d) off y = copy_dinode x y.
Proof.
  intros Hx Hl. pose proof (dinode_bytes_length x (io_addrs _ Hx)) as Hlen. change (Z.to_nat sizeof_dinode) with 64%nat in *.
  unfold load_dinode, copy_dinode, dip_type, dip_nlink, dip_addrs, half.
  assert (Hs : ∀ k n, (k + n ≤ 64)%nat → slice (off + k) n (splice off (dinode_bytes x) d) = slice k n (dinode_bytes x)).
  { intros k n Hk. apply slice_splice_in; lia. }
  pose proof (Hs 0%nat 2%nat ltac:(lia)) as Hs0. rewrite Nat.add_0_r in Hs0. rewrite Hs0, !Hs by lia. destruct Hx as [H1 H2 H3 H4 H5 H6 H7].
  change (slice 0 2 (dinode_bytes x)) with (le_bytes 2 (i_type x)).
  change (slice 2 2 (dinode_bytes x)) with (le_bytes 2 (i_major x)).
  change (slice 4 2 (dinode_bytes x)) with (le_bytes 2 (i_minor x)).
  change (slice 6 2 (dinode_bytes x)) with (le_bytes 2 (i_nlink x)).
  change (slice 8 4 (dinode_bytes x)) with (le_bytes 4 (i_size x)).
  rewrite !le_value_wrap. change (8 * Z.of_nat 2) with 16. change (8 * Z.of_nat 4) with 32.
  rewrite !i16_wrap, (Z.mod_small (i_size x)) by done. f_equal.
  apply list_eq. intros k. rewrite list_lookup_fmap. destruct (decide (k < Z.to_nat (NDIRECT + 1))%nat) as [Hk|Hk].
  - rewrite lookup_seq_lt by done. cbn [fmap option_fmap option_map]. rewrite (list_lookup_lookup_total_lt _ k) by lia. f_equal.
    rewrite <-Nat.add_assoc, Hs by (change (Z.to_nat (NDIRECT + 1)) with 13%nat in *; lia).
    assert (E : slice (12 + 4 * k) 4 (dinode_bytes x) = slice (4 * k) 4 (i_addrs x ≫= le_bytes 4)).
    { unfold dinode_bytes. rewrite !app_assoc. rewrite slice_app_r; rewrite !length_app, !le_bytes_length; [f_equal; lia|lia]. }
    rewrite Nat.add_0_l, E, slice_words, le_value_wrap by lia. apply Z.mod_small, H7, list_elem_of_lookup_total_2. lia.
  - rewrite lookup_seq_ge by lia. symmetry. apply lookup_ge_None_2. lia.
Qed.

Lemma load_other d off off' bs y :
  (off + length bs ≤ length d)%nat → length bs = Z.to_nat sizeof_dinode →
  (off' + Z.to_nat sizeof_dinode ≤ off ∨ off + Z.to_nat sizeof_dinode ≤ off')%nat →
  load_dinode (splice off bs d) off' y = load_dinode d off' y.
Proof.
  intros Hl Hb Hd. change (Z.to_nat sizeof_dinode) with 64%nat in *.
  assert (Hs : ∀ k n, (k + n ≤ 64)%nat → slice (off' + k) n (splice off bs d) = slice (off' + k) n d).
  { intros k n Hk. apply slice_splice_ne; lia. }
  unfold load_dinode, dip_type, dip_nlink, dip_addrs, half.
  pose proof (Hs 0%nat 2%nat ltac:(lia)) as Hs0. rewrite Nat.add_0_r in Hs0. rewrite Hs0, !Hs by lia. f_equal.
  apply list_fmap_ext. intros i k Hk. apply lookup_seq in Hk as [-> Hk]. change (Z.to_nat (NDIRECT + 1)) with 13%nat in Hk.
  rewrite <-Nat.add_assoc, Hs by lia. done.
Qed.

(** ** Inode blocks *)

(** What ilock() finds on disk for inode [inum]. *)
Definition dinode_at (sb : superblock) (V : Z → list Z) (inum : Z) (y : inode) : inode :=
  load_dinode (V (IBLOCK inum sb)) (dinode_off inum) y.

Record inodes_ok (start : Z) (sb : superblock) (V : Z → list Z) : Prop := {
  is_count : 0 ≤ sb_ninodes sb < 2 ^ 30;
  is_start : 0 ≤ sb_inodestart sb < 2 ^ 30;
  is_home i : 0 ≤ i < sb_ninodes sb → home start (IBLOCK i sb);
  is_length i : 0 ≤ i < sb_ninodes sb → length (V (IBLOCK i sb)) = Z.to_nat BSIZE;
}.

Lemma IBLOCK_eq start sb V i :
  inodes_ok start sb V → 0 ≤ i < sb_ninodes sb →
  IBLOCK i sb = i / IPB + sb_inodestart sb ∧ 0 ≤ IBLOCK i sb < 2 ^ 31.
Proof.
  intros Hb Hn. pose proof (is_count _ _ _ Hb). pose proof (is_start _ _ _ Hb). unfold IBLOCK.
  pose proof (Z.div_pos i IPB ltac:(lia) ltac:(done)).
  pose proof (Z.div_le_upper_bound i IPB i ltac:(done) ltac:(change IPB with 16; lia)).
  rewrite u32_small by lia. lia.
Qed.

(** Storing one inode leaves the others as they are. *)
Lemma dinode_at_stored start sb V x i y :
  inodes_ok start sb V → inode_ok x → 0 ≤ i_inum x < sb_ninodes sb → 0 ≤ i < sb_ninodes sb →
  let bn := IBLOCK (i_inum x) sb in
  dinode_at sb (put_block bn (splice (dinode_off (i_inum x)) (dinode_bytes x) (V bn)) V) i y =
    if i =? i_inum x then copy_dinode x y else dinode_at sb V i y.
Proof.
  intros Hin Hx Hn Hi bn. unfold dinode_at. pose proof (dinode_bytes_length x (io_addrs _ Hx)) as Hlen.
  pose proof (is_length _ _ _ Hin _ Hn) as Hl. pose proof (dinode_off_bound (i_inum x)) as Hoff.
  destruct (Z.eqb_spec i (i_inum x)) as [->|Hne]; [rewrite put_block_eq; apply load_stored; [done|unfold bn; lia]|].
  destruct (decide (IBLOCK i sb = bn)) as [E|E]; [|by rewrite put_block_ne].
  rewrite E, put_block_eq. apply load_other; [unfold bn; lia|done|].
  destruct (IBLOCK_eq _ _ _ i Hin Hi) as [E1 _]. destruct (IBLOCK_eq _ _ _ _ Hin Hn) as [E2 _]. unfold bn in E.
  assert (Hd : i / IPB = i_inum x / IPB) by lia.
  assert (Hm : i mod IPB ≠ i_inum x mod IPB).
  { intros Hm. apply Hne. rewrite (Z.div_mod i IPB), (Z.div_mod (i_inum x) IPB) by done. by rewrite Hd, Hm. }
  unfold dinode_off, sizeof_dinode. pose proof (Z.mod_pos_bound i IPB ltac:(done)).
  pose proof (Z.mod_pos_bound (i_inum x) IPB ltac:(done)). lia.
Qed.

Section inode.
Context {W : Wakeups} {BD : BlockDev} {SD : SyncDisk}.
Context (me : nat) (dev start : Z) (Hdev : dev ≠ 0) (C : (Z → list Z) → Prop).

(** Inode [x] has been stored in [V']. *)
Definition stored (sb : superblock) (x : inode) (V V' : Z → list Z) : Prop :=
  (∀ i y, 0 ≤ i < sb_ninodes sb → dinode_at sb V' i y = if i =? i_inum x then copy_dinode x y else dinode_at sb V i y) ∧
  ∀ bn, bn ≠ IBLOCK (i_inum x) sb → V' bn = V bn.

Lemma iupdate_ok s bl V B ip :
  let x := k_inodes s !!! ip in let sb := k_sb s in
  at_held me dev start s bl [] V B → inodes_ok start sb V → Z.of_nat (length bl) + 1 < NBUF → C B →
  inode_ok x → i_dev x = dev → 0 ≤ i_inum x < sb_ninodes sb →
  runs (λ t, C (k_blocks t))
    (λ _ t, only_bufs s t ∧ ∃ V', stored sb x V V' ∧ at_held me dev start t (log_add (IBLOCK (i_inum x) sb) bl) [] V' B)
    (iupdate ip s).
Proof using Hdev SD.
  intros x sb Ha Hin Hsz HC Hx Hd Hn. destruct (IBLOCK_eq _ _ _ _ Hin Hn) as [_ Hrange].
  unfold iupdate. fgo. fold sb x. rewrite Hd.
  eapply runs_bind; [apply (bread_held me dev start Hdev C s bl [] V B _ Ha); [apply not_elem_of_nil|cbn; lia|done]|].
  intros bp t (Hat & Hb & [Ho _] & _). rewrite run_bind, run_get_inode. cbn [obind].
  assert (Ei : k_inodes t = k_inodes s) by (by destruct Ho as (? & ? & ->)). rewrite Ei. fold x.
  destruct (put_held me dev start Hdev t bl [] V B bp _ (splice (dinode_off (i_inum x)) (dinode_bytes x)) Hat)
    as (u & Hau & [Hou _] & E & _); [apply not_elem_of_nil|done| |].
  { apply log_add_ok; [apply Hat|done|by apply (is_home _ _ _ Hin)|lia]. }
  rewrite E. cbn [runs]. split; [by eapply only_bufs_trans|]. eexists. split; [|exact Hau]. split.
  - intros i y Hi. by eapply dinode_at_stored.
  - intros bn Hne. by rewrite put_block_ne.
Qed.

(** The inode that ilock() leaves in an entry that was not valid. *)
Definition loaded (sb : superblock) (V : Z → list Z) (pid : Z) (y : inode) : inode :=
  set_i_valid 1 (dinode_at sb V (i_inum y) (set_i_lock (mk_sleeplock 1 pid) y)).

Lemma ilock_ok s bl V B i :
  let y := k_inodes s !!! i in let sb := k_sb s in
  at_held me dev start s bl [] V B → (i < length (k_inodes s))%nat →
  Z.of_nat (length bl) < NBUF → C B →
  1 ≤ i_ref y → sl_locked (i_lock y) = 0 → i_valid y = 0 → i_dev y = dev → i_type (dinode_at sb V (i_inum y) y) ≠ 0 →
  runs (λ t, C (k_blocks t))
    (λ _ t, at_held me dev start t bl [] V B ∧
       k_inodes t = alter (loaded sb V (my_pid me s)) i (k_inodes s))
    (ilock (Some i) s).
Proof using Hdev SD.
  intros y sb Ha Hi Hsz HC Href Hlk Hval Hd Hty. unfold ilock. fgo. fold y.
  replace (i_ref y <? 1) with false by lia.
  rewrite run_bind, (acquiresleep_ok me s (at_held_idle _ _ _ _ _ _ _ _ Ha)) by done. cbn [obind set_sl]. fgo.
  set (l := mk_sleeplock 1 _). set (s1 := set_inodes _ s).
  assert (Ha1 : at_held me dev start s1 bl [] V B) by (by eapply at_held_same, Ha).
  assert (Ey : k_inodes s1 !!! i = set_i_lock l y).
  { unfold s1. cbn. apply list_lookup_total_correct. by rewrite list_lookup_alter_eq, list_lookup_lookup_total_lt. }
  rewrite Ey. cbn [set_i_lock i_valid i_dev i_inum]. rewrite Hval, Hd. cbn [Z.eqb negb]. fgo.
  change (k_sb s1) with sb. set (bn := IBLOCK (i_inum y) sb).
  pose proof (held_clean _ _ _ _ _ _ _ bn Ha1) as Hcl.
  eapply runs_bind; [apply (bread_held me dev start Hdev C s1 bl [] V B bn Ha1); [apply not_elem_of_nil|cbn; lia|done]|].
  intros bp t (Hat & Hb & [Ho _] & _). fgo. rewrite (held_data _ _ _ _ _ _ _ _ _ bn Hat) by (left || done).
  assert (Ei : k_inodes t = k_inodes s1) by (by destruct Ho as (? & ? & ->)). rewrite Ei.
  change (k_inodes s1) with (alter (set_i_lock l) i (k_inodes s)). rewrite list_alter_alter_eq.
  set (t2 := set_inodes _ t). assert (Hat2 : at_held me dev start t2 bl [bn] V B) by (by eapply at_held_same, Hat).
  destruct (brelse_held me dev start Hdev t2 bl [] V B bp bn Hat2) as (u & -> & Hau & [Hou _] & _); [apply not_elem_of_nil|done|done|].
  cbn [obind]. fgo. assert (Eu : k_inodes u = k_inodes t2) by (by destruct Hou as (? & ? & ->)). rewrite Eu.
  change (k_inodes t2) with (alter (λ x, load_dinode (V bn) (dinode_off (i_inum y)) (set_i_lock l x)) i (k_inodes s)).
  rewrite list_alter_alter_eq. cbn [k_inodes set_inodes].
  erewrite (list_lookup_total_correct (alter _ _ _)); [|rewrite list_lookup_alter_eq, list_lookup_lookup_total_lt by done; reflexivity].
  fold y. change (i_type ((set_i_valid 1 ∘ ?f) y)) with (i_type (f y)). cbn beta.
  assert (Ht : i_type (load_dinode (V bn) (dinode_off (i_inum y)) (set_i_lock l y)) ≠ 0) by exact Hty.
  apply Z.eqb_neq in Ht. rewrite Ht. cbn [runs mret M_ret]. split; [by eapply at_held_same, Hau|].
  cbn [k_inodes set_inodes]. apply list_alter_ext; [|done]. intros z Hz.
  apply list_lookup_total_correct in Hz. fold y in Hz. by subst z.
Qed.
End inode.

(** C28: Inodes survive the trip to the disk.  Inside a transaction,
    iupdate() stores the type, device numbers, link count, size and block addresses
    of an inode, and changes no other inode and no block but the one that
    holds it; an ilock() of the same inode in a table entry that is not valid,
    whenever the disk still has these contents, fills the entry with exactly the
    stored fields. *)
Theorem iupdate_then_ilock {W : Wakeups} {BD : BlockDev} {SD : SyncDisk} me dev start (C : (Z → list Z) → Prop) s bl V B ip :
  let x := k_inodes s !!! ip in let sb := k_sb s in let bl' := log_add (IBLOCK (i_inum x) sb) bl in
  dev ≠ 0 → at_held me dev start s bl [] V B → inodes_ok start sb V → Z.of_nat (length bl) + 1 < NBUF → C B →
  inode_ok x → i_dev x = dev → 0 ≤ i_inum x < sb_ninodes sb → i_type x ≠ 0 →
  runs (λ t, C (k_blocks t))
    (λ _ t, only_bufs s t ∧ ∃ V', stored sb x V V' ∧ at_held me dev start t bl' [] V' B ∧
       ∀ u j, let y := k_inodes u !!! j in
         at_held me dev start u bl' [] V' B → k_sb u = sb → (j < length (k_inodes u))%nat →
         1 ≤ i_ref y → sl_locked (i_lock y) = 0 → i_valid y = 0 → i_dev y = dev → i_inum y = i_inum x →
         runs (λ v, C (k_blocks v))
           (λ _ v, k_inodes v !!! j = set_i_valid 1 (copy_dinode x (set_i_lock (mk_sleeplock 1 (my_pid me u)) y)))
           (ilock (Some j) u))
    (iupdate ip s).
Proof.
  intros x sb bl' Hdev Ha Hin Hsz HC Hx Hd Hn Hty.
  eapply runs_mono; [apply (iupdate_ok me dev start Hdev C s bl V B ip); done|done|].
  intros _ t (Ho & V' & Hst & Hat). split; [done|]. exists V'. split_and!; [done|done|].
  intros u j y Hau Hsb Hj Hr Hlk Hv Hyd Hyi.
  assert (E : ∀ z, dinode_at (k_sb u) V' (i_inum y) z = copy_dinode x z).
  { intros z. rewrite Hsb, Hyi, (proj1 Hst) by done. by rewrite Z.eqb_refl. }
  eapply runs_mono; [apply (ilock_ok me dev start Hdev C u bl' V' B j); try done| done|].
  - pose proof (log_add_length (IBLOCK (i_inum x) sb) bl). unfold bl'. lia.
  - fold y. by rewrite E.
  - intros _ v [_ ->]. apply list_lookup_total_correct.
    rewrite list_lookup_alter_eq, list_lookup_lookup_total_lt by done. cbn. fold y. unfold loaded. by rewrite E.
Qed.

Lemma at_held_inodes me dev start s inodes bl hs V B :
  at_held me dev start s bl hs V B → at_held me dev start (set_inodes inodes s) bl hs V B.
Proof. by apply at_held_same. Qed.

(** Inode 3 of [demo_machine], a file of one block. *)
Definition demo_inode : inode := mk_inode 1 3 1 (mk_sleeplock 1 0) 1 T_FILE 0 0 1 700 (50 :: replicate 12 0).
Definition inode_machine : kstate := set_inodes (demo_inode :: tail (k_inodes demo_machine)) demo_machine.

Lemma demo_inode_ok : inode_ok demo_inode.
Proof.
  split; unfold demo_inode, T_FILE; cbn [i_type i_major i_minor i_nlink i_size i_addrs]; try lia; [reflexivity|].
  intros a [->|Ha]%elem_of_cons; [lia|]. apply elem_of_replicate in Ha as [-> _]. lia.
Qed.

Lemma demo_inodes_ok : inodes_ok 2 demo_sb demo_disk.
Proof.
  assert (HB : ∀ n, 0 ≤ n < 200 → 33 ≤ IBLOCK n demo_sb ≤ 45).
  { intros n Hn. unfold IBLOCK. change IPB with 16. cbn [sb_inodestart demo_sb].
    pose proof (Z.div_pos n 16). pose proof (Z.div_lt_upper_bound n 16 13). rewrite u32_small; lia. }
  split; cbn [sb_ninodes sb_inodestart demo_sb]; try lia.
  - intros n Hn. specialize (HB n Hn). unfold home, LOGBLOCKS, MAXOPBLOCKS. lia.
  - intros n Hn. specialize (HB n Hn). unfold demo_disk. rewrite put_block_ne by lia. reflexivity.
Qed.

Lemma iupdate_then_ilock_witness :
  runs (λ t, k_blocks t = demo_disk)
    (λ _ t, only_bufs inode_machine t ∧ ∃ V', stored demo_sb demo_inode demo_disk V' ∧
       at_held 2 1 2 t [33] [] V' demo_disk ∧
       ∀ u j, let y := k_inodes u !!! j in
         at_held 2 1 2 u [33] [] V' demo_disk → k_sb u = demo_sb → (j < length (k_inodes u))%nat →
         1 ≤ i_ref y → sl_locked (i_lock y) = 0 → i_valid y = 0 → i_dev y = 1 → i_inum y = 3 →
         runs (λ v, k_blocks v = demo_disk)
           (λ _ v, k_inodes v !!! j = set_i_valid 1 (copy_dinode demo_inode (set_i_lock (mk_sleeplock 1 (my_pid 2 u)) y)))
           (@ilock 0%nat plain_disk (Some j) u))
    (@iupdate 0%nat plain_disk 0 inode_machine).
Proof.
  apply (@iupdate_then_ilock 0%nat plain_disk plain_disk_sync 2 1 2 (λ B, B = demo_disk) inode_machine [] demo_disk demo_disk 0).
  - discriminate.
  - apply at_held_inodes, demo_at_held.
  - exact demo_inodes_ok.
  - reflexivity.
  - reflexivity.
  - exact demo_inode_ok.
  - reflexivity.
  - split; [discriminate|reflexivity].
  - discriminate.
Defined.
