(* ===== verification/FileSpec.v ===== *)
(** Reading files and directories of kernel/fs.c: readi() returns the bytes of
    the file, and dirlookup() finds the first entry with a name. *)

From Stdlib Require Import ZArith Lia ZifyBool.
From stdpp Require Import base numbers list gmap strings.
From S2P Require Import Prelude Params Machine Spinlock CString Printf Sched Kalloc Vm PageTable UserMem Sleeplock Idle Bio BufCache CacheSpec Log LogSpec Fs FsSpec InodeSpec.

(** ** Contents *)

(** The disk block of block [k] of the file with inode [x]. *)
Definition blk_addr (V : Z → list Z) (x : inode) (k : Z) : Z :=
  if k <? NDIRECT then i_addrs x !!! Z.to_nat k
  else word (V (i_addrs x !!! Z.to_nat NDIRECT)) (Z.to_nat (k - NDIRECT)).

(** The byte at offset [off], and [n] bytes from there. *)
Definition file_byte (V : Z → list Z) (x : inode) (off : Z) : Z :=
  V (blk_addr V x (off / BSIZE)) !!! Z.to_nat (off mod BSIZE).
Definition file_bytes (V : Z → list Z) (x : inode) (off : Z) (n : nat) : list Z :=
  (λ j, file_byte V x (off + Z.of_nat j)) <$> seq 0 n.

(** A file whose blocks are all there. *)
Record file_ok (V : Z → list Z) (x : inode) : Prop := {
  fo_size : 0 ≤ i_size x ≤ MAXFILE * BSIZE;
  fo_mapped k : 0 ≤ k → k * BSIZE < i_size x → blk_addr V x k ≠ 0 ∧ length (V (blk_addr V x k)) = Z.to_nat BSIZE;
  fo_indirect : NDIRECT * BSIZE < i_size x → i_addrs x !!! Z.to_nat NDIRECT ≠ 0;
}.

Lemma file_bytes_app V x off n m :
  file_bytes V x off (n + m) = file_bytes V x off n ++ file_bytes V x (off + Z.of_nat n) m.
Proof.
  unfold file_bytes. rewrite seq_app, fmap_app. f_equal.
  replace (0 + n)%nat with (n + 0)%nat by lia. rewrite <-(fmap_add_seq n 0 m), <-list_fmap_compose.
  apply list_fmap_ext. intros i j Hj. cbn. f_equal. lia.
Qed.

(** Bytes inside one block. *)
Lemma file_bytes_block V x off m :
  0 ≤ off → 0 ≤ m ≤ BSIZE - off mod BSIZE → length (V (blk_addr V x (off / BSIZE))) = Z.to_nat BSIZE →
  slice (Z.to_nat (off mod BSIZE)) (Z.to_nat m) (V (blk_addr V x (off / BSIZE))) = file_bytes V x off (Z.to_nat m).
Proof.
  intros Ho Hm Hl. pose proof (Z.mod_pos_bound off BSIZE ltac:(done)) as Hr. apply list_eq. intros i. unfold slice, file_bytes.
  rewrite list_lookup_fmap. destruct (decide (i < Z.to_nat m)%nat) as [Hi|Hi].
  - rewrite lookup_take_lt, lookup_drop, lookup_seq_lt by done. cbn. unfold file_byte.
    assert (Hd : (off + Z.of_nat i) / BSIZE = off / BSIZE ∧ (off + Z.of_nat i) mod BSIZE = off mod BSIZE + Z.of_nat i).
    { pose proof (Z.div_mod off BSIZE ltac:(done)). split.
      - symmetry. apply (Z.div_unique_pos _ _ _ (off mod BSIZE + Z.of_nat i)); lia.
      - symmetry. apply (Z.mod_unique_pos _ _ (off / BSIZE)); lia. }
    destruct Hd as [-> ->]. rewrite list_lookup_lookup_total_lt by lia. do 2 f_equal. lia.
  - rewrite lookup_take_ge, lookup_seq_ge by lia. done.
Qed.

(** Rounds left: the blocks between [off] and the end of the request. *)
Definition rounds (e tot n off : Z) : nat := if tot <? n then Z.to_nat ((e - 1) / BSIZE - off / BSIZE) + 1 else 0.

Lemma rounds_next e tot n off :
  0 ≤ tot < n → 0 ≤ off → e = off + (n - tot) →
  let m := Z.min (n - tot) (BSIZE - off mod BSIZE) in (rounds e (tot + m) n (off + m) < rounds e tot n off)%nat.
Proof.
  intros Ht Ho He m. pose proof (Z.mod_pos_bound off BSIZE ltac:(done)) as Hr. unfold rounds.
  replace (tot <? n) with true by lia. destruct (tot + m <? n) eqn:E; [|lia].
  assert (Hm : m = BSIZE - off mod BSIZE) by lia.
  assert (Hq : (off + m) / BSIZE = off / BSIZE + 1).
  { rewrite Hm. symmetry. pose proof (Z.div_mod off BSIZE ltac:(done)). apply (Z.div_unique_pos _ _ _ 0); lia. }
  assert (off / BSIZE + 1 ≤ (e - 1) / BSIZE) by (rewrite <-Hq; apply Z.div_le_mono; [done|lia]). lia.
Qed.

Lemma rounds_bound n off : 0 ≤ n → 0 ≤ off → (rounds (off + n) 0 n off < rw_fuel n)%nat.
Proof.
  intros Hn Ho. unfold rounds, rw_fuel. pose proof (Z.div_pos n BSIZE ltac:(lia) ltac:(done)).
  destruct (0 <? n) eqn:E; [|lia].
  assert ((off + n - 1) / BSIZE ≤ off / BSIZE + n / BSIZE + 1); [|lia].
  pose proof (Z.div_mod off BSIZE ltac:(done)). pose proof (Z.div_mod n BSIZE ltac:(done)).
  pose proof (Z.mod_pos_bound off BSIZE ltac:(done)). pose proof (Z.mod_pos_bound n BSIZE ltac:(done)).
  apply Z.lt_succ_r, Z.div_lt_upper_bound; [done|]. lia.
Qed.

(** The buffers, the log header in memory and memory pages may change. *)
Definition only_io (s t : kstate) : Prop := ∃ bufs lg m, t = set_mem m (set_log lg (set_bufs bufs s)).

Lemma only_io_bufs s t : only_bufs s t → only_io s t.
Proof. intros (bufs & lg & ->). by exists bufs, lg, (k_mem s). Qed.

Lemma only_io_mem s t m : only_io s t → only_io s (set_mem m t).
Proof. intros (bufs & lg & m' & ->). by exists bufs, lg, m. Qed.

Lemma only_io_trans s t u : only_io s t → only_io t u → only_io s u.
Proof. intros (b1 & l1 & m1 & ->) (b2 & l2 & m2 & ->). by exists b2, l2, m2. Qed.

Lemma only_bufs_io s t : only_io s t → k_mem t = k_mem s → only_bufs s t.
Proof. intros (bufs & lg & m & ->) E. cbn in E. subst m. by exists bufs, lg. Qed.

Lemma only_io_same s t : only_io s t →
  same_cpu s t ∧ k_proc t = k_proc s ∧ k_inodes t = k_inodes s.
Proof. by intros (bufs & lg & m & ->). Qed.

(** An address to which at least [n] can be added. *)
Definition dest_ok (dst : dest) (n : Z) : Prop :=
  match dst with ToUser a | ToKernel a => 0 ≤ a ∧ a + n < 2 ^ 64 | ToLocal _ => True end.
Definition dest_plus (dst : dest) (n : Z) : dest :=
  match dst with ToUser a => ToUser (a + n) | ToKernel a => ToKernel (a + n) | ToLocal o => ToLocal (o + n) end.

Lemma dest_plus_0 dst : dest_plus dst 0 = dst.
Proof. destruct dst; cbn; by rewrite Z.add_0_r. Qed.

Lemma dest_add_plus dst n tot m :
  dest_ok dst n → 0 ≤ tot → 0 ≤ m → tot + m ≤ n → dest_add (dest_plus dst tot) m = dest_plus dst (tot + m).
Proof. intros Hd Ht Hm Hn. destruct dst; cbn in *; f_equal; rewrite ?u64_small by lia; lia. Qed.

Section read.
Context {LY : Layout} {W : Wakeups} {BD : BlockDev} {SD : SyncDisk}.
Context (me : nat) (dev start : Z) (Hdev : dev ≠ 0) (C : (Z → list Z) → Prop).
Context (bl : list Z) (V B : Z → list Z) (Hroom : Z.of_nat (length bl) < NBUF) (HC : C B).
Implicit Types (s t : kstate) (x : inode).

Abbreviation crash := (λ t, C (k_blocks t)).
Abbreviation resting := (λ t, at_held me dev start t bl [] V B).

Lemma bmap_direct_read s ip k :
  i_addrs (k_inodes s !!! ip) !!! k ≠ 0 → bmap_direct ip k s = Ok (i_addrs (k_inodes s !!! ip) !!! k) s.
Proof using Type. intros Hn%Z.eqb_neq. unfold bmap_direct. fgo. by rewrite Hn. Qed.

Lemma bmap_read s ip k :
  let x := k_inodes s !!! ip in
  resting s → i_dev x = dev → file_ok V x → 0 ≤ k → k * BSIZE < i_size x →
  runs crash (λ r t, r = blk_addr V x k ∧ resting t ∧ only_bufs s t) (bmap ip k s).
Proof using HC Hdev Hroom SD.
  intros x Ha Hd Hf Hk Hks. destruct (fo_mapped _ _ Hf k Hk Hks) as [Hnz _]. unfold bmap, blk_addr in *.
  destruct (k <? NDIRECT) eqn:E.
  { rewrite bmap_direct_read by done. cbn. split_and!; [done|done|apply only_bufs_refl]. }
  pose proof (fo_size _ _ Hf) as Hsz. assert (Hki : (k - NDIRECT <? NINDIRECT) = true) by (unfold MAXFILE, BSIZE in *; lia).
  assert (Hin : i_addrs x !!! Z.to_nat NDIRECT ≠ 0) by (apply (fo_indirect _ _ Hf); unfold BSIZE in *; lia).
  rewrite Hki, run_bind, bmap_direct_read by done. fold x. cbn [obind]. set (bn := i_addrs x !!! Z.to_nat NDIRECT) in *.
  replace (bn =? 0) with false by lia. fgo. fold x. rewrite Hd. unfold bmap_indirect.
  pose proof (held_clean _ _ _ _ _ _ _ bn Ha) as Hcl.
  eapply runs_bind; [apply (bread_held me dev start Hdev C s bl [] V B bn Ha); [apply not_elem_of_nil|cbn; lia|done]|].
  intros bp t (Hat & Hb & [Ho _] & _). rewrite run_bind, run_get_buf. cbn [obind].
  rewrite (held_data _ _ _ _ _ _ _ _ _ bn Hat) by (left || done).
  replace (word (V bn) (Z.to_nat (k - NDIRECT)) =? 0) with false by lia. fgo.
  destruct (brelse_held me dev start Hdev t bl [] V B bp bn Hat) as (u & -> & Hau & [Hou _] & _); [apply not_elem_of_nil|done|done|].
  cbn. split_and!; [done|done|by eapply only_bufs_trans].
Qed.

(** One round of the loop of readi(), given what either_copyout() does. *)
Lemma readi_step_ok s ip n tot off dst var (Q : Z → (Z → Z) → list Z → Prop) :
  let x := k_inodes s !!! ip in let m := rw_len n tot off in
  resting s → i_dev x = dev → file_ok V x → 0 ≤ tot < n → n ≤ i_size x → 0 ≤ off → off + (n - tot) ≤ i_size x →
  (∀ t, idle me t → only_bufs s t → ∃ r m' v',
     either_copyout dst var (file_bytes V x off (Z.to_nat m)) t = Ok (r, v') (set_mem m' t) ∧ Q r m' v') →
  runs crash (λ res t, ∃ r v', Q r (k_mem t) v' ∧
      res = (if r =? -1 then inr (-1, v') else inl (tot + m, off + m, dest_add dst m, v')) ∧ resting t ∧ only_io s t)
    (readi_step ip n (tot, off, dst, var) s).
Proof using HC Hdev Hroom SD.
  intros x m Ha Hd Hf Htot Hn Hoff Hsz Hcopy. pose proof (Z.mod_pos_bound off BSIZE ltac:(done)) as Hr.
  pose proof (fo_size _ _ Hf) as Hfs. assert (Hmax : MAXFILE * BSIZE = 274432) by reflexivity.
  assert (Hm : m = Z.min (n - tot) (BSIZE - off mod BSIZE)) by (unfold m, rw_len; rewrite u32_small by lia; done).
  assert (Hq : 0 ≤ off / BSIZE ∧ off / BSIZE * BSIZE < i_size x).
  { split; [apply Z.div_pos; [lia|done]|]. pose proof (Z.mul_div_le off BSIZE ltac:(done)). lia. }
  destruct (fo_mapped _ _ Hf (off / BSIZE)) as [Hnz Hlen]; [lia|lia|].
  unfold readi_step. replace (tot <? n) with true by lia. cbn [negb].
  eapply runs_bind; [apply (bmap_read s ip (off / BSIZE)); try done; apply Hq|].
  intros addr t1 (-> & Ha1 & Ho1). fold x. set (bn := blk_addr V x (off / BSIZE)) in *.
  replace (bn =? 0) with false by lia. rewrite run_bind, run_get_inode. cbn [obind].
  assert (Ei : k_inodes t1 = k_inodes s) by (by destruct Ho1 as (? & ? & ->)). rewrite Ei. fold x. rewrite Hd.
  pose proof (held_clean _ _ _ _ _ _ _ bn Ha1) as Hcl.
  eapply runs_bind; [apply (bread_held me dev start Hdev C t1 bl [] V B bn Ha1); [apply not_elem_of_nil|cbn; lia|done]|].
  intros bp t2 (Ha2 & Hb & [Ho2 _] & _). rewrite run_bind, run_get_buf. cbn [obind].
  rewrite (held_data _ _ _ _ _ _ _ _ _ bn Ha2) by (left || done). fold m.
  assert (Ho : only_bufs s t2) by by eapply only_bufs_trans.
  unfold bn. rewrite file_bytes_block by (fold bn; lia || done).
  destruct (Hcopy t2 (at_held_idle _ _ _ _ _ _ _ _ Ha2) Ho) as (r & m' & v' & Ec & HQ).
  rewrite run_bind, Ec. cbn [obind fst snd].
  assert (Ha3 : at_held me dev start (set_mem m' t2) bl [bn] V B) by (by apply (at_held_same _ _ _ t2)).
  destruct (brelse_held me dev start Hdev (set_mem m' t2) bl [] V B bp bn Ha3) as (u & Eu & Hau & [Hou _] & _); [apply not_elem_of_nil|done|done|].
  assert (Hend : Q r (k_mem u) v' ∧ only_io s u).
  { split; [by destruct Hou as (? & ? & ->)|]. eapply only_io_trans, only_io_bufs, Hou. by apply only_io_mem, only_io_bufs. }
  destruct Hend as [HQu Hsu].
  destruct (r =? -1) eqn:Er; rewrite run_bind, Eu; cbn [obind runs mret M_ret]; rewrite ?u32_small by lia; exists r, v'; by rewrite Er.
Qed.

(** The whole loop: [reached tot] describes memory and the variable after [tot]
    bytes, [failed] when a copy fails. *)
Lemma readi_ok s ip off n dst var (reached : Z → (Z → Z) → list Z → Prop) (failed : (Z → Z) → list Z → Prop) :
  let x := k_inodes s !!! ip in let n' := Z.min n (i_size x - off) in
  resting s → i_dev x = dev → file_ok V x → 0 ≤ off ≤ i_size x → 0 ≤ n → off + n < 2 ^ 32 → dest_ok dst n' →
  reached 0 (k_mem s) var →
  (∀ t tot c v, idle me t → only_io s t → 0 ≤ tot → 0 < c → tot + c ≤ n' → reached tot (k_mem t) v → ∃ r m' v',
     either_copyout (dest_plus dst tot) v (file_bytes V x (off + tot) (Z.to_nat c)) t = Ok (r, v') (set_mem m' t) ∧
     (r = 0 ∧ reached (tot + c) m' v' ∨ r = -1 ∧ failed m' v')) →
  runs crash (λ r t, (r.1 = n' ∧ reached n' (k_mem t) r.2 ∨ r.1 = -1 ∧ failed (k_mem t) r.2) ∧ resting t ∧ only_io s t)
    (readi ip dst var off n s).
Proof using HC Hdev Hroom SD.
  intros x n' Ha Hd Hf Hoff Hn Hw Hdst Hr0 Hcopy. pose proof (fo_size _ _ Hf) as Hfs.
  assert (Hmax : MAXFILE * BSIZE = 274432) by reflexivity.
  unfold readi. fgo. fold x. rewrite u32_small by lia. replace (i_size x <? off) with false by lia.
  replace (off + n <? off) with false by lia. cbn [orb]. rewrite (u32_small (i_size x - off)) by lia.
  replace (if i_size x <? off + n then i_size x - off else n) with n' by (unfold n'; destruct (i_size x <? off + n) eqn:E; lia).
  assert (Hn' : 0 ≤ n' ∧ off + n' ≤ i_size x) by lia. clearbody n'.
  set (P := λ (st : Z * Z * dest * list Z) t, ∃ tot v, st = (tot, off + tot, dest_plus dst tot, v) ∧
    0 ≤ tot ≤ n' ∧ reached tot (k_mem t) v ∧ resting t ∧ only_io s t).
  eapply runs_bind; [eapply (runs_loop crash P
    (λ r t, (r.1 = n' ∧ reached n' (k_mem t) r.2 ∨ r.1 = -1 ∧ failed (k_mem t) r.2) ∧ resting t ∧ only_io s t)
    (λ st, rounds (off + n') st.1.1.1 n' st.1.1.2))|].
  - intros st t (tot & v & -> & Htot & Hre & Hat & Hot). cbn [fst snd].
    destruct (only_io_same _ _ Hot) as (_ & _ & Ei).
    destruct (decide (tot = n')) as [->|Hne].
    { unfold readi_step. rewrite Z.ltb_irrefl. cbn. split_and!; [by left|done|done]. }
    pose proof (Z.mod_pos_bound (off + tot) BSIZE ltac:(done)).
    set (m := rw_len n' tot (off + tot)).
    assert (Hm : m = Z.min (n' - tot) (BSIZE - (off + tot) mod BSIZE)) by (unfold m, rw_len; rewrite u32_small by lia; done).
    pose proof (readi_step_ok t ip n' tot (off + tot) (dest_plus dst tot) v
      (λ r m' v', r = 0 ∧ reached (tot + m) m' v' ∨ r = -1 ∧ failed m' v')) as Hstep. cbn zeta in Hstep.
    rewrite Ei in Hstep. fold x m in Hstep. eapply runs_mono; [apply Hstep; try done; try lia|done|].
    { intros u Hu Hou. apply Hcopy; try done; try lia; [by eapply only_io_trans, only_io_bufs|]. by destruct Hou as (? & ? & ->). }
    clear Hstep. intros res u (r & v' & Hres & -> & Hau & Hou). assert (Hsu : only_io s u) by by eapply only_io_trans.
    destruct Hres as [[-> Hres]|[-> Hres]]; cbn beta iota.
    + change (0 =? -1) with false. cbn [fst snd]. split; [|rewrite Hm; apply rounds_next; lia].
      exists (tot + m), v'. split_and!; try done; try lia. rewrite (dest_add_plus dst n') by (done || lia). by rewrite Z.add_assoc.
    + rewrite Z.eqb_refl. cbn [fst snd]. split_and!; [by right|done|done].
  - exists 0, var. split_and!; try done; try lia; [by rewrite Z.add_0_r, dest_plus_0|apply only_io_bufs, only_bufs_refl].
  - cbn [fst snd]. apply rounds_bound; lia.
  - intros r t (Hres & Hat & Hot). cbn. rewrite i32_small by lia. done.
Qed.
End read.

(** ** Destinations *)

Lemma splice_nil o l : splice o [] l = l.
Proof. unfold splice. cbn. rewrite Nat.add_0_r. apply take_drop. Qed.

Lemma splice_splice o a b l :
  (o + length a ≤ length l)%nat → splice (o + length a) b (splice o a l) = splice o (a ++ b) l.
Proof.
  intros Hl. unfold splice. rewrite length_app.
  assert (Ht : length (take o l) = o) by (rewrite length_take; lia).
  rewrite (app_assoc (take o l)), take_app_length' by (rewrite length_app; lia).
  rewrite drop_app_ge, drop_drop, !length_app, Ht by (rewrite length_app; lia).
  rewrite <-!app_assoc. do 4 f_equal. lia.
Qed.

Lemma store_store m a bs cs x :
  store (store m a bs) (a + Z.of_nat (length bs)) cs x = store m a (bs ++ cs) x.
Proof.
  rewrite !store_lookup, length_app. destruct (decide (a ≤ x < a + Z.of_nat (length bs))) as [H|H].
  - replace ((a + Z.of_nat (length bs) <=? x) && _) with false by lia.
    replace ((a <=? x) && (x <? a + Z.of_nat (length bs))) with true by lia.
    replace ((a <=? x) && (x <? a + Z.of_nat (length bs + length cs))) with true by lia.
    by rewrite lookup_total_app_l by lia.
  - replace ((a <=? x) && (x <? a + Z.of_nat (length bs))) with false by lia.
    destruct ((a + Z.of_nat (length bs) <=? x) && (x <? a + Z.of_nat (length bs) + Z.of_nat (length cs))) eqn:E.
    + replace ((a <=? x) && (x <? a + Z.of_nat (length bs + length cs))) with true by lia.
      rewrite lookup_total_app_r by lia. f_equal. lia.
    + by replace ((a <=? x) && (x <? a + Z.of_nat (length bs + length cs))) with false by lia.
Qed.

Lemma store_ext m m' a bs x : m x = m' x → store m a bs x = store m' a bs x.
Proof. intros E. rewrite !store_lookup. by rewrite E. Qed.

Lemma length_file_bytes V x off n : length (file_bytes V x off n) = n.
Proof. unfold file_bytes. by rewrite length_fmap, length_seq. Qed.

Lemma file_bytes_next V x off tot c : 0 ≤ tot → 0 ≤ c →
  file_bytes V x off (Z.to_nat (tot + c)) = file_bytes V x off (Z.to_nat tot) ++ file_bytes V x (off + tot) (Z.to_nat c).
Proof. intros Ht Hc. by rewrite Z2Nat.inj_add, file_bytes_app, Z2Nat.id by lia. Qed.

Section destinations.
Context {LY : Layout} {LOk : LayoutOk} {W : Wakeups} {BD : BlockDev} {SD : SyncDisk}.
Context (me : nat) (dev start : Z) (Hdev : dev ≠ 0) (C : (Z → list Z) → Prop).
Context (bl : list Z) (V B : Z → list Z) (Hroom : Z.of_nat (length bl) < NBUF) (HC : C B).
Context (s : kstate) (ip : nat) (off n : Z).

Abbreviation crash := (λ t, C (k_blocks t)).
Abbreviation resting := (λ t, at_held me dev start t bl [] V B).
Abbreviation x := (k_inodes s !!! ip).
Abbreviation n' := (Z.min n (i_size (k_inodes s !!! ip) - off)).
Abbreviation bs := (file_bytes V (k_inodes s !!! ip) off (Z.to_nat (Z.min n (i_size (k_inodes s !!! ip) - off)))).

Context (Ha : resting s) (Hd : i_dev x = dev) (Hf : file_ok V x).
Context (Hoff : 0 ≤ off ≤ i_size x) (Hn : 0 ≤ n) (Hw : off + n < 2 ^ 32).

Lemma readi_local o var :
  0 ≤ o → o + n' ≤ Z.of_nat (length var) →
  runs crash (λ r t, r = (n', splice (Z.to_nat o) bs var) ∧ resting t ∧ only_bufs s t) (readi ip (ToLocal o) var off n s).
Proof using HC Hdev Hroom SD Ha Hd Hf Hoff Hn Hw.
  intros Ho Hlen. eapply runs_mono; [apply (readi_ok me dev start Hdev C bl V B Hroom HC s ip off n (ToLocal o) var
    (λ tot m v, m = k_mem s ∧ v = splice (Z.to_nat o) (file_bytes V x off (Z.to_nat tot)) var) (λ _ _, False)); try done| |].
  - split; [done|]. symmetry. apply splice_nil.
  - intros t tot c v Hi Hot Ht Hc Hsum (Em & ->). exists 0, (k_mem s), (splice (Z.to_nat o) (file_bytes V x off (Z.to_nat (tot + c))) var).
    split; [|by left]. unfold either_copyout. rewrite run_bind, (curproc_ok me) by apply Hi. cbn [obind dest_plus].
    rewrite length_file_bytes. unfold splice at 1. rewrite !length_app, length_take, length_drop, !length_file_bytes.
    replace ((0 <=? o + tot) && _) with true by lia. rewrite run_ret. f_equal.
    + f_equal. rewrite file_bytes_next by lia.
      replace (Z.to_nat (o + tot)) with (Z.to_nat o + length (file_bytes V x off (Z.to_nat tot)))%nat by (rewrite length_file_bytes; lia).
      apply splice_splice. rewrite length_file_bytes. lia.
    + destruct Hot as (? & ? & ? & ->). cbn in Em. by subst.
  - done.
  - intros [r v] t (Hres & Hat & Hot). cbn [fst snd] in Hres. destruct Hres as [(-> & Em & ->)|[_ []]].
    split_and!; [done|done|by apply only_bufs_io].
Qed.

Lemma readi_kernel pa var :
  0 ≤ pa → pa + n' < 2 ^ 64 →
  runs crash (λ r t, r = (n', var) ∧ (∀ a, k_mem t a = store (k_mem s) pa bs a) ∧ resting t ∧ only_io s t)
    (readi ip (ToKernel pa) var off n s).
Proof using HC Hdev Hroom SD Ha Hd Hf Hoff Hn Hw.
  intros Ho Hlen. eapply runs_mono; [apply (readi_ok me dev start Hdev C bl V B Hroom HC s ip off n (ToKernel pa) var
    (λ tot m v, (∀ a, m a = store (k_mem s) pa (file_bytes V x off (Z.to_nat tot)) a) ∧ v = var) (λ _ _, False)); try done| |].
  - intros t tot c v Hi Hot Ht Hc Hsum (Em & ->).
    exists 0, (store (k_mem t) (pa + tot) (file_bytes V x (off + tot) (Z.to_nat c))), var. split.
    + unfold either_copyout. rewrite run_bind, (curproc_ok me) by apply Hi. cbn [obind dest_plus]. by fgo.
    + left. split_and!; [done| |done]. intros a. rewrite file_bytes_next by lia. rewrite <-store_store, length_file_bytes, Z2Nat.id by lia.
      by apply store_ext.
  - done.
  - intros [r v] t (Hres & Hat & Hot). cbn [fst snd] in Hres. by destruct Hres as [(-> & Em & ->)|[_ []]].
Qed.

Lemma readi_user va var T k :
  pt_inv (k_mem s) (p_pagetable (k_proc s !!! me)) T → takes me s T va n' k → va + n' < 2 ^ 64 →
  runs crash (λ r t, r = (if k <? n' then -1 else n', var) ∧ wrote (k_mem s) (k_mem t) T va (take (Z.to_nat k) bs) ∧
      resting t ∧ only_io s t)
    (readi ip (ToUser va) var off n s).
Proof using HC Hdev Hroom SD Ha Hd Hf Hoff Hn Hw LOk.
  intros HT Htk Hva. pose proof Htk as [Hkr HR _]. destruct (ur_bound _ _ _ _ _ HR) as [Hva0 _].
  assert (Hpre : ∀ tot, 0 ≤ tot ≤ k → user_range (k_mem s) T PTE_W va (Z.of_nat (length (file_bytes V x off (Z.to_nat tot))))).
  { intros tot Ht. rewrite length_file_bytes, Z2Nat.id by lia. eapply user_range_sub; [done|lia|lia]. }
  eapply runs_mono; [apply (readi_ok me dev start Hdev C bl V B Hroom HC s ip off n (ToUser va) var
    (λ tot m v, tot ≤ k ∧ wrote (k_mem s) m T va (file_bytes V x off (Z.to_nat tot)) ∧ v = var)
    (λ m v, k < n' ∧ wrote (k_mem s) m T va (file_bytes V x off (Z.to_nat k)) ∧ v = var)); try done| |].
  - split_and!; [lia| |done]. by split.
  - intros t tot c v Hi Hot Ht Hc Hsum (Htotk & HW & ->). set (cs := file_bytes V x (off + tot) (Z.to_nat c)).
    assert (Htab : ∀ π p y, T !! π = Some p → p ≤ y < p + PGSIZE → k_mem t y = k_mem s y).
    { intros π p y. eapply wrote_table; [done|by apply Hpre|done]. }
    destruct (only_io_same _ _ Hot) as (Hcpu & Hproc & _). set (k' := Z.min c (k - tot)).
    assert (Htk' : takes me t T (va + tot) (Z.of_nat (length cs)) k').
    { unfold cs. rewrite length_file_bytes, Z2Nat.id by lia. eapply (takes_sub me s t); try done; lia. }
    destruct (copyout_takes me t (p_pagetable (k_proc t !!! me)) T (va + tot) cs k') as (m' & E & HW'); [|done|].
    { rewrite Hproc. by eapply pt_inv_ext. }
    unfold cs in E at 2. rewrite length_file_bytes, Z2Nat.id in E by lia. exists (if k' <? c then -1 else 0), m', var. split.
    { unfold either_copyout. rewrite run_bind, (curproc_ok me) by apply Hi. cbn [obind dest_plus].
      rewrite run_bind, run_get_proc. cbn [obind]. by rewrite run_bind, E. }
    assert (Hall : wrote (k_mem s) m' T va (file_bytes V x off (Z.to_nat (tot + k')))).
    { replace (file_bytes V x off (Z.to_nat (tot + k'))) with (file_bytes V x off (Z.to_nat tot) ++ take (Z.to_nat k') cs).
      - eapply wrote_app; [done| |exact HW|by rewrite length_file_bytes, Z2Nat.id by lia].
        eapply user_range_sub; [exact HR|lia|]. unfold cs. rewrite length_app, length_take, !length_file_bytes. lia.
      - unfold cs. rewrite file_bytes_next by lia. f_equal. unfold file_bytes. rewrite <-fmap_take, take_seq. do 2 f_equal. lia. }
    destruct (k' <? c) eqn:Ek; [right|left]; (split; [done|]).
    + replace (tot + k') with k in Hall by lia. split_and!; [lia|done|done].
    + replace (tot + k') with (tot + c) in Hall by lia. split_and!; [lia|done|done].
  - done.
  - intros [r v] t (Hres & Hat & Hot). cbn [fst snd] in Hres.
    assert (Htake : take (Z.to_nat k) bs = file_bytes V x off (Z.to_nat k)).
    { unfold file_bytes. rewrite <-fmap_take, take_seq. do 2 f_equal. lia. }
    rewrite Htake. destruct Hres as [(-> & Hk & HW & ->)|(-> & Hk & HW & ->)].
    + assert (k = n') as -> by lia. by rewrite Z.ltb_irrefl.
    + by replace (k <? n') with true by lia.
Qed.
End destinations.

(** ** The inode table *)

(** What iget() does to the table: the entry it returns and the new table. *)
Definition iget_table (dev inum : Z) (table : list inode) : option (nat * list inode) :=
  match iget_scan table 0 dev inum None with
  | inl i => Some (i, alter (λ ip, set_i_ref (i32 (i_ref ip + 1)) ip) i table)
  | inr (Some i) => Some (i, alter (λ ip, set_i_valid 0 (set_i_ref 1 (set_i_inum inum (set_i_dev dev ip)))) i table)
  | inr None => None
  end.

Lemma iget_ok me s dev inum i table :
  idle me s → k_locks s !! L_itable = None → iget_table dev inum (k_inodes s) = Some (i, table) →
  iget dev inum s = Ok i (set_inodes table s).
Proof.
  intros Hi Hlk Ht. unfold iget. rewrite run_bind, (idle_acquire me s Hi) by done. cbn [obind]. fgo.
  change (k_inodes (locked L_itable s)) with (k_inodes s). unfold iget_table in Ht.
  destruct (iget_scan (k_inodes s) 0 dev inum None) as [j|[j|]]; [| |done]; injection Ht as <- <-; fgo.
  - by rewrite (idle_release me s Hi) by done.
  - rewrite (idle_release me s Hi) by done. cbn [obind k_inodes set_inodes]. rewrite !list_alter_alter_eq. done.
Qed.

(** An entry in use for the inode. *)
Definition in_use_for (dev inum : Z) (x : inode) : Prop := 0 < i_ref x ∧ i_dev x = dev ∧ i_inum x = inum.

(** A counted reference to the inode through entry [i]: one more user of the
    first entry in use for it or, when there is none, one user of the first entry
    not in use, whose contents are to be read from the disk. *)
Inductive counted (dev inum : Z) (table : list inode) (i : nat) : list inode → Prop :=
  | counted_again :
      (i < length table)%nat → in_use_for dev inum (table !!! i) → (∀ j, (j < i)%nat → ¬ in_use_for dev inum (table !!! j)) →
      counted dev inum table i (alter (λ x, set_i_ref (i_ref x + 1) x) i table)
  | counted_new :
      (∀ x, x ∈ table → ¬ in_use_for dev inum x) →
      (i < length table)%nat → i_ref (table !!! i) = 0 → (∀ j, (j < i)%nat → i_ref (table !!! j) ≠ 0) →
      counted dev inum table i
        (alter (λ x, set_i_valid 0 (set_i_ref 1 (set_i_inum inum (set_i_dev dev x)))) i table).

(** [i] is the first element with the property. *)
Definition first_at (P : inode → Prop) (l : list inode) (i : nat) : Prop :=
  (i < length l)%nat ∧ P (l !!! i) ∧ ∀ j, (j < i)%nat → ¬ P (l !!! j).

Lemma first_at_cons (P : inode → Prop) x l i : ¬ P x → first_at P l i → first_at P (x :: l) (S i).
Proof. intros Hx (H1 & H2 & H3). split_and!; [cbn; lia|done|]. intros [|j] Hj; [done|]. apply (H3 j). lia. Qed.

Lemma iget_scan_spec l k dev inum e :
  match iget_scan l k dev inum e with
  | inl i => ∃ n, i = (k + n)%nat ∧ first_at (in_use_for dev inum) l n
  | inr o => (∀ x, x ∈ l → ¬ in_use_for dev inum x) ∧
      match e with
      | Some _ => o = e
      | None => match o with
                | Some i => ∃ n, i = (k + n)%nat ∧ first_at (λ x, i_ref x = 0) l n
                | None => ∀ x, x ∈ l → i_ref x ≠ 0
                end
      end
  end.
Proof.
  revert k e. induction l as [|x l IH]; intros k e; cbn [iget_scan].
  { split; [by intros x ?%not_elem_of_nil|]. destruct e; [done|]. by intros x ?%not_elem_of_nil. }
  destruct ((0 <? i_ref x) && (i_dev x =? dev) && (i_inum x =? inum)) eqn:E.
  { exists 0%nat. split; [lia|]. split_and!; [cbn; lia|cbn; unfold in_use_for; lia|lia]. }
  assert (Hx : ¬ in_use_for dev inum x) by (unfold in_use_for; lia).
  set (e' := if bool_decide (e = None) && (i_ref x =? 0) then Some k else e). specialize (IH (S k) e').
  destruct (iget_scan l (S k) dev inum e') as [i|o].
  { destruct IH as (n & -> & Hn). exists (S n). split; [lia|by apply first_at_cons]. }
  destruct IH as [Hno Ho]. split; [by intros y [->|Hy]%elem_of_cons; [|apply Hno]|].
  destruct e as [k'|]; [done|]. unfold e' in Ho. cbn in Ho. destruct (i_ref x =? 0) eqn:E0; cbn in Ho.
  - subst o. exists 0%nat. split; [lia|]. split_and!; [cbn; lia|cbn; lia|lia].
  - destruct o as [i|].
    + destruct Ho as (n & -> & Hn). exists (S n). split; [lia|apply first_at_cons; [lia|done]].
    + intros y [->|Hy]%elem_of_cons; [lia|by apply Ho].
Qed.

Lemma iget_table_counted dev inum table i table' :
  iget_table dev inum table = Some (i, table') → (∀ j, i_ref (table !!! j) < 2 ^ 31 - 1) → counted dev inum table i table'.
Proof.
  intros Ht Hr. unfold iget_table in Ht. pose proof (iget_scan_spec table 0 dev inum None) as Hs.
  destruct (iget_scan table 0 dev inum None) as [k|[k|]]; [| |done]; injection Ht as <- <-.
  - destruct Hs as (n & -> & H1 & H2 & H3). rewrite Nat.add_0_l.
    replace (alter (λ ip, set_i_ref (i32 (i_ref ip + 1)) ip) n table) with (alter (λ x, set_i_ref (i_ref x + 1) x) n table).
    + by apply counted_again.
    + apply list_alter_ext; [|done]. intros x Hx. specialize (Hr n). rewrite (list_lookup_total_correct _ _ _ Hx) in *.
      destruct H2 as [? _]. by rewrite i32_small by lia.
  - destruct Hs as (Hno & n & -> & H1 & H2 & H3). by apply counted_new.
Qed.

(** There is room while an entry is not in use. *)
Lemma iget_table_room dev inum table : (∃ x, x ∈ table ∧ i_ref x = 0) → iget_table dev inum table ≠ None.
Proof.
  intros (x & Hx & Hr). unfold iget_table. pose proof (iget_scan_spec table 0 dev inum None) as Hs.
  destruct (iget_scan table 0 dev inum None) as [i|[i|]]; [done|done|]. destruct Hs as [_ Hs]. by destruct (Hs x Hx).
Qed.

(** ** Directories *)

(** Entry [k] of a directory, and whether it is the one of [name]. *)
Definition dirent_at (V : Z → list Z) (x : inode) (k : nat) : list Z := file_bytes V x (sizeof_dirent * Z.of_nat k) 16.
Definition entry_matches (name de : list Z) : bool := negb (de_inum de =? 0) && (namecmp name (de_name de) =? 0).

(** The first entry with the name, from entry [k] on. *)
Fixpoint first_entry (V : Z → list Z) (x : inode) (name : list Z) (k n : nat) : option nat :=
  match n with
  | O => None
  | S n => if entry_matches name (dirent_at V x k) then Some k else first_entry V x name (S k) n
  end.

Definition dir_entries (x : inode) : nat := Z.to_nat (i_size x / sizeof_dirent).

(** A directory: a file of whole entries. *)
Definition dir_ok (V : Z → list Z) (x : inode) : Prop :=
  file_ok V x ∧ i_type x = T_DIR ∧ i_size x mod sizeof_dirent = 0.

Section dir.
Context {LY : Layout} {W : Wakeups} {BD : BlockDev} {SD : SyncDisk}.
Context (me : nat) (dev start : Z) (Hdev : dev ≠ 0) (C : (Z → list Z) → Prop).
Context (bl : list Z) (V B : Z → list Z) (Hroom : Z.of_nat (length bl) < NBUF) (HC : C B).

Abbreviation crash := (λ t, C (k_blocks t)).
Abbreviation resting := (λ t, at_held me dev start t bl [] V B).

Lemma read_dirent_ok msg s dp k :
  let x := k_inodes s !!! dp in
  resting s → i_dev x = dev → dir_ok V x → (k < dir_entries x)%nat →
  runs crash (λ de t, de = dirent_at V x k ∧ resting t ∧ only_bufs s t)
    (read_dirent msg dp (sizeof_dirent * Z.of_nat k) s).
Proof using HC Hdev Hroom SD.
  intros x Ha Hd (Hf & _ & Hm) Hk. unfold read_dirent. pose proof (fo_size _ _ Hf) as Hfs.
  assert (Hmax : MAXFILE * BSIZE = 274432) by reflexivity. unfold dir_entries, sizeof_dirent in *.
  pose proof (Z.div_mod (i_size x) 16 ltac:(done)) as Hdm.
  eapply runs_bind; [apply (readi_local me dev start Hdev C bl V B Hroom HC s dp); try done; fold x; unfold local_var; rewrite ?length_replicate; lia|].
  intros r t (-> & Hat & Hot). fold x. rewrite Z.min_l by lia. cbn [fst snd]. rewrite Z.eqb_refl. cbn [negb runs mret M_ret].
  split_and!; [|done|done]. unfold dirent_at, local_var, splice, sizeof_dirent. rewrite length_file_bytes, drop_ge by (rewrite length_replicate; lia).
  cbn [take app Z.to_nat]. by rewrite app_nil_r.
Qed.

(** What dirlookup() returns. *)
Definition dirlookup_post s (x : inode) (name : list Z) (r : option (nat * Z)) t : Prop :=
  match first_entry V x name 0 (dir_entries x) with
  | None => r = None ∧ resting t ∧ only_bufs s t
  | Some k => ∃ i table, r = Some (i, sizeof_dirent * Z.of_nat k) ∧
      iget_table dev (de_inum (dirent_at V x k)) (k_inodes s) = Some (i, table) ∧ resting t ∧
      ∃ u, only_bufs s u ∧ t = set_inodes table u
  end.

Lemma dirlookup_ok s dp name :
  let x := k_inodes s !!! dp in
  resting s → i_dev x = dev → dir_ok V x → k_locks s !! L_itable = None →
  (∃ y, y ∈ k_inodes s ∧ i_ref y = 0) →
  runs crash (dirlookup_post s x name) (dirlookup dp name s).
Proof using HC Hdev Hroom SD.
  intros x Ha Hd Hdir Hlk Hig. pose proof Hdir as (Hf & Hty & Hm). pose proof (fo_size _ _ Hf) as Hfs.
  assert (Hmax : MAXFILE * BSIZE = 274432) by reflexivity. pose proof (Z.div_mod (i_size x) 16 ltac:(done)) as Hdm.
  unfold dirlookup. fgo. fold x. rewrite Hty, Z.eqb_refl. cbn [negb].
  set (P := λ (off : Z) t, ∃ k, off = sizeof_dirent * Z.of_nat k ∧ (k ≤ dir_entries x)%nat ∧ resting t ∧ only_bufs s t ∧
    first_entry V x name 0 (dir_entries x) = first_entry V x name k (dir_entries x - k)).
  eapply (runs_loop crash P _ (λ off, (dir_entries x - Z.to_nat (off / sizeof_dirent))%nat)); cycle 1.
  { exists O. split_and!; try done; [lia|apply only_bufs_refl|by rewrite Nat.sub_0_r]. }
  { unfold dir_fuel, dir_entries. lia. }
  intros off t (k & -> & Hk & Hat & Hot & Hfirst). fgo.
  assert (Ei : k_inodes t = k_inodes s) by (by destruct Hot as (? & ? & ->)). rewrite Ei. fold x.
  destruct (decide (k = dir_entries x)) as [->|Hne].
  { unfold dir_entries in *. unfold sizeof_dirent in *. replace (16 * Z.of_nat (Z.to_nat (i_size x / 16)) <? i_size x) with false by lia.
    cbn. unfold dirlookup_post, dir_entries. rewrite Nat.sub_diag in Hfirst. unfold sizeof_dirent. by rewrite Hfirst. }
  assert (Hlt : (sizeof_dirent * Z.of_nat k <? i_size x) = true) by (unfold dir_entries, sizeof_dirent in *; lia).
  rewrite Hlt. cbn [negb]. replace (dir_entries x - k)%nat with (S (dir_entries x - S k)) in Hfirst by lia.
  cbn [first_entry] in Hfirst.
  pose proof (read_dirent_ok "dirlookup read" t dp k) as Hread. cbn zeta in Hread. rewrite Ei in Hread. fold x in Hread.
  eapply runs_bind; [apply Hread; try done; lia|]. clear Hread. intros de u (-> & Hau & Hou).
  assert (Hosu : only_bufs s u) by by eapply only_bufs_trans.
  assert (Hnext : entry_matches name (dirent_at V x k) = false →
    P (u32 (sizeof_dirent * Z.of_nat k + sizeof_dirent)) u ∧
    (dir_entries x - Z.to_nat (u32 (sizeof_dirent * Z.of_nat k + sizeof_dirent) / sizeof_dirent) <
     dir_entries x - Z.to_nat (sizeof_dirent * Z.of_nat k / sizeof_dirent))%nat).
  { intros E. rewrite E in Hfirst. rewrite u32_small by (unfold dir_entries, sizeof_dirent in *; lia).
    replace (sizeof_dirent * Z.of_nat k + sizeof_dirent) with (sizeof_dirent * Z.of_nat (S k)) by lia.
    rewrite !(Z.mul_comm sizeof_dirent), !Z.div_mul, !Nat2Z.id by done. split; [|lia].
    exists (S k). rewrite (Z.mul_comm sizeof_dirent). split_and!; try done. lia. }
  unfold entry_matches in Hnext, Hfirst. destruct (de_inum (dirent_at V x k) =? 0); cbn [negb andb] in *; [by apply Hnext|].
  destruct (namecmp name (de_name (dirent_at V x k)) =? 0); [|by apply Hnext]. fgo.
  assert (Eu : k_inodes u = k_inodes s) by (by destruct Hosu as (? & ? & ->)).
  destruct (iget_table dev (de_inum (dirent_at V x k)) (k_inodes s)) as [[i table]|] eqn:Et; [|by apply iget_table_room in Et].
  rewrite Eu. fold x. rewrite Hd, (iget_ok me u dev _ i table); [|by eapply at_held_idle|by destruct Hosu as (? & ? & ->)|by rewrite Eu].
  cbn. unfold dirlookup_post. rewrite Hfirst. exists i, table. split_and!; try done; [by apply at_held_inodes|]. by exists u.
Qed.
End dir.

Section claims.
Context {LY : Layout} {LOk : LayoutOk} {W : Wakeups} {BD : BlockDev} {SD : SyncDisk}.

(** C26: readi() reads the file.  For a locked inode whose blocks are all
    allocated, the bytes [bs] of the file from [off] on, through direct and
    indirect blocks, [n] of them or those up to the end of the file, arrive at the
    destination as one run, across the block boundaries of the file and the pages
    of the destination: in a variable of the kernel that has room for them, in
    kernel memory, or in the memory of the calling process through its page table.
    readi() returns their number; if a page of user memory cannot be written,
    because it is read-only, outside the process or behind the address space, it
    returns -1, and the bytes before that page have arrived.  Nothing else changes
    but the buffer cache, whose contents stay as they are.  A request that starts
    behind the end, or wraps around, reads nothing. *)
Theorem readi_reads_file me dev start (C : (Z → list Z) → Prop) bl V B s ip dst var off n :
  let x := k_inodes s !!! ip in
  dev ≠ 0 → Z.of_nat (length bl) < NBUF → C B → at_held me dev start s bl [] V B → i_dev x = dev → file_ok V x →
  0 ≤ off < 2 ^ 32 → 0 ≤ n < 2 ^ 32 →
  if (off <=? i_size x) && (off + n <? 2 ^ 32) then
    let n' := Z.min n (i_size x - off) in let bs := file_bytes V x off (Z.to_nat n') in
    let post (Q : Z * list Z → kstate → Prop) :=
      runs (λ t, C (k_blocks t)) (λ r t, Q r t ∧ at_held me dev start t bl [] V B) (readi ip dst var off n s) in
    match dst with
    | ToLocal o => 0 ≤ o → o + n' ≤ Z.of_nat (length var) →
        post (λ r t, r = (n', splice (Z.to_nat o) bs var) ∧ only_bufs s t)
    | ToKernel pa => 0 ≤ pa → pa + n' < 2 ^ 64 →
        post (λ r t, r = (n', var) ∧ (∀ a, k_mem t a = store (k_mem s) pa bs a) ∧ only_io s t)
    | ToUser va => ∀ T k,
        pt_inv (k_mem s) (p_pagetable (k_proc s !!! me)) T → takes me s T va n' k → va + n' < 2 ^ 64 →
        post (λ r t, r = (if k <? n' then -1 else n', var) ∧ wrote (k_mem s) (k_mem t) T va (take (Z.to_nat k) bs) ∧
          only_io s t)
    end
  else readi ip dst var off n s = Ok (0, var) s.
Proof using SD LOk.
  intros x Hdev Hroom HC Ha Hd Hf Ho Hn. destruct ((off <=? i_size x) && (off + n <? 2 ^ 32)) eqn:E.
  - cbn zeta. subst x. destruct dst as [va|pa|o]; intros; eapply runs_mono.
    + eapply (readi_user me dev start Hdev C bl V B Hroom HC s ip off n); try done; lia.
    + done.
    + by intros r t (? & ? & ? & ?).
    + apply (readi_kernel me dev start Hdev C bl V B Hroom HC s ip off n); try done; lia.
    + done.
    + by intros r t (? & ? & ? & ?).
    + apply (readi_local me dev start Hdev C bl V B Hroom HC s ip off n); try done; lia.
    + done.
    + by intros r t (? & ? & ?).
  - unfold readi. fgo. fold x. assert (Hc : (i_size x <? off) || (u32 (off + n) <? off) = true); [|by rewrite Hc].
    destruct (i_size x <? off) eqn:E2; [done|]. cbn [orb]. unfold u32, uwrap.
    rewrite <-(Z_mod_plus_full (off + n) (-1)), Z.mod_small by lia. lia.
Qed.

(** C27: dirlookup() finds the name.  In a directory of whole entries,
    it returns the first entry in use whose name equals the given one in the
    sense of namecmp(), with its offset, and a counted reference to its inode: the
    entry of the inode table that is in use for it has one more user or, when there
    is none, the first entry not in use is taken for it, with one user and its
    contents not yet read.  Nothing else changes but the buffer cache, whose
    contents stay as they are; without such a directory entry it returns 0 and
    changes nothing else. *)
Theorem dirlookup_finds_name me dev start (C : (Z → list Z) → Prop) bl V B s dp name :
  let x := k_inodes s !!! dp in
  dev ≠ 0 → Z.of_nat (length bl) < NBUF → C B → at_held me dev start s bl [] V B → i_dev x = dev → dir_ok V x →
  k_locks s !! L_itable = None → (∃ y, y ∈ k_inodes s ∧ i_ref y = 0) → (∀ j, i_ref (k_inodes s !!! j) < 2 ^ 31 - 1) →
  runs (λ t, C (k_blocks t))
    (λ r t, at_held me dev start t bl [] V B ∧
       match first_entry V x name 0 (dir_entries x) with
       | None => r = None ∧ only_bufs s t
       | Some k => ∃ i table u, r = Some (i, sizeof_dirent * Z.of_nat k) ∧
           counted dev (de_inum (dirent_at V x k)) (k_inodes s) i table ∧
           only_bufs s u ∧ t = set_inodes table u
       end)
    (dirlookup dp name s).
Proof using SD.
  intros x Hdev Hroom HC Ha Hd Hdir Hlk Hfree Href.
  eapply runs_mono; [apply (dirlookup_ok me dev start Hdev C bl V B Hroom HC s dp name); done|done|].
  intros r t Hpost. unfold dirlookup_post in Hpost. fold x in Hpost.
  destruct (first_entry V x name 0 (dir_entries x)) as [k|]; [|by destruct Hpost as (? & ? & ?)].
  destruct Hpost as (i & table & -> & Ht & Hat & u & Hu & Etu). split; [done|]. exists i, table, u. split_and!; try done.
  by apply iget_table_counted.
Qed.
End claims.

(** ** Examples *)

Lemma demo_file_ok : file_ok demo_disk demo_inode.
Proof.
  split; cbn [i_size demo_inode]; [by split|..|by unfold NDIRECT, BSIZE].
  intros k Hk Hks. assert (k = 0) as -> by (unfold BSIZE in *; lia). split; [discriminate|reflexivity].
Qed.

(** The page table of the process is not part of what the file system relies on. *)
Lemma at_held_pagetable me dev start s root bl hs V B :
  at_held me dev start s bl hs V B → at_held me dev start (alter_proc me (set_pagetable root) s) bl hs V B.
Proof.
  assert (Hp : ∀ {A} (f : proc → A), (∀ p, f (set_pagetable root p) = f p) → ∀ i,
    f (k_proc (alter_proc me (set_pagetable root) s) !!! i) = f (k_proc s !!! i)).
  { intros A f Hf i. cbn. rewrite !list_lookup_total_alt. destruct (decide (i = me)) as [->|].
    - rewrite list_lookup_alter_eq. destruct (k_proc s !! me); cbn; [apply Hf|done].
    - by rewrite list_lookup_alter_ne. }
  intros [(a & [[H1 H2 H3 H4 H5 H6] HR] & Ha) HB Hlk Hno Hl Ht Ho]. split; try done. exists a. split; [|done]. split.
  - split; try done; [cbn; by rewrite length_alter|]. intros ch i Hch. rewrite (Hp _ p_chan) by done. by apply H6.
  - unfold my_pid in *. by rewrite (Hp _ p_pid).
Qed.

(** The process has two writable pages at 0x1000. *)
Definition reader : kstate := set_mem user_demo_mem (alter_proc 2 (set_pagetable 0x80030000) inode_machine).

Lemma reader_at_held : at_held 2 1 2 reader [] [] demo_disk demo_disk.
Proof.
  apply (at_held_same _ _ _ (alter_proc 2 (set_pagetable 0x80030000) inode_machine)); [|reflexivity..|].
  - split; [split_and!; reflexivity|reflexivity].
  - apply at_held_pagetable, at_held_inodes, demo_at_held.
Qed.

Lemma reader_takes T :
  user_range (LY := small_layout) user_demo_mem T PTE_W 0x1000 (2 * PGSIZE) → takes (LY := small_layout) 2 reader T 0x1f00 600 600.
Proof. intros HR. split; [lia| |lia]. eapply user_range_sub; [exact HR|lia|]. unfold PGSIZE. lia. Qed.

(** Of 1000 bytes asked for from offset 100, the 600 that are there go across the
    two pages. *)
Lemma readi_reads_file_witness : ∃ T,
  runs (λ t, k_blocks t = demo_disk)
    (λ r t, (r = (600, []) ∧ wrote user_demo_mem (k_mem t) T 0x1f00 (file_bytes demo_disk demo_inode 100 600) ∧ only_io reader t) ∧
       at_held 2 1 2 t [] [] demo_disk demo_disk)
    (@readi small_layout 0%nat plain_disk 0 (ToUser 0x1f00) [] 100 1000 reader).
Proof.
  destruct user_demo_ok as (T & HT & HR). exists T.
  exact (@readi_reads_file small_layout small_layout_ok 0%nat plain_disk plain_disk_sync 2 1 2 (λ B, B = demo_disk) []
    demo_disk demo_disk reader 0 (ToUser 0x1f00) [] 100 1000 ltac:(discriminate) eq_refl eq_refl reader_at_held eq_refl
    demo_file_ok ltac:(lia) ltac:(lia) T 600 HT (reader_takes T HR) eq_refl).
Defined.

(** A root directory with its two entries, in block 51. *)
Definition dir_disk : Z → list Z :=
  put_block 51 (dirent_bytes 1 (46 :: replicate 13 0) ++ dirent_bytes 1 (46 :: 46 :: replicate 12 0) ++ replicate 992 0) (λ _, zeros).
Definition dir_inode : inode := mk_inode 1 1 1 (mk_sleeplock 1 0) 1 T_DIR 0 0 1 32 (51 :: replicate 12 0).
Definition dir_machine : kstate :=
  set_inodes (dir_inode :: replicate 49 zero_inode)
    (set_log (mk_log 2 1 0 1 0 (replicate (Z.to_nat LOGBLOCKS) 0)) (set_blocks dir_disk fresh_cache)).

Lemma dir_machine_at_held : at_held 2 1 2 dir_machine [] [] dir_disk dir_disk.
Proof.
  apply at_held_inodes, at_held_rest. split_and!; [|split; reflexivity|apply txn_ok_nil|discriminate].
  destruct fresh_cache_eq as (bufs & E & Hok & Hb). rewrite E.
  apply at_rest_init; [discriminate|apply before_binit_idle|apply lookup_empty|vm_compute; reflexivity|exact Hok|exact Hb].
Qed.

Lemma dir_inode_ok : dir_ok dir_disk dir_inode.
Proof.
  split; [|by split]. split; cbn [i_size dir_inode]; [by split|..|by unfold NDIRECT, BSIZE].
  intros k Hk Hks. assert (k = 0) as -> by (unfold BSIZE in *; lia). split; [discriminate|reflexivity].
Qed.

(** The lookup of .. finds the entry at offset 16. *)
Lemma dirlookup_finds_name_witness :
  runs (λ t, k_blocks t = dir_disk)
    (λ r t, at_held 2 1 2 t [] [] dir_disk dir_disk ∧
       ∃ i table u, r = Some (i, 16) ∧ counted 1 1 (k_inodes dir_machine) i table ∧
         only_bufs dir_machine u ∧ t = set_inodes table u)
    (@dirlookup small_layout 0%nat plain_disk 0 (46 :: 46 :: replicate 12 0) dir_machine).
Proof.
  apply (@dirlookup_finds_name small_layout 0%nat plain_disk plain_disk_sync 2 1 2 (λ B, B = dir_disk) [] dir_disk dir_disk
    dir_machine 0 (46 :: 46 :: replicate 12 0)).
  - discriminate.
  - reflexivity.
  - reflexivity.
  - exact dir_machine_at_held.
  - reflexivity.
  - exact dir_inode_ok.
  - destruct fresh_cache_eq as (bufs & E & _). unfold dir_machine. rewrite E. apply lookup_empty.
  - exists zero_inode. split; [|reflexivity]. apply elem_of_cons. right. apply elem_of_replicate. split; [reflexivity|discriminate].
  - intros j. change (k_inodes dir_machine) with (dir_inode :: replicate 49 zero_inode). destruct j as [|j]; [reflexivity|].
    rewrite list_lookup_total_alt. change ((dir_inode :: ?l) !! S j) with (l !! j).
    destruct (replicate 49 zero_inode !! j) as [y|] eqn:E; [apply lookup_replicate in E as [-> _]|]; reflexivity.
Defined.
