(* ===== verification/ProcTable.v ===== *)
(** Process slots: the parts of kernel/proc.c that create, free, grow and list
    processes, up to the point where files come in. *)

From Stdlib Require Import ZArith Lia ZifyBool.
From stdpp Require Import base numbers list gmap strings.
From S2P Require Import Prelude Params Machine Spinlock CString Printf Sched Priority Kalloc Vm.

(** A page fresh from kalloc() is filled with 5s. *)
Definition junk_word : Z := 0x0505050505050505.
Definition junk_trapframe : trapframe :=
  let j := junk_word in
  mk_trapframe j j j j j j j j j j j j j j j j j j j j j j j j j j j j j j j j j j j j.

Definition procinit : K () :=
  initlock L_pid;;
  initlock L_wait;;
  for_ all_procs (λ i,
    initlock (L_proc i);;
    upd_proc i (set_state UNUSED);;
    upd_proc i (set_kstack (KSTACK (Z.of_nat i)))).

Definition allocpid : K Z :=
  acquire L_pid;;
  pid ← gets (λ s, k_nextpid s);
  modify (λ s, set_nextpid (i32 (k_nextpid s + 1)) s);;
  release L_pid;;
  mret pid.

(** procdump(): states[] has no entry for USED. *)
Definition state_name (st : procstate) : list Z :=
  match st with
  | UNUSED => str "unused" | USED => str "???" | SLEEPING => str "sleep"
  | RUNNABLE => str "runble" | RUNNING => str "run" | ZOMBIE => str "zombie"
  end.

(** The bytes of a char array up to its NUL. *)
Fixpoint c_string (l : list Z) : list Z :=
  match l with [] => [] | c :: l => if c =? 0 then [] else c :: c_string l end.

Definition procdump : K () :=
  printf [10] [];;
  printf (str "PID" ++ [9] ++ str "STATE" ++ [9] ++ str "NAME" ++ [9] ++ str "PRIO" ++ [9] ++
          str "RTIME" ++ [9] ++ str "WTIME" ++ [9] ++ str "NRUN" ++ [9] ++ str "STARVING" ++ [10]) [];;
  for_ all_procs (λ i,
    p ← get_proc i;
    if bool_decide (p_state p = UNUSED) then mret tt else
    printf (str "%d" ++ [9] ++ str "%s" ++ [9] ++ str "%s" ++ [9] ++ str "%d" ++ [9] ++
            str "%d" ++ [9] ++ str "%d" ++ [9] ++ str "%d" ++ [9] ++ str "%d" ++ [10])
      [AWord (p_pid p); AStr (Some (state_name (p_state p))); AStr (Some (c_string (p_name p)));
       AWord (p_priority p); AWord (p_rtime p); AWord (p_wtime p); AWord (p_nrun p);
       AWord (p_starving p)]).

(** Caller holds wait_lock. *)
Definition reparent (i : nat) : K () :=
  for_ all_procs (λ j,
    pp ← get_proc j;
    when (bool_decide (p_parent pp = Some i)) (
      ini ← gets (λ s, k_initproc s);
      upd_proc j (set_parent ini);;
      match ini with Some k => wakeup (Ch_proc k) | None => mret tt end)).

Section proctable.
Context {LY : Layout}.

Definition proc_pagetable (i : nat) : K Z :=
  pagetable ← uvmcreate;
  if pagetable =? 0 then mret 0 else
  r ← mappages pagetable TRAMPOLINE PGSIZE trampoline (Z.lor PTE_R PTE_X);
  if r <? 0 then
    uvmfree pagetable 0;;
    mret 0
  else
  p ← get_proc i;
  r ← mappages pagetable TRAPFRAME PGSIZE (p_trapframe p) (Z.lor PTE_R PTE_W);
  if r <? 0 then
    uvmunmap pagetable TRAMPOLINE 1 false;;
    uvmfree pagetable 0;;
    mret 0
  else mret pagetable.

Definition proc_freepagetable (pagetable sz : Z) : K () :=
  uvmunmap pagetable TRAMPOLINE 1 false;;
  uvmunmap pagetable TRAPFRAME 1 false;;
  uvmfree pagetable sz.

Definition freeproc (i : nat) : K () :=
  p ← get_proc i;
  when (negb (p_trapframe p =? 0)) (
    modify (λ s, set_trapframes (delete (p_trapframe p) (k_trapframes s)) s);;
    kfree (p_trapframe p));;
  upd_proc i (set_trapframe 0);;
  p ← get_proc i;
  when (negb (p_pagetable p =? 0)) (proc_freepagetable (p_pagetable p) (p_sz p));;
  upd_proc i (set_pagetable 0);;
  upd_proc i (set_sz 0);;
  upd_proc i (set_pid 0);;
  upd_proc i (set_parent None);;
  upd_proc i (λ p, set_name (<[0%nat := 0]> (p_name p)) p);;
  upd_proc i (set_chan None);;
  upd_proc i (set_killed 0);;
  upd_proc i (set_xstate 0);;
  upd_proc i (set_state UNUSED).

(** The scan of allocproc(): the first UNUSED slot, its lock held. *)
Definition alloc_slot : K (option nat) :=
  for_find all_procs (λ i,
    acquire (L_proc i);;
    p ← get_proc i;
    if bool_decide (p_state p = UNUSED) then mret (Some i) else
    release (L_proc i);;
    mret None).

(** The scheduling fields of a new process. *)
Definition init_sched_fields (ticks : Z) (p : proc) : proc :=
  set_ctime ticks (set_starving 0 (set_priority DEFAULT_PRIORITY (set_pbs_stime 0 (set_pbs_rtime 0
    (set_stime 0 (set_nrun 0 (set_wtime 0 (set_rtime 0 p)))))))).

Definition allocproc : K (option nat) :=
  slot ← alloc_slot;
  match slot with
  | None => mret None
  | Some i =>
      pid ← allocpid;
      upd_proc i (set_pid pid);;
      upd_proc i (set_state USED);;
      ticks ← gets (λ s, k_ticks s);
      upd_proc i (init_sched_fields ticks);;
      tf ← kalloc;
      upd_proc i (set_trapframe tf);;
      if tf =? 0 then
        freeproc i;;
        release (L_proc i);;
        mret None
      else
      modify (λ s, set_trapframes (<[tf := junk_trapframe]> (k_trapframes s)) s);;
      pt ← proc_pagetable i;
      upd_proc i (set_pagetable pt);;
      if pt =? 0 then
        freeproc i;;
        release (L_proc i);;
        mret None
      else
      p ← get_proc i;
      upd_proc i (set_context (mk_context forkret_addr (u64 (p_kstack p + PGSIZE)) (replicate 12 0)));;
      mret (Some i)
  end.

Definition growproc (n : Z) : K Z :=
  i ← curproc;
  p ← get_proc i;
  let sz := p_sz p in
  if 0 <? n then
    if TRAPFRAME <? u64 (sz + n) then mret (-1) else
    sz' ← uvmalloc (p_pagetable p) sz (u64 (sz + n)) PTE_W;
    if sz' =? 0 then mret (-1) else
    upd_proc i (set_sz sz');;
    mret 0
  else
    sz' ← (if n <? 0 then uvmdealloc (p_pagetable p) sz (u64 (sz + n)) else mret sz);
    upd_proc i (set_sz sz');;
    mret 0.
End proctable.
