(* ===== verification/Console.v ===== *)
(** The console: kernel/uart.c and kernel/console.c.

    The UART is a device: [k_uart_rx] holds the bytes that wait in its receiver,
    [k_uart_idle] is the LSR_TX_IDLE bit of its transmitter, [k_out] collects
    what is written to THR, [k_mmio] the other register writes. *)

From Stdlib Require Import ZArith Lia ZifyBool Ascii.
From stdpp Require Import base numbers list gmap strings.
From S2P Require Import Prelude Params Machine Spinlock Printf Sched Kalloc Vm ProcTable Sleeplock Bio Log Fs.

(** ** kernel/uart.c *)

Module Uart.
Definition THR : Z := 0.
Definition IER : Z := 1.
Definition IER_RX_ENABLE : Z := Z.shiftl 1 0.
Definition IER_TX_ENABLE : Z := Z.shiftl 1 1.
Definition FCR : Z := 2.
Definition FCR_FIFO_ENABLE : Z := Z.shiftl 1 0.
Definition FCR_FIFO_CLEAR : Z := Z.shiftl 3 1.
Definition LCR : Z := 3.
Definition LCR_EIGHT_BITS : Z := Z.shiftl 3 0.
Definition LCR_BAUD_LATCH : Z := Z.shiftl 1 7.
End Uart.

Definition WriteReg (reg v : Z) : K () :=
  modify (λ s, set_mmio (<[UART0 + reg := v]> (k_mmio s)) s).

(** WriteReg(THR, c) *)
Definition write_thr (c : Z) : K () := modify (λ s, set_out (k_out s ++ [u8 c]) s).

Definition uartinit : K () :=
  WriteReg Uart.IER 0x00;;
  WriteReg Uart.LCR Uart.LCR_BAUD_LATCH;;
  WriteReg 0 0x03;;
  WriteReg 1 0x00;;
  WriteReg Uart.LCR Uart.LCR_EIGHT_BITS;;
  WriteReg Uart.FCR (Z.lor Uart.FCR_FIFO_ENABLE Uart.FCR_FIFO_CLEAR);;
  WriteReg Uart.IER (Z.lor Uart.IER_TX_ENABLE Uart.IER_RX_ENABLE);;
  initlock L_tx.

(** It busy-waits for the transmitter; [panicking] and [panicked] are 0 in code
    that runs. *)
Definition uartputc_sync (c : Z) : K () :=
  push_off;;
  idle ← gets (λ s, k_uart_idle s);
  if negb idle then spin else
  write_thr c;;
  pop_off.

Definition uartgetc : K Z :=
  rx ← gets (λ s, k_uart_rx s);
  match rx with
  | [] => mret (-1)
  | c :: rx => modify (set_uart_rx rx);; mret c
  end.

(** ** kernel/console.c *)

Definition C (x : ascii) : Z := chr x - chr "@".
Arguments C x%_char.

Definition consputc (c : Z) : K () :=
  if c =? Kernel.BACKSPACE then
    uartputc_sync 8;; uartputc_sync (chr " ");; uartputc_sync 8
  else uartputc_sync c.

Definition get_cons : K cons := gets (λ s, k_cons s).
#[global] Hint Transparent get_cons : kernel.
Definition upd_cons (f : cons → cons) : K () := modify (λ s, set_cons (f (k_cons s)) s).

(** cons.buf[k % INPUT_BUF_SIZE] *)
Definition cons_slot (k : Z) : nat := Z.to_nat (k mod INPUT_BUF_SIZE).

(** The kill-line loop. *)
Definition kill_step (_ : ()) : K (() + ()) :=
  c ← get_cons;
  if negb (cons_e c =? cons_w c)
     && negb (cons_buf c !!! cons_slot (u32 (cons_e c - 1)) =? 10) then
    upd_cons (λ c, set_cons_e (u32 (cons_e c - 1)) c);;
    consputc Kernel.BACKSPACE;;
    mret (inl tt)
  else mret (inr tt).

Definition consoleintr (c : Z) : K () :=
  acquire L_cons;;
  (if c =? C "P" then procdump
   else if c =? C "U" then loop (S (Z.to_nat INPUT_BUF_SIZE)) kill_step tt
   else if (c =? C "H") || (c =? 0x7f) then
     k ← get_cons;
     when (negb (cons_e k =? cons_w k)) (
       upd_cons (λ k, set_cons_e (u32 (cons_e k - 1)) k);;
       consputc Kernel.BACKSPACE)
   else
     k ← get_cons;
     when (negb (c =? 0) && (u32 (cons_e k - cons_r k) <? INPUT_BUF_SIZE)) (
       let c := if c =? 13 then 10 else c in
       consputc c;;
       upd_cons (λ k, set_cons_e (u32 (cons_e k + 1))
                        (set_cons_buf (<[cons_slot (cons_e k) := u8 c]> (cons_buf k)) k));;
       k ← get_cons;
       when ((c =? 10) || (c =? C "D") || (u32 (cons_e k - cons_r k) =? INPUT_BUF_SIZE)) (
         upd_cons (λ k, set_cons_w (cons_e k) k);;
         wakeup Ch_cons_r)));;
  release L_cons.

Definition uartintr : K () :=
  acquire L_tx;;
  idle ← gets (λ s, k_uart_idle s);
  when idle (
    modify (set_tx_busy 0);;
    wakeup Ch_tx);;
  release L_tx;;
  rx ← gets (λ s, k_uart_rx s);
  loop (S (length rx)) (λ _,
    c ← uartgetc;
    if c =? -1 then mret (inr tt) else
    consoleintr c;;
    mret (inl tt)) tt.

Definition consoleinit : K () :=
  initlock L_cons;;
  uartinit;;
  modify (λ s, set_devsw (<[Z.to_nat CONSOLE := Some CONSOLE_RW]> (k_devsw s)) s).

Section console.
Context {LY : Layout} {W : Wakeups}.

Definition uartwrite (buf : list Z) : K () :=
  acquire L_tx;;
  for_ buf (λ c,
    loop (S wakeups) (λ _,
      busy ← gets (λ s, k_tx_busy s);
      if busy =? 0 then mret (inr tt) else
      sleep Ch_tx L_tx;;
      mret (inl tt)) tt;;
    write_thr c;;
    modify (set_tx_busy 1));;
  release L_tx.

Definition consolewrite (src : source) (n : Z) : K Z :=
  loop (Z.to_nat (n / 32) + 2) (λ i,
    if negb (i <? n) then mret (inr i) else
    let nn := Z.min 32 (n - i) in
    r ← either_copyin (source_add src i) nn;
    if r.1 =? -1 then mret (inr i) else
    uartwrite r.2;;
    mret (inl (i + nn))) 0.

(** Wait for input; [false] when the reader was killed. *)
Definition consoleread_wait : K bool :=
  loop (S wakeups) (λ _,
    c ← get_cons;
    if negb (cons_r c =? cons_w c) then mret (inr true) else
    i ← curproc;
    k ← killed i;
    if negb (k =? 0) then
      release L_cons;;
      mret (inr false)
    else
      sleep Ch_cons_r L_cons;;
      mret (inl tt)) tt.

(** One round of the outer loop: [None] leaves with -1, [Some n] with [n] bytes
    still wanted. *)
Definition consoleread_step (target : Z) (st : dest * Z) : K ((dest * Z) + option Z) :=
  let '(dst, n) := st in
  if negb (0 <? n) then mret (inr (Some n)) else
  go ← consoleread_wait;
  if negb go then mret (inr None) else
  k ← get_cons;
  let c := cons_buf k !!! cons_slot (cons_r k) in
  upd_cons (λ k, set_cons_r (u32 (cons_r k + 1)) k);;
  if c =? C "D" then
    when (u32 n <? target) (upd_cons (λ k, set_cons_r (u32 (cons_r k - 1)) k));;
    mret (inr (Some n))
  else
  r ← either_copyout dst [] [c];
  if r.1 =? -1 then mret (inr (Some n)) else
  if c =? 10 then mret (inr (Some (n - 1))) else
  mret (inl (dest_add dst 1, n - 1)).

Definition consoleread (dst : dest) (n : Z) : K Z :=
  let target := u32 n in
  acquire L_cons;;
  r ← loop (S (Z.to_nat n)) (consoleread_step target) (dst, n);
  match r with
  | None => mret (-1)
  | Some n =>
      release L_cons;;
      mret (i32 (target - n))
  end.
End console.
