(* ===== verification/File.v ===== *)
(** Open files: kernel/file.c, and pipealloc() of kernel/pipe.c. *)

From Stdlib Require Import ZArith Lia ZifyBool.
From stdpp Require Import base numbers list gmap strings.
From S2P Require Import Prelude Params Machine Spinlock Printf Sched Kalloc Vm ProcTable Sleeplock Pipe Bio Log Fs Console.

Definition get_file (f : nat) : K file := gets (λ s, k_files s !!! f).
#[global] Hint Transparent get_file : kernel.
Definition upd_file (f : nat) (g : file → file) : K () :=
  modify (λ s, set_files (alter g f (k_files s)) s).

Definition all_files : list nat := seq 0 (Z.to_nat NFILE).

Definition fileinit : K () := initlock L_ftable.

Definition filealloc : K (option nat) :=
  acquire L_ftable;;
  r ← for_find all_files (λ f,
    x ← get_file f;
    if f_ref x =? 0 then
      upd_file f (set_f_ref 1);;
      release L_ftable;;
      mret (Some f)
    else mret None);
  match r with
  | Some f => mret (Some f)
  | None => release L_ftable;; mret None
  end.

Definition filedup (f : nat) : K nat :=
  acquire L_ftable;;
  x ← get_file f;
  if f_ref x <? 1 then panic "filedup" else
  upd_file f (λ x, set_f_ref (i32 (f_ref x + 1)) x);;
  release L_ftable;;
  mret f.

(** The bookkeeping half of fileclose(): [Some ff] when the last reference went. *)
Definition file_unref (f : nat) : K (option file) :=
  acquire L_ftable;;
  x ← get_file f;
  if f_ref x <? 1 then panic "fileclose" else
  upd_file f (λ x, set_f_ref (i32 (f_ref x - 1)) x);;
  x ← get_file f;
  if 0 <? f_ref x then
    release L_ftable;;
    mret None
  else
  upd_file f (set_f_ref 0);;
  upd_file f (set_f_type FD_NONE);;
  release L_ftable;;
  mret (Some x).

(** What was on the kernel stack where the padding of a struct stat lies. *)
Class StackJunk := stat_pad : list Z.

Section file.
Context {LY : Layout} {W : Wakeups} {BD : BlockDev} {SJ : StackJunk}.

(** iput() of a pointer that is null faults in the kernel. *)
Definition iput_ptr (ip : option nat) : K () :=
  match ip with Some i => iput i | None => panic "kerneltrap" end.

Definition fileclose (f : nat) : K () :=
  r ← file_unref f;
  match r with
  | None => mret tt
  | Some ff =>
      match f_type ff with
      | FD_PIPE => pipeclose (f_pipe ff) (f_writable ff)
      | FD_INODE | FD_DEVICE =>
          begin_op;;
          iput_ptr (f_ip ff);;
          end_op
      | FD_NONE => mret tt
      end
  end.

Definition filestat (f : nat) (addr : Z) : K Z :=
  i ← curproc;
  x ← get_file f;
  match f_type x with
  | FD_INODE | FD_DEVICE =>
      ilock (f_ip x);;
      ip ← get_inode (default 0%nat (f_ip x));
      iunlock (f_ip x);;
      p ← get_proc i;
      r ← copyout (p_pagetable p) addr (stat_bytes stat_pad ip);
      mret (if r <? 0 then -1 else 0)
  | _ => mret (-1)
  end.

(** devsw[major], when the entry has a function. *)
Definition dev_entry (major : Z) : K (option devfn) :=
  if (major <? 0) || (NDEV <=? major) then mret None else
  gets (λ s, k_devsw s !!! Z.to_nat major).

Definition fileread (f : nat) (addr n : Z) : K Z :=
  x ← get_file f;
  if f_readable x =? 0 then mret (-1) else
  match f_type x with
  | FD_PIPE => piperead (f_pipe x) addr n
  | FD_DEVICE =>
      d ← dev_entry (f_major x);
      match d with
      | None => mret (-1)
      | Some CONSOLE_RW => consoleread (ToUser addr) n
      end
  | FD_INODE =>
      ilock (f_ip x);;
      y ← get_file f;
      r ← readi (default 0%nat (f_ip x)) (ToUser addr) [] (f_off y) (u32 n);
      when (0 <? r.1) (upd_file f (λ x, set_f_off (u32 (f_off x + r.1)) x));;
      iunlock (f_ip x);;
      mret r.1
  | FD_NONE => panic "fileread"
  end.

Definition write_max : Z := (MAXOPBLOCKS - 1 - 1 - 2) / 2 * BSIZE.

Definition filewrite_step (f : nat) (ip : option nat) (addr n i : Z) : K (Z + Z) :=
  if negb (i <? n) then mret (inr i) else
  let n1 := n - i in
  let n1 := if write_max <? n1 then write_max else n1 in
  begin_op;;
  ilock ip;;
  x ← get_file f;
  r ← writei (default 0%nat ip) (FromUser (u64 (addr + i))) (f_off x) (u32 n1);
  when (0 <? r) (upd_file f (λ x, set_f_off (u32 (f_off x + r)) x));;
  iunlock ip;;
  end_op;;
  if negb (r =? n1) then mret (inr i) else
  mret (inl (i + r)).

Definition filewrite (f : nat) (addr n : Z) : K Z :=
  x ← get_file f;
  if f_writable x =? 0 then mret (-1) else
  match f_type x with
  | FD_PIPE => pipewrite (f_pipe x) addr n
  | FD_DEVICE =>
      d ← dev_entry (f_major x);
      match d with
      | None => mret (-1)
      | Some CONSOLE_RW => consolewrite (FromUser addr) n
      end
  | FD_INODE =>
      i ← loop (Z.to_nat (n / write_max) + 2) (filewrite_step f (f_ip x) addr n) 0;
      mret (if i =? n then n else -1)
  | FD_NONE => panic "filewrite"
  end.

(** [Some (f0, f1)] when it returns 0. *)
Definition pipealloc : K (option (nat * nat)) :=
  let bad pi f0 f1 :=
    when (negb (pi =? 0)) (kfree pi);;
    match f0 with Some f => fileclose f | None => mret tt end;;
    match f1 with Some f => fileclose f | None => mret tt end;;
    mret None in
  f0 ← filealloc;
  match f0 with
  | None => bad 0 None None
  | Some a =>
      f1 ← filealloc;
      match f1 with
      | None => bad 0 (Some a) None
      | Some b =>
          pi ← kalloc;
          if pi =? 0 then bad 0 (Some a) (Some b) else
          modify (λ s, set_pipes (<[pi := mk_pipe (replicate (Z.to_nat PIPESIZE) 5) 0 0 1 1]> (k_pipes s)) s);;
          initlock (L_pipe pi);;
          upd_file a (λ x, set_f_pipe pi (set_f_writable 0 (set_f_readable 1 (set_f_type FD_PIPE x))));;
          upd_file b (λ x, set_f_pipe pi (set_f_writable 1 (set_f_readable 0 (set_f_type FD_PIPE x))));;
          mret (Some (a, b))
      end
  end.
End file.
