(* ===== verification/ProcLife.v ===== *)
(** Process life cycle: userinit(), kfork(), kexit(), kwait() of kernel/proc.c. *)

From Stdlib Require Import ZArith Lia ZifyBool.
From stdpp Require Import base numbers list gmap strings.
From S2P Require Import Prelude Params Machine Spinlock CString Printf Sched Priority Kalloc Vm Sleeplock Bio Log Fs ProcTable Console File.

Section proclife.
Context {LY : Layout} {W : Wakeups} {BD : BlockDev}.

Definition userinit : K () :=
  r ← allocproc;
  match r with
  | None => panic "kerneltrap"
  | Some i =>
      modify (set_initproc (Some i));;
      cwd ← namei (str "/");
      upd_proc i (set_cwd cwd);;
      upd_proc i (set_state RUNNABLE);;
      release (L_proc i)
  end.

Definition kfork : K Z :=
  me ← curproc;
  r ← allocproc;
  match r with
  | None => mret (-1)
  | Some np =>
      p ← get_proc me;
      c ← get_proc np;
      r ← uvmcopy (p_pagetable p) (p_pagetable c) (p_sz p);
      if r <? 0 then
        freeproc np;;
        release (L_proc np);;
        mret (-1)
      else
      upd_proc np (set_sz (p_sz p));;
      tf ← get_tf (p_trapframe p);
      upd_tf (p_trapframe c) (λ _, tf);;
      upd_tf (p_trapframe c) (set_tf_a0 0);;
      for_ (seq 0 (Z.to_nat NOFILE)) (λ fd,
        p ← get_proc me;
        match p_ofile p !!! fd with
        | None => mret tt
        | Some f =>
            f ← filedup f;
            upd_proc np (λ c, set_ofile (<[fd := Some f]> (p_ofile c)) c)
        end);;
      match p_cwd p with
      | None => panic "kerneltrap"
      | Some d =>
          d ← idup d;
          upd_proc np (set_cwd (Some d));;
          upd_proc np (λ c, set_name (buffer 16 (safestrcpy (view (p_name c)) (view (p_name p)) 16)) c);;
          c ← get_proc np;
          let pid := p_pid c in
          release (L_proc np);;
          acquire L_wait;;
          upd_proc np (set_parent (Some me));;
          release L_wait;;
          acquire (L_proc np);;
          upd_proc np (set_state RUNNABLE);;
          release (L_proc np);;
          mret pid
      end
  end.

(** Does not return.  Every process but init has a parent. *)
Definition kexit {A} (status : Z) : K A :=
  me ← curproc;
  ini ← gets (λ s, k_initproc s);
  if bool_decide (ini = Some me) then panic "init exiting" else
  for_ (seq 0 (Z.to_nat NOFILE)) (λ fd,
    p ← get_proc me;
    match p_ofile p !!! fd with
    | None => mret tt
    | Some f =>
        fileclose f;;
        upd_proc me (λ p, set_ofile (<[fd := None]> (p_ofile p)) p)
    end);;
  begin_op;;
  p ← get_proc me;
  iput_ptr (p_cwd p);;
  end_op;;
  upd_proc me (set_cwd None);;
  acquire L_wait;;
  reparent me;;
  p ← get_proc me;
  match p_parent p with Some q => wakeup (Ch_proc q) | None => mret tt end;;
  acquire (L_proc me);;
  upd_proc me (set_xstate status);;
  upd_proc me (set_state ZOMBIE);;
  release L_wait;;
  sched;;
  panic "zombie exit".

(** The scan for an exited child: [inr v] leaves kwait() with the value [v] and
    both locks released; otherwise whether there are children. *)
Definition kwait_scan (me : nat) (addr : Z) : K (bool + Z) :=
  loop (S (Z.to_nat NPROC)) (λ '(j, havekids),
    if negb (j <? Z.to_nat NPROC)%nat then mret (inr (inl havekids)) else
    pp ← get_proc j;
    if negb (bool_decide (p_parent pp = Some me)) then mret (inl (S j, havekids)) else
    acquire (L_proc j);;
    pp ← get_proc j;
    if bool_decide (p_state pp = ZOMBIE) then
      let pid := p_pid pp in
      p ← get_proc me;
      r ← (if addr =? 0 then mret 0 else copyout (p_pagetable p) addr (le_bytes 4 (p_xstate pp)));
      if r <? 0 then
        release (L_proc j);;
        release L_wait;;
        mret (inr (inr (-1)))
      else
      freeproc j;;
      release (L_proc j);;
      release L_wait;;
      mret (inr (inr pid))
    else
    release (L_proc j);;
    mret (inl (S j, true))) (0%nat, false).

Definition kwait (addr : Z) : K Z :=
  me ← curproc;
  acquire L_wait;;
  loop (S wakeups) (λ _,
    r ← kwait_scan me addr;
    match r with
    | inr v => mret (inr v)
    | inl havekids =>
        k ← (if negb havekids then mret 1 else killed me);
        if negb (k =? 0) then
          release L_wait;;
          mret (inr (-1))
        else
          sleep (Ch_proc me) L_wait;;
          mret (inl tt)
    end) tt.
End proclife.
