(* ===== verification/Exec.v ===== *)
(** Loading programs: kernel/exec.c. *)

From Stdlib Require Import ZArith Lia ZifyBool Ascii.
From stdpp Require Import base numbers list gmap strings.
From S2P Require Import Prelude Params Machine Spinlock CString Printf Sched Priority Kalloc Vm Sleeplock Bio Log Fs ProcTable.

Definition flags2perm (flags : Z) : Z :=
  let perm := if negb (Z.land flags 0x1 =? 0) then PTE_X else 0 in
  if negb (Z.land flags 0x2 =? 0) then Z.lor perm PTE_W else perm.

(** ** kernel/elf.h *)

Definition le_at (data : list Z) (off n : nat) : Z := le_value (slice off n data).
Definition sizeof_elfhdr : Z := 64.
Definition elf_magic (e : list Z) : Z := le_at e 0 4.
Definition elf_entry (e : list Z) : Z := le_at e 24 8.
Definition elf_phoff (e : list Z) : Z := le_at e 32 8.
Definition elf_phnum (e : list Z) : Z := le_at e 56 2.
Definition sizeof_proghdr : Z := 56.
Definition ph_type (h : list Z) : Z := le_at h 0 4.
Definition ph_flags (h : list Z) : Z := le_at h 4 4.
Definition ph_off (h : list Z) : Z := le_at h 8 8.
Definition ph_vaddr (h : list Z) : Z := le_at h 16 8.
Definition ph_filesz (h : list Z) : Z := le_at h 32 8.
Definition ph_memsz (h : list Z) : Z := le_at h 40 8.

(** An element of argv: a page filled by fetchstr(), or a constant of the kernel. *)
Inductive kstr := KPage (pa : Z) | KConst (s : list Z).

Definition kstr_bytes (a : kstr) (m : Z → Z) : list Z :=
  match a with
  | KPage pa => bytes_at m pa (Z.to_nat (default 0 (strlen (S (Z.to_nat PGSIZE)) (λ i, m (pa + i)))))
  | KConst s => s
  end.

(** The part of the path after its last slash. *)
Fixpoint last_elem (s last : list Z) : list Z :=
  match s with
  | [] => last
  | c :: s => last_elem s (if c =? chr "/" then s else last)
  end.

Section exec.
Context {LY : Layout} {W : Wakeups} {BD : BlockDev}.

Definition loadseg (pagetable va : Z) (ip : nat) (offset sz : Z) : K Z :=
  loop (Z.to_nat (sz / PGSIZE) + 2) (λ i,
    if negb (i <? sz) then mret (inr 0) else
    pa ← walkaddr pagetable (u64 (va + i));
    if pa =? 0 then panic "loadseg: address should exist" else
    let n := if u32 (sz - i) <? PGSIZE then u32 (sz - i) else PGSIZE in
    r ← readi ip (ToKernel pa) [] (u32 (offset + i)) n;
    if negb (u32 r.1 =? n) then mret (inr (-1)) else
    mret (inl (u32 (i + PGSIZE)))) 0.

(** One program header: [inr (ok, sz)] leaves the loop. *)
Definition load_step (ip : nat) (pagetable phnum : Z) (st : Z * Z * Z) : K ((Z * Z * Z) + (bool * Z)) :=
  let '(i, off, sz) := st in
  if negb (i <? phnum) then mret (inr (true, sz)) else
  r ← readi ip (ToLocal 0) (local_var sizeof_proghdr) (u32 off) sizeof_proghdr;
  if negb (r.1 =? sizeof_proghdr) then mret (inr (false, sz)) else
  let ph := r.2 in
  let next sz := mret (inl (i + 1, i32 (off + sizeof_proghdr), sz)) in
  if negb (ph_type ph =? ELF_PROG_LOAD) then next sz else
  if ph_memsz ph <? ph_filesz ph then mret (inr (false, sz)) else
  if u64 (ph_vaddr ph + ph_memsz ph) <? ph_vaddr ph then mret (inr (false, sz)) else
  if negb (ph_vaddr ph mod PGSIZE =? 0) then mret (inr (false, sz)) else
  sz1 ← uvmalloc pagetable sz (u64 (ph_vaddr ph + ph_memsz ph)) (flags2perm (ph_flags ph));
  if sz1 =? 0 then mret (inr (false, sz)) else
  r ← loadseg pagetable (ph_vaddr ph) ip (u32 (ph_off ph)) (u32 (ph_filesz ph));
  if r <? 0 then mret (inr (false, sz1)) else next sz1.

(** The argument strings go to the stack, their addresses to [ustack];
    [None] is a [goto bad]. *)
Fixpoint push_args (pagetable stackbase : Z) (argv : list kstr) (sp : Z) (ustack : list Z) :
    K (option (Z * list Z)) :=
  match argv with
  | [] => mret (Some (sp, ustack))
  | a :: argv =>
      if MAXARG <=? Z.of_nat (length ustack) then mret None else
      s ← gets (λ s, kstr_bytes a (k_mem s));
      let sp := u64 (sp - (Z.of_nat (length s) + 1)) in
      let sp := u64 (sp - sp mod 16) in
      if sp <? stackbase then mret None else
      r ← copyout pagetable sp (s ++ [0]);
      if r <? 0 then mret None else
      push_args pagetable stackbase argv sp (ustack ++ [sp])
  end.

Definition kexec_bad (pagetable sz : Z) (ip : option nat) : K Z :=
  when (negb (pagetable =? 0)) (proc_freepagetable pagetable sz);;
  match ip with
  | Some i => iunlockput i;; end_op
  | None => mret tt
  end;;
  mret (-1).

(** The switch to the new image, once nothing can fail any more. *)
Definition kexec_commit (path : list Z) (pagetable sz sp entry argc oldsz : Z) : K Z :=
  me ← curproc;
  p ← get_proc me;
  upd_tf (p_trapframe p) (set_tf_a1 sp);;
  upd_proc me (λ p, set_name (buffer 16 (safestrcpy (view (p_name p)) (view (last_elem path path)) 16)) p);;
  let oldpagetable := p_pagetable p in
  upd_proc me (set_pagetable pagetable);;
  upd_proc me (set_sz sz);;
  upd_tf (p_trapframe p) (set_tf_epc entry);;
  upd_tf (p_trapframe p) (set_tf_sp sp);;
  proc_freepagetable oldpagetable oldsz;;
  mret (i32 argc).

(** Stack and arguments, after the program is loaded and the file closed. *)
Definition kexec_stack (path : list Z) (argv : list kstr) (pagetable sz entry : Z) : K Z :=
  me ← curproc;
  p ← get_proc me;
  let oldsz := p_sz p in
  let sz := PGROUNDUP sz in
  sz1 ← uvmalloc pagetable sz (u64 (sz + (USERSTACK + 1) * PGSIZE)) PTE_W;
  if sz1 =? 0 then kexec_bad pagetable sz None else
  let sz := sz1 in
  uvmclear pagetable (u64 (sz - (USERSTACK + 1) * PGSIZE));;
  let stackbase := u64 (sz - USERSTACK * PGSIZE) in
  r ← push_args pagetable stackbase argv sz [];
  match r with
  | None => kexec_bad pagetable sz None
  | Some (sp, ustack) =>
      let argc := Z.of_nat (length ustack) in
      if MAXARG <=? argc then undefined (* ustack[argc] = 0 *) else
      let sp := u64 (sp - (argc + 1) * 8) in
      let sp := u64 (sp - sp mod 16) in
      if sp <? stackbase then kexec_bad pagetable sz None else
      r ← copyout pagetable sp ((ustack ++ [0]) ≫= le_bytes 8);
      if r <? 0 then kexec_bad pagetable sz None else
      kexec_commit path pagetable sz sp entry argc oldsz
  end.

Definition kexec (path : list Z) (argv : list kstr) : K Z :=
  me ← curproc;
  begin_op;;
  r ← namei path;
  match r with
  | None => end_op;; mret (-1)
  | Some ip =>
      ilock (Some ip);;
      r ← readi ip (ToLocal 0) (local_var sizeof_elfhdr) 0 sizeof_elfhdr;
      if negb (r.1 =? sizeof_elfhdr) then kexec_bad 0 0 (Some ip) else
      let elf := r.2 in
      if negb (elf_magic elf =? ELF_MAGIC) then kexec_bad 0 0 (Some ip) else
      pagetable ← proc_pagetable me;
      if pagetable =? 0 then kexec_bad 0 0 (Some ip) else
      r ← loop (S (Z.to_nat (elf_phnum elf))) (load_step ip pagetable (elf_phnum elf))
            (0, i32 (elf_phoff elf), 0);
      let '(ok, sz) := r in
      if negb ok then kexec_bad pagetable sz (Some ip) else
      iunlockput ip;;
      end_op;;
      kexec_stack path argv pagetable sz (elf_entry elf)
  end.
End exec.
