(* ===== verification/Sysfile.v ===== *)
(** The file system calls: kernel/sysfile.c, with fetchaddr(), fetchstr() and
    argstr() of kernel/syscall.c. *)

From Stdlib Require Import ZArith Lia ZifyBool Ascii.
From stdpp Require Import base numbers list gmap strings.
From S2P Require Import Prelude Params Machine Spinlock CString Printf Sched Priority Kalloc Vm Sleeplock Bio Log Fs ProcTable Console File Exec.

(** -1 as a uint64. *)
Definition err : Z := u64 (-1).

Definition fdalloc (f : nat) : K Z :=
  me ← curproc;
  r ← for_find (seq 0 (Z.to_nat NOFILE)) (λ fd,
    p ← get_proc me;
    match p_ofile p !!! fd with
    | None =>
        upd_proc me (λ p, set_ofile (<[fd := Some f]> (p_ofile p)) p);;
        mret (Some (Z.of_nat fd))
    | Some _ => mret None
    end);
  mret (default (-1) r).

(** p->ofile[fd]: reading outside the array is undefined. *)
Definition ofile_at (p : proc) (fd : Z) : K (option nat) :=
  if fd <? 0 then undefined else
  match p_ofile p !! Z.to_nat fd with Some f => mret f | None => undefined end.

(** [None] when it returns -1; else the descriptor and the file. *)
Definition argfd (n : Z) : K (option (Z * nat)) :=
  fd ← argint n;
  if (fd <? 0) || (NOFILE <=? fd) then mret None else
  me ← curproc;
  p ← get_proc me;
  f ← ofile_at p fd;
  mret ((λ f, (fd, f)) <$> f).

Definition sys_dup : K Z :=
  r ← argfd 0;
  match r with
  | None => mret err
  | Some (_, f) =>
      fd ← fdalloc f;
      if fd <? 0 then mret err else
      filedup f;;
      mret fd
  end.

Section sysfile.
Context {LY : Layout} {W : Wakeups} {BD : BlockDev} {SJ : StackJunk}.

(** [None] when it returns -1. *)
Definition fetchaddr (addr : Z) : K (option Z) :=
  me ← curproc;
  p ← get_proc me;
  if (p_sz p <=? addr) || (p_sz p <? u64 (addr + 8)) then mret None else
  r ← copyin (p_pagetable p) addr 8;
  mret (if negb (r.1 =? 0) then None else Some (le_value r.2)).

(** The value of fetchstr(), and the bytes that reached buf. *)
Definition fetchstr (addr max : Z) : K (Z * list Z) :=
  me ← curproc;
  p ← get_proc me;
  r ← copyinstr (p_pagetable p) addr max;
  mret (if r.1 <? 0 then (-1, r.2) else (Z.of_nat (length (c_string r.2)), r.2)).

(** The string, without its NUL; [None] when it returns -1. *)
Definition argstr (n max : Z) : K (option (list Z)) :=
  addr ← argaddr n;
  r ← fetchstr addr max;
  mret (if r.1 <? 0 then None else Some (c_string r.2)).

Definition sys_read : K Z :=
  p ← argaddr 1;
  n ← argint 2;
  r ← argfd 0;
  match r with
  | None => mret err
  | Some (_, f) => v ← fileread f p n; mret (u64 v)
  end.

Definition sys_write : K Z :=
  p ← argaddr 1;
  n ← argint 2;
  r ← argfd 0;
  match r with
  | None => mret err
  | Some (_, f) => v ← filewrite f p n; mret (u64 v)
  end.

Definition sys_close : K Z :=
  r ← argfd 0;
  match r with
  | None => mret err
  | Some (fd, f) =>
      me ← curproc;
      upd_proc me (λ p, set_ofile (<[Z.to_nat fd := None]> (p_ofile p)) p);;
      fileclose f;;
      mret 0
  end.

Definition sys_fstat : K Z :=
  st ← argaddr 1;
  r ← argfd 0;
  match r with
  | None => mret err
  | Some (_, f) => v ← filestat f st; mret (u64 v)
  end.

Definition sys_link : K Z :=
  old ← argstr 0 MAXPATH;
  match old with
  | None => mret err
  | Some old =>
  new ← argstr 1 MAXPATH;
  match new with
  | None => mret err
  | Some new =>
  begin_op;;
  r ← namei old;
  match r with
  | None => end_op;; mret err
  | Some ip =>
  ilock (Some ip);;
  x ← get_inode ip;
  if i_type x =? T_DIR then
    iunlockput ip;;
    end_op;;
    mret err
  else
  upd_inode ip (λ x, set_i_nlink (i16 (i_nlink x + 1)) x);;
  iupdate ip;;
  iunlock (Some ip);;
  let bad : K Z :=
    ilock (Some ip);;
    upd_inode ip (λ x, set_i_nlink (i16 (i_nlink x - 1)) x);;
    iupdate ip;;
    iunlockput ip;;
    end_op;;
    mret err in
  r ← nameiparent new zero_name;
  match r with
  | (None, _) => bad
  | (Some dp, name) =>
      ilock (Some dp);;
      d ← get_inode dp;
      x ← get_inode ip;
      l ← (if negb (i_dev d =? i_dev x) then mret (-1) else dirlink dp name (i_inum x));
      if l <? 0 then
        iunlockput dp;;
        bad
      else
      iunlockput dp;;
      iput ip;;
      end_op;;
      mret 0
  end end end end.

Definition isdirempty (dp : nat) : K bool :=
  x ← get_inode dp;
  loop (dir_fuel (i_size x)) (λ off,
    x ← get_inode dp;
    if negb (u32 off <? i_size x) then mret (inr true) else
    de ← read_dirent "isdirempty: readi" dp (u32 off);
    if negb (de_inum de =? 0) then mret (inr false) else
    mret (inl (i32 (off + sizeof_dirent)))) (2 * sizeof_dirent).

(** sys_unlink(), with dp locked, from the directory entry to the end. *)
Definition unlink_entry (dp : nat) (name : list Z) : K Z :=
  let bad : K Z :=
    iunlockput dp;;
    end_op;;
    mret err in
  if (namecmp name (str ".") =? 0) || (namecmp name (str "..") =? 0) then bad else
  r ← dirlookup dp name;
  match r with
  | None => bad
  | Some (ip, off) =>
      ilock (Some ip);;
      x ← get_inode ip;
      if i_nlink x <? 1 then panic "unlink: nlink < 1" else
      full ← (if i_type x =? T_DIR then e ← isdirempty ip; mret (negb e) else mret false);
      if full : bool then
        iunlockput ip;;
        bad
      else
      w ← writei dp (FromLocal (replicate (Z.to_nat sizeof_dirent) 0)) off sizeof_dirent;
      if negb (w =? sizeof_dirent) then panic "unlink: writei" else
      x ← get_inode ip;
      when (i_type x =? T_DIR) (
        upd_inode dp (λ x, set_i_nlink (i16 (i_nlink x - 1)) x);;
        iupdate dp);;
      iunlockput dp;;
      upd_inode ip (λ x, set_i_nlink (i16 (i_nlink x - 1)) x);;
      iupdate ip;;
      iunlockput ip;;
      end_op;;
      mret 0
  end.

Definition sys_unlink : K Z :=
  path ← argstr 0 MAXPATH;
  match path with
  | None => mret err
  | Some path =>
      begin_op;;
      r ← nameiparent path zero_name;
      match r with
      | (None, _) => end_op;; mret err
      | (Some dp, name) =>
          ilock (Some dp);;
          unlink_entry dp name
      end
  end.

(** create(), once the parent is locked and the name is known to be free. *)
Definition create_new (dp : nat) (name : list Z) (type major minor : Z) : K (option nat) :=
  d ← get_inode dp;
  r ← ialloc (i_dev d) type;
  match r with
  | None =>
      iunlockput dp;;
      mret None
  | Some ip =>
      ilock (Some ip);;
      upd_inode ip (set_i_major major);;
      upd_inode ip (set_i_minor minor);;
      upd_inode ip (set_i_nlink 1);;
      iupdate ip;;
      x ← get_inode ip;
      d ← get_inode dp;
      ok ← (if type =? T_DIR then
              r ← dirlink ip (str ".") (i_inum x);
              if r <? 0 then mret false else
              r ← dirlink ip (str "..") (i_inum d);
              mret (negb (r <? 0))
            else mret true);
      ok ← (if negb ok then mret false else
            r ← dirlink dp name (i_inum x);
            mret (negb (r <? 0)));
      if negb ok then
        upd_inode ip (set_i_nlink 0);;
        iupdate ip;;
        iunlockput ip;;
        iunlockput dp;;
        mret None
      else
      when (type =? T_DIR) (
        upd_inode dp (λ x, set_i_nlink (i16 (i_nlink x + 1)) x);;
        iupdate dp);;
      iunlockput dp;;
      mret (Some ip)
  end.

Definition create (path : list Z) (type major minor : Z) : K (option nat) :=
  r ← nameiparent path zero_name;
  match r with
  | (None, _) => mret None
  | (Some dp, name) =>
      ilock (Some dp);;
      r ← dirlookup dp name;
      match r with
      | Some (ip, _) =>
          iunlockput dp;;
          ilock (Some ip);;
          x ← get_inode ip;
          if (type =? T_FILE) && ((i_type x =? T_FILE) || (i_type x =? T_DEVICE))
          then mret (Some ip)
          else
            iunlockput ip;;
            mret None
      | None => create_new dp name type major minor
      end
  end.

Definition has_mode (omode flag : Z) : bool := negb (Z.land omode flag =? 0).
Definition of_bool (b : bool) : Z := if b then 1 else 0.

(** sys_open(), with ip locked. *)
Definition open_inode (ip : nat) (omode : Z) : K Z :=
  let fail (f : option nat) : K Z :=
    match f with Some f => fileclose f | None => mret tt end;;
    iunlockput ip;;
    end_op;;
    mret err in
  x ← get_inode ip;
  if (i_type x =? T_DEVICE) && ((i_major x <? 0) || (NDEV <=? i_major x)) then fail None else
  f ← filealloc;
  match f with
  | None => fail None
  | Some f =>
      fd ← fdalloc f;
      if fd <? 0 then fail (Some f) else
      x ← get_inode ip;
      (if i_type x =? T_DEVICE then
         upd_file f (set_f_type FD_DEVICE);;
         upd_file f (set_f_major (i_major x))
       else
         upd_file f (set_f_type FD_INODE);;
         upd_file f (set_f_off 0));;
      upd_file f (set_f_ip (Some ip));;
      upd_file f (set_f_readable (of_bool (negb (has_mode omode O_WRONLY))));;
      upd_file f (set_f_writable (of_bool (has_mode omode O_WRONLY || has_mode omode O_RDWR)));;
      x ← get_inode ip;
      when (has_mode omode O_TRUNC && (i_type x =? T_FILE)) (itrunc ip);;
      iunlock (Some ip);;
      end_op;;
      mret fd
  end.

Definition sys_open : K Z :=
  omode ← argint 1;
  path ← argstr 0 MAXPATH;
  match path with
  | None => mret err
  | Some path =>
      begin_op;;
      if has_mode omode O_CREATE then
        r ← create path T_FILE 0 0;
        match r with
        | None => end_op;; mret err
        | Some ip => open_inode ip omode
        end
      else
        r ← namei path;
        match r with
        | None => end_op;; mret err
        | Some ip =>
            ilock (Some ip);;
            x ← get_inode ip;
            if (i_type x =? T_DIR) && negb (omode =? O_RDONLY) then
              iunlockput ip;;
              end_op;;
              mret err
            else open_inode ip omode
        end
  end.

(** The common end of sys_mkdir() and sys_mknod(). *)
Definition create_and_put (path : option (list Z)) (type major minor : Z) : K Z :=
  r ← match path with None => mret None | Some path => create path type major minor end;
  match r with
  | None => end_op;; mret err
  | Some ip =>
      iunlockput ip;;
      end_op;;
      mret 0
  end.

Definition sys_mkdir : K Z :=
  begin_op;;
  path ← argstr 0 MAXPATH;
  create_and_put path T_DIR 0 0.

Definition sys_mknod : K Z :=
  begin_op;;
  major ← argint 1;
  minor ← argint 2;
  path ← argstr 0 MAXPATH;
  create_and_put path T_DEVICE (i16 major) (i16 minor).

Definition sys_chdir : K Z :=
  me ← curproc;
  begin_op;;
  path ← argstr 0 MAXPATH;
  r ← match path with None => mret None | Some path => namei path end;
  match r with
  | None => end_op;; mret err
  | Some ip =>
      ilock (Some ip);;
      x ← get_inode ip;
      if negb (i_type x =? T_DIR) then
        iunlockput ip;;
        end_op;;
        mret err
      else
      iunlock (Some ip);;
      p ← get_proc me;
      iput_ptr (p_cwd p);;
      end_op;;
      upd_proc me (set_cwd (Some ip));;
      mret 0
  end.

(** The loop that fetches argv: the pages filled so far, and whether it got to
    the null pointer. *)
Definition fetch_argv (uargv : Z) : K (list Z * bool) :=
  loop (S (S (Z.to_nat MAXARG))) (λ argv,
    let i := Z.of_nat (length argv) in
    if MAXARG <=? i then mret (inr (argv, false)) else
    r ← fetchaddr (u64 (uargv + 8 * i));
    match r with
    | None => mret (inr (argv, false))
    | Some uarg =>
        if uarg =? 0 then mret (inr (argv, true)) else
        page ← kalloc;
        if page =? 0 then mret (inr (argv, false)) else
        r ← fetchstr uarg PGSIZE;
        modify (λ s, set_mem (store (k_mem s) page r.2) s);;
        if r.1 <? 0 then mret (inr (argv ++ [page], false)) else
        mret (inl (argv ++ [page]))
    end) [].

Definition sys_exec : K Z :=
  uargv ← argaddr 1;
  path ← argstr 0 MAXPATH;
  match path with
  | None => mret err
  | Some path =>
      r ← fetch_argv uargv;
      let '(argv, ok) := r in
      if ok : bool then
        ret ← kexec path (KPage <$> argv);
        for_ argv kfree;;
        mret (u64 ret)
      else
        for_ argv kfree;;
        mret err
  end.

Definition sys_pipe : K Z :=
  me ← curproc;
  let close_fd fd := upd_proc me (λ p, set_ofile (<[Z.to_nat fd := None]> (p_ofile p)) p) in
  fdarray ← argaddr 0;
  r ← pipealloc;
  match r with
  | None => mret err
  | Some (rf, wf) =>
      fd0 ← fdalloc rf;
      fd1 ← (if fd0 <? 0 then mret (-1) else fdalloc wf);
      if (fd0 <? 0) || (fd1 <? 0) then
        when (0 <=? fd0) (close_fd fd0);;
        fileclose rf;;
        fileclose wf;;
        mret err
      else
      p ← get_proc me;
      r ← copyout (p_pagetable p) fdarray (le_bytes 4 fd0);
      r ← (if r <? 0 then mret r else copyout (p_pagetable p) (u64 (fdarray + 4)) (le_bytes 4 fd1));
      if r <? 0 then
        close_fd fd0;;
        close_fd fd1;;
        fileclose rf;;
        fileclose wf;;
        mret err
      else mret 0
  end.
End sysfile.
