(* ===== verification/Syscall.v ===== *)
(** System calls: kernel/sysproc.c and the dispatcher of kernel/syscall.c. *)

From Stdlib Require Import ZArith Lia ZifyBool Ascii.
From stdpp Require Import base numbers list gmap strings.
From S2P Require Import Prelude Params Machine Spinlock CString Printf Sched Priority Kalloc Vm Sleeplock Bio Log Fs ProcTable Console File ProcLife Exec Sysfile.

(** ** kernel/sysproc.c *)

Definition sys_getpid : K Z :=
  pid ← mypid;
  mret (u64 pid).

Definition sys_kill : K Z :=
  pid ← argint 0;
  r ← kkill pid;
  mret (u64 r).

Definition sys_uptime : K Z :=
  acquire L_ticks;;
  xticks ← gets (λ s, k_ticks s);
  release L_ticks;;
  mret xticks.

Definition sys_hello : K Z :=
  pid ← mypid;
  printf (str "kernel: hello() called by pid %d (running in kernel)" ++ [10]) [AWord pid];;
  mret 0.

Definition sys_psx : K Z := procdump;; mret 0.
Definition sys_ps : K Z := procdump;; mret 0.

Section sysproc.
Context {LY : Layout} {W : Wakeups} {BD : BlockDev} {SJ : StackJunk}.

Definition sys_exit : K Z :=
  n ← argint 0;
  kexit n.

Definition sys_fork : K Z := r ← kfork; mret (u64 r).

Definition sys_wait : K Z :=
  p ← argaddr 0;
  r ← kwait p;
  mret (u64 r).

Definition sys_sbrk : K Z :=
  n ← argint 0;
  t ← argint 1;
  me ← curproc;
  p ← get_proc me;
  let addr := p_sz p in
  if (t =? SBRK_EAGER) || (n <? 0) then
    r ← growproc n;
    if r <? 0 then mret err else mret addr
  else if u64 (addr + n) <? addr then mret err
  else if TRAPFRAME <? u64 (addr + n) then mret err
  else
    upd_proc me (λ p, set_sz (u64 (p_sz p + n)) p);;
    mret addr.

(** One test of the loop condition of sys_pause(). *)
Definition pause_step (ticks0 n : Z) : K (() + Z) :=
  ticks ← gets (λ s, k_ticks s);
  if negb (u32 (ticks - ticks0) <? u32 n) then
    release L_ticks;;
    mret (inr 0)
  else
  me ← curproc;
  k ← killed me;
  if negb (k =? 0) then
    release L_ticks;;
    mret (inr err)
  else
  sleep Ch_ticks L_ticks;;
  mret (inl tt).

Definition sys_pause : K Z :=
  n ← argint 0;
  let n := if n <? 0 then 0 else n in
  acquire L_ticks;;
  ticks0 ← gets (λ s, k_ticks s);
  loop (S wakeups) (λ _, pause_step ticks0 n) tt.

Definition sys_kalloc1 : K Z :=
  pa ← kalloc;
  if pa =? 0 then
    printf (str "kernel: kalloc1() failed: out of memory" ++ [10]) [];;
    mret err
  else
  printf (str "kernel: kalloc1() got page at %p, freeing it now" ++ [10]) [AWord pa];;
  kfree pa;;
  mret 0.

(** ** kernel/syscall.c *)

(** kernel/syscall.h *)
Definition SYS_fork : Z := 1.
Definition SYS_exit : Z := 2.
Definition SYS_wait : Z := 3.
Definition SYS_pipe : Z := 4.
Definition SYS_read : Z := 5.
Definition SYS_kill : Z := 6.
Definition SYS_exec : Z := 7.
Definition SYS_fstat : Z := 8.
Definition SYS_chdir : Z := 9.
Definition SYS_dup : Z := 10.
Definition SYS_getpid : Z := 11.
Definition SYS_sbrk : Z := 12.
Definition SYS_pause : Z := 13.
Definition SYS_uptime : Z := 14.
Definition SYS_open : Z := 15.
Definition SYS_write : Z := 16.
Definition SYS_mknod : Z := 17.
Definition SYS_unlink : Z := 18.
Definition SYS_link : Z := 19.
Definition SYS_mkdir : Z := 20.
Definition SYS_close : Z := 21.
Definition SYS_hello : Z := 22.
Definition SYS_kalloc1 : Z := 23.
Definition SYS_psx : Z := 24.
Definition SYS_ps : Z := 25.
Definition SYS_setpriority : Z := 26.
Definition SYS_getpriority : Z := 27.

(** An array given by designated initialisers: an element that none of them
    names is null, and the largest index fixes the size. *)
Definition designated {A} (l : list (Z * A)) : list (option A) :=
  foldl (λ a e, <[Z.to_nat e.1 := Some e.2]> a)
    (replicate (S (foldr Nat.max O (Z.to_nat <$> l.*1))) None) l.

Definition syscalls : list (option (K Z)) := designated [
  (SYS_fork, sys_fork); (SYS_exit, sys_exit); (SYS_wait, sys_wait); (SYS_pipe, sys_pipe);
  (SYS_read, sys_read); (SYS_kill, sys_kill); (SYS_exec, sys_exec); (SYS_fstat, sys_fstat);
  (SYS_chdir, sys_chdir); (SYS_dup, sys_dup); (SYS_getpid, sys_getpid); (SYS_sbrk, sys_sbrk);
  (SYS_pause, sys_pause); (SYS_uptime, sys_uptime); (SYS_open, sys_open); (SYS_write, sys_write);
  (SYS_mknod, sys_mknod); (SYS_unlink, sys_unlink); (SYS_link, sys_link); (SYS_mkdir, sys_mkdir);
  (SYS_close, sys_close); (SYS_hello, sys_hello); (SYS_kalloc1, sys_kalloc1); (SYS_psx, sys_psx);
  (SYS_ps, sys_ps); (SYS_setpriority, sys_setpriority); (SYS_getpriority, sys_getpriority)].

(** syscalls[num]: reading outside the array is undefined. *)
Definition syscalls_at (num : Z) : K (option (K Z)) :=
  if (0 <=? num) && (num <? Z.of_nat (length syscalls)) then mret (syscalls !!! Z.to_nat num) else undefined.

(** num > 0 && num < NELEM(syscalls) && syscalls[num]: the handler, if the
    condition holds. *)
Definition find_syscall (num : Z) : K (option (K Z)) :=
  if (0 <? num) && (num <? Z.of_nat (length syscalls)) then syscalls_at num else mret None.

Definition syscall : K () :=
  me ← curproc;
  p ← get_proc me;
  tf ← get_tf (p_trapframe p);
  let num := i32 (tf_a7 tf) in
  handler ← find_syscall num;
  match handler with
  | Some f =>
      r ← f;
      p ← get_proc me;
      upd_tf (p_trapframe p) (set_tf_a0 r)
  | None =>
      printf (str "%d %s: unknown sys call %d" ++ [10])
        [AWord (p_pid p); AStr (Some (c_string (p_name p))); AWord num];;
      upd_tf (p_trapframe p) (set_tf_a0 (u64 (-1)))
  end.
End sysproc.
