(* ===== verification/SyscallSpec.v ===== *)
(** System calls that fail, and the calls on descriptors and processes that do
    not touch the file system: the dispatcher of kernel/syscall.c, dup() of
    kernel/sysfile.c and kill() of kernel/proc.c. *)

From Stdlib Require Import ZArith Lia ZifyBool Ascii.
From stdpp Require Import base numbers list gmap strings.
From S2P Require Import Prelude Params Machine Spinlock CString Printf Sched Priority Kalloc Vm Sleeplock Bio Log Fs ProcTable Console File ProcLife Exec Sysfile Syscall.

(** ** Unknown system calls *)

Section dispatch.
Context {LY : Layout} {W : Wakeups} {BD : BlockDev} {SJ : StackJunk}.

(** The handlers in the order of the numbers that user programs load into a7:
    fork() is 1, getpriority() is 27. *)
Definition numbered : list (K Z) :=
  [sys_fork; sys_exit; sys_wait; sys_pipe; sys_read; sys_kill; sys_exec; sys_fstat; sys_chdir; sys_dup; sys_getpid;
   sys_sbrk; sys_pause; sys_uptime; sys_open; sys_write; sys_mknod; sys_unlink; sys_link; sys_mkdir; sys_close;
   sys_hello; sys_kalloc1; sys_psx; sys_ps; sys_setpriority; sys_getpriority].

Definition handler_of (num : Z) : option (K Z) := if 0 <? num then numbered !! Z.to_nat (num - 1) else None.

Lemma find_syscall_ok num s : find_syscall num s = Ok (handler_of num) s.
Proof using Type.
  unfold find_syscall, syscalls_at, handler_of. change (Z.of_nat (length syscalls)) with 28.
  destruct (decide (1 ≤ num ≤ 27)) as [H|H].
  - replace ((0 <? num) && (num <? 28)) with true by lia. replace ((0 <=? num) && (num <? 28)) with true by lia.
    replace (0 <? num) with true by lia. rewrite run_ret.
    assert (E : ∃ n, num = Z.of_nat (S n) ∧ (n < 27)%nat) by (exists (Z.to_nat (num - 1)); lia).
    destruct E as (n & -> & Hn). rewrite Nat2Z.id. replace (Z.of_nat (S n) - 1) with (Z.of_nat n) by lia. rewrite Nat2Z.id.
    do 27 (destruct n as [|n]; [reflexivity|]). lia.
  - replace ((0 <? num) && (num <? 28)) with false by lia. destruct (0 <? num) eqn:E; [|done].
    rewrite lookup_ge_None_2; [done|]. change (length numbered) with 27%nat. lia.
Qed.

(** C31: The dispatcher.  A trap with a number of 1..27 runs the handler of that
    number in syscall.h, from the caller's state, and puts its result into a0.
    Any other value of a7, taken as a 32-bit int, prints one line with the pid,
    the name and the number, puts -1 into the caller's a0, and changes nothing
    else; no number reads outside syscalls[]. *)
Theorem unknown_syscall_fails me tf s :
  calls me tf s → k_locks s !! L_pr = None →
  let p := k_proc s !!! me in let num := i32 (tf_a7 tf) in
  match handler_of num with
  | Some f => syscall s = (r ← f; p ← get_proc me; upd_tf (p_trapframe p) (set_tf_a0 r)) s
  | None =>
    syscall s = Ok tt (set_trapframes (<[p_trapframe p := set_tf_a0 (u64 (-1)) tf]> (k_trapframes s))
      (set_out (k_out s ++ default [] (Kernel.format (str "%d %s: unknown sys call %d" ++ [10])
         [AWord (p_pid p); AStr (Some (c_string (p_name p))); AWord num])) s))
  end.
Proof using Type.
  intros (Hc & Hme & Htf) Hpr p num. unfold syscall. rewrite run_bind, (curproc_ok me) by done. cbn [obind]. kgo. fold p in Htf |- *.
  unfold get_tf. kgo. rewrite Htf, run_ret. cbn [obind]. fold num. rewrite run_bind, find_syscall_ok. cbn [obind].
  destruct (handler_of num) as [f|]; [reflexivity|]. rewrite run_bind, printf_ok by done. cbn [obind].
  unfold upd_tf. kgo. f_equal. f_equal. cbn. apply map_eq. intros a.
  destruct (decide (a = p_trapframe p)) as [->|Hne].
  - by rewrite lookup_alter_eq, lookup_insert_eq, Htf.
  - by rewrite lookup_alter_ne, lookup_insert_ne.
Qed.
End dispatch.

Lemma unknown_syscall_fails_witness :
  let s := caller 7 5 in
  @syscall small_layout 0%nat (λ _ _ s, Spin s) [] s =
    Ok tt (set_trapframes (<[0x80008000 := set_tf_a0 (u64 (-1)) (set_tf_a0 7 (set_tf_a1 5 zero_trapframe))]> (k_trapframes s))
      (set_out (k_out s ++ default [] (Kernel.format (str "%d %s: unknown sys call %d" ++ [10])
         [AWord 7; AStr (Some (c_string (p_name (k_proc s !!! 3%nat)))); AWord 0])) s)).
Proof.
  apply (@unknown_syscall_fails small_layout 0%nat (λ _ _ s, Spin s) [] 3 _ (caller 7 5) (caller_calls 7 5)). apply lookup_empty.
Defined.

(** ** dup() *)

(** The lowest descriptor not in use, from [fd] on. *)
Fixpoint lowest_free (fds : list (option nat)) (fd : nat) : option nat :=
  match fds with
  | [] => None
  | None :: _ => Some fd
  | Some _ :: fds => lowest_free fds (S fd)
  end.

Lemma lowest_free_spec fds k :
  match lowest_free fds k with
  | Some fd => (k ≤ fd)%nat ∧ fds !! (fd - k)%nat = Some None ∧ ∀ j, (k ≤ j < fd)%nat → ∃ f, fds !! (j - k)%nat = Some (Some f)
  | None => ∀ j, (j < length fds)%nat → ∃ f, fds !! j = Some (Some f)
  end.
Proof.
  revert k. induction fds as [|[f|] fds IH]; intros k; cbn [lowest_free].
  - cbn. lia.
  - specialize (IH (S k)). destruct (lowest_free fds (S k)) as [fd|].
    + destruct IH as (H1 & H2 & H3). split_and!; [lia|by replace (fd - k)%nat with (S (fd - S k)) by lia|].
      intros j Hj. destruct (decide (j = k)) as [->|]; [rewrite Nat.sub_diag; by exists f|].
      replace (j - k)%nat with (S (j - S k)) by lia. apply H3. lia.
    + intros [|j] Hj; [by exists f|]. apply IH. cbn in Hj. lia.
  - rewrite Nat.sub_diag. split_and!; [lia|done|lia].
Qed.

Section fd.
Context (me : nat) (tf : trapframe) (s : kstate).
Hypotheses (Hcall : calls me tf s) (Hme : (me < length (k_proc s))%nat).

Abbreviation p := (k_proc s !!! me).

Definition install_fd (fd f : nat) (s : kstate) : kstate :=
  alter_proc me (λ p, set_ofile (<[fd := Some f]> (p_ofile p)) p) s.

Lemma fdalloc_ok f :
  length (p_ofile p) = Z.to_nat NOFILE →
  fdalloc f s = match lowest_free (p_ofile p) 0 with
                | Some fd => Ok (Z.of_nat fd) (install_fd fd f s)
                | None => Ok (-1) s
                end.
Proof using Hcall.
  intros Hlen. destruct Hcall as (Hc & Hp & _). unfold fdalloc. rewrite run_bind, (curproc_ok me) by done. cbn [obind].
  assert (Hgen : ∀ l k, drop k (p_ofile p) = l →
    for_find (seq k (length l)) (λ fd,
      p ← get_proc me;
      match p_ofile p !!! fd with
      | None => upd_proc me (λ p, set_ofile (<[fd := Some f]> (p_ofile p)) p);; mret (Some (Z.of_nat fd))
      | Some _ => mret None
      end) s = match lowest_free l k with
               | Some fd => Ok (Some (Z.of_nat fd)) (install_fd fd f s)
               | None => Ok None s
               end).
  { induction l as [|x l IH]; intros k Hk; [done|].
    assert (Hx : p_ofile p !! k = Some x).
    { pose proof (lookup_drop (p_ofile p) k 0) as E. rewrite Hk, Nat.add_0_r in E. by rewrite <-E. }
    cbn [length seq for_find lowest_free]. rewrite run_bind, run_bind, run_get_proc. cbn [obind].
    rewrite (list_lookup_total_correct _ _ _ Hx). destruct x as [g|]; [|done].
    cbn [obind mret M_ret]. apply IH. by rewrite <-Nat.add_1_r, <-drop_drop, Hk. }
  rewrite run_bind, <-Hlen, (Hgen (p_ofile p) 0%nat eq_refl). by destruct (lowest_free (p_ofile p) 0).
Qed.

(** argfd(0): the file of a descriptor argument. *)
Lemma argfd_ok :
  length (p_ofile p) = Z.to_nat NOFILE →
  argfd 0 s = Ok (let fd := i32 (tf_a0 tf) in
    if (fd <? 0) || (NOFILE <=? fd) then None
    else (λ f, (fd, f)) <$> (p_ofile p !!! Z.to_nat fd)) s.
Proof using Hcall.
  intros Hlen. unfold argfd. rewrite run_bind, (argint_ok me tf s 0 _ Hcall (Z.le_refl 0) eq_refl). cbn [obind]. cbn zeta.
  destruct ((i32 (tf_a0 tf) <? 0) || (NOFILE <=? i32 (tf_a0 tf))) eqn:E; [done|]. destruct Hcall as (Hc & Hp & _).
  rewrite run_bind, (curproc_ok me) by done. cbn [obind]. kgo. unfold ofile_at.
  replace (i32 (tf_a0 tf) <? 0) with false by (clear Hme; lia).
  rewrite (list_lookup_lookup_total_lt (p_ofile p)) by (clear Hme; unfold NOFILE in *; lia). done.
Qed.
End fd.

(** C32: dup() on every path.  An argument that is no open descriptor, or a
    full descriptor table, gives -1 and changes nothing; otherwise the lowest
    free descriptor refers to the same file afterwards, the file has one more
    reference, and no other descriptor and no other file changes. *)
Theorem sys_dup_correct me tf s :
  let p := k_proc s !!! me in let fd := i32 (tf_a0 tf) in
  calls me tf s → (me < length (k_proc s))%nat → length (p_ofile p) = Z.to_nat NOFILE →
  k_locks s !! L_ftable = None →
  (∀ i f, p_ofile p !! i = Some (Some f) → (f < length (k_files s))%nat ∧ 1 ≤ f_ref (k_files s !!! f) < 2 ^ 31 - 1) →
  match (if (0 <=? fd) && (fd <? NOFILE) then p_ofile p !!! Z.to_nat fd else None), lowest_free (p_ofile p) 0 with
  | Some f, Some new =>
      (new < Z.to_nat NOFILE)%nat ∧ p_ofile p !! new = Some None ∧ (∀ j, (j < new)%nat → ∃ g, p_ofile p !! j = Some (Some g)) ∧
      sys_dup s = Ok (Z.of_nat new)
        (set_files (alter (λ x, set_f_ref (f_ref x + 1) x) f (k_files s)) (install_fd me new f s))
  | _, _ => sys_dup s = Ok err s
  end.
Proof.
  intros p fd Hcall Hme Hlen Hlk Href. unfold sys_dup. rewrite run_bind, (argfd_ok me tf s Hcall Hlen). cbn [obind]. cbn zeta. fold p fd.
  replace ((fd <? 0) || (NOFILE <=? fd)) with (negb ((0 <=? fd) && (fd <? NOFILE))) by lia.
  destruct ((0 <=? fd) && (fd <? NOFILE)) eqn:Efd; cbn [negb]; [|done].
  destruct (p_ofile p !!! Z.to_nat fd) as [f|] eqn:Ef; [|done]. cbn [fmap option_fmap option_map].
  rewrite run_bind, (fdalloc_ok me tf s Hcall f Hlen). fold p. pose proof (lowest_free_spec (p_ofile p) 0) as Hfree.
  destruct (lowest_free (p_ofile p) 0) as [new|]; [|done].
  destruct Hfree as (_ & Hnew & Hbelow). rewrite Nat.sub_0_r in Hnew. cbn [obind].
  replace (Z.of_nat new <? 0) with false by lia.
  split_and!; [rewrite <-Hlen; by eapply lookup_lt_Some|done| |].
  { intros j Hj. destruct (Hbelow j ltac:(lia)) as [g Hg]. rewrite Nat.sub_0_r in Hg. by exists g. }
  destruct (Href (Z.to_nat fd) f) as [Hf Hr]; [rewrite <-Ef; apply list_lookup_lookup_total_lt; unfold NOFILE in *; lia|].
  set (t := install_fd me new f s). destruct Hcall as (Hc & _ & _). assert (Hct : cpu_ok t) by exact Hc.
  unfold filedup, get_file, upd_file. rewrite !run_bind, acquire_ok by done. cbn [obind]. kgo.
  change (k_files (locked L_ftable t)) with (k_files s). replace (f_ref (k_files s !!! f) <? 1) with false by lia. kgo.
  assert (Ealt : alter (λ x, set_f_ref (i32 (f_ref x + 1)) x) f (k_files s) = alter (λ x, set_f_ref (f_ref x + 1) x) f (k_files s)).
  { apply list_alter_ext; [|done]. intros x Hx. apply list_lookup_total_correct in Hx. subst x. by rewrite i32_small by lia. }
  change (k_files (locked L_ftable t)) with (k_files s). rewrite Ealt, (release_ok L_ftable t) by done. reflexivity.
Qed.

(** Descriptor 0 is file 4; it is duplicated to descriptor 1. *)
Definition dup_caller : kstate :=
  set_files (alter (set_f_ref 1) 4%nat (k_files boot_state))
    (alter_proc 3 (set_ofile (Some 4%nat :: replicate 15 None)) (caller 0 0)).

Lemma sys_dup_correct_witness :
  (1 < Z.to_nat NOFILE)%nat ∧ (Some 4%nat :: replicate 15 None) !! 1%nat = Some None ∧
  (∀ j, (j < 1)%nat → ∃ g, (Some 4%nat :: replicate 15 None) !! j = Some (Some g)) ∧
  sys_dup dup_caller = Ok 1
    (set_files (alter (λ x, set_f_ref (f_ref x + 1) x) 4%nat (k_files dup_caller)) (install_fd 3 1 4 dup_caller)).
Proof.
  apply (sys_dup_correct 3 (set_tf_a0 0 (set_tf_a1 0 zero_trapframe)) dup_caller).
  - destruct (caller_calls 0 0) as (H1 & H2 & H3). split_and!; [exact H1|exact H2|]. reflexivity.
  - apply Nat.ltb_lt. reflexivity.
  - reflexivity.
  - apply lookup_empty.
  - change (p_ofile (k_proc dup_caller !!! 3%nat)) with (Some 4%nat :: replicate 15 None).
    intros [|i] f; [intros [= <-]; split; [apply Nat.ltb_lt; reflexivity|by vm_compute]|].
    intros Hf. change ((Some 4%nat :: replicate 15 None) !! S i) with (replicate 15 (@None nat) !! i) in Hf.
    apply lookup_replicate in Hf as [Hf _]. discriminate.
Defined.

(** ** kill() *)

(** What kill() does to the process it finds. *)
Definition kill_fn (p : proc) : proc :=
  let p := set_killed 1 p in if bool_decide (p_state p = SLEEPING) then set_state RUNNABLE p else p.

(** C33: kill(pid).  When no slot has the pid it returns -1 and changes
    nothing; else exactly the first slot with the pid has its killed flag set and
    becomes RUNNABLE if it slept, and the call returns 0. *)
Theorem kkill_correct me tf s pid :
  calls me tf s → length (k_proc s) = Z.to_nat NPROC → (∀ i, k_locks s !! L_proc i = None) →
  match find_pid pid (k_proc s) with
  | Some i => p_pid (k_proc s !!! i) = pid ∧ kkill pid s = Ok 0 (alter_proc i kill_fn s)
  | None => (∀ i, (i < length (k_proc s))%nat → p_pid (k_proc s !!! i) ≠ pid) ∧ kkill pid s = Ok (-1) s
  end.
Proof.
  intros Hc Hl Hf. rewrite (kkill_ok me tf) by done. destruct (find_pid pid (k_proc s)) as [i|] eqn:E.
  - by split; [apply find_pid_Some|].
  - split; [|done]. intros i Hi. unfold find_pid in E. apply fmap_None, list_find_None in E.
    rewrite Forall_lookup in E. apply (E i), list_lookup_lookup_total_lt, Hi.
Qed.

Lemma kkill_correct_witness :
  p_pid (k_proc (caller 7 5) !!! 3%nat) = 7 ∧ kkill 7 (caller 7 5) = Ok 0 (alter_proc 3 kill_fn (caller 7 5)).
Proof. apply (kkill_correct 3 _ (caller 7 5) 7 (caller_calls 7 5) eq_refl (λ i, lookup_empty _)). Defined.

(** The killed flag of slot [j]; allocation does not touch it. *)
Definition killed_flag (j : nat) (s : kstate) : Z := p_killed (k_proc s !!! j).

Global Instance outside_killed j : OutsideMemory (killed_flag j).
Proof. done. Qed.

Global Instance outside_lock_killed j lk : OutsideLock (killed_flag j) lk.
Proof. done. Qed.

Lemma frames_upd_proc_killed j i g : (∀ p, p_killed (g p) = p_killed p) → frames (killed_flag j) (upd_proc i g).
Proof.
  intros Hg. apply frames_modify. intros s. unfold killed_flag, alter_proc. cbn. rewrite !list_lookup_total_alt.
  destruct (decide (i = j)) as [->|Hne]; [|by rewrite list_lookup_alter_ne].
  rewrite list_lookup_alter_eq. destruct (k_proc s !! j) as [p|]; [apply Hg|done].
Qed.

Section alloc.
Context {LY : Layout} (j : nat).

Hint Resolve frames_walk frames_mappages frames_load frames_write64 frames_memset_page : kernel.

Lemma frames_uvmunmap pt va n b : frames (killed_flag j) (uvmunmap pt va n b).
Proof using Type. unfold uvmunmap. frame. Qed.

Lemma frames_freewalk_go d pt : frames (killed_flag j) (freewalk_go d pt).
Proof using Type. revert pt. induction d; intros pt; cbn [freewalk_go]; frame. Qed.

Hint Resolve frames_uvmunmap frames_freewalk_go : kernel.

Lemma frames_proc_pagetable i : frames (killed_flag j) (proc_pagetable i).
Proof using Type. unfold proc_pagetable, uvmcreate, uvmfree, freewalk. frame. Qed.

Lemma frames_alloc_slot : frames (killed_flag j) alloc_slot.
Proof using Type. unfold alloc_slot. frame. Qed.

Lemma frames_allocpid : frames (killed_flag j) allocpid.
Proof using Type. unfold allocpid. frame. by apply frames_modify. Qed.
End alloc.

(** Code that returns slot [i] or fails, and in the first case keeps its flag. *)
Definition frames_slot (i : nat) (m : K (option nat)) : Prop :=
  ∀ s, match m s with Ok (Some j) t => j = i ∧ killed_flag i t = killed_flag i s | _ => True end.

Lemma frames_slot_bind {A} i (m : K A) (g : A → K (option nat)) :
  frames (killed_flag i) m → (∀ a, frames_slot i (g a)) → frames_slot i (m ≫= g).
Proof.
  intros Hm Hg s. rewrite run_bind. specialize (Hm s). destruct (m s) as [a t| | | |]; cbn; try done.
  specialize (Hg a t). destruct (g a t) as [[b|] u| | | |]; try done. by destruct Hg as [-> ->].
Qed.

(** The exits that free the slot again. *)
Lemma frames_slot_fail i (m1 m2 : K ()) : frames_slot i (m1;; m2;; mret None).
Proof.
  intros s. rewrite run_bind. destruct (m1 s) as [[] t| | | |]; cbn; try done. rewrite run_bind.
  by destruct (m2 t) as [[] u| | | |].
Qed.

Lemma allocproc_keeps_killed {LY : Layout} u v j :
  allocproc u = Ok (Some j) v → p_killed (k_proc v !!! j) = p_killed (k_proc u !!! j).
Proof.
  intros Ha. unfold allocproc in Ha. rewrite run_bind in Ha.
  destruct (alloc_slot u) as [[i|] s1| | | |] eqn:E1; cbn [obind] in Ha; try done.
  pose proof (frames_alloc_slot i u) as H1. rewrite E1 in H1.
  match type of Ha with ?m s1 = _ => assert (Hm : frames_slot i m) end.
  - apply frames_slot_bind; [apply frames_allocpid|intros pid].
    do 2 (apply frames_slot_bind; [by apply frames_upd_proc_killed|intros _]).
    apply frames_slot_bind; [apply frames_gets|intros ticks].
    apply frames_slot_bind; [by apply frames_upd_proc_killed|intros _].
    apply frames_slot_bind; [apply frames_kalloc, _|intros tf].
    apply frames_slot_bind; [by apply frames_upd_proc_killed|intros _].
    destruct (tf =? 0); [apply frames_slot_fail|].
    apply frames_slot_bind; [by apply frames_modify|intros _].
    apply frames_slot_bind; [apply frames_proc_pagetable|intros pt].
    apply frames_slot_bind; [by apply frames_upd_proc_killed|intros _].
    destruct (pt =? 0); [apply frames_slot_fail|].
    apply frames_slot_bind; [apply frames_gets|intros p].
    apply frames_slot_bind; [by apply frames_upd_proc_killed|intros _]. by intros s.
  - specialize (Hm s1). rewrite Ha in Hm. destruct Hm as [-> Hm]. change (killed_flag i v = killed_flag i u). congruence.
Qed.

(** C34: kill(0) reaches free slots.  Slots that are not in use have
    pid 0, so kill(0) succeeds while there is one, and sets the killed flag of
    the first; allocproc() does not reset that flag, so a process that is later
    allocated in the slot starts out killed. *)
Theorem kill_zero_marks_free_slot {LY : Layout} me tf s i :
  calls me tf s → length (k_proc s) = Z.to_nat NPROC → (∀ j, k_locks s !! L_proc j = None) →
  find_pid 0 (k_proc s) = Some i → p_state (k_proc s !!! i) = UNUSED →
  ∃ t, kkill 0 s = Ok 0 t ∧ p_state (k_proc t !!! i) = UNUSED ∧ p_killed (k_proc t !!! i) = 1 ∧
    ∀ u v j, allocproc u = Ok (Some j) v → p_killed (k_proc v !!! j) = p_killed (k_proc u !!! j).
Proof.
  intros Hc Hl Hf Hi Hst. pose proof (find_pid_Some 0 _ i Hi) as [Hlt _].
  exists (alter_proc i kill_fn s). rewrite (kkill_ok me tf), Hi, lookup_alter_proc by done.
  unfold kill_fn. cbn. rewrite Hst. cbn. split_and!; [done|done|done|]. exact allocproc_keeps_killed.
Qed.

Lemma kill_zero_marks_free_slot_witness :
  ∃ t, kkill 0 (caller 0 0) = Ok 0 t ∧ p_state (k_proc t !!! 0%nat) = UNUSED ∧ p_killed (k_proc t !!! 0%nat) = 1 ∧
    ∀ u v j, @allocproc small_layout u = Ok (Some j) v → p_killed (k_proc v !!! j) = p_killed (k_proc u !!! j).
Proof.
  apply (@kill_zero_marks_free_slot small_layout 3 _ (caller 0 0) 0 (caller_calls 0 0)).
  - reflexivity.
  - intros j. apply lookup_empty.
  - vm_compute. reflexivity.
  - reflexivity.
Defined.
