(* ===== verification/Virtio.v ===== *)
(** The disk driver: kernel/virtio_disk.c.

    The device side (QEMU) is not part of the program.  It reads the descriptors
    and the available ring out of [k_vdisk], and writes block data, status bytes
    and the used ring there; the driver sees its work when it is resumed.  What
    the device answers when a register is read is a parameter. *)

From Stdlib Require Import ZArith Lia ZifyBool.
From stdpp Require Import base numbers list gmap strings.
From S2P Require Import Prelude Params Machine Spinlock Printf Sched Kalloc Vm Sleeplock Bio.

(** ** kernel/virtio.h *)

Definition VIRTIO_MMIO_MAGIC_VALUE : Z := 0x000.
Definition VIRTIO_MMIO_VERSION : Z := 0x004.
Definition VIRTIO_MMIO_DEVICE_ID : Z := 0x008.
Definition VIRTIO_MMIO_VENDOR_ID : Z := 0x00c.
Definition VIRTIO_MMIO_DEVICE_FEATURES : Z := 0x010.
Definition VIRTIO_MMIO_DRIVER_FEATURES : Z := 0x020.
Definition VIRTIO_MMIO_QUEUE_SEL : Z := 0x030.
Definition VIRTIO_MMIO_QUEUE_NUM_MAX : Z := 0x034.
Definition VIRTIO_MMIO_QUEUE_NUM : Z := 0x038.
Definition VIRTIO_MMIO_QUEUE_READY : Z := 0x044.
Definition VIRTIO_MMIO_QUEUE_NOTIFY : Z := 0x050.
Definition VIRTIO_MMIO_INTERRUPT_STATUS : Z := 0x060.
Definition VIRTIO_MMIO_INTERRUPT_ACK : Z := 0x064.
Definition VIRTIO_MMIO_STATUS : Z := 0x070.
Definition VIRTIO_MMIO_QUEUE_DESC_LOW : Z := 0x080.
Definition VIRTIO_MMIO_QUEUE_DESC_HIGH : Z := 0x084.
Definition VIRTIO_MMIO_DRIVER_DESC_LOW : Z := 0x090.
Definition VIRTIO_MMIO_DRIVER_DESC_HIGH : Z := 0x094.
Definition VIRTIO_MMIO_DEVICE_DESC_LOW : Z := 0x0a0.
Definition VIRTIO_MMIO_DEVICE_DESC_HIGH : Z := 0x0a4.

Definition VIRTIO_CONFIG_S_ACKNOWLEDGE : Z := 1.
Definition VIRTIO_CONFIG_S_DRIVER : Z := 2.
Definition VIRTIO_CONFIG_S_DRIVER_OK : Z := 4.
Definition VIRTIO_CONFIG_S_FEATURES_OK : Z := 8.

Definition VIRTIO_BLK_F_RO : Z := 5.
Definition VIRTIO_BLK_F_SCSI : Z := 7.
Definition VIRTIO_BLK_F_CONFIG_WCE : Z := 11.
Definition VIRTIO_BLK_F_MQ : Z := 12.
Definition VIRTIO_F_ANY_LAYOUT : Z := 27.
Definition VIRTIO_RING_F_INDIRECT_DESC : Z := 28.
Definition VIRTIO_RING_F_EVENT_IDX : Z := 29.

Definition NUM : Z := 8.
Definition VRING_DESC_F_NEXT : Z := 1.
Definition VRING_DESC_F_WRITE : Z := 2.
Definition VIRTIO_BLK_T_IN : Z := 0.
Definition VIRTIO_BLK_T_OUT : Z := 1.

(** What a read of register [r] returns, given the values written so far. *)
Class VirtioRegs := vreg : gmap Z Z → Z → Z.

Definition write_vreg (r v : Z) : K () :=
  modify (λ s, set_mmio (<[VIRTIO0 + r := u32 v]> (k_mmio s)) s).

Definition get_disk : K disk := gets (λ s, k_vdisk s).
#[global] Hint Transparent get_disk : kernel.
Definition upd_disk (f : disk → disk) : K () := modify (λ s, set_vdisk (f (k_vdisk s)) s).
Definition upd_desc (i : nat) (f : virtq_desc → virtq_desc) : K () :=
  upd_disk (λ d, set_d_desc (alter f i (d_desc d)) d).

(** ** Descriptors *)

Definition alloc_desc : K Z :=
  r ← for_find (seq 0 (Z.to_nat NUM)) (λ i,
    d ← get_disk;
    if negb (d_free d !!! i =? 0) then
      upd_disk (λ d, set_d_free (<[i := 0]> (d_free d)) d);;
      mret (Some (Z.of_nat i))
    else mret None);
  mret (default (-1) r).

Definition free_desc (i : Z) : K () :=
  if NUM <=? i then panic "free_desc 1" else
  d ← get_disk;
  if negb (d_free d !!! Z.to_nat i =? 0) then panic "free_desc 2" else
  upd_desc (Z.to_nat i) (λ _, zero_desc);;
  upd_disk (λ d, set_d_free (<[Z.to_nat i := 1]> (d_free d)) d);;
  wakeup Ch_diskfree.

(** A chain has at most NUM descriptors: freeing one a second time panics. *)
Definition free_chain (i : Z) : K () :=
  loop (S (Z.to_nat NUM)) (λ i,
    d ← get_disk;
    let flag := vd_flags (d_desc d !!! Z.to_nat i) in
    let nxt := vd_next (d_desc d !!! Z.to_nat i) in
    free_desc i;;
    if negb (Z.land flag VRING_DESC_F_NEXT =? 0) then mret (inl nxt) else mret (inr tt)) i.

(** [Some idx] when it returns 0. *)
Definition alloc3_desc : K (option (Z * Z * Z)) :=
  i0 ← alloc_desc;
  if i0 <? 0 then mret None else
  i1 ← alloc_desc;
  if i1 <? 0 then
    free_desc i0;;
    mret None
  else
  i2 ← alloc_desc;
  if i2 <? 0 then
    free_desc i0;;
    free_desc i1;;
    mret None
  else mret (Some (i0, i1, i2)).

(** ** Requests *)

(** Fill in the header, the three descriptors and the book-keeping. *)
Definition format_request (b : nat) (write : bool) (sector i0 i1 i2 : Z) : K () :=
  let n0 := Z.to_nat i0 in
  upd_disk (λ d, set_d_ops (<[n0 := mk_virtio_blk_req
    (if write then VIRTIO_BLK_T_OUT else VIRTIO_BLK_T_IN) 0 sector]> (d_ops d)) d);;
  upd_desc n0 (λ _, mk_virtq_desc (DMA_req n0) 16 VRING_DESC_F_NEXT i1);;
  upd_desc (Z.to_nat i1) (λ _, mk_virtq_desc (DMA_data b) BSIZE
    (Z.lor (if write then 0 else VRING_DESC_F_WRITE) VRING_DESC_F_NEXT) i2);;
  upd_disk (λ d, set_d_info_status (<[n0 := 0xff]> (d_info_status d)) d);;
  upd_desc (Z.to_nat i2) (λ _, mk_virtq_desc (DMA_status n0) 1 VRING_DESC_F_WRITE 0);;
  upd_buf b (set_b_disk 1);;
  upd_disk (λ d, set_d_info_b (<[n0 := Some b]> (d_info_b d)) d).

(** Put the chain into the available ring and notify the device. *)
Definition submit_request (i0 : Z) : K () :=
  upd_disk (λ d, set_d_avail_ring (<[Z.to_nat (d_avail_idx d mod NUM) := i0]> (d_avail_ring d)) d);;
  upd_disk (λ d, set_d_avail_idx (u16 (d_avail_idx d + 1)) d);;
  write_vreg VIRTIO_MMIO_QUEUE_NOTIFY 0.

Section virtio.
Context {W : Wakeups}.

Definition virtio_disk_rw (b : nat) (write : bool) : K () :=
  x ← get_buf b;
  let sector := u32 (b_blockno x * (BSIZE / 512)) in
  acquire L_vdisk;;
  idx ← loop (S wakeups) (λ _,
    r ← alloc3_desc;
    match r with
    | Some idx => mret (inr idx)
    | None =>
        sleep Ch_diskfree L_vdisk;;
        mret (inl tt)
    end) tt;
  let '(i0, i1, i2) := idx in
  format_request b write sector i0 i1 i2;;
  submit_request i0;;
  loop (S wakeups) (λ _,
    x ← get_buf b;
    if b_disk x =? 1 then
      sleep (Ch_buf b) L_vdisk;;
      mret (inl tt)
    else mret (inr tt)) tt;;
  upd_disk (λ d, set_d_info_b (<[Z.to_nat i0 := None]> (d_info_b d)) d);;
  free_chain i0;;
  release L_vdisk.

(** The disk driver implements the interface of the buffer cache. *)
#[export] Instance virtio_blockdev : BlockDev := virtio_disk_rw.
End virtio.

(** One completed request. *)
Definition disk_intr_step : K (() + ()) :=
  d ← get_disk;
  if d_used_idx d =? d_used_dev_idx d then mret (inr tt) else
  let id := Z.to_nat (d_used_ring d !!! Z.to_nat (d_used_idx d mod NUM)) in
  if negb (d_info_status d !!! id =? 0) then panic "virtio_disk_intr status" else
  match d_info_b d !!! id with
  | None => panic "kerneltrap"
  | Some b =>
      upd_buf b (set_b_disk 0);;
      wakeup (Ch_buf b);;
      upd_disk (λ d, set_d_used_idx (u16 (d_used_idx d + 1)) d);;
      mret (inl tt)
  end.

(** The used ring holds at most NUM completions that were not looked at. *)
Definition virtio_disk_intr `{VR : VirtioRegs} : K () :=
  acquire L_vdisk;;
  m ← gets (λ s, k_mmio s);
  write_vreg VIRTIO_MMIO_INTERRUPT_ACK (Z.land (vreg m VIRTIO_MMIO_INTERRUPT_STATUS) 0x3);;
  loop (S (Z.to_nat NUM)) (λ _, disk_intr_step) tt;;
  release L_vdisk.

(** ** Start-up *)

Definition read_vreg `{VR : VirtioRegs} (r : Z) : K Z := gets (λ s, u32 (vreg (k_mmio s) r)).
#[global] Hint Transparent read_vreg : kernel.

(** features &= ~(1 << bit) *)
Definition without (bit features : Z) : Z := Z.land features (Z.lnot (Z.shiftl 1 bit)).

Definition virtio_disk_init `{VR : VirtioRegs} : K () :=
  initlock L_vdisk;;
  magic ← read_vreg VIRTIO_MMIO_MAGIC_VALUE;
  version ← read_vreg VIRTIO_MMIO_VERSION;
  device ← read_vreg VIRTIO_MMIO_DEVICE_ID;
  vendor ← read_vreg VIRTIO_MMIO_VENDOR_ID;
  if negb (magic =? 0x74726976) || negb (version =? 2) || negb (device =? 2)
     || negb (vendor =? 0x554d4551)
  then panic "could not find virtio disk" else
  let status := 0 in
  write_vreg VIRTIO_MMIO_STATUS status;;
  let status := Z.lor status VIRTIO_CONFIG_S_ACKNOWLEDGE in
  write_vreg VIRTIO_MMIO_STATUS status;;
  let status := Z.lor status VIRTIO_CONFIG_S_DRIVER in
  write_vreg VIRTIO_MMIO_STATUS status;;
  features ← read_vreg VIRTIO_MMIO_DEVICE_FEATURES;
  write_vreg VIRTIO_MMIO_DRIVER_FEATURES
    (without VIRTIO_RING_F_INDIRECT_DESC (without VIRTIO_RING_F_EVENT_IDX
      (without VIRTIO_F_ANY_LAYOUT (without VIRTIO_BLK_F_MQ (without VIRTIO_BLK_F_CONFIG_WCE
        (without VIRTIO_BLK_F_SCSI (without VIRTIO_BLK_F_RO features)))))));;
  let status := Z.lor status VIRTIO_CONFIG_S_FEATURES_OK in
  write_vreg VIRTIO_MMIO_STATUS status;;
  status ← read_vreg VIRTIO_MMIO_STATUS;
  if Z.land status VIRTIO_CONFIG_S_FEATURES_OK =? 0 then panic "virtio disk FEATURES_OK unset" else
  write_vreg VIRTIO_MMIO_QUEUE_SEL 0;;
  ready ← read_vreg VIRTIO_MMIO_QUEUE_READY;
  if negb (ready =? 0) then panic "virtio disk should not be ready" else
  max ← read_vreg VIRTIO_MMIO_QUEUE_NUM_MAX;
  if max =? 0 then panic "virtio disk has no queue 0" else
  if max <? NUM then panic "virtio disk max queue too short" else
  desc ← kalloc;
  avail ← kalloc;
  used ← kalloc;
  if (desc =? 0) || (avail =? 0) || (used =? 0) then panic "virtio disk kalloc" else
  memset_page desc 0;;
  memset_page avail 0;;
  memset_page used 0;;
  upd_disk (λ d, set_d_used_ring (replicate (Z.to_nat NUM) 0) (set_d_used_dev_idx 0
    (set_d_avail_ring (replicate (Z.to_nat NUM) 0) (set_d_avail_idx 0
      (set_d_desc (replicate (Z.to_nat NUM) zero_desc) d)))));;
  write_vreg VIRTIO_MMIO_QUEUE_NUM NUM;;
  write_vreg VIRTIO_MMIO_QUEUE_DESC_LOW desc;;
  write_vreg VIRTIO_MMIO_QUEUE_DESC_HIGH (Z.shiftr desc 32);;
  write_vreg VIRTIO_MMIO_DRIVER_DESC_LOW avail;;
  write_vreg VIRTIO_MMIO_DRIVER_DESC_HIGH (Z.shiftr avail 32);;
  write_vreg VIRTIO_MMIO_DEVICE_DESC_LOW used;;
  write_vreg VIRTIO_MMIO_DEVICE_DESC_HIGH (Z.shiftr used 32);;
  write_vreg VIRTIO_MMIO_QUEUE_READY 0x1;;
  for_ (seq 0 (Z.to_nat NUM)) (λ i, upd_disk (λ d, set_d_free (<[i := 1]> (d_free d)) d));;
  let status := Z.lor status VIRTIO_CONFIG_S_DRIVER_OK in
  write_vreg VIRTIO_MMIO_STATUS status.
