(* ===== verification/Trap.v ===== *)
(** Traps: kernel/trap.c, kernel/plic.c, and forkret() of kernel/proc.c.

    [k_plic] holds the interrupts the PLIC has pending for the CPU; reading the
    claim register takes the first. *)

From Stdlib Require Import ZArith Lia ZifyBool.
From stdpp Require Import base numbers list gmap strings.
From S2P Require Import Prelude Params Machine Spinlock Printf Sched Priority Kalloc Vm Sleeplock Bio Log Fs ProcTable Console File ProcLife Exec Sysfile Syscall Virtio.

(** ** kernel/plic.c *)

Definition write32 (a v : Z) : K () := modify (λ s, set_mmio (<[a := u32 v]> (k_mmio s)) s).

Definition plicinit : K () :=
  write32 (PLIC + UART0_IRQ * 4) 1;;
  write32 (PLIC + VIRTIO0_IRQ * 4) 1.

Definition plicinithart : K () :=
  hart ← cpuid;
  write32 (PLIC_SENABLE (Z.of_nat hart)) (Z.lor (Z.shiftl 1 UART0_IRQ) (Z.shiftl 1 VIRTIO0_IRQ));;
  write32 (PLIC_SPRIORITY (Z.of_nat hart)) 0.

Definition plic_claim : K Z :=
  q ← gets (λ s, k_plic s);
  match q with
  | [] => mret 0
  | irq :: q => modify (set_plic q);; mret irq
  end.

Definition plic_complete (irq : Z) : K () :=
  hart ← cpuid;
  write32 (PLIC_SCLAIM (Z.of_nat hart)) irq.

(** ** kernel/trap.c *)

Definition SSTATUS_SPP : Z := Z.shiftl 1 8.
Definition SSTATUS_SPIE : Z := Z.shiftl 1 5.

Definition trapinit : K () := initlock L_ticks.

Definition get_cpu : K cpu := gets cur_cpu.
#[global] Hint Transparent get_cpu : kernel.

Definition devintr `{VR : VirtioRegs} : K Z :=
  c ← get_cpu;
  if c_scause c =? 0x8000000000000009 then
    irq ← plic_claim;
    (if irq =? UART0_IRQ then uartintr
     else if irq =? VIRTIO0_IRQ then virtio_disk_intr
     else when (negb (irq =? 0)) (printf (str "unexpected interrupt irq=%d" ++ [10]) [AWord irq]));;
    when (negb (irq =? 0)) (plic_complete irq);;
    mret 1
  else if c_scause c =? 0x8000000000000005 then
    clockintr;;
    mret 2
  else mret 0.

Section trap.
Context {LY : Layout} {W : Wakeups} {BD : BlockDev} {SJ : StackJunk} {VR : VirtioRegs}.

Definition trapinithart : K () := upd_cpu (set_c_stvec kernelvec).

Definition prepare_return : K () :=
  me ← curproc;
  intr_off;;
  upd_cpu (set_c_stvec (u64 (TRAMPOLINE + (uservec - trampoline))));;
  p ← get_proc me;
  c ← get_cpu;
  hart ← cpuid;
  upd_tf (p_trapframe p) (λ tf,
    set_tf_kernel_hartid (Z.of_nat hart) (set_tf_kernel_trap usertrap_addr
      (set_tf_kernel_sp (u64 (p_kstack p + PGSIZE)) (set_tf_kernel_satp (c_satp c) tf))));;
  upd_cpu (λ c, set_c_sstatus (Z.lor (Z.land (c_sstatus c) (Z.lnot SSTATUS_SPP)) SSTATUS_SPIE) c);;
  tf ← get_tf (p_trapframe p);
  upd_cpu (set_c_sepc (tf_epc tf)).

(** A page fault on a lazily allocated page; r_scause() is read again for each
    test, after devintr(). *)
Definition lazy_fault (me : nat) : K bool :=
  c ← get_cpu;
  p ← get_proc me;
  if (c_scause c =? 15) || (c_scause c =? 13) then
    r ← vmfault (p_pagetable p) (c_stval c) (if c_scause c =? 13 then 1 else 0);
    mret (negb (r =? 0))
  else mret false.

(** The dispatch on the cause; the result is which_dev. *)
Definition usertrap_cause (me : nat) : K Z :=
  c ← get_cpu;
  if c_scause c =? 8 then
    k ← killed me;
    when (negb (k =? 0)) (kexit (-1));;
    p ← get_proc me;
    upd_tf (p_trapframe p) (λ tf, set_tf_epc (u64 (tf_epc tf + 4)) tf);;
    intr_on;;
    syscall;;
    mret 0
  else
    which_dev ← devintr;
    if negb (which_dev =? 0) then mret which_dev else
    lazy ← lazy_fault me;
    if lazy : bool then mret 0 else
    c ← get_cpu;
    p ← get_proc me;
    printf (str "usertrap(): unexpected scause 0x%lx pid=%d" ++ [10])
      [AWord (c_scause c); AWord (p_pid p)];;
    printf (str "            sepc=0x%lx stval=0x%lx" ++ [10]) [AWord (c_sepc c); AWord (c_stval c)];;
    setkilled me;;
    mret 0.

(** The result is the satp for the trampoline. *)
Definition usertrap (pol : policy) : K Z :=
  c ← get_cpu;
  if negb (Z.land (c_sstatus c) SSTATUS_SPP =? 0) then panic "usertrap: not from user mode" else
  upd_cpu (set_c_stvec kernelvec);;
  me ← curproc;
  c ← get_cpu;
  p ← get_proc me;
  upd_tf (p_trapframe p) (set_tf_epc (c_sepc c));;
  which_dev ← usertrap_cause me;
  k ← killed me;
  when (negb (k =? 0)) (kexit (-1));;
  when (which_dev =? 2) (match pol with RR => yield | _ => mret tt end);;
  prepare_return;;
  p ← get_proc me;
  mret (MAKE_SATP (p_pagetable p)).

Definition kerneltrap (pol : policy) : K () :=
  c ← get_cpu;
  let sepc := c_sepc c in
  let sstatus := c_sstatus c in
  let scause := c_scause c in
  if Z.land sstatus SSTATUS_SPP =? 0 then panic "kerneltrap: not from supervisor mode" else
  i ← intr_get;
  if i : bool then panic "kerneltrap: interrupts enabled" else
  which_dev ← devintr;
  if which_dev =? 0 then
    c ← get_cpu;
    printf (str "scause=0x%lx sepc=0x%lx stval=0x%lx" ++ [10])
      [AWord scause; AWord (c_sepc c); AWord (c_stval c)];;
    panic "kerneltrap"
  else
  when (which_dev =? 2) (
    me ← myproc;
    match me, pol with
    | Some _, RR => yield
    | _, _ => mret tt
    end);;
  upd_cpu (set_c_sepc sepc);;
  upd_cpu (set_c_sstatus sstatus).

(** ** kernel/proc.c: a new process starts here; the result is the argument of
    userret in the trampoline *)

Definition forkret : K Z :=
  me ← curproc;
  release (L_proc me);;
  first ← gets (λ s, k_first s);
  when first (
    fsinit ROOTDEV;;
    modify (set_first false);;
    r ← kexec (str "/init") [KConst (str "/init")];
    p ← get_proc me;
    upd_tf (p_trapframe p) (set_tf_a0 (u64 r));;
    tf ← get_tf (p_trapframe p);
    if tf_a0 tf =? u64 (-1) then panic "exec" else mret tt);;
  prepare_return;;
  p ← get_proc me;
  mret (MAKE_SATP (p_pagetable p)).
End trap.
