(* ===== verification/Boot.v ===== *)
(** Start-up: kernel/start.c and kernel/main.c. *)

From Stdlib Require Import ZArith Lia ZifyBool.
From stdpp Require Import base numbers list gmap strings.
From S2P Require Import Prelude Params Machine Spinlock Printf Sched Priority Kalloc Vm Sleeplock Bio Log Fs ProcTable Console File ProcLife Virtio Trap.

(** ** kernel/start.c: machine mode, one hart *)

Record mregs := mk_mregs {
  m_mstatus : Z;
  m_mepc : Z;
  m_satp : Z;
  m_medeleg : Z;
  m_mideleg : Z;
  m_sie : Z;
  m_pmpaddr0 : Z;
  m_pmpcfg0 : Z;
  m_mie : Z;
  m_menvcfg : Z;
  m_mcounteren : Z;
  m_stimecmp : Z;
  m_tp : Z;
}.

Definition MSTATUS_MPP_MASK : Z := Z.shiftl 3 11.
Definition MSTATUS_MPP_S : Z := Z.shiftl 1 11.
Definition SIE_SEIE : Z := Z.shiftl 1 9.
Definition SIE_STIE : Z := Z.shiftl 1 5.
Definition MIE_STIE : Z := Z.shiftl 1 5.

Definition timerinit (time : Z) (r : mregs) : mregs :=
  mk_mregs (m_mstatus r) (m_mepc r) (m_satp r) (m_medeleg r) (m_mideleg r) (m_sie r) (m_pmpaddr0 r)
    (m_pmpcfg0 r) (Z.lor (m_mie r) MIE_STIE) (Z.lor (m_menvcfg r) (Z.shiftl 1 63))
    (Z.lor (m_mcounteren r) 2) (u64 (time + 1000000)) (m_tp r).

(** The registers at the [mret] that enters main() in supervisor mode. *)
Definition start (main_addr time mhartid : Z) (r : mregs) : mregs :=
  let r := mk_mregs (Z.lor (Z.land (m_mstatus r) (Z.lnot MSTATUS_MPP_MASK)) MSTATUS_MPP_S)
             main_addr 0 0xffff 0xffff (Z.lor (Z.lor (m_sie r) SIE_SEIE) SIE_STIE)
             0x3fffffffffffff 0xf (m_mie r) (m_menvcfg r) (m_mcounteren r) (m_stimecmp r) (m_tp r) in
  let r := timerinit time r in
  mk_mregs (m_mstatus r) (m_mepc r) (m_satp r) (m_medeleg r) (m_mideleg r) (m_sie r) (m_pmpaddr0 r)
    (m_pmpcfg0 r) (m_mie r) (m_menvcfg r) (m_mcounteren r) (m_stimecmp r) (i32 mhartid).

(** ** kernel/main.c *)

Definition printfinit : K () := initlock L_pr.

Section boot.
Context {LY : Layout} {W : Wakeups} {BD : BlockDev} {VR : VirtioRegs}.

(** main() on hart 0: before binit(), and after it. *)
Definition main_early : K () :=
  consoleinit;;
  printfinit;;
  printf [10] [];;
  printf (str "xv6 kernel is booting" ++ [10]) [];;
  printf [10] [];;
  kinit;;
  kvminit;;
  kvminithart;;
  procinit;;
  trapinit;;
  trapinithart;;
  plicinit;;
  plicinithart.

Definition main_late : K () :=
  iinit;;
  fileinit;;
  virtio_disk_init;;
  userinit;;
  modify (set_started true).

(** main() on the other harts. *)
Definition main_other (id : nat) : K () :=
  started ← gets (λ s, k_started s);
  if negb started then spin else
  printf (str "hart %d starting" ++ [10]) [AWord (Z.of_nat id)];;
  kvminithart;;
  trapinithart;;
  plicinithart.

(** main(), up to the call of scheduler(). *)
Definition main_init : K () :=
  id ← cpuid;
  if (id =? 0)%nat then
    main_early;;
    binit;;
    main_late
  else main_other id.

(** The scheduler never returns; [n] rounds of it. *)
Definition main (n : nat) (pol : policy) : K () :=
  main_init;;
  scheduler n pol.
End boot.
