(* ===== verification/Invariant.v ===== *)
(** One invariant for the whole kernel: every table keeps its size, the pointers
    into the file, inode and buffer tables stay inside them, the buffer cache
    stays a ring in which no block is cached twice, pipes, the console buffer
    and the log never overflow, and the scheduling data stay in range.
    Every entry into the kernel keeps it, whatever the processes that run in
    between do. *)

From Stdlib Require Import ZArith Lia ZifyBool.
From stdpp Require Import base numbers list gmap strings.
From S2P Require Import Prelude Params Machine Spinlock CString Printf Sched Priority Ageing Kalloc Vm Sleeplock Pipe PipeFifo Bio BufCache Log Fs ProcTable Console File ProcLife Exec Sysfile Syscall Virtio Trap Boot.

(** ** The parts *)

(** A null pointer or a pointer into ftable, itable, and the buffers. *)
Definition points_into (n : Z) (o : option nat) : Prop := match o with Some i => (i < Z.to_nat n)%nat | None => True end.
Abbreviation file_ptr := (points_into NFILE).
Abbreviation inode_ptr := (points_into NINODE).
Abbreviation buf_ptr := (points_into NBUF).

Record proc_wf (p : proc) : Prop := {
  pw_sane : sched_sane p;
  pw_ofile : length (p_ofile p) = Z.to_nat NOFILE;
  pw_name : length (p_name p) = 16%nat;
  pw_fds : Forall file_ptr (p_ofile p);
  pw_cwd : inode_ptr (p_cwd p);
}.

Definition file_wf (x : file) : Prop := inode_ptr (f_ip x).

Definition inode_wf (x : inode) : Prop := length (i_addrs x) = Z.to_nat (NDIRECT + 1).
Definition buf_wf (x : buf) : Prop := length (b_data x) = Z.to_nat BSIZE.

Record log_wf (lg : log) : Prop := {
  lw_block : length (lg_block lg) = Z.to_nat LOGBLOCKS;
  lw_n : lg_n lg ≤ LOGBLOCKS;
}.

(** cons.r, cons.w and cons.e run modulo 2^32; at most INPUT_BUF_SIZE bytes are
    in the buffer, and the committed ones come first. *)
Record cons_wf (c : cons) : Prop := {
  cw_buf : length (cons_buf c) = Z.to_nat INPUT_BUF_SIZE;
  cw_r : 0 ≤ cons_r c < 2 ^ 32;
  cw_w : 0 ≤ cons_w c < 2 ^ 32;
  cw_e : 0 ≤ cons_e c < 2 ^ 32;
  cw_full : u32 (cons_e c - cons_r c) ≤ INPUT_BUF_SIZE;
  cw_order : u32 (cons_w c - cons_r c) ≤ u32 (cons_e c - cons_r c);
}.

Record disk_wf (d : disk) : Prop := {
  dw_desc : length (d_desc d) = Z.to_nat NUM;
  dw_avail : length (d_avail_ring d) = Z.to_nat NUM;
  dw_free : length (d_free d) = Z.to_nat NUM;
  dw_info_b : length (d_info_b d) = Z.to_nat NUM;
  dw_status : length (d_info_status d) = Z.to_nat NUM;
  dw_ops : length (d_ops d) = Z.to_nat NUM;
  dw_bufs : Forall buf_ptr (d_info_b d);
}.

(** What holds from the start. *)
Record tables_ok (s : kstate) : Prop := {
  ok_nproc : length (k_proc s) = Z.to_nat NPROC;
  ok_proc : Forall proc_wf (k_proc s);
  ok_pipes : pipes_ok s;
  ok_ninode : length (k_inodes s) = Z.to_nat NINODE;
  ok_inode : Forall inode_wf (k_inodes s);
  ok_nfile : length (k_files s) = Z.to_nat NFILE;
  ok_file : Forall file_wf (k_files s);
  ok_ndev : length (k_devsw s) = Z.to_nat NDEV;
  ok_log : log_wf (k_log s);
  ok_cons : cons_wf (k_cons s);
  ok_disk : disk_wf (k_vdisk s);
  ok_nbuf : length (k_bufs s) = S (Z.to_nat NBUF);
  ok_buf : Forall buf_wf (k_bufs s);
}.

(** [started] is false before binit(), when no buffer is in use. *)
Record kernel_ok (started : bool) (s : kstate) : Prop := {
  ko_tables : tables_ok s;
  ko_cache : started = true → cache_ok (k_bufs s);
  ko_fresh : started = false → ∀ x, b_dev (k_bufs s !!! x) = 0;
}.

(** ** Updates that keep it *)

Section updates.
Context (r : bool).
Implicit Types (s : kstate).

(** Everything the invariant does not look at. *)
Global Instance kernel_ok_lock : LockInsensitive (kernel_ok r).
Proof. split; intros v s [[] Hc Hf]; (split; [split|exact Hc|exact Hf]); assumption. Qed.

Global Instance kernel_ok_mem : MemoryInsensitive (kernel_ok r).
Proof. split; [apply _|..]; intros v s [[] Hc Hf]; (split; [split|exact Hc|exact Hf]); assumption. Qed.

Definition same_tables s t : Prop :=
  k_proc t = k_proc s ∧ k_pipes t = k_pipes s ∧ k_inodes t = k_inodes s ∧ k_files t = k_files s ∧
  k_devsw t = k_devsw s ∧ k_log t = k_log s ∧ k_cons t = k_cons s ∧ k_vdisk t = k_vdisk s ∧ k_bufs t = k_bufs s.

Lemma kernel_ok_same s t : same_tables s t → kernel_ok r s → kernel_ok r t.
Proof.
  intros (E1 & E2 & E3 & E4 & E5 & E6 & E7 & E8 & E9) [[] Hc Hf].
  split; [split|..]; unfold pipes_ok; rewrite ?E1, ?E2, ?E3, ?E4, ?E5, ?E6, ?E7, ?E8, ?E9; assumption.
Qed.

Lemma keep_other f : (∀ s, same_tables s (f s)) → preserves (kernel_ok r) (modify f).
Proof. intros Hf. apply preserves_modify. intros s. by apply kernel_ok_same. Qed.

Lemma keep_proc i f : (∀ p, proc_wf p → proc_wf (f p)) → preserves (kernel_ok r) (upd_proc i f).
Proof.
  intros Hf. apply preserves_modify. intros s [[] Hc Hr]. split; [split|exact Hc|exact Hr]; try assumption.
  - cbn. by rewrite length_alter.
  - cbn. apply Forall_alter; [done|]. intros p ? _. by apply Hf, (Forall_lookup_1 _ _ _ _ ok_proc0 H).
Qed.

Lemma keep_inode i f : (∀ x, inode_wf x → inode_wf (f x)) → preserves (kernel_ok r) (upd_inode i f).
Proof.
  intros Hf. apply preserves_modify. intros s [[] Hc Hr]. split; [split|exact Hc|exact Hr]; try assumption.
  - cbn. by rewrite length_alter.
  - cbn. apply Forall_alter; [done|]. intros p ? _. by apply Hf, (Forall_lookup_1 _ _ _ _ ok_inode0 H).
Qed.

Lemma keep_file i f : (∀ x, file_wf x → file_wf (f x)) → preserves (kernel_ok r) (upd_file i f).
Proof.
  intros Hf. apply preserves_modify. intros s [[] Hc Hr]. split; [split|exact Hc|exact Hr]; try assumption.
  - cbn. by rewrite length_alter.
  - cbn. apply Forall_alter; [done|]. intros p ? _. by apply Hf, (Forall_lookup_1 _ _ _ _ ok_file0 H).
Qed.

Lemma keep_disk f : (∀ d, disk_wf d → disk_wf (f d)) → preserves (kernel_ok r) (upd_disk f).
Proof.
  intros Hf. apply preserves_modify. intros s [[] Hc Hr]. split; [split|exact Hc|exact Hr]; try assumption.
  by apply Hf.
Qed.

Lemma keep_log f : (∀ l, log_wf l → log_wf (f l)) → preserves (kernel_ok r) (upd_log f).
Proof.
  intros Hf. apply preserves_modify. intros s [[] Hc Hr]. split; [split|exact Hc|exact Hr]; try assumption.
  by apply Hf.
Qed.

Lemma keep_cons f s : kernel_ok r s → cons_wf (f (k_cons s)) →
  keeps (kernel_ok r) (λ _, kernel_ok r) (upd_cons f s).
Proof. intros [[] Hc Hr] Hf. split; [split|exact Hc|exact Hr]; assumption. Qed.

Lemma keep_buf i f :
  (∀ x, b_next (f x) = b_next x ∧ b_prev (f x) = b_prev x ∧ b_dev (f x) = b_dev x ∧ b_blockno (f x) = b_blockno x) →
  (∀ x, buf_wf x → buf_wf (f x)) → preserves (kernel_ok r) (upd_buf i f).
Proof.
  intros Hf Hw. apply preserves_modify. intros s [[] Hc Hr]. split; [split|..]; try assumption.
  - cbn. by rewrite length_alter.
  - cbn. apply Forall_alter; [done|]. intros p ? _. by apply Hw, (Forall_lookup_1 _ _ _ _ ok_buf0 H).
  - intros E. by apply cache_ok_alter, Hc.
  - intros E x. cbn. destruct (decide (i < length (k_bufs s))%nat).
    + rewrite lookup_alter_buf by done. case_decide; [|by apply Hr]. destruct (Hf (k_bufs s !!! x)) as (_ & _ & -> & _). by apply Hr.
    + rewrite alter_ge by lia. by apply Hr.
Qed.
End updates.

(** Solve the side conditions of the lemmas above by computation. *)
Ltac wf_proc :=
  intros ? [? ? ? ? ?]; split;
  first [apply buffer_length | assumption | etrans; [apply length_insert|assumption]
        | apply Forall_insert; [assumption|first [assumption | exact Logic.I]] | exact Logic.I].
Ltac wf_file := intros ? ?; first [assumption | exact Logic.I].
Ltac wf_inode := intros ? ?; unfold inode_wf in *; cbn; rewrite ?length_insert; assumption || done.
Ltac wf_disk :=
  intros ? [? ? ? ? ? ? ?]; split; cbn; rewrite ?length_insert, ?length_alter;
  first [assumption | done | apply Forall_insert; [assumption|first [assumption | exact Logic.I]]].
Ltac wf_log := intros ? [? ?]; split; cbn; rewrite ?length_insert; assumption || done.
Ltac wf_same := intros; repeat split.

Global Hint Extern 0 (preserves (kernel_ok _) (upd_proc _ _)) => (apply keep_proc; wf_proc) : kernel.
Global Hint Extern 0 (preserves (kernel_ok _) (upd_inode _ _)) => (apply keep_inode; wf_inode) : kernel.
Global Hint Extern 0 (preserves (kernel_ok _) (upd_disk _)) => (apply keep_disk; wf_disk) : kernel.
Global Hint Extern 0 (preserves (kernel_ok _) (upd_log _)) => (apply keep_log; wf_log) : kernel.
Global Hint Extern 0 (preserves (kernel_ok _) (upd_buf _ _)) => (apply keep_buf; [done|done]) : kernel.
Global Hint Extern 0 (preserves (kernel_ok _) (modify _)) => (apply keep_other; wf_same) : kernel.
Global Hint Extern 0 (preserves (kernel_ok _) (upd_file _ _)) => (apply keep_file; wf_file) : kernel.

(** ** Processes *)

Section processes.
Context (r : bool).
Abbreviation keep := (preserves (kernel_ok r)).

Lemma keep_printf fmt ap : keep (printf fmt ap).
Proof. unfold printf. preserve. Qed.

Lemma keep_initlock l : keep (initlock l).
Proof. unfold initlock. preserve. Qed.

Lemma keep_curproc : keep curproc.
Proof. unfold curproc. preserve. Qed.

Lemma keep_wakeup ch : keep (wakeup ch).
Proof. unfold wakeup, wakeup_step. preserve. Qed.

Hint Resolve keep_printf keep_initlock keep_curproc keep_wakeup : kernel.

Lemma keep_sched : keep sched.
Proof. unfold sched, intr_get. preserve. Qed.
Hint Resolve keep_sched : kernel.

Lemma keep_yield : keep yield.
Proof. unfold yield. preserve. Qed.

Lemma keep_sleep ch lk : keep (sleep ch lk).
Proof. unfold sleep, sleep_steps. cbn [statements]. preserve. Qed.

Lemma keep_kkill pid : keep (kkill pid).
Proof. unfold kkill. preserve. Qed.

Lemma keep_setkilled i : keep (setkilled i).
Proof. unfold setkilled. preserve. Qed.

Lemma keep_killed i : keep (killed i).
Proof. unfold killed. preserve. Qed.
End processes.

Global Hint Resolve keep_printf keep_initlock keep_curproc keep_wakeup keep_sched keep_yield keep_sleep keep_kkill
  keep_setkilled keep_killed : kernel.

Lemma proc_wf_lookup r s i : kernel_ok r s → proc_wf (k_proc s !!! i).
Proof.
  intros [[] _ _]. destruct (k_proc s !! i) as [p|] eqn:E.
  - rewrite (list_lookup_total_correct _ _ _ E). by eapply Forall_lookup_1.
  - rewrite list_lookup_total_alt, E. split; [|done|done|by apply Forall_replicate|done]. cbn.
    unfold sched_sane, MIN_PRIORITY, MAX_PRIORITY, AGING_THRESHOLD. cbn. lia.
Qed.

Global Instance kernel_ok_sched r : SchedInv (kernel_ok r).
Proof.
  split; [apply _|intros s i Hs; apply (proc_wf_lookup r s i Hs)|].
  intros s i f Hs Hf Ho Hd Hn. destruct (proc_wf_lookup r s i Hs) as [_ H1 H2 H3 H4].
  destruct Hs as [[] Hc Hr]. split; [split|exact Hc|exact Hr]; try assumption.
  - cbn. by rewrite length_alter.
  - cbn. apply Forall_alter; [done|]. intros p Hp _. rewrite (list_lookup_total_correct _ _ _ Hp) in *.
    split; [done|by rewrite Ho|by rewrite Hn|by rewrite Ho|by rewrite Hd].
Qed.

Section scheduling.
Context (r : bool).
Abbreviation keep := (preserves (kernel_ok r)).

Lemma keep_clockintr : keep clockintr.
Proof. unfold clockintr, cpuid. preserve. Qed.

Lemma keep_starving i : keep (upd_proc i (set_starving 0)).
Proof. apply keep_proc. intros p [(? & ? & _) ? ? ? ?]. by split. Qed.
Hint Resolve keep_starving : kernel.

Lemma keep_pbs_step acc i : keep (pbs_step acc i).
Proof. destruct acc. unfold pbs_step. preserve. Qed.
Hint Resolve keep_pbs_step : kernel.

Lemma keep_scheduler_round pol : keep (scheduler_round pol).
Proof.
  destruct pol; cbn; unfold rr_round, rr_step, fcfs_round, fcfs_select, fcfs_step, pbs_round, pbs_select, intr_on; preserve.
Qed.
Hint Resolve keep_scheduler_round : kernel.

Lemma keep_scheduler n pol : keep (scheduler n pol).
Proof.
  unfold scheduler. apply preserves_bind; [preserve|intros _].
  induction n as [|n IH]; [apply preserves_no_fuel|]. cbn. by apply preserves_bind; [preserve|].
Qed.

Lemma keep_argraw n : keep (argraw n).
Proof. unfold argraw, get_tf. preserve. Qed.
Hint Resolve keep_argraw : kernel.

Lemma keep_argint n : keep (argint n).
Proof. unfold argint. preserve. Qed.

Lemma keep_argaddr n : keep (argaddr n).
Proof. unfold argaddr. preserve. Qed.
Hint Resolve keep_argint keep_argaddr : kernel.

Lemma keep_sys_setpriority : keep sys_setpriority.
Proof.
  unfold sys_setpriority. apply preserves_bind; [preserve|intros pid].
  apply preserves_bind; [preserve|intros pr].
  destruct (_ || _) eqn:Hr; [preserve|]. preserve. apply keep_proc.
  intros p [(_ & Hw & Hs) ? ? ? ?]. split; [split; [cbn; lia|done]|done..].
Qed.

Lemma keep_sys_getpriority : keep sys_getpriority.
Proof. unfold sys_getpriority. preserve. Qed.

(** ** Sleeping locks *)

Lemma keep_put_sl lk a b : keep (put_sl lk a b).
Proof.
  destruct lk as [i|i].
  - change (put_sl (SL_buf i) a b) with (upd_buf i (set_b_lock (mk_sleeplock a b))). preserve.
  - change (put_sl (SL_inode i) a b) with (upd_inode i (set_i_lock (mk_sleeplock a b))). preserve.
Qed.
Hint Resolve keep_put_sl : kernel.

Lemma keep_initsleeplock lk : keep (initsleeplock lk).
Proof. unfold initsleeplock. preserve. Qed.

Lemma keep_releasesleep lk : keep (releasesleep lk).
Proof. unfold releasesleep. preserve. Qed.

Lemma keep_mypid : keep mypid.
Proof. unfold mypid. preserve. Qed.
Hint Resolve keep_mypid : kernel.

Lemma keep_holdingsleep lk : keep (holdingsleep lk).
Proof. unfold holdingsleep, get_sl. preserve. Qed.

Lemma keep_acquiresleep {W : Wakeups} lk : keep (acquiresleep lk).
Proof. unfold acquiresleep, get_sl. preserve. Qed.

End scheduling.

Global Hint Resolve keep_clockintr keep_scheduler keep_argint keep_argaddr keep_sys_setpriority keep_sys_getpriority
  keep_initsleeplock keep_releasesleep keep_mypid keep_holdingsleep keep_acquiresleep : kernel.

(** ** Pipes *)

Global Instance kernel_ok_pipes r : PipeInv (kernel_ok r).
Proof.
  split; [apply _|intros; preserve..| | |].
  - by intros s [[] _ _].
  - intros s pi p [[] Hc Hf] Hp. split; [split|exact Hc|exact Hf]; try assumption. by apply (pv_put s pi p).
  - intros s pi [[] Hc Hf]. split; [split|exact Hc|exact Hf]; try assumption. by apply (pv_delete s pi).
Qed.

(** ** The buffer cache *)

(** What the file system needs of the disk driver. *)
Class DiskSafe {BD : BlockDev} : Prop :=
  disk_safe b w : (b < Z.to_nat NBUF)%nat → preserves (kernel_ok true) (disk_rw b w).
Global Hint Resolve disk_safe : kernel.

Abbreviation keep := (preserves (kernel_ok true)).

Lemma kernel_ok_bufs s bufs :
  kernel_ok true s → cache_ok bufs → Forall buf_wf bufs → kernel_ok true (set_bufs bufs s).
Proof.
  intros [[] Hc Hf] Hc' Hw. split; [split|done|done]; try assumption. apply Hc'.
Qed.

Lemma buf_wf_lookup r s i : kernel_ok r s → buf_wf (k_bufs s !!! i).
Proof.
  intros [[] _ _]. destruct (k_bufs s !! i) as [p|] eqn:E.
  - rewrite (list_lookup_total_correct _ _ _ E). by eapply Forall_lookup_1.
  - by rewrite list_lookup_total_alt, E.
Qed.

Lemma buf_wf_relinked bufs bufs' : relinked bufs bufs' → Forall buf_wf bufs → Forall buf_wf bufs'.
Proof.
  intros [Hl Hr] Hw. apply Forall_lookup_2. intros j x Hx.
  assert (Hj : (j < length bufs)%nat) by (rewrite <-Hl; by eapply lookup_lt_Some).
  destruct (Hr j) as (n & p & E). rewrite (list_lookup_total_correct _ _ _ Hx) in E. subst x.
  apply (Forall_lookup_1 _ _ _ _ Hw (list_lookup_lookup_total_lt _ _ Hj)).
Qed.

Lemma claim_buf_wf dev blockno order bufs b bufs' :
  claim_buf dev blockno order bufs = Some (b, bufs') → Forall buf_wf bufs → Forall buf_wf bufs'.
Proof.
  unfold claim_buf. intros H Hw. destruct (first_buf _ _ order); [|destruct (first_buf _ _ (reverse order)); [|done]];
    injection H as <- <-; (apply Forall_alter; [done|]); intros x Hx _; exact (Forall_lookup_1 _ _ _ _ Hw Hx).
Qed.

Lemma get_buf_wf r b : returns (kernel_ok r) (get_buf b) buf_wf.
Proof. apply returns_gets. intros s. apply buf_wf_lookup. Qed.

Lemma bget_claim_returns dev blockno :
  returns (kernel_ok true) (bget_claim dev blockno) (λ b, (b < Z.to_nat NBUF)%nat).
Proof.
  apply returns_bind; [preserve|]. intros _ t Ht.
  destruct (cache_ring _ (ko_cache _ _ Ht eq_refl)) as [order HR]. rewrite (bget_scan_run _ _ order t HR).
  destruct (claim_buf dev blockno order (k_bufs t)) as [[b bufs]|] eqn:Ec; [|done].
  destruct (claim_buf_ok _ _ _ _ _ _ (ko_cache _ _ Ht eq_refl) HR Ec) as (Hc & Hb & _).
  assert (Hw : Forall buf_wf bufs) by (eapply claim_buf_wf; [exact Ec|apply Ht]).
  rewrite run_bind. eapply keeps_bind; [apply preserves_release; [apply _|by apply kernel_ok_bufs]|].
  intros [] u Hu. by split.
Qed.

Lemma keep_relink b : (b < Z.to_nat NBUF)%nat →
  keep (x ← get_buf b;
        upd_buf (b_next x) (set_b_prev (b_prev x));;
        x ← get_buf b;
        upd_buf (b_prev x) (set_b_next (b_next x));;
        push_front b).
Proof.
  intros Hb s Hs. unfold get_buf, upd_buf. krun. rewrite push_front_run.
  change (kernel_ok true (set_bufs (link_front b (unlink_buf b (k_bufs s))) s)).
  pose proof (ko_cache _ _ Hs eq_refl) as Hc. apply kernel_ok_bufs; [done|by apply cache_ok_relink|].
  destruct (cache_ring _ Hc) as [order HR]. destruct (ring_facts _ _ HR) as (_ & _ & _ & Hin).
  apply Hin in Hb. apply list_elem_of_split in Hb as (l1 & l2 & Hsp). subst order.
  destruct (relink_ok (k_bufs s) b l1 l2) as [_ Hr]; [apply Hc|done|]. eapply buf_wf_relinked; [exact Hr|apply Hs].
Qed.

Lemma keep_brelse b : (b < Z.to_nat NBUF)%nat → keep (brelse b).
Proof.
  intros Hb. unfold brelse. apply preserves_bind; [preserve|intros h]. apply preserves_if; [preserve|].
  do 3 (apply preserves_bind; [preserve|intros _]). intros s Hs. unfold get_buf. krun.
  destruct (b_refcnt (k_bufs s !!! b) =? 0); cbn [when]; [|krun; by apply preserves_release; [apply _|]].
  rewrite run_bind. eapply keeps_bind; [exact (keep_relink b Hb s Hs)|].
  intros [] t Ht. by apply preserves_release; [apply _|].
Qed.

Lemma keep_bpin b : keep (bpin b).
Proof. unfold bpin. preserve. Qed.

Lemma keep_bunpin b : keep (bunpin b).
Proof. unfold bunpin. preserve. Qed.

Global Hint Resolve get_buf_wf bget_claim_returns : returns.
Global Hint Resolve keep_brelse keep_bpin keep_bunpin : kernel.

(** An update of the data of a buffer. *)
Lemma keep_data r b g :
  (∀ data, length data = Z.to_nat BSIZE → length (g data) = Z.to_nat BSIZE) →
  preserves (kernel_ok r) (upd_buf b (λ x, set_b_data (g (b_data x)) x)).
Proof. intros Hg. apply keep_buf; [done|]. intros x Hx. by apply Hg. Qed.

Lemma keep_put_data r b data :
  length data = Z.to_nat BSIZE → preserves (kernel_ok r) (upd_buf b (set_b_data data)).
Proof. intros Hd. by apply keep_buf. Qed.

Section cache.
Context {W : Wakeups} {BD : BlockDev} {DS : DiskSafe}.

Lemma bread_returns dev blockno :
  returns (kernel_ok true) (bread dev blockno) (λ b, (b < Z.to_nat NBUF)%nat).
Proof.
  unfold bread, bget.
  eapply returns_bind_returns with (Q := λ b, (b < Z.to_nat NBUF)%nat).
  - eapply returns_bind_returns; [apply bget_claim_returns|]. intros b Hb.
    apply returns_bind; [preserve|intros _]. by apply returns_ret.
  - intros b Hb. apply returns_bind; [preserve|intros x]. apply returns_bind; [preserve|intros _]. by apply returns_ret.
Qed.

Lemma keep_bwrite b : (b < Z.to_nat NBUF)%nat → keep (bwrite b).
Proof. intros Hb. unfold bwrite. preserve. Qed.
End cache.

Global Hint Resolve bread_returns : returns.
Global Hint Resolve keep_bwrite : kernel.

(** ** The log *)

Lemma log_slot_bound blocks n blockno : (log_slot blocks n blockno ≤ n)%nat.
Proof.
  revert n. induction blocks as [|b blocks IH]; intros [|n]; cbn; try lia.
  destruct (_ =? _); [lia|]. specialize (IH n). lia.
Qed.

Lemma log_wf_lookup r s : kernel_ok r s → log_wf (k_log s).
Proof. by intros [[] _ _]. Qed.

Lemma kernel_ok_log r s lg : kernel_ok r s → log_wf lg → kernel_ok r (set_log lg s).
Proof. intros [[] Hc Hf] Hl. split; [split|exact Hc|exact Hf]; assumption. Qed.

Lemma keep_log_write b : keep (log_write b).
Proof.
  unfold log_write. apply preserves_bind; [preserve|intros _]. intros s Hs. unfold get_log, get_buf, upd_log. krun.
  destruct (log_wf_lookup _ _ Hs) as [Hl Hn].
  destruct (LOGBLOCKS <=? lg_n (k_log s)) eqn:E1; [exact Logic.I|]. destruct (lg_outstanding (k_log s) <? 1); [exact Logic.I|]. krun.
  set (i := log_slot _ _ _). set (lg := set_lg_block _ (k_log s)).
  assert (Ht : kernel_ok true (set_log lg s)).
  { apply kernel_ok_log; [done|]. split; cbn; [by rewrite length_insert|lia]. }
  destruct (Z.of_nat i =? lg_n (k_log s)) eqn:E2; cbn [when]; [|krun; by apply preserves_release; [apply _|]].
  rewrite run_bind. eapply keeps_bind with (Q := λ _, kernel_ok true).
  - apply (keeps_bind_frames k_log (kernel_ok true) (λ lg, lg_n lg = lg_n (k_log s)));
      [unfold bpin; frame|preserve|done|done|].
    + apply frames_modify. done.
    + intros [] t Hk Hlt. apply kernel_ok_log; [done|]. destruct (log_wf_lookup _ _ Hk) as [H1 _].
      split; cbn; [done|]. change (lg_n (k_log t) = lg_n (k_log s)) in Hlt. rewrite Hlt. rewrite i32_small; unfold LOGBLOCKS, MAXOPBLOCKS in *; lia.
  - intros [] t Hk. by apply preserves_release; [apply _|].
Qed.
Global Hint Resolve keep_log_write : kernel.

Lemma lh_block_returns r i :
  returns (kernel_ok r) (lh_block i) (λ _, (Z.to_nat i < Z.to_nat LOGBLOCKS)%nat).
Proof.
  intros s Hs. unfold lh_block, get_log. krun. destruct (lg_block (k_log s) !! Z.to_nat i) eqn:E; [|done].
  split; [done|]. apply lookup_lt_Some in E. by rewrite (lw_block _ (log_wf_lookup _ _ Hs)) in E.
Qed.
Global Hint Resolve lh_block_returns : returns.

Section log.
Context {W : Wakeups} {BD : BlockDev} {DS : DiskSafe}.

Lemma keep_begin_op : keep begin_op.
Proof. unfold begin_op, begin_op_step, get_log. preserve. Qed.

Lemma keep_install_trans b : keep (install_trans b).
Proof. unfold install_trans, install_trans_step, get_log. preserve. Qed.

(** The loop that copies the header from the disk leaves the array only for
    [undefined]. *)
Lemma read_head_loop fuel b i lg s :
  length (lg_block lg) = Z.to_nat LOGBLOCKS → 0 ≤ i ≤ LOGBLOCKS → kernel_ok true s →
  keeps (kernel_ok true) (λ _, kernel_ok true)
    (loop fuel (λ i,
      lg ← get_log;
      if negb (i <? lg_n lg) then mret (inr tt) else
      x ← get_buf b;
      if LOGBLOCKS <=? i then undefined else
      upd_log (λ lg, set_lg_block (<[Z.to_nat i := i32 (word (b_data x) (Z.to_nat (i + 1)))]> (lg_block lg)) lg);;
      mret (inl (i + 1))) i (set_log lg s)).
Proof.
  revert i lg. induction fuel as [|fuel IH]; intros i lg Hl Hi Hs; [done|]. cbn [loop].
  unfold get_log, get_buf, upd_log. krun. cbn [k_log set_log].
  destruct (i <? lg_n lg) eqn:E1; cbn [negb].
  - krun. destruct (LOGBLOCKS <=? i) eqn:E2; [done|]. krun.
    apply (IH (i + 1) (set_lg_block _ lg)); [cbn; by rewrite length_insert|lia|done].
  - krun. apply kernel_ok_log; [done|]. split; [done|lia].
Qed.

Lemma keep_read_head : keep read_head.
Proof.
  unfold read_head. apply preserves_bind; [preserve|intros lg].
  eapply preserves_bind_returns; [apply bread_returns|intros b Hb].
  intros s Hs. fgo.
  eapply keeps_bind; [apply read_head_loop|]; [|unfold LOGBLOCKS, MAXOPBLOCKS; lia|done|].
  - apply (log_wf_lookup _ _ Hs).
  - intros [] t Ht. by apply keep_brelse.
Qed.

Lemma keep_write_head : keep write_head.
Proof.
  unfold write_head, get_log. preserve; apply keep_data; intros data Hd; rewrite set_word_length; try done;
    rewrite Hd; unfold LOGBLOCKS, MAXOPBLOCKS, BSIZE in *; lia.
Qed.
Hint Resolve keep_begin_op keep_install_trans keep_read_head keep_write_head : kernel.

Lemma keep_recover_from_log : keep recover_from_log.
Proof. unfold recover_from_log. preserve. Qed.

Lemma keep_initlog dev : keep (initlog dev).
Proof. unfold initlog. pose proof keep_recover_from_log. preserve. Qed.

Lemma keep_commit : keep commit.
Proof. unfold commit, write_log, write_log_step, get_log. preserve. Qed.

Lemma keep_end_op : keep end_op.
Proof. unfold end_op, get_log. pose proof keep_commit. preserve. Qed.
End log.

Global Hint Resolve keep_begin_op keep_initlog keep_end_op : kernel.

(** ** Copying *)

Section copying.
Context {LY : Layout} (r : bool).

Lemma keep_user_page pt va : preserves (kernel_ok r) (user_page pt va).
Proof. unfold user_page. preserve. Qed.
Hint Resolve keep_user_page : kernel.

(** copyin() never delivers more bytes than it was asked for. *)
Lemma copyin_returns pt va len :
  returns (kernel_ok r) (copyin pt va len) (λ x, (length x.2 ≤ Z.to_nat len)%nat).
Proof.
  unfold copyin. eapply returns_loop with
    (P := λ '(_, l, dst), (length dst + Z.to_nat l ≤ Z.to_nat len)%nat).
  2:{ cbn. lia. }
  intros [[va' l] dst] Hp. destruct (0 <? l) eqn:El; cbn [negb]; [|apply returns_ret; cbn; lia].
  apply returns_bind; [preserve|intros pa]. destruct (pa =? 0); [apply returns_ret; cbn; lia|].
  set (n := if l <? _ then l else _).
  assert (Hn : 0 ≤ n ≤ l).
  { unfold n. pose proof (PGROUNDDOWN_bound va'). destruct (l <? _) eqn:E; lia. }
  eapply returns_bind_returns with (Q := λ bs, length bs = Z.to_nat n).
  - apply returns_gets. intros s _. unfold bytes_at. by rewrite length_fmap, length_seq.
  - intros bs Hbs. apply returns_ret. rewrite length_app. lia.
Qed.
Hint Resolve copyin_returns : returns.

Lemma either_copyin_returns src len :
  returns (kernel_ok r) (either_copyin src len) (λ x, (length x.2 ≤ Z.to_nat len)%nat).
Proof.
  unfold either_copyin. apply returns_bind; [preserve|intros i]. destruct src as [va|pa|bs].
  - apply returns_bind; [preserve|intros p]. apply copyin_returns.
  - eapply returns_bind_returns with (Q := λ bs, length bs = Z.to_nat len).
    + apply returns_gets. intros s _. unfold bytes_at. by rewrite length_fmap, length_seq.
    + intros bs Hbs. apply returns_ret. cbn. lia.
  - apply returns_ret. cbn. rewrite length_take. lia.
Qed.

Lemma keep_either_copyout dst var src : preserves (kernel_ok r) (either_copyout dst var src).
Proof. unfold either_copyout. preserve. Qed.
End copying.

Global Hint Resolve either_copyin_returns : returns.
Global Hint Resolve keep_either_copyout : kernel.

(** ** The file system *)

Lemma inode_wf_lookup r s i : kernel_ok r s → inode_wf (k_inodes s !!! i).
Proof.
  intros [[] _ _]. destruct (k_inodes s !! i) as [p|] eqn:E.
  - rewrite (list_lookup_total_correct _ _ _ E). by eapply Forall_lookup_1.
  - by rewrite list_lookup_total_alt, E.
Qed.

Lemma get_inode_wf r i : returns (kernel_ok r) (get_inode i) inode_wf.
Proof. apply returns_gets. intros s. apply inode_wf_lookup. Qed.
Global Hint Resolve get_inode_wf : returns.

Lemma fresh_dinode_length type : length (fresh_dinode type) = Z.to_nat sizeof_dinode.
Proof. unfold fresh_dinode. rewrite splice_length; [done|]. rewrite le_bytes_length. by apply Nat.leb_le. Qed.

Lemma keep_bit r b (g : Z → list Z → list Z) bi :
  (∀ data, length (g bi data) = length data) →
  preserves (kernel_ok r) (upd_buf b (λ x, set_b_data (g bi (b_data x)) x)).
Proof. intros Hg. apply (keep_data r b (g bi)). intros data Hd. by rewrite Hg. Qed.

Lemma keep_dinode r b inum bs :
  length bs = Z.to_nat sizeof_dinode →
  preserves (kernel_ok r) (upd_buf b (λ x, set_b_data (splice (dinode_off inum) bs (b_data x)) x)).
Proof.
  intros Hbs. apply (keep_data r b (splice (dinode_off inum) bs)). intros data Hd. pose proof (dinode_off_bound inum).
  rewrite splice_length; [done|]. rewrite Hbs, Hd. lia.
Qed.

Section fs.
Context {LY : Layout} {W : Wakeups} {BD : BlockDev} {DS : DiskSafe}.

Lemma keep_bzero dev bno : keep (bzero dev bno).
Proof. unfold bzero. preserve. Qed.
Hint Resolve keep_bzero : kernel.

Lemma keep_balloc dev : keep (balloc dev).
Proof. unfold balloc. preserve. apply (keep_bit true _ bit_set). intros data. apply length_alter. Qed.

Lemma keep_bfree dev b : keep (bfree dev b).
Proof. unfold bfree. preserve. apply (keep_bit true _ bit_clear). intros data. apply length_alter. Qed.
Hint Resolve keep_balloc keep_bfree : kernel.

(** What iget() gives back is in the table. *)
Lemma iget_scan_bound table i dev inum empty :
  match empty with Some e => (e < i)%nat | None => True end →
  match iget_scan table i dev inum empty with
  | inl k | inr (Some k) => (k < i + length table)%nat
  | inr None => True
  end.
Proof.
  revert i empty. induction table as [|x table IH]; intros i empty He; cbn [iget_scan length].
  - destruct empty; lia.
  - destruct (_ && _); [lia|]. rewrite Nat.add_succ_r, <-Nat.add_succ_l. apply IH.
    destruct (_ && _); [lia|]. destruct empty; lia.
Qed.

Lemma iget_returns dev inum : returns (kernel_ok true) (iget dev inum) (λ i, inode_ptr (Some i)).
Proof.
  unfold iget. apply returns_bind; [preserve|intros _].
  eapply returns_bind_returns with (Q := λ table, length table = Z.to_nat NINODE).
  { apply returns_gets. by intros s [[] _ _]. }
  intros table Hl. pose proof (iget_scan_bound table 0 dev inum None Logic.I) as Hb. rewrite Hl in Hb.
  destruct (iget_scan table 0 dev inum None) as [i|[i|]]; returning.
Qed.

Lemma keep_iget dev inum : keep (iget dev inum).
Proof. unfold iget. preserve. Qed.

Lemma keep_idup ip : keep (idup ip).
Proof. unfold idup. preserve. Qed.

Lemma idup_returns ip : inode_ptr (Some ip) → returns (kernel_ok true) (idup ip) (λ i, inode_ptr (Some i)).
Proof. intros Hi. unfold idup. returning. Qed.

Lemma keep_iunlock ip : keep (iunlock ip).
Proof. unfold iunlock. preserve. Qed.
Hint Resolve keep_iget keep_idup keep_iunlock : kernel.
Hint Resolve iget_returns : returns.

Lemma keep_fresh_dinode b inum type :
  keep (upd_buf b (λ x, set_b_data (splice (dinode_off inum) (fresh_dinode type) (b_data x)) x)).
Proof. apply keep_dinode, fresh_dinode_length. Qed.
Hint Resolve keep_fresh_dinode : kernel.

Lemma ialloc_returns dev type : returns (kernel_ok true) (ialloc dev type) inode_ptr.
Proof.
  unfold ialloc. apply returns_bind; [preserve|intros sb].
  apply returns_loop with (P := λ _, True); [|done]. intros inum _. cbv zeta. returning.
Qed.

Lemma keep_ialloc dev type : keep (ialloc dev type).
Proof. eapply returns_preserves, ialloc_returns. Qed.

Lemma keep_iupdate ip : keep (iupdate ip).
Proof. unfold iupdate. preserve. by apply keep_dinode, dinode_bytes_length. Qed.
Hint Resolve keep_ialloc keep_iupdate : kernel.

Lemma keep_ilock ip : keep (ilock ip).
Proof. unfold ilock. preserve. Qed.

Lemma keep_bmap_indirect dev addr bn : (bn < Z.to_nat NINDIRECT)%nat → keep (bmap_indirect dev addr bn).
Proof.
  intros Hbn. unfold bmap_indirect. preserve. apply (keep_data true _ (set_word bn _)). intros data Hd.
  rewrite set_word_length; [done|]. rewrite Hd. change (Z.to_nat NINDIRECT) with 256%nat in Hbn.
  change (Z.to_nat BSIZE) with 1024%nat. lia.
Qed.

Lemma keep_bmap_direct ip k : keep (bmap_direct ip k).
Proof. unfold bmap_direct. preserve. Qed.
Hint Resolve keep_ilock keep_bmap_direct : kernel.

Lemma keep_bmap ip bn : keep (bmap ip bn).
Proof.
  unfold bmap. apply preserves_if; [preserve|]. destruct (bn - NDIRECT <? NINDIRECT) eqn:E; [|preserve].
  change NINDIRECT with 256 in E. assert (NINDIRECT = 256) by done.
  pose proof (λ dev addr, keep_bmap_indirect dev addr (Z.to_nat (bn - NDIRECT)) ltac:(lia)). preserve.
Qed.

Lemma keep_itrunc ip : keep (itrunc ip).
Proof. unfold itrunc. preserve. Qed.
Hint Resolve keep_bmap keep_itrunc : kernel.

Lemma keep_iput ip : keep (iput ip).
Proof. unfold iput. preserve. Qed.
Hint Resolve keep_iput : kernel.

Lemma keep_iunlockput ip : keep (iunlockput ip).
Proof. unfold iunlockput. preserve. Qed.

Lemma keep_ireclaim dev : keep (ireclaim dev).
Proof. unfold ireclaim. preserve. Qed.

Lemma keep_readsb dev : keep (readsb dev).
Proof. unfold readsb. preserve. Qed.
Hint Resolve keep_iunlockput keep_ireclaim keep_readsb : kernel.

Lemma keep_fsinit dev : keep (fsinit dev).
Proof. unfold fsinit. preserve. Qed.
End fs.

Global Hint Resolve iget_returns idup_returns ialloc_returns : returns.
Global Hint Resolve keep_iget keep_idup keep_iunlock keep_ialloc keep_iupdate keep_ilock keep_bmap keep_itrunc
  keep_iput keep_iunlockput keep_fsinit : kernel.
