(* ===== verification/EntryPoints.v ===== *)
(** The kernel-wide invariant, from reading and writing files up to the entry
    points of the kernel: system calls, traps, the scheduler and start-up. *)

From Stdlib Require Import ZArith Lia ZifyBool Ascii.
From stdpp Require Import base numbers list gmap strings.
From S2P Require Import Prelude Params Machine Spinlock CString Printf Sched Priority Ageing Kalloc Vm Sleeplock Pipe PipeFifo Bio BufCache Log Fs ProcTable Console File ProcLife Exec Sysfile Syscall Virtio Trap Boot Invariant.

(** ** Files and directories *)

Section files.
Context {LY : Layout} {W : Wakeups} {BD : BlockDev} {DS : DiskSafe} {SJ : StackJunk}.

Lemma keep_readi ip dst var off n : keep (readi ip dst var off n).
Proof. unfold readi, readi_step. preserve. Qed.

Lemma rw_len_bound n tot off : rw_len n tot off ≤ BSIZE - off mod BSIZE.
Proof. unfold rw_len. lia. Qed.

Lemma keep_writei_step ip n st : keep (writei_step ip n st).
Proof.
  destruct st as [[tot off] src]. unfold writei_step. preserve.
  apply (keep_data true _ (splice (Z.to_nat (off mod BSIZE)) _)). intros data Hd.
  pose proof (rw_len_bound n tot off). pose proof (Z.mod_pos_bound off BSIZE ltac:(done)).
  rewrite splice_length; [done|]. rewrite Hd. cbn beta in *. lia.
Qed.
Hint Resolve keep_readi keep_writei_step : kernel.

Lemma keep_writei ip src off n : keep (writei ip src off n).
Proof. unfold writei. preserve. Qed.

Lemma keep_read_dirent msg dp off : keep (read_dirent msg dp off).
Proof. unfold read_dirent. preserve. Qed.
Hint Resolve keep_writei keep_read_dirent : kernel.

(** The inodes that directories and paths lead to are in the table. *)
Lemma dirlookup_returns dp name :
  returns (kernel_ok true) (dirlookup dp name) (λ r, inode_ptr (fst <$> r)).
Proof.
  unfold dirlookup. apply returns_bind; [preserve|intros x]. destruct (negb _); [apply returns_panic|].
  apply returns_loop with (P := λ _, True); [|done]. intros off _. returning.
Qed.

Lemma keep_dirlookup dp name : keep (dirlookup dp name).
Proof. eapply returns_preserves, dirlookup_returns. Qed.
Hint Resolve dirlookup_returns : returns.
Hint Resolve keep_dirlookup : kernel.

Lemma keep_dirlink dp name inum : keep (dirlink dp name inum).
Proof. unfold dirlink. preserve. Qed.

Lemma namex_step_returns np ip path name :
  inode_ptr (Some ip) →
  returns (kernel_ok true) (namex_step np (ip, path, name))
    (λ r, match r with inl (i, _, _) => inode_ptr (Some i) | inr (o, _) => inode_ptr o end).
Proof. intros Hi. unfold namex_step. returning. Qed.

Lemma cwd_returns i : returns (kernel_ok true) (get_proc i) (λ p, inode_ptr (p_cwd p)).
Proof. apply returns_gets. intros s Hs. apply (proc_wf_lookup true s i Hs). Qed.

Lemma namex_returns path np name : returns (kernel_ok true) (namex path np name) (λ r, inode_ptr r.1).
Proof.
  unfold namex. eapply returns_bind_returns with (Q := λ i, inode_ptr (Some i)).
  - destruct (bool_decide _); [apply iget_returns|]. apply returns_bind; [preserve|intros i].
    eapply returns_bind_returns; [apply cwd_returns|]. cbn beta. intros p Hp. destruct (p_cwd p); returning.
  - intros ip Hi. apply returns_loop with (P := λ '(i, _, _), inode_ptr (Some i)); [|done].
    intros [[i p] n] Hp. eapply returns_mono; [by apply namex_step_returns|]. intros [[[? ?] ?]|[? ?]]; done.
Qed.

Lemma namei_returns path : returns (kernel_ok true) (namei path) inode_ptr.
Proof. unfold namei. eapply returns_bind_returns; [apply namex_returns|]. intros r Hr. by apply returns_ret. Qed.

Lemma nameiparent_returns path name : returns (kernel_ok true) (nameiparent path name) (λ r, inode_ptr r.1).
Proof. apply namex_returns. Qed.

Lemma keep_namei path : keep (namei path).
Proof. eapply returns_preserves, namei_returns. Qed.

Lemma keep_nameiparent path name : keep (nameiparent path name).
Proof. eapply returns_preserves, nameiparent_returns. Qed.
Hint Resolve keep_dirlink keep_namei keep_nameiparent : kernel.
End files.
Global Hint Resolve dirlookup_returns namei_returns nameiparent_returns : returns.
Global Hint Resolve keep_readi keep_writei keep_read_dirent keep_dirlookup keep_dirlink keep_namei keep_nameiparent : kernel.

(** ** The console *)

(** The arithmetic of the input buffer. *)
Ltac cons_arith :=
  split; cbn; rewrite ?length_insert; try done; try (apply uwrap_bound; lia); unfold u32, uwrap, INPUT_BUF_SIZE in *; dlia.

Lemma cons_back c : cons_wf c → cons_e c ≠ cons_w c → cons_wf (set_cons_e (u32 (cons_e c - 1)) c).
Proof. intros [H1 H2 H3 H4 H5 H6] Hne. cons_arith. Qed.

Lemma cons_put c ch :
  cons_wf c → u32 (cons_e c - cons_r c) < INPUT_BUF_SIZE →
  cons_wf (set_cons_e (u32 (cons_e c + 1)) (set_cons_buf (<[cons_slot (cons_e c) := u8 ch]> (cons_buf c)) c)).
Proof. intros [H1 H2 H3 H4 H5 H6] Hroom. cons_arith. Qed.

Lemma cons_line c : cons_wf c → cons_wf (set_cons_w (cons_e c) c).
Proof. intros [H1 H2 H3 H4 H5 H6]. cons_arith. Qed.

Lemma cons_take c : cons_wf c → cons_r c ≠ cons_w c → cons_wf (set_cons_r (u32 (cons_r c + 1)) c).
Proof. intros [H1 H2 H3 H4 H5 H6] Hne. cons_arith. Qed.

Lemma cons_untake c : cons_wf c → set_cons_r (u32 (u32 (cons_r c + 1) - 1)) (set_cons_r (u32 (cons_r c + 1)) c) = c.
Proof.
  intros [H1 H2 H3 H4 H5 H6]. replace (u32 (u32 (cons_r c + 1) - 1)) with (cons_r c); [done|].
  unfold u32, uwrap. dlia.
Qed.

Lemma cons_wf_lookup r s : kernel_ok r s → cons_wf (k_cons s).
Proof. by intros [[] _ _]. Qed.

Lemma kernel_ok_cons r s c : kernel_ok r s → cons_wf c → kernel_ok r (set_cons c s).
Proof. intros [[] Hc Hf] Hw. split; [split|exact Hc|exact Hf]; assumption. Qed.

Lemma frames_write_thr c : frames k_cons (write_thr c).
Proof. by apply frames_modify. Qed.

Lemma frames_uartputc_sync c : frames k_cons (uartputc_sync c).
Proof.
  unfold uartputc_sync. pose proof frames_write_thr. pose proof (frames_push_off k_cons).
  pose proof (frames_pop_off k_cons). frame.
Qed.

Lemma frames_consputc c : frames k_cons (consputc c).
Proof. unfold consputc. pose proof frames_uartputc_sync. frame. Qed.

Section console.
Context {LY : Layout} {W : Wakeups} (r : bool).
Abbreviation keep := (preserves (kernel_ok r)).

Lemma keep_write_thr c : keep (write_thr c).
Proof. apply preserves_modify. intros s. apply li_out. Qed.
Hint Resolve keep_write_thr : kernel.

Lemma keep_uartputc_sync c : keep (uartputc_sync c).
Proof. unfold uartputc_sync. preserve. Qed.
Hint Resolve keep_uartputc_sync : kernel.

Lemma keep_consputc c : keep (consputc c).
Proof. unfold consputc. preserve. Qed.
Hint Resolve keep_consputc : kernel.

Lemma keep_uartgetc : keep uartgetc.
Proof. unfold uartgetc. preserve. Qed.

Lemma keep_procdump : keep procdump.
Proof. unfold procdump. preserve. Qed.
Hint Resolve keep_uartgetc keep_procdump : kernel.

Lemma keep_kill_step u : keep (kill_step u).
Proof.
  intros s Hs. unfold kill_step, get_cons, upd_cons. krun.
  destruct (negb (cons_e (k_cons s) =? cons_w (k_cons s)) && _) eqn:E; [|done].
  assert (H : keep (consputc Kernel.BACKSPACE;; mret (inl tt) : K (() + ()))) by preserve.
  apply H, kernel_ok_cons; [done|]. apply cons_back; [by eapply cons_wf_lookup|lia].
Qed.
Hint Resolve keep_kill_step : kernel.

(** A character typed at the console. *)
Lemma keep_cons_put c s :
  kernel_ok r s → u32 (cons_e (k_cons s) - cons_r (k_cons s)) < INPUT_BUF_SIZE →
  keeps (kernel_ok r) (λ _, kernel_ok r)
    ((consputc c;;
      upd_cons (λ k, set_cons_e (u32 (cons_e k + 1))
                       (set_cons_buf (<[cons_slot (cons_e k) := u8 c]> (cons_buf k)) k));;
      k ← get_cons;
      when ((c =? 10) || (c =? C "D") || (u32 (cons_e k - cons_r k) =? INPUT_BUF_SIZE)) (
        upd_cons (λ k, set_cons_w (cons_e k) k);;
        wakeup Ch_cons_r)) s).
Proof.
  intros Hs Hroom.
  apply (keeps_bind_frames k_cons (kernel_ok r) (λ k, u32 (cons_e k - cons_r k) < INPUT_BUF_SIZE));
    [apply frames_consputc|preserve|done|done|].
  intros [] t Ht Hr. unfold upd_cons, get_cons. krun.
  assert (Hu : kernel_ok r (set_cons (set_cons_e (u32 (cons_e (k_cons t) + 1))
    (set_cons_buf (<[cons_slot (cons_e (k_cons t)) := u8 c]> (cons_buf (k_cons t))) (k_cons t))) t)).
  { apply kernel_ok_cons; [done|]. apply cons_put; [by eapply cons_wf_lookup|done]. }
  destruct (_ || _); cbn [when]; [|done]. krun. apply keep_wakeup, kernel_ok_cons; [done|].
  apply cons_line. by eapply cons_wf_lookup.
Qed.

Lemma keep_consoleintr c : keep (consoleintr c).
Proof.
  unfold consoleintr. apply preserves_bind; [preserve|intros _]. apply preserves_bind; [|intros _; preserve].
  apply preserves_if; [preserve|]. apply preserves_if; [preserve|]. apply preserves_if; intros s Hs.
  - unfold get_cons. krun. destruct (negb _) eqn:E; cbn [when]; [|done]. unfold upd_cons. krun.
    apply keep_consputc, kernel_ok_cons; [done|]. apply cons_back; [by eapply cons_wf_lookup|lia].
  - unfold get_cons. krun. destruct (negb (c =? 0) && _) eqn:E; cbn [when]; [|done].
    apply keep_cons_put; [done|lia].
Qed.
Hint Resolve keep_consoleintr : kernel.

Lemma keep_uartintr : keep uartintr.
Proof. unfold uartintr. preserve. Qed.

Lemma keep_uartwrite bs : keep (uartwrite bs).
Proof. unfold uartwrite. preserve. Qed.
Hint Resolve keep_uartwrite : kernel.

Lemma keep_consolewrite src n : keep (consolewrite src n).
Proof. unfold consolewrite. preserve. Qed.

(** consoleread() goes on only when there is a committed byte. *)
Lemma consoleread_wait_keeps s :
  kernel_ok r s →
  keeps (kernel_ok r) (λ go t, kernel_ok r t ∧ (go = true → cons_r (k_cons t) ≠ cons_w (k_cons t)))
    (consoleread_wait s).
Proof.
  unfold consoleread_wait. generalize (S wakeups) as n. intros n. revert s.
  induction n as [|n IH]; intros s Hs; [done|]. cbn [loop]. rewrite run_bind.
  eapply keeps_bind with (Q := λ (x : () + bool) t,
    kernel_ok r t ∧ (x = inr true → cons_r (k_cons t) ≠ cons_w (k_cons t))).
  - unfold get_cons. krun.
    destruct (cons_r (k_cons s) =? cons_w (k_cons s)) eqn:E; cbn [negb]; [|krun; split; [done|lia]].
    rewrite run_bind. eapply keeps_bind; [by apply keep_curproc|]. intros i t Ht.
    rewrite run_bind. eapply keeps_bind; [by apply keep_killed|]. intros k u Hu.
    destruct (negb (k =? 0)); rewrite run_bind.
    + eapply keeps_bind; [by apply (preserves_release (kernel_ok r))|]. by intros [] v Hv.
    + eapply keeps_bind; [by apply keep_sleep|]. by intros [] v Hv.
  - intros [[]|go] t [Ht Hg]; [by apply IH|]. split; [done|]. intros ->. by apply Hg.
Qed.

Lemma keep_consoleread_step target st : keep (consoleread_step target st).
Proof.
  destruct st as [dst n]. unfold consoleread_step. apply preserves_if; [preserve|]. intros s Hs.
  rewrite run_bind. eapply keeps_bind; [by apply consoleread_wait_keeps|]. intros go t [Ht Hgo].
  destruct go; cbn [negb]; [|done]. specialize (Hgo eq_refl). pose proof (cons_wf_lookup _ _ Ht) as Hw.
  unfold get_cons, upd_cons. krun.
  set (c := cons_buf (k_cons t) !!! cons_slot (cons_r (k_cons t))).
  set (u := set_cons _ t). assert (Hu : kernel_ok r u) by (by apply kernel_ok_cons, cons_take).
  destruct (c =? C "D").
  - destruct (u32 n <? target); cbn [when]; krun; [|done]. apply (kernel_ok_cons r u); [done|].
    pose proof Hw as Hw'. rewrite <-(cons_untake _ Hw) in Hw'. exact Hw'.
  - rewrite ?run_bind. eapply keeps_bind; [by apply keep_either_copyout|]. intros x v Hv.
    destruct (x.1 =? -1); [done|]. by destruct (c =? 10).
Qed.
Hint Resolve keep_consoleread_step : kernel.

Lemma keep_consoleread dst n : keep (consoleread dst n).
Proof. unfold consoleread. preserve. Qed.
End console.
Global Hint Resolve keep_procdump keep_uartintr keep_consolewrite keep_consoleread : kernel.

(** ** Open files *)

Section open_files.
Context {LY : Layout} {W : Wakeups} {BD : BlockDev} {DS : DiskSafe} {SJ : StackJunk}.

Lemma filealloc_returns : returns (kernel_ok true) filealloc file_ptr.
Proof.
  unfold filealloc. apply returns_bind; [preserve|intros _].
  eapply returns_bind_returns with (Q := file_ptr); [|intros [f|] Hf; returning].
  apply returns_for_find; [|done]. intros f Hf. apply elem_of_seq in Hf.
  assert (file_ptr (Some f)) by (cbn; lia). returning.
Qed.

Lemma keep_filealloc : keep filealloc.
Proof. eapply returns_preserves, filealloc_returns. Qed.

Lemma filedup_returns f : file_ptr (Some f) → returns (kernel_ok true) (filedup f) (λ f, file_ptr (Some f)).
Proof. intros Hf. unfold filedup. returning. Qed.

Lemma keep_filedup f : keep (filedup f).
Proof. unfold filedup. preserve. Qed.
Hint Resolve filealloc_returns filedup_returns : returns.

Lemma keep_file_unref f : keep (file_unref f).
Proof. unfold file_unref. preserve. Qed.

Lemma keep_iput_ptr ip : keep (iput_ptr ip).
Proof. unfold iput_ptr. preserve. Qed.
Hint Resolve keep_filealloc keep_filedup keep_file_unref keep_iput_ptr : kernel.

Lemma keep_fileclose f : keep (fileclose f).
Proof. unfold fileclose. preserve. Qed.
Hint Resolve keep_fileclose : kernel.

Lemma keep_filestat f addr : keep (filestat f addr).
Proof. unfold filestat. preserve. Qed.

Lemma keep_dev_entry major : keep (dev_entry major).
Proof. unfold dev_entry. preserve. Qed.
Hint Resolve keep_dev_entry : kernel.

Lemma keep_fileread f addr n : keep (fileread f addr n).
Proof. unfold fileread, get_file. preserve. Qed.

Lemma keep_filewrite_step f ip addr n i : keep (filewrite_step f ip addr n i).
Proof. unfold filewrite_step, get_file. preserve. Qed.
Hint Resolve keep_filewrite_step : kernel.

Lemma keep_filewrite f addr n : keep (filewrite f addr n).
Proof. unfold filewrite, get_file. preserve. Qed.

Lemma keep_new_pipe pi :
  keep (modify (λ s, set_pipes (<[pi := mk_pipe (replicate (Z.to_nat PIPESIZE) 5) 0 0 1 1]> (k_pipes s)) s)).
Proof. apply preserves_modify. intros s Hs. apply (pv_put s pi); [done|]. by split; vm_compute. Qed.
Hint Resolve keep_new_pipe : kernel.

Lemma pipealloc_returns :
  returns (kernel_ok true) pipealloc
    (λ r, match r with Some (a, b) => file_ptr (Some a) ∧ file_ptr (Some b) | None => True end).
Proof.
  unfold pipealloc. cbv zeta. eapply returns_bind_returns; [apply filealloc_returns|]. intros [a|] Ha; [|returning].
  eapply returns_bind_returns; [apply filealloc_returns|]. intros [b|] Hb; [|returning].
  pose proof (conj Ha Hb). returning.
Qed.

Lemma keep_pipealloc : keep pipealloc.
Proof. eapply returns_preserves, pipealloc_returns. Qed.
End open_files.
Global Hint Resolve filealloc_returns filedup_returns : returns.

Global Hint Resolve keep_filealloc keep_filedup keep_iput_ptr keep_fileclose keep_filestat keep_fileread keep_filewrite
  keep_pipealloc : kernel.

(** ** Processes, from creation to exit *)

Section life.
Context {LY : Layout} {W : Wakeups} {BD : BlockDev} {DS : DiskSafe} {SJ : StackJunk}.

Lemma keep_upd_tf a f : keep (upd_tf a f).
Proof. unfold upd_tf. preserve. Qed.

Lemma keep_get_tf a : keep (get_tf a).
Proof. unfold get_tf. preserve. Qed.

Lemma keep_allocpid : keep allocpid.
Proof. unfold allocpid. preserve. Qed.

Lemma keep_proc_pagetable i : keep (proc_pagetable i).
Proof. unfold proc_pagetable. preserve. Qed.

Lemma keep_proc_freepagetable pt sz : keep (proc_freepagetable pt sz).
Proof. unfold proc_freepagetable. preserve. Qed.
Hint Resolve keep_upd_tf keep_get_tf keep_allocpid keep_proc_pagetable keep_proc_freepagetable : kernel.

Lemma keep_freeproc i : keep (freeproc i).
Proof. unfold freeproc. preserve. Qed.

Lemma keep_init_sched_fields i ticks : keep (upd_proc i (init_sched_fields ticks)).
Proof.
  apply keep_proc. intros p [_ ? ? ? ?]. split; [|done..].
  unfold sched_sane, init_sched_fields, MIN_PRIORITY, MAX_PRIORITY, AGING_THRESHOLD, DEFAULT_PRIORITY. cbn. lia.
Qed.
Hint Resolve keep_freeproc keep_init_sched_fields : kernel.

Lemma keep_allocproc : keep allocproc.
Proof. unfold allocproc, alloc_slot. preserve. Qed.

Lemma keep_growproc n : keep (growproc n).
Proof. unfold growproc. preserve. Qed.

Lemma keep_reparent i : keep (reparent i).
Proof. unfold reparent. preserve. Qed.
Hint Resolve keep_allocproc keep_growproc keep_reparent : kernel.

Lemma keep_userinit : keep userinit.
Proof. unfold userinit. preserve. Qed.

Lemma ofile_ptr p fd : proc_wf p → file_ptr (p_ofile p !!! fd).
Proof.
  intros [_ _ _ Hf _]. destruct (p_ofile p !! fd) as [o|] eqn:E.
  - rewrite (list_lookup_total_correct _ _ _ E). exact (Forall_lookup_1 _ _ _ _ Hf E).
  - by rewrite list_lookup_total_alt, E.
Qed.

Lemma get_proc_returns i : returns (kernel_ok true) (get_proc i) proc_wf.
Proof. apply returns_gets. intros s Hs. by eapply proc_wf_lookup. Qed.

(** The child's descriptors and working directory are copies of its parent's. *)
Lemma keep_kfork_ofile me np fd :
  keep (p ← get_proc me;
        match p_ofile p !!! fd with
        | None => mret tt
        | Some f => f ← filedup f; upd_proc np (λ c, set_ofile (<[fd := Some f]> (p_ofile c)) c)
        end).
Proof.
  eapply preserves_bind_returns; [apply get_proc_returns|]. intros p Hp. pose proof (ofile_ptr p fd Hp). preserve.
Qed.
Hint Resolve keep_kfork_ofile : kernel.

Lemma keep_kfork : keep kfork.
Proof.
  unfold kfork. apply preserves_bind; [preserve|intros me]. apply preserves_bind; [preserve|intros [np|]]; [|preserve].
  eapply preserves_bind_returns; [apply get_proc_returns|]. intros p Hp. pose proof (pw_cwd p Hp). preserve.
Qed.

Lemma keep_kexit {A} status : keep (kexit status : K A).
Proof. unfold kexit. preserve. Qed.

Lemma keep_kwait_scan me addr : keep (kwait_scan me addr).
Proof. unfold kwait_scan. preserve. Qed.
Hint Resolve keep_kwait_scan : kernel.

Lemma keep_kwait addr : keep (kwait addr).
Proof. unfold kwait. preserve. Qed.

(** ** Exec *)

Lemma keep_loadseg pt va ip off sz : keep (loadseg pt va ip off sz).
Proof. unfold loadseg. preserve. Qed.
Hint Resolve keep_loadseg : kernel.

Lemma keep_load_step ip pt n st : keep (load_step ip pt n st).
Proof. destruct st as [[i off] sz]. unfold load_step. cbv zeta. preserve. Qed.

Lemma keep_push_args pt base argv sp ustack : keep (push_args pt base argv sp ustack).
Proof. revert sp ustack. induction argv as [|a argv IH]; intros sp ustack; cbn [push_args]; cbv zeta; preserve. Qed.

Lemma keep_kexec_bad pt sz ip : keep (kexec_bad pt sz ip).
Proof. unfold kexec_bad. preserve. Qed.

Lemma keep_kexec_commit path pt sz sp entry argc oldsz : keep (kexec_commit path pt sz sp entry argc oldsz).
Proof. unfold kexec_commit. preserve. Qed.
Hint Resolve keep_load_step keep_push_args keep_kexec_bad keep_kexec_commit : kernel.

Lemma keep_kexec_stack path argv pt sz entry : keep (kexec_stack path argv pt sz entry).
Proof. unfold kexec_stack. cbv zeta. preserve. Qed.
Hint Resolve keep_kexec_stack : kernel.

Lemma keep_kexec path argv : keep (kexec path argv).
Proof. unfold kexec. cbv zeta. preserve. Qed.
End life.

Global Hint Resolve get_proc_returns : returns.
Global Hint Resolve keep_upd_tf keep_get_tf keep_growproc keep_userinit keep_kfork keep_kexit keep_kwait keep_kexec : kernel.

(** ** System calls *)

Section syscalls.
Context {LY : Layout} {W : Wakeups} {BD : BlockDev} {DS : DiskSafe} {SJ : StackJunk}.

Lemma keep_fdalloc f : file_ptr (Some f) → keep (fdalloc f).
Proof. intros Hf. unfold fdalloc. preserve. Qed.

Lemma ofile_at_returns p fd : proc_wf p → returns (kernel_ok true) (ofile_at p fd) file_ptr.
Proof.
  intros [_ _ _ Hf _]. unfold ofile_at. destruct (fd <? 0); [apply returns_panic|].
  destruct (p_ofile p !! Z.to_nat fd) as [f|] eqn:E; [|apply returns_panic].
  apply returns_ret. exact (Forall_lookup_1 _ _ _ _ Hf E).
Qed.
Hint Resolve ofile_at_returns : returns.

Lemma argfd_returns n : returns (kernel_ok true) (argfd n) (λ r, file_ptr (snd <$> r)).
Proof.
  unfold argfd. returning. apply returns_ret. by lazymatch goal with o : option nat |- _ => destruct o end.
Qed.
Hint Resolve argfd_returns : returns.

Lemma keep_argfd n : keep (argfd n).
Proof. eapply returns_preserves, argfd_returns. Qed.

Lemma keep_fetchaddr addr : keep (fetchaddr addr).
Proof. unfold fetchaddr. preserve. Qed.

Lemma keep_fetchstr addr max : keep (fetchstr addr max).
Proof. unfold fetchstr. preserve. Qed.
Hint Resolve keep_fdalloc keep_argfd keep_fetchaddr keep_fetchstr : kernel.

Lemma keep_argstr n max : keep (argstr n max).
Proof. unfold argstr. preserve. Qed.

Lemma keep_isdirempty dp : keep (isdirempty dp).
Proof. unfold isdirempty. preserve. Qed.
Hint Resolve keep_argstr keep_isdirempty : kernel.

Lemma keep_unlink_entry dp name : keep (unlink_entry dp name).
Proof. unfold unlink_entry. cbv zeta. preserve. Qed.

Lemma create_new_returns dp name type major minor :
  returns (kernel_ok true) (create_new dp name type major minor) inode_ptr.
Proof. unfold create_new. returning. Qed.
Hint Resolve create_new_returns : returns.
Hint Resolve keep_unlink_entry : kernel.

Lemma create_returns path type major minor : returns (kernel_ok true) (create path type major minor) inode_ptr.
Proof. unfold create. returning. Qed.
Hint Resolve create_returns : returns.

Lemma keep_create path type major minor : keep (create path type major minor).
Proof. eapply returns_preserves, create_returns. Qed.

Lemma keep_open_inode ip omode : inode_ptr (Some ip) → keep (open_inode ip omode).
Proof. intros Hi. unfold open_inode. cbv zeta. preserve. Qed.
Hint Resolve keep_create keep_open_inode : kernel.

Lemma keep_create_and_put path type major minor : keep (create_and_put path type major minor).
Proof. unfold create_and_put. preserve. Qed.

Lemma keep_fetch_argv uargv : keep (fetch_argv uargv).
Proof. unfold fetch_argv. cbv zeta. preserve. Qed.
Hint Resolve keep_create_and_put keep_fetch_argv : kernel.

Lemma keep_sys_link : keep sys_link.
Proof. unfold sys_link. cbv zeta. preserve. Qed.

Lemma keep_sys_pipe : keep sys_pipe.
Proof.
  unfold sys_pipe. cbv zeta. do 2 (apply preserves_bind; [preserve|intros ?]).
  eapply preserves_bind_returns; [apply pipealloc_returns|]. intros [[rf wf]|]; [intros [Hr Hw]|intros _]; preserve.
Qed.
Hint Resolve keep_sys_link keep_sys_pipe : kernel.

Lemma chdir_path_returns path :
  returns (kernel_ok true) (match path with None => mret None | Some path => namei path end) inode_ptr.
Proof. returning. Qed.
Hint Resolve chdir_path_returns : returns.

(** Every entry of the system-call table. *)
Lemma designated_Forall {A} (P : option A → Prop) (l : list (Z * A)) :
  P None → Forall (λ e, P (Some e.2)) l → Forall P (designated l).
Proof.
  intros HN Hl. unfold designated. set (a := replicate _ _). assert (Ha : Forall P a) by by apply Forall_replicate.
  clearbody a. revert a Ha. induction Hl as [|e l He Hl IH]; intros a Ha; cbn; [done|]. by apply IH, Forall_insert.
Qed.

Lemma keep_syscalls : Forall (λ o, match o with Some f => keep f | None => True end) syscalls.
Proof.
  apply designated_Forall; [done|]. unfold syscalls, sys_fork, sys_exit, sys_wait, sys_read, sys_kill, sys_exec, sys_fstat, sys_chdir, sys_dup,
    sys_getpid, sys_sbrk, sys_pause, pause_step, sys_uptime, sys_open, sys_write, sys_mknod, sys_unlink, sys_mkdir,
    sys_close, sys_hello, sys_kalloc1, sys_psx, sys_ps.
  repeat apply Forall_cons_2; [cbn [snd]; cbv zeta; preserve..|apply Forall_nil_2].
Qed.

(** find_syscall() only looks at the table. *)
Lemma find_syscall_returns num :
  returns (kernel_ok true) (find_syscall num) (λ o, match o with Some f => keep f | None => True end).
Proof.
  intros s Hs. unfold find_syscall, syscalls_at. destruct (_ && _); [|done]. destruct (_ && _) eqn:E; [|done]. split; [done|].
  apply (Forall_lookup_1 _ _ (Z.to_nat num) _ keep_syscalls), list_lookup_lookup_total_lt. lia.
Qed.

Lemma keep_syscall : keep syscall.
Proof.
  unfold syscall. do 3 (apply preserves_bind; [preserve|intros ?]). cbv zeta.
  eapply preserves_bind_returns; [apply find_syscall_returns|]. intros [f|] Hf; preserve.
Qed.
End syscalls.
Global Hint Resolve keep_syscall : kernel.

(** ** The disk driver *)

Section driver.
Context (r : bool).
Abbreviation keep := (preserves (kernel_ok r)).

Lemma keep_upd_desc i f : keep (upd_desc i f).
Proof. unfold upd_desc. preserve. Qed.

Lemma keep_alloc_desc : keep alloc_desc.
Proof. unfold alloc_desc. preserve. Qed.
Hint Resolve keep_upd_desc keep_alloc_desc : kernel.

Lemma keep_free_desc i : keep (free_desc i).
Proof. unfold free_desc. preserve. Qed.
Hint Resolve keep_free_desc : kernel.

Lemma keep_free_chain i : keep (free_chain i).
Proof. unfold free_chain. cbv zeta. preserve. Qed.

Lemma keep_alloc3_desc : keep alloc3_desc.
Proof. unfold alloc3_desc. preserve. Qed.

Lemma keep_write_vreg a v : keep (write_vreg a v).
Proof. unfold write_vreg. preserve. Qed.
Hint Resolve keep_free_chain keep_alloc3_desc keep_write_vreg : kernel.

Lemma keep_virtio_disk_rw {W : Wakeups} b w : buf_ptr (Some b) → keep (virtio_disk_rw b w).
Proof. intros Hb. unfold virtio_disk_rw, format_request, submit_request. cbv zeta. preserve. Qed.

Lemma keep_virtio_disk_intr `{VR : VirtioRegs} : keep virtio_disk_intr.
Proof. unfold virtio_disk_intr, disk_intr_step. cbv zeta. preserve. Qed.

Lemma keep_virtio_disk_init `{VR : VirtioRegs} : keep virtio_disk_init.
Proof. unfold virtio_disk_init. cbv zeta. preserve. Qed.
End driver.
Global Hint Resolve keep_virtio_disk_intr keep_virtio_disk_init : kernel.

(** The driver is what the buffer cache needs. *)
Global Instance virtio_safe {W : Wakeups} : DiskSafe (BD := virtio_blockdev).
Proof. intros b w Hb. by apply keep_virtio_disk_rw. Qed.

(** ** Traps *)

Section traps.
Context {LY : Layout} {W : Wakeups} {BD : BlockDev} {DS : DiskSafe} {SJ : StackJunk} {VR : VirtioRegs}.

Lemma keep_write32 r a v : preserves (kernel_ok r) (write32 a v).
Proof. unfold write32. preserve. Qed.
Hint Resolve keep_write32 : kernel.

Lemma keep_devintr : keep devintr.
Proof. unfold devintr, plic_claim, plic_complete. preserve. Qed.
Hint Resolve keep_devintr : kernel.

Lemma keep_prepare_return : keep prepare_return.
Proof. unfold prepare_return. preserve. Qed.

Lemma keep_usertrap_cause me : keep (usertrap_cause me).
Proof. unfold usertrap_cause, lazy_fault. preserve. Qed.
Hint Resolve keep_prepare_return keep_usertrap_cause : kernel.

Lemma keep_usertrap pol : keep (usertrap pol).
Proof. unfold usertrap. preserve. Qed.

Lemma keep_kerneltrap pol : keep (kerneltrap pol).
Proof. unfold kerneltrap. cbv zeta. preserve. Qed.

Lemma keep_forkret : keep forkret.
Proof. unfold forkret. preserve. Qed.
End traps.

(** ** Start-up *)

Section boot.
Context {LY : Layout} {W : Wakeups} {BD : BlockDev} {DS : DiskSafe} {VR : VirtioRegs}.

Lemma boot_state_ok : kernel_ok false boot_state.
Proof.
  split; [split|done|].
  - done.
  - apply Forall_replicate. split; [|done|done|by apply Forall_replicate|done]. unfold sched_sane, MIN_PRIORITY, MAX_PRIORITY, AGING_THRESHOLD. cbn. lia.
  - intros pi p. cbn. by rewrite lookup_empty.
  - done.
  - by apply Forall_replicate.
  - done.
  - by apply Forall_replicate.
  - done.
  - done.
  - done.
  - split; [done..|]. by apply Forall_replicate.
  - done.
  - by apply Forall_replicate.
  - intros _ x. cbn. destruct (decide (x < Z.to_nat (NBUF + 1))%nat).
    + by rewrite lookup_total_replicate_2.
    + by rewrite list_lookup_total_alt, lookup_ge_None_2 by (rewrite length_replicate; lia).
Qed.

Lemma keep_devsw r f : preserves (kernel_ok r) (modify (λ s, set_devsw (<[Z.to_nat CONSOLE := f]> (k_devsw s)) s)).
Proof.
  apply preserves_modify. intros s [[] Hc Hf]. split; [split|exact Hc|exact Hf]; try assumption.
  cbn. by rewrite length_insert.
Qed.
Hint Resolve keep_devsw : kernel.

Lemma keep_main_early : preserves (kernel_ok false) main_early.
Proof.
  unfold main_early, consoleinit, uartinit, WriteReg, printfinit, kinit, freerange, kvminit, kvmmake, proc_mapstacks, kvmmap,
    kvminithart, procinit, trapinit, trapinithart, plicinit, plicinithart, write32. preserve.
Qed.

Lemma keep_main_late : keep main_late.
Proof. unfold main_late, iinit, fileinit. preserve. Qed.

Lemma keep_main_other id : keep (main_other id).
Proof. unfold main_other, kvminithart, trapinithart, plicinithart, write32. preserve. Qed.

Lemma binit_starts s : kernel_ok false s → ∃ t, binit s = Ok tt t ∧ kernel_ok true t.
Proof.
  intros Hs. destruct Hs as [HT Hc Hf] eqn:E. clear E.
  destruct (binit_ok s) as (l & bufs & E & Hok & Hz); [apply HT|by apply Hf|].
  exists (set_bufs bufs (set_locks l s)). split; [done|]. clear E. destruct HT. split; [split|done|done]; try assumption.
  - apply Hok.
  - apply Forall_lookup_2. intros i x Hx. specialize (Hz i). unfold contents in Hz. cbn in Hx.
    rewrite (list_lookup_total_correct _ _ _ Hx) in Hz. injection Hz as _ _ _ _ Hz. unfold buf_wf. rewrite Hz.
    exact (buf_wf_lookup false s i Hs).
Qed.
End boot.

(** ** Claims *)

Section claims.
Context {LY : Layout} {W : Wakeups} {SJ : StackJunk} {VR : VirtioRegs}.

(** C24: The kernel's data structures stay well formed. The zeroed tables
    satisfy the invariant without its cache part; main() keeps that up to
    binit(), which returns and establishes the rest; from then on every entry
    into the kernel keeps the whole invariant: the rest of main() on every hart,
    the scheduler under every policy, traps from user and kernel mode with all
    system calls, interrupts and page faults behind them, and the first return
    of a new process, with the virtio driver as the disk. The invariant: every
    table and every array inside its entries keeps its declared size; every
    open file of a process, every working directory, every inode of an open
    file and every buffer the disk works on is null or an entry of its table
    (whether that entry is referenced is not part of it); the buffer list is a
    doubly linked ring through all NBUF buffers in which no block is cached
    twice; every pipe and the console buffer hold at most their capacity modulo
    2^32; the in-memory log header never exceeds LOGBLOCKS; and the scheduling
    data of every process stay in range. It holds at every point where code
    returns, busy-waits or gives up the CPU, whatever invariant-keeping code
    runs in between. *)
Theorem kernel_stays_well_formed :
  kernel_ok false boot_state ∧
  preserves (kernel_ok false) main_early ∧
  (∀ s, kernel_ok false s → ∃ t, binit s = Ok tt t ∧ kernel_ok true t) ∧
  keep main_late ∧
  (∀ id, keep (main_other id)) ∧
  (∀ n pol, keep (scheduler n pol)) ∧
  (∀ pol, keep (usertrap pol)) ∧
  (∀ pol, keep (kerneltrap pol)) ∧
  keep forkret.
Proof.
  split_and!; intros.
  - apply boot_state_ok.
  - apply keep_main_early.
  - by apply binit_starts.
  - apply keep_main_late.
  - apply keep_main_other.
  - apply keep_scheduler.
  - apply keep_usertrap.
  - apply keep_kerneltrap.
  - apply keep_forkret.
Qed.
End claims.
