(* ===== verification/User.v ===== *)
(** User programs: the system calls of user/user.h as a user program sees them,
    the library user/ulib.c and the output functions of user/printf.c.

    A program is a tree of system calls: each call waits for the reply of the
    kernel, which is the value returned in a0 and the bytes the kernel stored
    through the pointer the call passes; an exec() that is replied to has failed.
    [exec] runs a program against any kernel that is given as a function of its own
    state. *)

From Stdlib Require Import ZArith Lia ZifyBool Ascii.
From stdpp Require Import base numbers list strings.
From S2P Require Import Prelude Params CString Printf.

(** ** System calls *)

(** The system calls; a string is its bytes without the NUL.  [Cwait] says
    whether the pointer is not 0. *)
Inductive call :=
  | Cfork
  | Cwait (status : bool)
  | Cpipe
  | Cwrite (fd : Z) (bs : list Z)
  | Cread (fd n : Z)
  | Cclose (fd : Z)
  | Ckill (pid : Z)
  | Cexec (path : list Z) (argv : list (list Z))
  | Copen (path : list Z) (omode : Z)
  | Cmknod (path : list Z) (major minor : Z)
  | Cunlink (path : list Z)
  | Cfstat (fd : Z)
  | Clink (old new : list Z)
  | Cmkdir (path : list Z)
  | Cchdir (path : list Z)
  | Cdup (fd : Z)
  | Cgetpid
  | Csbrk (n t : Z)
  | Cpause (n : Z)
  | Cuptime
  | Chello
  | Ckalloc1
  | Cpsx
  | Cps
  | Csetpriority (pid prio : Z)
  | Cgetpriority (pid : Z).

Record reply := Reply { ret : Z; stored : list Z }.

(** A program: it returns, leaves through exit(), makes a call, has behaviour
    that C leaves undefined, or has used up the iterations given to a loop. *)
Inductive prog (A : Type) : Type :=
  | Return (a : A)
  | Exit (status : Z)
  | Sys (c : call) (k : reply → prog A)
  | Undef
  | OutOfFuel.
Arguments Return {A} a.
Arguments Exit {A} status.
Arguments Sys {A} c k.
Arguments Undef {A}.
Arguments OutOfFuel {A}.

Fixpoint pbind {A B} (f : A → prog B) (p : prog A) : prog B :=
  match p with
  | Return a => f a
  | Exit st => Exit st
  | Sys c k => Sys c (λ r, pbind f (k r))
  | Undef => Undef
  | OutOfFuel => OutOfFuel
  end.

Global Instance prog_ret : MRet prog := @Return.
Global Instance prog_bind : MBind prog := @pbind.

Definition sys (c : call) : prog Z := Sys c (λ r, Return (ret r)).
Definition sys_mem (c : call) : prog (Z * list Z) := Sys c (λ r, Return (ret r, stored r)).
Definition whenp (b : bool) (p : prog ()) : prog () := if b then p else Return tt.

(** A loop whose body returns [inl] of the next loop state or [inr] of the
    result, run for at most [n] iterations; a counted loop; and a counted loop
    that break leaves. *)
Fixpoint ploop {T R} (n : nat) (body : T → prog (T + R)) (t : T) : prog R :=
  match n with
  | O => OutOfFuel
  | S n => r ← body t; match r with inl t' => ploop n body t' | inr r => Return r end
  end.

Fixpoint pfor {A} (l : list A) (body : A → prog ()) : prog () :=
  match l with
  | [] => Return tt
  | x :: l => body x;; pfor l body
  end.

Fixpoint pfor_break {A} (l : list A) (body : A → prog bool) : prog () :=
  match l with
  | [] => Return tt
  | x :: l => b ← body x; if b : bool then Return tt else pfor_break l body
  end.

(** ** Running a program against a kernel *)

Inductive result (A : Type) : Type :=
  | Returned (a : A)
  | Exited (status : Z)
  | Undefined
  | NoResult.
Arguments Returned {A} a.
Arguments Exited {A} status.
Arguments Undefined {A}.
Arguments NoResult {A}.

Fixpoint exec {W A} (h : W → call → W * reply) (p : prog A) (w : W) : W * result A :=
  match p with
  | Return a => (w, Returned a)
  | Exit st => (w, Exited st)
  | Sys c k => let '(w, r) := h w c in exec h (k r) w
  | Undef => (w, Undefined)
  | OutOfFuel => (w, NoResult)
  end.

(** Whatever the kernel replies, the program stays within defined behaviour and
    its loops end; if it returns, its result satisfies [Q]. *)
Fixpoint total {A} (Q : A → Prop) (p : prog A) : Prop :=
  match p with
  | Return a => Q a
  | Exit _ => True
  | Sys _ k => ∀ r, total Q (k r)
  | Undef | OutOfFuel => False
  end.

(** ** user/ulib.c *)

Module Ulib.

(** The string that starts at a byte of a buffer: the bytes before the first NUL. *)
Fixpoint cstring (l : list Z) : list Z :=
  match l with
  | [] => []
  | c :: l => if c =? 0 then [] else c :: cstring l
  end.

(** start(): main's return value is the exit status. *)
Definition start (main : prog Z) : prog () := r ← main; Exit r.

(** while(( *s++ = *t++ ) != 0) ; on a view of the destination, from byte [i] on. *)
Fixpoint strcpy_go (t : list Z) (s : Z → Z) (i : Z) : Z → Z :=
  match t with
  | [] => upd s i 0
  | c :: t => let s := upd s i c in if c =? 0 then s else strcpy_go t s (i + 1)
  end.
Definition strcpy (s : Z → Z) (t : list Z) : Z → Z := strcpy_go t s 0.

Fixpoint strcmp (p q : list Z) : Z :=
  match p, q with
  | c :: p', d :: q' => if c =? d then strcmp p' q' else u8 c - u8 d
  | _, _ => u8 (hd 0 p) - u8 (hd 0 q)
  end.

Definition strlen (s : list Z) : Z := u32 (i32 (Z.of_nat (length s))).

(** strchr(): the rest of the string from the byte found on. *)
Fixpoint strchr (s : list Z) (c : Z) : option (list Z) :=
  match s with
  | [] => None
  | d :: s' => if d =? c then Some s else strchr s' c
  end.

(** for(i = 0; i < n; i++) cdst[i] = c; *)
Fixpoint memset_go (n : nat) (m : Z → Z) (d i c : Z) : Z → Z :=
  match n with
  | O => m
  | S n => memset_go n (upd m (d + i) (u8 c)) d (i + 1) c
  end.
Definition memset (m : Z → Z) (dst c n : Z) : Z → Z := memset_go (Z.to_nat n) m dst 0 c.

(** while('0' <= *s && *s <= '9') n = n*10 + *s++ - '0'; *)
Fixpoint atoi_go (s : list Z) (n : Z) : Z :=
  match s with
  | [] => n
  | c :: s =>
      if (chr "0" <=? c) && (c <=? chr "9") then atoi_go s (i32 (n * 10 + c - chr "0")) else n
  end.
Definition atoi (s : list Z) : Z := atoi_go s 0.

Definition memmove (m : Z → Z) (dst src n : Z) : Z → Z :=
  if dst <? src then move_forward (Z.to_nat n) m dst src
  else move_backward (Z.to_nat n) m (dst + n) (src + n).

Fixpoint memcmp (n : nat) (p1 p2 : Z → Z) (i : Z) : Z :=
  match n with
  | O => 0
  | S n => if negb (p1 i =? p2 i) then p1 i - p2 i else memcmp n p1 p2 (i + 1)
  end.

Definition memcpy (m : Z → Z) (dst src n : Z) : Z → Z := memmove m dst src n.

(** gets(): the bytes stored before the NUL; [n] is max - 1 - i. *)
Fixpoint gets_go (n : nat) : prog (list Z) :=
  match n with
  | O => Return []
  | S n =>
      r ← sys_mem (Cread 0 1);
      let '(cc, bs) := r in
      if cc <? 1 then Return []
      else
        let c := hd 0 bs in
        if (c =? 10) || (c =? 13) then Return [c]
        else l ← gets_go n; Return (c :: l)
  end.
Definition gets (max : Z) : prog (list Z) := gets_go (Z.to_nat (max - 1)).

(** stat(): the return value and the bytes of struct stat. *)
Definition stat (n : list Z) : prog (Z * list Z) :=
  fd ← sys (Copen n O_RDONLY);
  if fd <? 0 then Return (-1, [])
  else
    r ← sys_mem (Cfstat fd);
    sys (Cclose fd);;
    Return r.

Definition sbrk (n : Z) : prog Z := sys (Csbrk n SBRK_EAGER).
Definition sbrklazy (n : Z) : prog Z := sys (Csbrk n SBRK_LAZY).

End Ulib.

(** ** Output: putc() is one write() per byte *)

Definition fprintf (fd : Z) (fmt : list Z) (ap : list varg) : prog () :=
  match User.vprintf false fmt ap with
  | Some bs => pfor bs (λ c, sys (Cwrite fd [c]);; Return tt)
  | None => Undef
  end.

Definition printf (fmt : list Z) (ap : list varg) : prog () := fprintf 1 fmt ap.

Definition word (z : Z) : varg := AWord z.
Definition text (s : list Z) : varg := AStr (Some s).
Definition nl : list Z := [10].

(** ** Lemmas *)

Lemma exec_bind {W A B} (h : W → call → W * reply) (p : prog A) (f : A → prog B) w :
  exec h (p ≫= f) w =
    match exec h p w with
    | (w', Returned a) => exec h (f a) w'
    | (w', Exited st) => (w', Exited st)
    | (w', Undefined) => (w', Undefined)
    | (w', NoResult) => (w', NoResult)
    end.
Proof.
  revert w. induction p as [a|st|c k IH| |]; intros w; try done.
  change (exec h (Sys c (λ r, k r ≫= f)) w = match exec h (Sys c k) w with
    | (w', Returned a) => exec h (f a) w'
    | (w', Exited st) => (w', Exited st)
    | (w', Undefined) => (w', Undefined)
    | (w', NoResult) => (w', NoResult) end).
  cbn [exec]. destruct (h w c) as [w' r]. apply IH.
Qed.

Lemma exec_pbind {W A B} (h : W → call → W * reply) (p : prog A) (f : A → prog B) w a w' :
  exec h p w = (w', Returned a) → exec h (pbind f p) w = exec h (f a) w'.
Proof. intros E. change (pbind f p) with (p ≫= f). by rewrite exec_bind, E. Qed.

Lemma total_bind {A B} (P : A → Prop) (Q : B → Prop) (p : prog A) (f : A → prog B) :
  total P p → (∀ a, P a → total Q (f a)) → total Q (p ≫= f).
Proof.
  intros Hp Hf. induction p as [a|st|c k IH| |]; try done; [by apply Hf|].
  intros r. apply IH, Hp.
Qed.

Lemma total_mono {A} (P Q : A → Prop) (p : prog A) : total P p → (∀ a, P a → Q a) → total Q p.
Proof.
  intros Hp Hf. induction p as [a|st|c k IH| |]; try done; [by apply Hf|].
  intros r. apply IH, Hp.
Qed.

Lemma total_sys (Q : Z → Prop) c : (∀ r, Q r) → total Q (sys c).
Proof. intros HQ r. apply HQ. Qed.

Lemma total_pfor {A} (l : list A) (body : A → prog ()) :
  (∀ x, total (λ _, True) (body x)) → total (λ _, True) (pfor l body).
Proof. intros Hb. induction l as [|x l IH]; [done|]. by apply (total_bind (λ _, True)). Qed.

Lemma total_fprintf fd fmt ap bs :
  User.vprintf false fmt ap = Some bs → total (λ _, True) (fprintf fd fmt ap).
Proof.
  intros E. unfold fprintf. rewrite E. apply total_pfor. intros c.
  apply (total_bind (λ _, True)); [by apply total_sys|done].
Qed.

(** A loop ends if every iteration that goes on makes a measure smaller. *)
Lemma total_ploop {T R} (I : T → Prop) (m : T → nat) (Q : R → Prop) n body t :
  I t → (m t < n)%nat →
  (∀ t, I t → total (λ r, match r with inl t' => I t' ∧ (m t' < m t)%nat | inr r => Q r end) (body t)) →
  total Q (ploop n body t).
Proof.
  intros Ht Hn Hb. revert t Ht Hn. induction n as [|n IH]; intros t Ht Hn; [lia|]. cbn [ploop].
  eapply total_bind; [by apply Hb|]. intros [t'|r]; [|done]. intros [Ht' Hm]. apply IH; [done|lia].
Qed.

(** A word of a command line has no NUL. *)
Lemma cstring_app (s t : list Z) : Forall (λ c, c ≠ 0) s → Ulib.cstring (s ++ 0 :: t) = s.
Proof.
  induction 1 as [|c s Hc Hs IH]; [done|]. cbn [app Ulib.cstring].
  rewrite (proj2 (Z.eqb_neq c 0) Hc). by rewrite IH.
Qed.

Lemma cstring_noop (s : list Z) : Forall (λ c, c ≠ 0) s → Ulib.cstring s = s.
Proof.
  induction 1 as [|c s Hc Hs IH]; [done|]. cbn [Ulib.cstring].
  rewrite (proj2 (Z.eqb_neq c 0) Hc). by rewrite IH.
Qed.

(** strchr() finds the first occurrence. *)
Lemma strchr_Some (s : list Z) (c : Z) (t : list Z) :
  Ulib.strchr s c = Some t ↔ ∃ u v, s = u ++ c :: v ∧ t = c :: v ∧ c ∉ u.
Proof.
  induction s as [|d s IH]; cbn [Ulib.strchr].
  - split; [done|]. intros (u&v&H&_). by destruct u.
  - destruct (Z.eqb_spec d c) as [->|Hdc].
    + split.
      * intros [= <-]. exists [], s. by split_and!; [| |apply not_elem_of_nil].
      * intros (u&v&Hs&->&Hnin). destruct u as [|a u]; simplify_eq/=; [done|]. exfalso. apply Hnin. by left.
    + rewrite IH. split.
      * intros (u&v&->&->&Hnin). exists (d :: u), v. split_and!; [done|done|].
        rewrite not_elem_of_cons. by split.
      * intros (u&v&Hs&->&Hnin). destruct u as [|a u]; simplify_eq/=.
        exists u, v. split_and!; [done|done|]. intros ?. apply Hnin. by right.
Qed.

Lemma strchr_None (s : list Z) (c : Z) : Ulib.strchr s c = None ↔ c ∉ s.
Proof.
  induction s as [|d s IH]; cbn [Ulib.strchr]; [by rewrite elem_of_nil; split; [intros _ []|]|].
  rewrite not_elem_of_cons. destruct (Z.eqb_spec d c) as [->|Hdc].
  - split; [done|]. by intros [? _].
  - rewrite IH. split; [intros ?; split; [congruence|done]|by intros [_ ?]].
Qed.

(** ulib's memmove() is a move also when the regions overlap. *)
Lemma ulib_memmove_lookup m dst src n a :
  0 ≤ n →
  Ulib.memmove m dst src n a = if (dst <=? a) && (a <? dst + n) then m (src - dst + a) else m a.
Proof.
  intros Hn. unfold Ulib.memmove. destruct (Z.ltb_spec dst src).
  - rewrite move_forward_lookup by lia. by rewrite Z2Nat.id.
  - rewrite move_backward_lookup by lia. rewrite Z2Nat.id by done.
    replace (dst + n - n) with dst by lia.
    by replace (src + n - (dst + n) + a) with (src - dst + a) by lia.
Qed.

(** ** A kernel that serves byte streams

    Each descriptor has the bytes still to be read from it and the bytes written
    to it.  A read() of an open stream returns at least one byte and at most what
    was asked for, as long as there is input; how many is up to the kernel, as
    with a pipe or the console. *)

Record io := IO { inputs : Z → list Z; outputs : Z → list Z }.

Class Chunks := {
  chunk : list Z → Z → nat;
  chunk_pos : ∀ l n, l ≠ [] → 0 < n → (1 ≤ chunk l n)%nat;
  chunk_le : ∀ l n, 0 < n → Z.of_nat (chunk l n) ≤ n;
}.

(** A kernel that always returns as much as it can. *)
#[export] Instance greedy : Chunks.
Proof. refine {| chunk := λ l n, Z.to_nat n |}; lia. Defined.

Section streams.
Context {CH : Chunks}.

Definition serve (w : io) (c : call) : io * reply :=
  match c with
  | Cread fd n =>
      let l := inputs w fd in
      let bs := if n <=? 0 then [] else take (chunk l n) l in
      (IO (λ f, if f =? fd then drop (length bs) l else inputs w f) (outputs w),
       Reply (Z.of_nat (length bs)) bs)
  | Cwrite fd bs =>
      (IO (inputs w) (λ f, if f =? fd then outputs w f ++ bs else outputs w f),
       Reply (Z.of_nat (length bs)) [])
  | _ => (w, Reply (-1) [])
  end.

(** From [w] to [w'] the bytes [bs] were written to [fd] and nothing else. *)
Definition wrote (fd : Z) (bs : list Z) (w w' : io) : Prop :=
  ∀ f, outputs w' f = outputs w f ++ (if f =? fd then bs else []).

Lemma wrote_nil fd w w' : outputs w' = outputs w → wrote fd [] w w'.
Proof. intros E f. rewrite E. by destruct (f =? fd); rewrite app_nil_r. Qed.

Lemma wrote_trans fd bs bs' w1 w2 w3 :
  wrote fd bs w1 w2 → wrote fd bs' w2 w3 → wrote fd (bs ++ bs') w1 w3.
Proof.
  intros H1 H2 f. rewrite H2, H1. by destruct (f =? fd); rewrite <-?app_assoc, ?app_nil_r.
Qed.

Lemma serve_write w fd bs : ∃ w',
  serve w (Cwrite fd bs) = (w', Reply (Z.of_nat (length bs)) []) ∧
  inputs w' = inputs w ∧ wrote fd bs w w'.
Proof.
  eexists. split; [reflexivity|]. split; [done|]. intros f. cbn [outputs].
  by destruct (f =? fd); rewrite ?app_nil_r.
Qed.

(** What a read returns is the beginning of the input, and the rest stays. *)
Lemma serve_read w fd n : 0 < n → ∃ w' bs,
  serve w (Cread fd n) = (w', Reply (Z.of_nat (length bs)) bs) ∧
  inputs w fd = bs ++ inputs w' fd ∧ outputs w' = outputs w ∧
  (∀ f, f ≠ fd → inputs w' f = inputs w f) ∧
  Z.of_nat (length bs) ≤ n ∧ (bs = [] → inputs w fd = []).
Proof.
  intros Hn. set (l := inputs w fd). exists (IO (λ f, if f =? fd then drop (length (take (chunk l n) l)) l else inputs w f) (outputs w)), (take (chunk l n) l).
  split_and!.
  - cbn [serve]. fold l. by rewrite (proj2 (Z.leb_gt n 0) Hn).
  - cbn [inputs]. rewrite Z.eqb_refl, length_take.
    destruct (decide (chunk l n ≤ length l)%nat).
    + rewrite Nat.min_l by done. by rewrite take_drop.
    + rewrite Nat.min_r by lia. by rewrite drop_all, app_nil_r, take_ge by lia.
  - done.
  - intros f ?. cbn [inputs]. by rewrite (proj2 (Z.eqb_neq f fd)).
  - rewrite length_take. pose proof (chunk_le l n Hn). lia.
  - destruct l as [|x l'] eqn:El; [done|]. rewrite <-El. intros E. apply (f_equal length) in E.
    rewrite length_take in E. pose proof (chunk_pos l n ltac:(by rewrite El) Hn).
    rewrite El in *. cbn in *. lia.
Qed.

(** What fprintf() writes. *)
Lemma exec_fprintf fd fmt ap bs w :
  User.vprintf false fmt ap = Some bs → ∃ w',
  exec serve (fprintf fd fmt ap) w = (w', Returned tt) ∧ inputs w' = inputs w ∧ wrote fd bs w w'.
Proof.
  intros E. unfold fprintf. rewrite E. clear E. revert w.
  induction bs as [|c bs IH]; intros w; cbn [pfor].
  - exists w. split_and!; [done|done|]. by apply wrote_nil.
  - destruct (serve_write w fd [c]) as (w1 & E1 & Hi1 & Hw1).
    destruct (IH w1) as (w2 & E2 & Hi2 & Hw2). exists w2. split_and!.
    + rewrite exec_bind. cbn [sys mbind prog_bind pbind exec]. rewrite E1. exact E2.
    + congruence.
    + change (c :: bs) with ([c] ++ bs). by eapply wrote_trans.
Qed.

End streams.
