(* ===== verification/Grep.v ===== *)
(** user/grep.c: the regular-expression matcher and the loop over the lines of a
    stream.

    A pattern and a text are C strings, so their bytes are not NUL.  The matcher
    is compared with the language its patterns denote, and the program with the
    lines of its input, for a kernel that cuts the input into pieces of any size. *)

From Stdlib Require Import ZArith Lia ZifyBool Ascii.
From stdpp Require Import base numbers list strings.
From S2P Require Import Prelude Params Printf User.

(** ** The matcher *)

(** matchstar() with the call of matchhere() on the rest of the pattern given:
    do { if(matchhere(re, text)) return 1; }
    while( *text!='\0' && ( *text++==c || c=='.')); *)
Fixpoint matchstar (here : list Z → bool) (c : Z) (text : list Z) : bool :=
  here text ||
  match text with
  | [] => false
  | t :: text' => if (t =? c) || (c =? chr ".") then matchstar here c text' else false
  end.

Fixpoint matchhere (re : list Z) (text : list Z) {struct re} : bool :=
  match re with
  | [] => true
  | c :: re1 =>
      let next :=
        match text with
        | t :: text' => if (c =? chr ".") || (c =? t) then matchhere re1 text' else false
        | [] => false
        end in
      match re1 with
      | d :: re2 => if d =? chr "*" then matchstar (matchhere re2) c text else next
      | [] => if c =? chr "$" then match text with [] => true | _ :: _ => false end else next
      end
  end.

(** do { if(matchhere(re, text)) return 1; } while( *text++ != '\0'); *)
Fixpoint match_any (re : list Z) (text : list Z) : bool :=
  matchhere re text ||
  match text with
  | [] => false
  | _ :: text' => match_any re text'
  end.

Definition match_ (re text : list Z) : bool :=
  match re with
  | c :: re1 => if c =? chr "^" then matchhere re1 text else match_any re text
  | [] => match_any re text
  end.

(** ** The program *)

(** while((q = strchr(p, '\n')) != 0) {...}: the loop over the complete lines of
    the buffer from [p] on; it returns what is left.  A line takes at least one
    byte, so the length of the buffer bounds the number of iterations. *)
Definition grep_line (pattern p : list Z) : prog (list Z + list Z) :=
  match Ulib.strchr (Ulib.cstring p) 10 with
  | None => Return (inr p)
  | Some q =>
      let len := (length (Ulib.cstring p) - length q)%nat in
      let line := take len p in
      whenp (match_ pattern line) (sys (Cwrite 1 (line ++ nl));; Return tt);;
      Return (inl (drop (len + 1) p))
  end.
Definition grep_lines (pattern p : list Z) : prog (list Z) :=
  ploop (S (length p)) (grep_line pattern) p.

Definition sizeof_buf : Z := 1024.

(** grep(): the loop state is buf[0..m). *)
Definition grep_step (pattern : list Z) (fd : Z) (buf : list Z) : prog (list Z + ()) :=
  let m := Z.of_nat (length buf) in
  r ← sys_mem (Cread fd (sizeof_buf - m - 1));
  let '(n, bs) := r in
  if n <=? 0 then Return (inr tt)
  else
    p ← grep_lines pattern (buf ++ take (Z.to_nat n) bs);
    Return (inl p).
Definition grep (fuel : nat) (pattern : list Z) (fd : Z) : prog () :=
  ploop fuel (grep_step pattern fd) [].

Definition grep_main (fuel : nat) (argv : list (list Z)) : prog Z :=
  match argv with
  | _ :: pattern :: files =>
      match files with
      | [] => grep fuel pattern 0;; Exit 0
      | _ =>
          pfor files (λ file,
            fd ← sys (Copen file O_RDONLY);
            if fd <? 0 then
              printf (str "grep: cannot open %s" ++ nl) [text file];; Exit 1
            else
              grep fuel pattern fd;;
              sys (Cclose fd);; Return tt);;
          Exit 0
      end
  | _ => fprintf 2 (str "usage: grep pattern [file ...]" ++ nl) [];; Exit 1
  end.

(** ** The language of a pattern *)

(** [x] is matched by the pattern character [c]. *)
Definition single (c x : Z) : Prop := c = chr "." ∨ c = x.

(** The words of a pattern without anchors: a character followed by a star stands
    for any number of characters it matches, any other for one. *)
Inductive lang : list Z → list Z → Prop :=
  | lang_nil : lang [] []
  | lang_stop c re w : lang re w → lang (c :: chr "*" :: re) w
  | lang_more c x re w :
      single c x → lang (c :: chr "*" :: re) w → lang (c :: chr "*" :: re) (x :: w)
  | lang_one c x re w :
      hd 0 re ≠ chr "*" → single c x → lang re w → lang (c :: re) (x :: w).

(** A final dollar anchors the match at the end of the text, a leading caret at
    its beginning. *)
Definition at_end (re : list Z) : bool := bool_decide (last re = Some (chr "$")).
Definition without_end (re : list Z) : list Z := if at_end re then removelast re else re.
Definition at_start (re : list Z) : bool := bool_decide (head re = Some (chr "^")).
Definition without_start (re : list Z) : list Z := if at_start re then tail re else re.

(** Some occurrence of a word of the pattern in the text satisfies the anchors. *)
Definition matches (re text : list Z) : Prop :=
  ∃ before w after, text = before ++ w ++ after ∧
    lang (without_end (without_start re)) w ∧
    (at_start re = true → before = []) ∧
    (at_end (without_start re) = true → after = []).

Definition matches_here (re text : list Z) : Prop :=
  ∃ w after, text = w ++ after ∧ lang (without_end re) w ∧ (at_end re = true → after = []).

Lemma single_bool c x : (c =? chr ".") || (c =? x) = true ↔ single c x.
Proof. unfold single. rewrite orb_true_iff, !Z.eqb_eq. done. Qed.

Lemma at_end_cons c d re : at_end (c :: d :: re) = at_end (d :: re).
Proof. done. Qed.

Lemma without_end_cons c d re : without_end (c :: d :: re) = c :: without_end (d :: re).
Proof. unfold without_end. rewrite at_end_cons. by destruct (at_end (d :: re)). Qed.

Lemma at_end_star c re : at_end (c :: chr "*" :: re) = at_end re.
Proof. destruct re; [by vm_compute|]. by rewrite !at_end_cons. Qed.

Lemma without_end_star c re : without_end (c :: chr "*" :: re) = c :: chr "*" :: without_end re.
Proof. destruct re; [by vm_compute|]. by rewrite !without_end_cons. Qed.

(** A star takes a number of characters and leaves the rest to the pattern
    that follows. *)
Lemma matchstar_ok here (P : list Z → Prop) c text :
  (∀ t, here t = true ↔ P t) →
  matchstar here c text = true ↔ ∃ u v, text = u ++ v ∧ Forall (single c) u ∧ P v.
Proof.
  intros Hh. induction text as [|t text IH]; cbn [matchstar].
  - rewrite orb_false_r, Hh. split.
    + intros ?. exists [], []. by split_and!; [|constructor|].
    + intros (u&v&E&_&?). symmetry in E. apply app_nil in E as [-> ->]. done.
  - rewrite orb_true_iff, Hh. rewrite orb_comm, (Z.eqb_sym t c).
    destruct ((c =? chr ".") || (c =? t)) eqn:Es.
    + apply single_bool in Es. rewrite IH. split.
      * intros [?|(u&v&->&Hu&?)]; [exists [], (t :: text); by split_and!; [|constructor|]|].
        exists (t :: u), v. split_and!; [done|by constructor|done].
      * intros (u&v&E&Hu&Hv). destruct u as [|x u]; simplify_eq/=; [by left|right].
        exists u, v. by inversion Hu.
    + split.
      * intros [?|?]; [|done]. exists [], (t :: text). by split_and!; [|constructor|].
      * intros (u&v&E&Hu&Hv). left. destruct u as [|x u]; simplify_eq/=; [done|].
        inversion Hu as [|? ? Hs]; subst. apply single_bool in Hs. congruence.
Qed.

Lemma lang_star c re w :
  lang (c :: chr "*" :: re) w ↔ ∃ u v, w = u ++ v ∧ Forall (single c) u ∧ lang re v.
Proof.
  split.
  - remember (c :: chr "*" :: re) as re' eqn:E. induction 1 as [|c' re' w Hl IH|c' x re' w Hx Hl IH|c' x re' w Hne Hx Hl IH]; simplify_eq/=.
    + exists [], w. by split_and!; [|constructor|].
    + destruct (IH eq_refl) as (u&v&->&Hu&?). exists (x :: u), v. split_and!; [done|by constructor|done].
  - intros (u&v&->&Hu&Hv). induction Hu as [|x u Hx Hu IH]; [by apply lang_stop|by apply lang_more].
Qed.

(** A pattern character without a star takes one character. *)
Lemma lang_char c re w :
  hd 0 re ≠ chr "*" → lang (c :: re) w ↔ ∃ x v, w = x :: v ∧ single c x ∧ lang re v.
Proof.
  intros Hne. split.
  - inversion 1; subst; try done. eauto.
  - intros (x&v&->&?&?). by apply lang_one.
Qed.

Lemma matches_here_star c re text :
  matches_here (c :: chr "*" :: re) text ↔
  ∃ u v, text = u ++ v ∧ Forall (single c) u ∧ matches_here re v.
Proof.
  unfold matches_here. rewrite without_end_star, at_end_star. split.
  - intros (w&a&->&Hl&Ha). apply lang_star in Hl as (u&v&->&Hu&Hv).
    exists u, (v ++ a). split_and!; [by rewrite app_assoc|done|]. by exists v, a.
  - intros (u&v&->&Hu&w&a&->&Hl&Ha). exists (u ++ w), a. split_and!; [by rewrite app_assoc| |done].
    apply lang_star. by exists u, w.
Qed.

Lemma matches_here_char c re text :
  hd 0 re ≠ chr "*" → (c ≠ chr "$" ∨ re ≠ []) →
  matches_here (c :: re) text ↔
  match text with [] => False | x :: text' => single c x ∧ matches_here re text' end.
Proof.
  intros Hne Hd.
  assert (without_end (c :: re) = c :: without_end re ∧ at_end (c :: re) = at_end re) as [Hw He].
  { destruct re as [|d re]; [|by rewrite without_end_cons]. destruct Hd as [Hd|]; [|done].
    unfold without_end, at_end. cbn. by rewrite bool_decide_eq_false_2 by congruence. }
  assert (Hh : hd 0 (without_end re) ≠ chr "*").
  { destruct re as [|d [|e re]]; [done| |by rewrite without_end_cons].
    unfold without_end. by destruct (at_end [d]). }
  unfold matches_here. rewrite Hw, He. split.
  - intros (w&a&->&Hl&Ha). apply lang_char in Hl as (x&v&->&Hx&Hv); [|done].
    cbn. split; [done|]. by exists v, a.
  - destruct text as [|x text]; [done|]. intros (Hx&w&a&->&Hl&Ha).
    exists (x :: w), a. split_and!; [done| |done]. apply lang_char; [done|]. eauto.
Qed.

(** matchhere() recognises the texts that begin with a word of the pattern. *)
Lemma matchhere_ok re text : matchhere re text = true ↔ matches_here re text.
Proof.
  remember (length re) as n eqn:Hn. revert re text Hn.
  induction (lt_wf n) as [n _ IH]; intros re text ->. destruct re as [|c re1].
  - cbn. split; [|done]. intros _. exists [], text. by split_and!; [|constructor|].
  - destruct re1 as [|d re2].
    + cbn [matchhere]. destruct (Z.eqb_spec c (chr "$")) as [->|Hc].
      * split.
        { destruct text; [|done]. exists [], []. by split_and!; [|constructor|]. }
        { intros (w&a&->&Hl&Ha). inversion Hl; subst. by rewrite Ha. }
      * rewrite matches_here_char by (auto; done). destruct text as [|x text]; [done|].
        rewrite <-single_bool. destruct ((c =? chr ".") || (c =? x)); [|by split; [|intros [? _]]].
        split; [|done]. intros _. split; [done|]. exists [], text. by split_and!; [|constructor|].
    + cbn [matchhere]. destruct (Z.eqb_spec d (chr "*")) as [->|Hd].
      * rewrite matches_here_star. apply matchstar_ok. intros t. apply (IH (length re2)); cbn; lia.
      * rewrite matches_here_char by (auto; done). destruct text as [|x text]; [done|].
        rewrite <-single_bool. destruct ((c =? chr ".") || (c =? x)); [|by split; [|intros [? _]]].
        change (matchhere (d :: re2) text = true ↔ (true = true ∧ matches_here (d :: re2) text)).
        rewrite (IH (length (d :: re2))) by (cbn; lia || done). by split; [|intros [_ ?]].
Qed.

Lemma match_any_ok re text :
  match_any re text = true ↔ ∃ u v, text = u ++ v ∧ matches_here re v.
Proof.
  induction text as [|t text IH]; cbn [match_any].
  - rewrite orb_false_r, matchhere_ok. split; [intros ?; by exists [], []|].
    intros (u&v&E&?). symmetry in E. apply app_nil in E as [-> ->]. done.
  - rewrite orb_true_iff, matchhere_ok, IH. split.
    + intros [?|(u&v&->&?)]; [by exists [], (t :: text)|by exists (t :: u), v].
    + intros (u&v&E&?). destruct u as [|x u]; simplify_eq/=; [by left|right; by exists u, v].
Qed.

(** C38: the matcher recognises exactly the texts in which a word of the
    pattern's language occurs, at the beginning of the text if the pattern starts
    with a caret and up to its end if the pattern ends with a dollar sign. *)
Theorem match_matches_language re text : match_ re text = true ↔ matches re text.
Proof.
  assert (Hany : at_start re = false → match_any re text = true ↔ matches re text).
  { intros Hs. rewrite match_any_ok. unfold matches, matches_here, without_start. rewrite Hs. split.
    - intros (u&v&->&w&a&->&?&?). by exists u, w, a.
    - intros (u&w&a&->&?&_&?). exists u, (w ++ a). split; [done|]. by exists w, a. }
  destruct re as [|c re1]; [by apply Hany|]. cbn [match_].
  destruct (Z.eqb_spec c (chr "^")) as [->|Hc].
  - rewrite matchhere_ok. unfold matches, matches_here, without_start.
    change (at_start (chr "^" :: re1)) with true. cbn [tail]. split.
    + intros (w&a&->&?&?). by exists [], w, a.
    + intros (u&w&a&->&?&Hu&?). rewrite (Hu eq_refl). by exists w, a.
  - apply Hany. unfold at_start. apply bool_decide_eq_false. cbn. congruence.
Qed.

(** ** The lines that grep prints *)

(** The bytes of a text file: every line is followed by a newline, except
    perhaps the last bytes. *)
Definition file_of (ls : list (list Z)) (rest : list Z) : list Z :=
  concat ((λ l, l ++ nl) <$> ls) ++ rest.

(** A line that fits the buffer together with its newline. *)
Definition line_ok (l : list Z) : Prop :=
  Forall (λ c, c ≠ 0 ∧ c ≠ 10) l ∧ Z.of_nat (length l) < sizeof_buf - 1.

Definition matching (pattern : list Z) (ls : list (list Z)) : list Z :=
  concat ((λ l, l ++ nl) <$> filter (λ l, match_ pattern l = true) ls).

Lemma matching_cons pattern l ls :
  matching pattern (l :: ls) = (if match_ pattern l then l ++ nl else []) ++ matching pattern ls.
Proof.
  unfold matching. rewrite filter_cons. destruct (match_ pattern l) eqn:E.
  - by rewrite decide_True.
  - by rewrite decide_False.
Qed.

Lemma file_of_cons l ls rest : file_of (l :: ls) rest = l ++ 10 :: file_of ls rest.
Proof. unfold file_of, nl. cbn. by rewrite <-!app_assoc. Qed.

Lemma line_ok_nonul l : line_ok l → Forall (λ c, c ≠ 0) l.
Proof. intros [Hl _]. eapply Forall_impl; [done|]. by intros ? []. Qed.

Lemma line_ok_nonl l : line_ok l → (10 ∉ l).
Proof. intros [Hl _] Hin. rewrite Forall_forall in Hl. by destruct (Hl _ Hin). Qed.

Lemma file_of_nonul ls rest :
  Forall line_ok ls → Forall (λ c, c ≠ 0) rest → Forall (λ c, c ≠ 0) (file_of ls rest).
Proof.
  intros Hls Hr. induction Hls as [|l ls Hl Hls IH]; [done|].
  rewrite file_of_cons. apply Forall_app. split; [by apply line_ok_nonul|]. by constructor.
Qed.

(** Two ways to begin a file with complete lines: what comes before a point
    without a newline of its own is a number of lines and a piece of the next. *)
Lemma file_split ls rest p q :
  Forall line_ok ls → line_ok rest → file_of ls rest = p ++ q →
  ∃ ls1 ls2 piece, ls = ls1 ++ ls2 ∧ p = file_of ls1 piece ∧ line_ok piece ∧
    piece ++ q = file_of ls2 rest.
Proof.
  intros Hls Hrest. revert p. induction Hls as [|l ls Hl Hls IH]; intros p E.
  - exists [], [], p. split_and!; [done|done| |done]. cbn in E. subst. destruct Hrest as [Hr Hn].
    apply Forall_app in Hr as [Hr _]. rewrite length_app in Hn. split; [done|lia].
  - rewrite file_of_cons in E. destruct (decide (length p ≤ length l)%nat) as [Hle|Hgt].
    + exists [], (l :: ls), p. split_and!; [done|done| |by rewrite file_of_cons].
      assert (p = take (length p) l) as ->.
      { apply (f_equal (take (length p))) in E. rewrite take_app_le, take_app_length in E by done. done. }
      destruct Hl as [Hl Hn]. split; [by apply Forall_take|]. rewrite length_take. lia.
    + destruct (IH (drop (S (length l)) p)) as (ls1&ls2&piece&->&Hp&Hpc&Hq).
      { apply (f_equal (drop (S (length l)))) in E. rewrite (drop_app_le p) in E by lia. rewrite <-E.
        change (10 :: file_of ls rest) with ([10] ++ file_of ls rest). rewrite app_assoc.
        by rewrite drop_app_length' by (rewrite length_app; cbn; lia). }
      exists (l :: ls1), ls2, piece. split_and!; [done| |done|done].
      rewrite file_of_cons, <-Hp.
      apply (f_equal (take (S (length l)))) in E. rewrite (take_app_le p) in E by lia.
      change (10 :: file_of (ls1 ++ ls2) rest) with ([10] ++ file_of (ls1 ++ ls2) rest) in E. rewrite app_assoc in E.
      rewrite take_app_length' in E by (rewrite length_app; cbn; lia).
      rewrite <-(take_drop (S (length l)) p) at 1. rewrite <-E. by rewrite <-app_assoc.
Qed.

Section grep.
Context {CH : Chunks}.

Lemma grep_line_some pattern l ls rest w :
  line_ok l → Forall line_ok ls → line_ok rest → ∃ w',
  exec serve (grep_line pattern (file_of (l :: ls) rest)) w = (w', Returned (inl (file_of ls rest))) ∧
  inputs w' = inputs w ∧ wrote 1 (if match_ pattern l then l ++ nl else []) w w'.
Proof.
  intros Hl Hls Hr. unfold grep_line.
  rewrite cstring_noop by (apply file_of_nonul; [by constructor|by apply line_ok_nonul]).
  rewrite file_of_cons.
  rewrite (proj2 (strchr_Some (l ++ 10 :: file_of ls rest) 10 (10 :: file_of ls rest)))
    by (exists l, (file_of ls rest); split_and!; [done|done|by apply line_ok_nonl]).
  replace (length (l ++ 10%Z :: file_of ls rest) - length (10%Z :: file_of ls rest))%nat with (length l)
    by (rewrite length_app; lia).
  rewrite take_app_length.
  replace (drop (length l + 1) (l ++ 10 :: file_of ls rest)) with (file_of ls rest).
  2: { change (10 :: file_of ls rest) with ([10] ++ file_of ls rest). rewrite app_assoc.
       by rewrite drop_app_length' by (rewrite length_app; cbn; lia). }
  destruct (match_ pattern l); cbn [whenp].
  - destruct (serve_write w 1 (l ++ nl)) as (w1 & E1 & Hi1 & Hw1). exists w1. split_and!; [|done|done].
    cbn [sys mbind prog_bind pbind exec]. by rewrite E1.
  - exists w. split_and!; [done|done|by apply wrote_nil].
Qed.

Lemma grep_lines_ok pattern ls piece w :
  Forall line_ok ls → line_ok piece → ∃ w',
  exec serve (grep_lines pattern (file_of ls piece)) w = (w', Returned piece) ∧
  inputs w' = inputs w ∧ wrote 1 (matching pattern ls) w w'.
Proof.
  intros Hls Hp. unfold grep_lines.
  assert (Hfuel : (length ls < S (length (file_of ls piece)))%nat).
  { clear. induction ls as [|l ls IH]; [cbn; lia|]. rewrite file_of_cons, length_app. cbn [length]. lia. }
  revert Hfuel. generalize (S (length (file_of ls piece))). revert w.
  induction Hls as [|l ls Hl Hls IH]; intros w n Hn; (destruct n as [|n]; [lia|]); cbn [ploop]; rewrite exec_bind.
  - unfold grep_line. change (file_of [] piece) with piece.
    rewrite cstring_noop by by apply line_ok_nonul.
    rewrite (proj2 (strchr_None piece 10)) by by apply line_ok_nonl.
    exists w. split_and!; [done|done|by apply wrote_nil].
  - destruct (grep_line_some pattern l ls piece w Hl Hls Hp) as (w1 & -> & Hi1 & Hw1).
    destruct (IH w1 n) as (w2 & E2 & Hi2 & Hw2); [cbn in Hn; lia|]. exists w2. split_and!; [done|congruence|].
    rewrite matching_cons. by eapply wrote_trans.
Qed.

Lemma grep_loop_ok pattern fd rest ls buf w n :
  Forall line_ok ls → line_ok rest → line_ok buf →
  buf ++ inputs w fd = file_of ls rest → (length (inputs w fd) < n)%nat → ∃ w',
  exec serve (ploop n (grep_step pattern fd) buf) w = (w', Returned tt) ∧
  inputs w' fd = [] ∧ wrote 1 (matching pattern ls) w w'.
Proof.
  revert ls buf w. induction n as [|n IH]; intros ls buf w Hls Hrest Hbuf Hfile Hn; [lia|].
  cbn [ploop]. rewrite exec_bind. unfold grep_step at 1.
  destruct (serve_read w fd (sizeof_buf - Z.of_nat (length buf) - 1)) as (w1&bs&E1&Hin&Hout&_&_&Heof);
    [destruct Hbuf; lia|].
  cbn [sys_mem mbind prog_bind pbind exec]. rewrite E1. cbn [ret stored].
  destruct bs as [|b bs].
  - exists w1. split_and!; [done| |].
    + rewrite Heof in Hin by done. by destruct (inputs w1 fd).
    + rewrite Heof, app_nil_r in Hfile by done. subst buf.
      destruct ls as [|l ls]; [by apply wrote_nil|]. exfalso. apply (line_ok_nonl _ Hbuf).
      rewrite file_of_cons, elem_of_app. right. left.
  - rewrite (proj2 (Z.leb_gt _ 0)) by (cbn; lia).
    rewrite Nat2Z.id, take_ge by done. rewrite Hin, app_assoc in Hfile.
    destruct (file_split ls rest (buf ++ b :: bs) (inputs w1 fd)) as (ls1&ls2&piece&->&Hp&Hpc&Hq); [done|done|by symmetry in Hfile|].
    apply Forall_app in Hls as [Hls1 Hls2]. rewrite Hp.
    destruct (grep_lines_ok pattern ls1 piece w1 Hls1 Hpc) as (w2&E2&Hi2&Hw2).
    rewrite (exec_pbind _ _ _ _ _ _ E2).
    cbn [exec]. destruct (IH ls2 piece w2) as (w3&E3&Hi3&Hw3); [done|done|done|by rewrite Hi2| |].
    { rewrite Hi2. rewrite Hin in Hn. cbn in Hn. rewrite length_app in Hn. lia. }
    exists w3. split_and!; [done|done|]. unfold matching. rewrite filter_app, fmap_app, concat_app.
    eapply wrote_trans; [|done]. intros f. rewrite Hw2. by rewrite Hout.
Qed.

(** C39: on a text file whose lines have no NUL and fit the buffer, grep
    reads all its input and writes exactly the complete lines that match the
    pattern, in order and each with its newline, however the kernel cuts the
    input into pieces. *)
Theorem grep_prints_matching_lines pattern fd ls rest w fuel :
  Forall line_ok ls → line_ok rest → inputs w fd = file_of ls rest →
  (length (inputs w fd) < fuel)%nat → ∃ w',
  exec serve (grep fuel pattern fd) w = (w', Returned tt) ∧
  inputs w' fd = [] ∧ wrote 1 (matching pattern ls) w w'.
Proof. intros. apply (grep_loop_ok pattern fd rest); done. Qed.

End grep.

(** A kernel that returns one byte at a time. *)
Definition one_byte : Chunks.
Proof. refine {| chunk := λ _ _, 1%nat |}; lia. Defined.

(** grep a.c reads abc, axx, bab one byte at a time, and prints abc. *)
Lemma grep_prints_matching_lines_witness :
  ∃ w', exec (@serve one_byte) (grep 100 (str "a.c") 0)
      (IO (λ _, file_of [str "abc"; str "axx"] (str "aac")) (λ _, [])) = (w', Returned tt) ∧
    inputs w' 0 = [] ∧ wrote 1 (str "abc" ++ nl) (IO (λ _, file_of [str "abc"; str "axx"] (str "aac")) (λ _, [])) w'.
Proof.
  apply (@grep_prints_matching_lines one_byte (str "a.c") 0 [str "abc"; str "axx"] (str "aac")).
  - repeat constructor; vm_compute; congruence.
  - repeat constructor; vm_compute; congruence.
  - reflexivity.
  - vm_compute. lia.
Defined.
