(* ===== verification/UserProgs.v ===== *)
(** The small user programs: cat, wc, echo, kill, ln, mkdir, rm, ls, init and the
    programs that exercise the scheduler and the file system.

    Each main() is a program in the sense of User.v that takes its argument
    strings, argv[0] first.  A loop without a bound takes the number of
    iterations to unroll; a loop that only spends time has no effect and is left
    out. *)

From Stdlib Require Import ZArith Lia ZifyBool Ascii.
From stdpp Require Import base numbers list strings.
From S2P Require Import Prelude Params CString Printf User.

(** ** cat *)

Definition cat_step (fd : Z) (_ : ()) : prog (() + ()) :=
  r ← sys_mem (Cread fd 512);
  let '(n, buf) := r in
  if 0 <? n then
    k ← sys (Cwrite 1 (take (Z.to_nat n) buf));
    if negb (k =? n) then fprintf 2 (str "cat: write error" ++ nl) [];; Exit 1
    else Return (inl tt)
  else if n <? 0 then fprintf 2 (str "cat: read error" ++ nl) [];; Exit 1
  else Return (inr tt).
Definition cat (fuel : nat) (fd : Z) : prog () := ploop fuel (cat_step fd) tt.

Definition cat_main (fuel : nat) (argv : list (list Z)) : prog Z :=
  if (length argv <=? 1)%nat then cat fuel 0;; Exit 0
  else
    pfor (tail argv) (λ arg,
      fd ← sys (Copen arg O_RDONLY);
      if fd <? 0 then fprintf 2 (str "cat: cannot open %s" ++ nl) [text arg];; Exit 1
      else cat fuel fd;; sys (Cclose fd);; Return tt);;
    Exit 0.

(** ** wc *)

Record counts := Counts { wc_l : Z; wc_w : Z; wc_c : Z; wc_inword : bool }.

(** strchr(" \r\t\n\v", c): a NUL in the input is not found. *)
Definition blanks : list Z := [32; 13; 9; 10; 11].

Definition count_byte (k : counts) (b : Z) : counts :=
  let c := i32 (wc_c k + 1) in
  let l := if b =? 10 then i32 (wc_l k + 1) else wc_l k in
  match Ulib.strchr blanks b with
  | Some _ => Counts l (wc_w k) c false
  | None => if negb (wc_inword k) then Counts l (i32 (wc_w k + 1)) c true else Counts l (wc_w k) c true
  end.

Definition wc_step (fd : Z) (name : list Z) (k : counts) : prog (counts + ()) :=
  r ← sys_mem (Cread fd 512);
  let '(n, buf) := r in
  if 0 <? n then Return (inl (fold_left count_byte (take (Z.to_nat n) buf) k))
  else if n <? 0 then printf (str "wc: read error" ++ nl) [];; Exit 1
  else
    printf (str "%d %d %d %s" ++ nl) [word (wc_l k); word (wc_w k); word (wc_c k); text name];;
    Return (inr tt).
Definition wc (fuel : nat) (fd : Z) (name : list Z) : prog () :=
  ploop fuel (wc_step fd name) (Counts 0 0 0 false).

Definition wc_main (fuel : nat) (argv : list (list Z)) : prog Z :=
  if (length argv <=? 1)%nat then wc fuel 0 [];; Exit 0
  else
    pfor (tail argv) (λ arg,
      fd ← sys (Copen arg O_RDONLY);
      if fd <? 0 then printf (str "wc: cannot open %s" ++ nl) [text arg];; Exit 1
      else wc fuel fd arg;; sys (Cclose fd);; Return tt);;
    Exit 0.

(** ** echo, kill, ln, mkdir, rm *)

Fixpoint echo_args (args : list (list Z)) : prog () :=
  match args with
  | [] => Return tt
  | arg :: rest =>
      sys (Cwrite 1 (take (Z.to_nat (Ulib.strlen arg)) arg));;
      sys (Cwrite 1 (match rest with [] => nl | _ => [32] end));;
      echo_args rest
  end.
Definition echo_main (argv : list (list Z)) : prog Z := echo_args (tail argv);; Exit 0.

Definition kill_main (argv : list (list Z)) : prog Z :=
  if (length argv <? 2)%nat then fprintf 2 (str "usage: kill pid..." ++ nl) [];; Exit 1
  else pfor (tail argv) (λ arg, sys (Ckill (Ulib.atoi arg));; Return tt);; Exit 0.

Definition ln_main (argv : list (list Z)) : prog Z :=
  match argv with
  | [_; old; new] =>
      r ← sys (Clink old new);
      whenp (r <? 0) (fprintf 2 (str "link %s %s: failed" ++ nl) [text old; text new]);;
      Exit 0
  | _ => fprintf 2 (str "Usage: ln old new" ++ nl) [];; Exit 1
  end.

Definition mkdir_main (argv : list (list Z)) : prog Z :=
  if (length argv <? 2)%nat then fprintf 2 (str "Usage: mkdir files..." ++ nl) [];; Exit 1
  else
    pfor_break (tail argv) (λ arg,
      r ← sys (Cmkdir arg);
      if r <? 0 then fprintf 2 (str "mkdir: %s failed to create" ++ nl) [text arg];; Return true
      else Return false);;
    Exit 0.

Definition rm_main (argv : list (list Z)) : prog Z :=
  if (length argv <? 2)%nat then fprintf 2 (str "Usage: rm files..." ++ nl) [];; Exit 1
  else
    pfor_break (tail argv) (λ arg,
      r ← sys (Cunlink arg);
      if r <? 0 then fprintf 2 (str "rm: %s failed to delete" ++ nl) [text arg];; Return true
      else Return false);;
    Exit 0.

(** ** ls *)

(** The fields of struct stat in its bytes. *)
Definition st_ino (st : list Z) : Z := le_value (slice 4 4 st).
Definition st_type (st : list Z) : Z := i16 (le_value (slice 8 2 st)).
Definition st_size (st : list Z) : Z := le_value (slice 16 8 st).

(** for(p=path+strlen(path); p >= path && *p != '/'; p--) ; p++; *)
Fixpoint before_slash (s : list Z) : list Z :=
  match s with
  | [] => []
  | c :: s => if c =? chr "/" then [] else c :: before_slash s
  end.
Definition last_name (path : list Z) : list Z := rev (before_slash (rev path)).

Definition fmtname (path : list Z) : list Z :=
  let p := last_name path in
  if DIRSIZ <=? Ulib.strlen p then p
  else p ++ replicate (Z.to_nat (DIRSIZ - Ulib.strlen p)) 32.

Definition ls_entry (path st : list Z) : prog () :=
  printf (str "%s %d %d %d" ++ nl)
    [text (fmtname path); word (st_type st); word (st_ino st); word (i32 (st_size st))].

(** One pass of while(read(fd, &de, sizeof(de)) == sizeof(de)); [dir] is buf up
    to p. *)
Definition ls_step (fd : Z) (dir : list Z) (_ : ()) : prog (() + ()) :=
  r ← sys_mem (Cread fd 16);
  let '(n, de) := r in
  if negb (n =? 16) then Return (inr tt)
  else if le_value (slice 0 2 de) =? 0 then Return (inl tt)
  else
    let buf := dir ++ Ulib.cstring (slice 2 (Z.to_nat DIRSIZ) de) in
    r ← Ulib.stat buf;
    let '(k, st) := r in
    if k <? 0 then printf (str "ls: cannot stat %s" ++ nl) [text buf];; Return (inl tt)
    else ls_entry buf st;; Return (inl tt).

Definition ls (fuel : nat) (path : list Z) : prog () :=
  fd ← sys (Copen path O_RDONLY);
  if fd <? 0 then fprintf 2 (str "ls: cannot open %s" ++ nl) [text path]
  else
    r ← sys_mem (Cfstat fd);
    let '(k, st) := r in
    if k <? 0 then
      fprintf 2 (str "ls: cannot stat %s" ++ nl) [text path];;
      sys (Cclose fd);; Return tt
    else
      (if (st_type st =? T_DEVICE) || (st_type st =? T_FILE) then ls_entry path st
       else if st_type st =? T_DIR then
         if 512 <? Ulib.strlen path + 1 + DIRSIZ + 1 then printf (str "ls: path too long" ++ nl) []
         else ploop fuel (ls_step fd (path ++ [chr "/"])) tt
       else Return tt);;
      sys (Cclose fd);; Return tt.

Definition ls_main (fuel : nat) (argv : list (list Z)) : prog Z :=
  if (length argv <? 2)%nat then ls fuel (str ".");; Exit 0
  else pfor (tail argv) (ls fuel);; Exit 0.

(** ** init *)

(** for(;;){ wpid = wait((int * ) 0); ... } *)
Definition init_wait (pid : Z) (_ : ()) : prog (() + ()) :=
  wpid ← sys (Cwait false);
  if wpid =? pid then Return (inr tt)
  else if wpid <? 0 then printf (str "init: wait returned an error" ++ nl) [];; Exit 1
  else Return (inl tt).

Definition init_step (fuel : nat) (_ : ()) : prog (() + Z) :=
  printf (str "init: starting sh" ++ nl) [];;
  pid ← sys Cfork;
  if pid <? 0 then printf (str "init: fork failed" ++ nl) [];; Exit 1
  else if pid =? 0 then
    sys (Cexec (str "sh") [str "sh"]);;
    printf (str "init: exec sh failed" ++ nl) [];;
    Exit 1
  else ploop fuel (init_wait pid) tt;; Return (inl tt).

Definition init_main (fuel : nat) : prog Z :=
  fd ← sys (Copen (str "console") O_RDWR);
  whenp (fd <? 0)
    (sys (Cmknod (str "console") CONSOLE 0);;
     sys (Copen (str "console") O_RDWR);; Return tt);;
  sys (Cdup 0);;
  sys (Cdup 0);;
  ploop fuel (init_step fuel) tt.

(** ** zombie, hello, ps, kdemo, iobound, cpuburn *)

Definition zombie_main : prog Z :=
  pid ← sys Cfork;
  whenp (0 <? pid) (sys (Cpause 5);; Return tt);;
  Exit 0.

Definition hello_main : prog Z :=
  sys Chello;;
  printf (str "user: hello() returned, back in user mode" ++ nl) [];;
  Exit 0.

Definition ps_main : prog Z := sys Cps;; Exit 0.

Definition kdemo_main : prog Z :=
  printf (str "user: call kalloc1()..." ++ nl) [];;
  sys Ckalloc1;;
  printf (str "user: call psx()..." ++ nl) [];;
  sys Cpsx;;
  Exit 0.

Definition iobound_main (fuel : nat) : prog Z :=
  ploop fuel (λ _ : (),
    printf (str "iobound: doing some I/O, then sleep" ++ nl) [];;
    sys (Cpause 50);;
    Return (inl tt)) tt.

Definition cpuburn_main (fuel : nat) : prog Z :=
  ploop fuel (λ i : Z,
    let i := i64 (i + 1) in
    whenp (i mod 100000000 =? 0) (printf (str "cpubound: still running, i=%d" ++ nl) [word (i32 i)]);;
    Return (inl i)) 0.

(** ** dorphan, forphan *)

(** for(;;) pause(1000); *)
Definition wait_for_kill (fuel : nat) : prog Z :=
  ploop fuel (λ _ : (), sys (Cpause 1000);; Return (inl tt)) tt.

Definition dorphan_main (fuel : nat) (argv : list (list Z)) : prog Z :=
  let s := hd [] argv in
  r ← sys (Cmkdir (str "dd"));
  if negb (r =? 0) then printf (str "%s: mkdir dd failed" ++ nl) [text s];; Exit 1 else
  r ← sys (Cchdir (str "dd"));
  if negb (r =? 0) then printf (str "%s: chdir dd failed" ++ nl) [text s];; Exit 1 else
  r ← sys (Cunlink (str "../dd"));
  if r <? 0 then printf (str "%s: unlink failed" ++ nl) [text s];; Exit 1 else
  printf (str "wait for kill and reclaim" ++ nl) [];;
  wait_for_kill fuel.

Definition forphan_main (fuel : nat) (argv : list (list Z)) : prog Z :=
  let s := hd [] argv in
  let ff := str "file0" in
  fd ← sys (Copen ff (Z.lor O_CREATE O_WRONLY));
  if fd <? 0 then printf (str "%s: open failed" ++ nl) [text s];; Exit 1 else
  r ← sys_mem (Cfstat fd);
  let '(k, st) := r in
  if k <? 0 then fprintf 2 (str "%s: cannot stat %s" ++ nl) [text s; text (str "ff")];; Exit 1 else
  r ← sys (Cunlink ff);
  if r <? 0 then printf (str "%s: unlink failed" ++ nl) [text s];; Exit 1 else
  r ← sys (Copen ff O_RDONLY);
  if negb (r =? -1) then printf (str "%s: open successed" ++ nl) [text s];; Exit 1 else
  printf (str "wait for kill and reclaim %d" ++ nl) [word (st_ino st)];;
  wait_for_kill fuel.

(** ** logstress, stressfs *)

Definition BUFSZ : Z := 500.
Definition logstress_N : nat := 250.
Definition SZ : Z := 2000.

(** The child that writes the [i]-th file: memset() and write() take [SZ] bytes of
    the array buf, which has [BUFSZ]; an access past its end is undefined. *)
Definition logstress_child (argv0 arg : list Z) (i : Z) : prog () :=
  fd ← sys (Copen arg (Z.lor O_CREATE O_RDWR));
  if fd <? 0 then printf (str "%s: create %s failed" ++ nl) [text argv0; text arg];; Exit 1
  else if BUFSZ <? SZ then Undef
  else
    pfor (seq 0 logstress_N) (λ _,
      n ← sys (Cwrite fd (replicate (Z.to_nat SZ) (u8 (chr "0" + i))));
      whenp (negb (n =? SZ)) (printf (str "write failed %d" ++ nl) [word n];; Exit 1));;
    Exit 0.

Definition logstress_main (argv : list (list Z)) : prog Z :=
  let argv0 := hd [] argv in
  pfor (zip (seqZ 1 (Z.of_nat (length argv) - 1)) (tail argv)) (λ '(i, arg),
    pid1 ← sys Cfork;
    if pid1 <? 0 then printf (str "%s: fork failed" ++ nl) [text argv0];; Exit 1
    else whenp (pid1 =? 0) (logstress_child argv0 arg i));;
  pfor (tail argv) (λ _,
    r ← sys_mem (Cwait true);
    let xstatus := i32 (le_value (snd r)) in
    whenp (negb (xstatus =? 0)) (Exit xstatus));;
  Return 0.

(** for(i = 0; i < 4; i++) if(fork() > 0) break; returns i. *)
Fixpoint stressfs_fork (n : nat) (i : Z) : prog Z :=
  match n with
  | O => Return i
  | S n =>
      pid ← sys Cfork;
      if 0 <? pid then Return i else stressfs_fork n (i + 1)
  end.

Definition stressfs_main : prog Z :=
  printf (str "stressfs starting" ++ nl) [];;
  let data := replicate 512 (chr "a") in
  i ← stressfs_fork 4 0;
  printf (str "write %d" ++ nl) [word i];;
  let path := str "stressfs" ++ [u8 (chr "0" + i)] in
  fd ← sys (Copen path (Z.lor O_CREATE O_RDWR));
  pfor (seq 0 20) (λ _, sys (Cwrite fd data);; Return tt);;
  sys (Cclose fd);;
  printf (str "read" ++ nl) [];;
  fd ← sys (Copen path O_RDONLY);
  pfor (seq 0 20) (λ _, sys (Cread fd 512);; Return tt);;
  sys (Cclose fd);;
  sys (Cwait false);;
  Exit 0.

(** ** forktest *)

Definition print (s : list Z) : prog () := sys (Cwrite 1 (take (Z.to_nat (Ulib.strlen s)) s));; Return tt.

Definition forktest_N : nat := 1000.

(** for(n=0; n<N; n++) {...}: the value of n after the loop; [k] is N - n. *)
Fixpoint forktest_fork (k : nat) (n : Z) : prog Z :=
  match k with
  | O => Return n
  | S k =>
      pid ← sys Cfork;
      if pid <? 0 then Return n
      else if pid =? 0 then Exit 0
      else forktest_fork k (n + 1)
  end.

Definition forktest : prog () :=
  print (str "fork test" ++ nl);;
  n ← forktest_fork forktest_N 0;
  if n =? Z.of_nat forktest_N then print (str "fork claimed to work N times!" ++ nl);; Exit 1 else
  pfor (seq 0 (Z.to_nat n)) (λ _,
    r ← sys (Cwait false);
    whenp (r <? 0) (print (str "wait stopped early" ++ nl);; Exit 1));;
  r ← sys (Cwait false);
  if negb (r =? -1) then print (str "wait got too many" ++ nl);; Exit 1
  else print (str "fork test OK" ++ nl).

Definition forktest_main : prog Z := forktest;; Exit 0.

(** ** The scheduler tests: fcfstes, test2, pbstest *)

Definition fcfstes_main : prog Z :=
  printf (str "FCFS starvation test started" ++ nl) [];;
  pid ← sys Cfork;
  (if pid =? 0 then
     me ← sys Cgetpid;
     printf (str "Long process started (PID=%d)" ++ nl) [word me];;
     printf (str "Long process done" ++ nl) [];;
     Exit 0
   else Return tt);;
  sys (Cpause 10);;
  pfor (seqZ 0 5) (λ i,
    p ← sys Cfork;
    if p =? 0 then
      me ← sys Cgetpid;
      printf (str "Short process %d started (PID=%d)" ++ nl) [word i; word me];;
      sys (Cpause 20);;
      printf (str "Short process %d finished" ++ nl) [word i];;
      Exit 0
    else Return tt);;
  pfor (seqZ 0 50) (λ i,
    sys (Cpause 10);;
    printf (str "==== ps at iteration %d ====" ++ nl) [word i];;
    sys Cps;; Return tt);;
  pfor (seqZ 0 6) (λ _, sys (Cwait false);; Return tt);;
  Exit 0.

(** The low-priority worker of test2. *)
Definition low_worker (fuel : nat) : prog () :=
  me ← sys Cgetpid;
  sys (Csetpriority me 90);;
  ploop fuel (λ iter : Z,
    whenp (iter mod 100 =? 0) (printf (str "low-worker running iter=%d" ++ nl) [word iter]);;
    sys (Cpause 1);;
    Return (inl (i32 (iter + 1)))) 0.

Definition test2_main (fuel : nat) : prog Z :=
  lowpid ← sys Cfork;
  whenp (lowpid =? 0) (low_worker fuel);;
  pfor (seqZ 0 300) (λ _,
    pid ← sys Cfork;
    if pid =? 0 then
      me ← sys Cgetpid;
      sys (Csetpriority me 5);;
      Exit 0
    else if 0 <? pid then sys (Cpause 0);; Return tt
    else printf (str "fork failed" ++ nl) []);;
  pfor (seqZ 0 30) (λ t,
    sys (Cpause 2);;
    printf (str "--- PS at t=%d ---" ++ nl) [word t];;
    sys Cps;; Return tt);;
  sys (Ckill lowpid);;
  pfor (seqZ 0 300) (λ _, sys (Cwait false);; Return tt);;
  Return 0.

(** Child 0 computes, the others pause between the prints. *)
Definition child_work (fuel : nat) (id : Z) : prog () :=
  if id =? 0 then
    ploop fuel (λ x : Z,
      let x := u64 (x + 1) in
      whenp (Z.land x 0x3fffff =? 0) (printf (str "child %d busy tick" ++ nl) [word id]);;
      Return (inl x)) 0
  else
    ploop fuel (λ tick : Z,
      whenp (tick mod 50 =? 0) (printf (str "child %d tick %d" ++ nl) [word id; word tick]);;
      sys (Cpause 1);;
      Return (inl (i32 (tick + 1)))) 0.

(** The loop that starts the children and records their pids; child_work() does
    not return, so that the child records nothing. *)
Fixpoint pbstest_start (fuel : nat) (ids : list Z) : prog (list Z) :=
  match ids with
  | [] => Return []
  | i :: ids =>
      pid ← sys Cfork;
      if pid =? 0 then
        child_work fuel i;;
        pbstest_start fuel ids
      else
        sys (Csetpriority pid (if i =? 0 then 10 else if i =? 1 then 60 else 90));;
        pids ← pbstest_start fuel ids;
        Return (pid :: pids)
  end.

Definition pbstest_main (fuel : nat) : prog Z :=
  pids ← pbstest_start fuel (seqZ 0 3);
  pfor (seqZ 0 50) (λ t,
    sys (Cpause 10);;
    printf (str "--- PS at t=%d ---" ++ nl) [word t];;
    sys Cps;; Return tt);;
  pfor pids (λ pid, sys (Ckill pid);; Return tt);;
  pfor (seqZ 0 3) (λ _, sys (Cwait false);; Return tt);;
  Return 0.

(** ** Properties *)

(** The counts wc prints: newlines, and positions where a word begins. *)
Definition newlines (l : list Z) : Z := Z.of_nat (length (filter (λ c, c = 10) l)).

(** [prev] says that the byte before the first one belongs to a word. *)
Fixpoint word_starts (prev : bool) (l : list Z) : Z :=
  match l with
  | [] => 0
  | c :: l =>
      let inside := bool_decide (c ∉ blanks) in
      (if inside && negb prev then 1 else 0) + word_starts inside l
  end.

Lemma word_starts_bound prev l : 0 ≤ word_starts prev l ≤ Z.of_nat (length l).
Proof.
  revert prev. induction l as [|c l IH]; intros prev; cbn [word_starts length]; [lia|].
  specialize (IH (bool_decide (c ∉ blanks))). destruct (_ && _); lia.
Qed.

Lemma newlines_cons c l : newlines (c :: l) = (if c =? 10 then 1 else 0) + newlines l.
Proof.
  unfold newlines. rewrite filter_cons. destruct (Z.eqb_spec c 10).
  - rewrite decide_True by done. cbn [length]. lia.
  - by rewrite decide_False.
Qed.

Lemma newlines_app l l' : newlines (l ++ l') = newlines l + newlines l'.
Proof. unfold newlines. rewrite filter_app, length_app. lia. Qed.

Lemma newlines_bound l : 0 ≤ newlines l ≤ Z.of_nat (length l).
Proof. unfold newlines. pose proof (length_filter (λ c, c = 10) l). lia. Qed.

Lemma count_byte_ok k c :
  0 ≤ wc_l k < 2 ^ 31 - 1 → 0 ≤ wc_w k < 2 ^ 31 - 1 → 0 ≤ wc_c k < 2 ^ 31 - 1 →
  let inside := bool_decide (c ∉ blanks) in
  count_byte k c =
    Counts (wc_l k + if c =? 10 then 1 else 0)
      (wc_w k + if inside && negb (wc_inword k) then 1 else 0) (wc_c k + 1) inside.
Proof.
  intros Hl Hw Hc inside. unfold count_byte.
  assert (Hi : ∀ z, 0 ≤ z < 2 ^ 31 - 1 → i32 (z + 1) = z + 1).
  { intros z Hz. unfold i32, swrap. change (2 ^ (32 - 1)) with 2147483648. change (2 ^ 31) with 2147483648 in Hz.
    change (2 ^ 32) with 4294967296. rewrite Z.mod_small; lia. }
  assert (Hin : inside = match Ulib.strchr blanks c with Some _ => false | None => true end).
  { subst inside. destruct (Ulib.strchr blanks c) eqn:E; [apply bool_decide_eq_false|apply bool_decide_eq_true].
    - intros Hn. apply strchr_None in Hn. congruence.
    - by apply strchr_None. }
  rewrite Hin, !Hi by done. destruct (Ulib.strchr blanks c), (c =? 10), (wc_inword k); cbn; f_equal; lia.
Qed.

Lemma count_bytes_ok l k :
  0 ≤ wc_l k → 0 ≤ wc_w k → wc_l k ≤ wc_c k → wc_w k ≤ wc_c k →
  wc_c k + Z.of_nat (length l) < 2 ^ 31 →
  ∃ b, fold_left count_byte l k =
    Counts (wc_l k + newlines l) (wc_w k + word_starts (wc_inword k) l) (wc_c k + Z.of_nat (length l)) b ∧
    ∀ l', word_starts (wc_inword k) (l ++ l') = word_starts (wc_inword k) l + word_starts b l'.
Proof.
  revert k. induction l as [|c l IH]; intros k Hl Hw Hlc Hwc Hc; cbn [fold_left length].
  - exists (wc_inword k). split; [|by intros]. destruct k. change (newlines []) with 0. cbn. f_equal; lia.
  - cbn [length] in Hc. rewrite count_byte_ok by lia.
    set (inside := bool_decide (c ∉ blanks)).
    destruct (IH (Counts (wc_l k + if c =? 10 then 1 else 0)
      (wc_w k + if inside && negb (wc_inword k) then 1 else 0) (wc_c k + 1) inside)) as (b & E & Hb); cbn [wc_l wc_w wc_c wc_inword];
      try (destruct (c =? 10), (inside && negb (wc_inword k)); lia).
    exists b. rewrite E. cbn [wc_l wc_w wc_c wc_inword] in *. split.
    + rewrite newlines_cons. cbn [word_starts]. fold inside. f_equal; lia.
    + intros l'. cbn [app word_starts]. fold inside. rewrite Hb. lia.
Qed.

Section streams.
Context {CH : Chunks}.

Lemma cat_ok fd w n :
  (length (inputs w fd) < n)%nat → ∃ w',
  exec serve (ploop n (cat_step fd) tt) w = (w', Returned tt) ∧
  inputs w' fd = [] ∧ wrote 1 (inputs w fd) w w'.
Proof.
  revert w. induction n as [|n IH]; intros w Hn; [lia|]. cbn [ploop]. rewrite exec_bind. unfold cat_step at 1.
  destruct (serve_read w fd 512) as (w1&bs&E1&Hin&Hout&_&_&Heof); [lia|].
  cbn [sys_mem mbind prog_bind pbind exec]. rewrite E1. cbn [ret stored]. destruct bs as [|b bs].
  - exists w1. rewrite Heof in * by done. destruct (inputs w1 fd); [|done].
    split_and!; [done|done|]. by apply wrote_nil.
  - rewrite (proj2 (Z.ltb_lt 0 _)) by (cbn; lia). rewrite Nat2Z.id, take_ge by done.
    cbn [sys mbind prog_bind pbind exec]. destruct (serve_write w1 1 (b :: bs)) as (w2&->&Hi2&Hw2).
    cbn [ret]. rewrite Z.eqb_refl. cbn [negb exec].
    destruct (IH w2) as (w3&E3&Hi3&Hw3).
    { rewrite Hi2. rewrite Hin in Hn. cbn in Hn. rewrite length_app in Hn. lia. }
    exists w3. split_and!; [done|done|]. rewrite Hin, <-Hi2. eapply wrote_trans; [|done].
    intros f. by rewrite Hw2, Hout.
Qed.

Lemma wc_ok fd name w k n out :
  0 ≤ wc_l k → 0 ≤ wc_w k → wc_l k ≤ wc_c k → wc_w k ≤ wc_c k →
  wc_c k + Z.of_nat (length (inputs w fd)) < 2 ^ 31 →
  (length (inputs w fd) < n)%nat →
  User.vprintf false (str "%d %d %d %s" ++ nl)
    [word (wc_l k + newlines (inputs w fd)); word (wc_w k + word_starts (wc_inword k) (inputs w fd));
     word (wc_c k + Z.of_nat (length (inputs w fd))); text name] = Some out → ∃ w',
  exec serve (ploop n (wc_step fd name) k) w = (w', Returned tt) ∧
  inputs w' fd = [] ∧ wrote 1 out w w'.
Proof.
  revert w k. induction n as [|n IH]; intros w k Hl Hw Hlc Hwc Hc Hn Hf; [lia|].
  cbn [ploop]. rewrite exec_bind. unfold wc_step at 1.
  destruct (serve_read w fd 512) as (w1&bs&E1&Hin&Hout&_&_&Heof); [lia|].
  cbn [sys_mem mbind prog_bind pbind exec]. rewrite E1. cbn [ret stored]. destruct bs as [|b bs].
  - rewrite Heof in * by done. destruct (inputs w1 fd) eqn:Ei1; [|done].
    change (0 <? Z.of_nat (length (@nil Z))) with false. change (Z.of_nat (length (@nil Z)) <? 0) with false.
    change (newlines []) with 0 in Hf. cbn [word_starts length Z.of_nat] in Hf. rewrite !Z.add_0_r in Hf.
    destruct (exec_fprintf 1 _ _ out w1 Hf) as (w2&E2&Hi2&Hw2). exists w2.
    rewrite exec_bind. unfold printf. rewrite E2. split_and!; [done|by rewrite Hi2|].
    intros f. by rewrite Hw2, Hout.
  - rewrite (proj2 (Z.ltb_lt 0 _)) by (cbn; lia). rewrite Nat2Z.id, take_ge by done. cbn [exec].
    rewrite Hin, length_app in Hc, Hn.
    destruct (count_bytes_ok (b :: bs) k) as (inw&Ek&Hws); [done..|lia|]. rewrite Ek.
    destruct (IH w1 (Counts (wc_l k + newlines (b :: bs)) (wc_w k + word_starts (wc_inword k) (b :: bs))
      (wc_c k + Z.of_nat (length (b :: bs))) inw)) as (w2&E2&Hi2&Hw2); cbn [wc_l wc_w wc_c wc_inword].
    all: pose proof (newlines_bound (b :: bs)); pose proof (word_starts_bound (wc_inword k) (b :: bs)); try lia.
    + cbn [length] in Hn. lia.
    + rewrite <-Hf, Hin, Hws, length_app, newlines_app. rewrite Nat2Z.inj_add, !Z.add_assoc. reflexivity.
    + exists w2. split_and!; [done|done|]. intros f. by rewrite Hw2, Hout.
Qed.

(** cat copies its input to descriptor 1, however the kernel cuts it. *)
Theorem cat_copies fd w fuel :
  (length (inputs w fd) < fuel)%nat → ∃ w',
  exec serve (cat fuel fd) w = (w', Returned tt) ∧ inputs w' fd = [] ∧ wrote 1 (inputs w fd) w w'.
Proof. apply cat_ok. Qed.

(** C40: on less than 2 GB of input, wc prints the number of newlines, the
    number of positions where a word begins, and the number of bytes, however
    the kernel cuts the input into pieces: a word that spans two reads counts
    once. *)
Theorem wc_counts fd name w fuel out :
  Z.of_nat (length (inputs w fd)) < 2 ^ 31 → (length (inputs w fd) < fuel)%nat →
  User.vprintf false (str "%d %d %d %s" ++ nl)
    [word (newlines (inputs w fd)); word (word_starts false (inputs w fd));
     word (Z.of_nat (length (inputs w fd))); text name] = Some out → ∃ w',
  exec serve (wc fuel fd name) w = (w', Returned tt) ∧ inputs w' fd = [] ∧ wrote 1 out w w'.
Proof. intros. by apply wc_ok. Qed.

End streams.

Lemma wc_counts_witness : ∃ w',
  exec (@serve greedy) (wc 100 0 (str "f")) (IO (λ _, str "ab  c" ++ nl ++ str "d") (λ _, [])) = (w', Returned tt) ∧
  inputs w' 0 = [] ∧ wrote 1 (str "1 3 7 f" ++ nl) (IO (λ _, str "ab  c" ++ nl ++ str "d") (λ _, [])) w'.
Proof.
  apply (@wc_counts greedy); [vm_compute; reflexivity|vm_compute; lia|vm_compute; reflexivity].
Defined.

(** The child of logstress has undefined behaviour as soon as its open() succeeds. *)
Lemma logstress_child_undefined argv0 arg i fd : 0 ≤ fd →
  ∃ k, logstress_child argv0 arg i = Sys (Copen arg (Z.lor O_CREATE O_RDWR)) k ∧
    k (Reply fd []) = Undef.
Proof.
  intros Hfd. eexists. split; [reflexivity|]. cbn [ret mbind prog_bind pbind].
  by rewrite (proj2 (Z.ltb_ge fd 0) Hfd).
Qed.
