(* ===== verification/Shell.v ===== *)
(** The shell, user/sh.c: the parser, the commands it builds and their execution.

    The parser works on the bytes of the command line; a char pointer into the
    line is an index, and the byte at the index of the end is the NUL.  A command
    holds its words as [A]: the parser builds commands whose words are pairs of
    pointers, and [nulterminate] cuts the line at the end of each word, so that
    runcmd() finds C strings.  The constructors allocate with malloc(), whose
    result the source does not test; they are the constructors of [cmd]. *)

From Stdlib Require Import ZArith Lia ZifyBool Ascii.
From stdpp Require Import base numbers list strings.
From S2P Require Import Prelude Params Printf User.

Definition MAXARGS : nat := 10.

Inductive cmd (A : Type) : Type :=
  | EXEC (argv : list A)
  | REDIR (c : cmd A) (file : A) (mode fd : Z)
  | PIPE (left right : cmd A)
  | LIST (left right : cmd A)
  | BACK (c : cmd A).
Arguments EXEC {A} argv.
Arguments REDIR {A} c file mode fd.
Arguments PIPE {A} left right.
Arguments LIST {A} left right.
Arguments BACK {A} c.

Global Instance cmd_fmap : FMap cmd :=
  fix go {A B} (f : A → B) (c : cmd A) : cmd B :=
    match c with
    | EXEC argv => EXEC (f <$> argv)
    | REDIR c file mode fd => REDIR (go f c) (f file) mode fd
    | PIPE l r => PIPE (go f l) (go f r)
    | LIST l r => LIST (go f l) (go f r)
    | BACK c => BACK (go f c)
    end.

(** ** Running commands *)

Definition panic {A} (s : list Z) : prog A := fprintf 2 (str "%s" ++ nl) [text s];; Exit 1.

Definition fork1 : prog Z :=
  pid ← sys Cfork;
  if pid =? -1 then panic (str "fork") else Return pid.

(** runcmd() of a command that is not 0; it never returns. *)
Fixpoint runcmd (c : cmd (list Z)) : prog () :=
  match c with
  | EXEC argv =>
      match argv with
      | [] => Exit 1
      | argv0 :: _ =>
          sys (Cexec argv0 argv);;
          fprintf 2 (str "exec %s failed" ++ nl) [text argv0];;
          Exit 0
      end
  | REDIR c file mode fd =>
      sys (Cclose fd);;
      r ← sys (Copen file mode);
      if r <? 0 then fprintf 2 (str "open %s failed" ++ nl) [text file];; Exit 1
      else runcmd c;; Exit 0
  | LIST l r =>
      pid ← fork1;
      whenp (pid =? 0) (runcmd l);;
      sys (Cwait false);;
      runcmd r;;
      Exit 0
  | PIPE l r =>
      p ← sys_mem Cpipe;
      let p0 := i32 (le_value (slice 0 4 (snd p))) in
      let p1 := i32 (le_value (slice 4 4 (snd p))) in
      if fst p <? 0 then panic (str "pipe") else
      pid ← fork1;
      whenp (pid =? 0)
        (sys (Cclose 1);; sys (Cdup p1);; sys (Cclose p0);; sys (Cclose p1);; runcmd l);;
      pid ← fork1;
      whenp (pid =? 0)
        (sys (Cclose 0);; sys (Cdup p0);; sys (Cclose p0);; sys (Cclose p1);; runcmd r);;
      sys (Cclose p0);;
      sys (Cclose p1);;
      sys (Cwait false);;
      sys (Cwait false);;
      Exit 0
  | BACK c =>
      pid ← fork1;
      whenp (pid =? 0) (runcmd c);;
      Exit 0
  end.

(** ** The parser *)

Definition whitespace : list Z := [32; 9; 13; 10; 11].
Definition symbols : list Z := str "<|>&;()".

(** strchr(s, c) as a condition. *)
Definition in_set (s : list Z) (c : Z) : bool :=
  match Ulib.strchr s c with Some _ => true | None => false end.

(** The byte a pointer points to. *)
Definition byte_at (s : list Z) (p : nat) : Z := default 0 (s !! p).

(** How many bytes from the front of [l] on satisfy [f]. *)
Fixpoint span (f : Z → bool) (l : list Z) : nat :=
  match l with
  | [] => 0
  | c :: l => if f c then S (span f l) else 0
  end.

(** while(s < es && strchr(whitespace, *s)) s++; *)
Definition skip_space (s : list Z) (p : nat) : nat := (p + span (in_set whitespace) (drop p s))%nat.

Definition is_word (c : Z) : bool := negb (in_set whitespace c) && negb (in_set symbols c).

(** gettoken(): the token, its first byte and its end, and the new pointer. *)
Record token := Token { tok : Z; tq : nat; teq : nat; tp : nat }.

Definition gettoken (s : list Z) (p : nat) : token :=
  let q := skip_space s p in
  let c := byte_at s q in
  let '(t, e) :=
    if c =? 0 then (0, q)
    else if in_set (str "|();&<") c then (c, S q)
    else if c =? chr ">" then
      if byte_at s (S q) =? chr ">" then (chr "+", S (S q)) else (chr ">", S q)
    else (chr "a", (q + span is_word (drop q s))%nat) in
  Token t q e (skip_space s e).

(** peek(): whether the next byte is one of [toks]; the pointer moves to it. *)
Definition peek (s : list Z) (p : nat) (toks : list Z) : bool * nat :=
  let p := skip_space s p in
  (negb (byte_at s p =? 0) && in_set toks (byte_at s p), p).

Abbreviation pcmd := (cmd (nat * nat)).

(** One pass of the loop of parseredirs(). *)
Definition redir_step (s : list Z) (st : pcmd * nat) : prog (pcmd * nat + pcmd * nat) :=
  let '(c, p) := st in
  let '(b, p) := peek s p (str "<>") in
  if negb b then Return (inr (c, p))
  else
    let t := gettoken s p in
    let f := gettoken s (tp t) in
    if negb (tok f =? chr "a") then panic (str "missing file for redirection")
    else
      let file := (tq f, teq f) in
      let c :=
        if tok t =? chr "<" then REDIR c file O_RDONLY 0
        else if tok t =? chr ">" then REDIR c file (Z.lor (Z.lor O_WRONLY O_CREATE) O_TRUNC) 1
        else if tok t =? chr "+" then REDIR c file (Z.lor O_WRONLY O_CREATE) 1
        else c in
      Return (inl (c, tp f)).
Definition parseredirs (n : nat) (c : pcmd) (s : list Z) (p : nat) : prog (pcmd * nat) :=
  ploop n (redir_step s) (c, p).

(** cmd->argv[argc] = q; cmd->eargv[argc] = eq; where cmd is the execcmd that the
    redirections in ret enclose. *)
Fixpoint add_arg {A} (ret : cmd A) (w : A) : cmd A :=
  match ret with
  | EXEC argv => EXEC (argv ++ [w])
  | REDIR c file mode fd => REDIR (add_arg c w) file mode fd
  | _ => ret
  end.

(** One pass of the loop of parseexec(); the state is ret, argc and the pointer. *)
Definition exec_step (n : nat) (s : list Z) (st : pcmd * nat * nat) : prog (pcmd * nat * nat + pcmd * nat) :=
  let '(ret, argc, p) := st in
  let '(b, p) := peek s p (str "|)&;") in
  if b then Return (inr (ret, p))
  else
    let t := gettoken s p in
    if tok t =? 0 then Return (inr (ret, tp t))
    else if negb (tok t =? chr "a") then panic (str "syntax")
    else
      let ret := add_arg ret (tq t, teq t) in
      let argc := S argc in
      if (MAXARGS <=? argc)%nat then panic (str "too many args")
      else
        r ← parseredirs n ret s (tp t);
        Return (inl (fst r, argc, snd r)).

(** while(peek(ps, es, "&")){ gettoken(ps, es, 0, 0); cmd = backcmd(cmd); } *)
Definition back_step (s : list Z) (st : pcmd * nat) : prog (pcmd * nat + pcmd * nat) :=
  let '(c, p) := st in
  let '(b, p) := peek s p (str "&") in
  if b then Return (inl (BACK c, tp (gettoken s p))) else Return (inr (c, p)).

Fixpoint parseline (n : nat) (s : list Z) (p : nat) : prog (pcmd * nat) :=
  match n with
  | O => OutOfFuel
  | S n =>
      r ← parsepipe n s p;
      r ← ploop n (back_step s) r;
      let '(c, p) := r in
      let '(b, p) := peek s p (str ";") in
      if b then
        r ← parseline n s (tp (gettoken s p));
        Return (LIST c (fst r), snd r)
      else Return (c, p)
  end

with parsepipe (n : nat) (s : list Z) (p : nat) : prog (pcmd * nat) :=
  match n with
  | O => OutOfFuel
  | S n =>
      r ← parseexec n s p;
      let '(c, p) := r in
      let '(b, p) := peek s p (str "|") in
      if b then
        r ← parsepipe n s (tp (gettoken s p));
        Return (PIPE c (fst r), snd r)
      else Return (c, p)
  end

with parseexec (n : nat) (s : list Z) (p : nat) : prog (pcmd * nat) :=
  match n with
  | O => OutOfFuel
  | S n =>
      let '(b, p) := peek s p (str "(") in
      if b then parseblock n s p
      else
        r ← parseredirs n (EXEC []) s p;
        ploop n (exec_step n s) (fst r, O, snd r)
  end

with parseblock (n : nat) (s : list Z) (p : nat) : prog (pcmd * nat) :=
  match n with
  | O => OutOfFuel
  | S n =>
      let '(b, p) := peek s p (str "(") in
      if negb b then panic (str "parseblock")
      else
        r ← parseline n s (tp (gettoken s p));
        let '(c, p) := r in
        let '(b, p) := peek s p (str ")") in
        if negb b then panic (str "syntax - missing )")
        else parseredirs n c s (tp (gettoken s p))
  end.

(** nulterminate(): the line after a NUL has been stored at the end of each word. *)
Fixpoint nulterminate (c : pcmd) (buf : list Z) : list Z :=
  match c with
  | EXEC argv => fold_left (λ buf w, <[snd w := 0]> buf) argv buf
  | REDIR c file _ _ => <[snd file := 0]> (nulterminate c buf)
  | PIPE l r | LIST l r => nulterminate r (nulterminate l buf)
  | BACK c => nulterminate c buf
  end.

(** parsecmd(): the command and the line it points into, its NUL included. *)
Definition parsecmd (n : nat) (s : list Z) : prog (pcmd * list Z) :=
  r ← parseline n s 0;
  let '(c, p) := r in
  let '(_, p) := peek s p [] in
  if negb (p =? length s)%nat then
    fprintf 2 (str "leftovers: %s" ++ nl) [text (drop p s)];;
    panic (str "syntax")
  else Return (c, nulterminate c (s ++ [0])).

(** The strings that runcmd() finds where the words of a command point. *)
Definition strings (buf : list Z) (c : pcmd) : cmd (list Z) :=
  (λ w, Ulib.cstring (drop (fst w) buf)) <$> c.

(** ** The main loop *)

(** getcmd(): the line read, or None where it returns -1. *)
Definition getcmd (nbuf : Z) : prog (option (list Z)) :=
  sys (Cwrite 2 (str "$ "));;
  bs ← Ulib.gets nbuf;
  Return (match Ulib.cstring bs with [] => None | s => Some s end).

(** Bytes that suffice for the recursion and the loops of the parser. *)
Definition parse_fuel (s : list Z) : nat := (4 * length s + 4)%nat.

(** The command with which the shell treats one line. *)
Definition sh_line (buf : list Z) : prog () :=
  let cmd := drop (span (λ c, (c =? 32) || (c =? 9)) buf) buf in
  if byte_at cmd 0 =? 10 then Return tt
  else if (byte_at cmd 0 =? chr "c") && (byte_at cmd 1 =? chr "d") && (byte_at cmd 2 =? 32) then
    let dir := drop 3 (removelast cmd) in
    r ← sys (Cchdir dir);
    whenp (r <? 0) (fprintf 2 (str "cannot cd %s" ++ nl) [text dir])
  else
    pid ← fork1;
    (if pid =? 0 then
       r ← parsecmd (parse_fuel cmd) cmd;
       let '(c, buf) := r in
       runcmd (strings buf c)
     else Return tt);;
    sys (Cwait false);;
    Return tt.

Definition sh_main (fuel : nat) : prog Z :=
  ploop fuel (λ _ : (),
    fd ← sys (Copen (str "console") O_RDWR);
    if fd <? 0 then Return (inr tt)
    else if 3 <=? fd then sys (Cclose fd);; Return (inr tt)
    else Return (inl tt)) tt;;
  ploop fuel (λ _ : (),
    l ← getcmd 100;
    match l with
    | None => Return (inr tt)
    | Some buf => sh_line buf;; Return (inl tt)
    end) tt;;
  Exit 0.

(** ** The parser ends on every line, and its words are words of the line *)

(** The text of a word that a command points to. *)
Definition word_text (s : list Z) (w : nat * nat) : list Z := take (snd w - fst w) (drop (fst w) s).

(** A word is not empty, lies in the line, and is as long as it can be. *)
Record word_ok (s : list Z) (w : nat * nat) : Prop := {
  wk_pos : (fst w < snd w ≤ length s)%nat;
  wk_word : ∀ i, (fst w ≤ i < snd w)%nat → is_word (byte_at s i) = true;
  wk_end : (snd w < length s)%nat → is_word (byte_at s (snd w)) = false;
}.

Fixpoint cmd_ok (s : list Z) (c : pcmd) : Prop :=
  match c with
  | EXEC argv => Forall (word_ok s) argv ∧ (length argv < MAXARGS)%nat
  | REDIR c file _ _ => cmd_ok s c ∧ word_ok s file
  | PIPE l r | LIST l r => cmd_ok s l ∧ cmd_ok s r
  | BACK c => cmd_ok s c
  end.

Lemma span_le f l : (span f l ≤ length l)%nat.
Proof. induction l as [|c l IH]; cbn; [lia|]. destruct (f c); lia. Qed.

Lemma span_all f l i c : (i < span f l)%nat → l !! i = Some c → f c = true.
Proof.
  revert i. induction l as [|d l IH]; intros i Hi Hl; [done|]. cbn in Hi.
  destruct (f d) eqn:E; [|lia]. destruct i as [|i]; [by simplify_eq/=|]. apply (IH i); [lia|done].
Qed.

Lemma span_end f l c : l !! span f l = Some c → f c = false.
Proof. induction l as [|d l IH]; [done|]. cbn. destruct (f d) eqn:E; [done|]. by intros [= <-]. Qed.

Lemma span_app f l1 l2 : Forall (λ c, f c = true) l1 → span f (l1 ++ l2) = (length l1 + span f l2)%nat.
Proof. induction 1 as [|c l1 Hc Hl IH]; [done|]. cbn. by rewrite Hc, IH. Qed.

Lemma span_stop f c l : f c = false → span f (c :: l) = 0%nat.
Proof. intros E. cbn. by rewrite E. Qed.

Lemma byte_at_lookup s p : (p < length s)%nat → s !! p = Some (byte_at s p).
Proof. intros Hp. unfold byte_at. by destruct (lookup_lt_is_Some_2 s p Hp) as [c ->]. Qed.

Lemma byte_at_end s p : (length s ≤ p)%nat → byte_at s p = 0.
Proof. intros Hp. unfold byte_at. by rewrite lookup_ge_None_2. Qed.

(** The byte a scan stops at. *)
Lemma span_stop_at f s p :
  (p ≤ length s)%nat → let e := (p + span f (drop p s))%nat in
  (p ≤ e ≤ length s)%nat ∧ (∀ i, (p ≤ i < e)%nat → f (byte_at s i) = true) ∧
  ((e < length s)%nat → f (byte_at s e) = false).
Proof.
  intros Hp e. pose proof (span_le f (drop p s)) as Hle. rewrite length_drop in Hle. split_and!; [lia|lia| |].
  - intros i Hi. apply (span_all f (drop p s) (i - p)); [lia|]. rewrite lookup_drop.
    replace (p + (i - p))%nat with i by lia. apply byte_at_lookup. lia.
  - intros He. apply (span_end f (drop p s)). rewrite lookup_drop. by apply byte_at_lookup.
Qed.

Lemma skip_space_bounds s p : (p ≤ length s)%nat → (p ≤ skip_space s p ≤ length s)%nat.
Proof. intros Hp. by apply (span_stop_at (in_set whitespace) s p). Qed.

Lemma in_set_symbols c : in_set symbols c = in_set (str "|();&<") c || (c =? chr ">").
Proof.
  unfold in_set. cbn. repeat (match goal with |- context [?a =? c] => destruct (Z.eqb_spec a c) end; subst; try done).
  symmetry. apply Z.eqb_neq. congruence.
Qed.

Section line.
Variable s : list Z.
Hypothesis Hnul : Forall (λ c, c ≠ 0) s.

Lemma byte_at_inside p : (p ≤ length s)%nat → byte_at s p ≠ 0 ↔ (p < length s)%nat.
Proof.
  intros Hp. split.
  - intros Hb. destruct (decide (p < length s)%nat); [done|]. by rewrite byte_at_end in Hb by lia.
  - intros Hlt. apply (Forall_lookup_1 _ _ _ _ Hnul (byte_at_lookup s p Hlt)).
Qed.

(** A token at the pointer: it takes at least one byte unless the line is used up. *)
Record token_ok (p : nat) (t : token) : Prop := {
  to_pos : (p ≤ tp t ≤ length s)%nat;
  to_eof : tok t = 0 → byte_at s (skip_space s p) = 0;
  to_adv : tok t ≠ 0 → (p < tp t)%nat;
  to_word : tok t = chr "a" → word_ok s (tq t, teq t);
}.

Lemma gettoken_ok p : (p ≤ length s)%nat → token_ok p (gettoken s p).
Proof.
  intros Hp. unfold gettoken.
  destruct (span_stop_at (in_set whitespace) s p Hp) as (Hq & _ & Hws). fold (skip_space s p) in Hq, Hws.
  set (q := skip_space s p) in *. set (c := byte_at s q) in *.
  assert (Hskip : ∀ e, (q ≤ e ≤ length s)%nat → (e ≤ skip_space s e ≤ length s)%nat)
    by (intros; apply skip_space_bounds; lia).
  destruct (Z.eqb_spec c 0) as [Hc|Hc].
  { split; cbn [tok tq teq tp]; try done. specialize (Hskip q ltac:(lia)). lia. }
  pose proof (proj1 (byte_at_inside q (proj2 Hq)) Hc) as Hlt.
  destruct (in_set (str "|();&<") c) eqn:Es.
  { specialize (Hskip (S q) ltac:(lia)). split; cbn [tok tq teq tp]; try lia.
    intros E. rewrite E in Es. by vm_compute in Es. }
  destruct (Z.eqb_spec c (chr ">")) as [Hg|Hg].
  { destruct (Z.eqb_spec (byte_at s (S q)) (chr ">")) as [Hg2|Hg2].
    - assert (S q < length s)%nat by (apply byte_at_inside; [lia|]; rewrite Hg2; done).
      specialize (Hskip (S (S q)) ltac:(lia)). split; cbn [tok tq teq tp]; try lia; done.
    - specialize (Hskip (S q) ltac:(lia)). split; cbn [tok tq teq tp]; try lia; done. }
  destruct (span_stop_at is_word s q ltac:(lia)) as (He & Hw & Hend).
  set (e := (q + span is_word (drop q s))%nat) in *.
  assert (Hwc : is_word c = true).
  { unfold is_word. rewrite (Hws Hlt), in_set_symbols, Es, (proj2 (Z.eqb_neq c (chr ">")) Hg). done. }
  assert (q < e)%nat.
  { destruct (decide (q < e)%nat); [done|]. replace e with q in Hend by lia.
    specialize (Hend Hlt). fold c in Hend. congruence. }
  specialize (Hskip e ltac:(lia)). split; cbn [tok tq teq tp]; try done; try lia.
  intros _. split; cbn [fst snd]; [lia|done|done].
Qed.

(** What peek() tells: when it succeeds a token follows. *)
Lemma peek_ok p toks b p' :
  (p ≤ length s)%nat → peek s p toks = (b, p') →
  (p ≤ p' ≤ length s)%nat ∧ (b = true → (p' < tp (gettoken s p') ≤ length s)%nat).
Proof.
  intros Hp [= <- <-]. destruct (span_stop_at (in_set whitespace) s p Hp) as (Hq & _ & Hws).
  fold (skip_space s p) in *. split; [done|]. intros [Hb _]%andb_true_iff.
  apply negb_true_iff, Z.eqb_neq in Hb.
  pose proof (gettoken_ok (skip_space s p) ltac:(lia)) as Ht.
  pose proof (to_pos _ _ Ht). split; [|lia]. apply (to_adv _ _ Ht). intros E.
  apply (to_eof _ _ Ht) in E. pose proof (proj1 (byte_at_inside _ (proj2 Hq)) Hb) as Hlt.
  unfold skip_space at 1 in E. rewrite (drop_S _ _ _ (byte_at_lookup _ _ Hlt)) in E.
  rewrite span_stop in E by (by apply Hws). by rewrite Nat.add_0_r in E.
Qed.

Definition result_ok (p : nat) (r : pcmd * nat) : Prop := cmd_ok s (fst r) ∧ (p ≤ snd r ≤ length s)%nat.

Lemma total_panic {A} (Q : A → Prop) m : total Q (panic m).
Proof. eapply total_bind; [|by intros ? _]. by eapply total_fprintf. Qed.

(** Redirections keep what is known of the command they enclose. *)
Lemma parseredirs_ok (P : pcmd → Prop) n c p :
  (∀ c f mode fd, P c → word_ok s f → P (REDIR c f mode fd)) →
  P c → (p ≤ length s)%nat → (length s - p < n)%nat →
  total (λ r, P (fst r) ∧ (p ≤ snd r ≤ length s)%nat) (parseredirs n c s p).
Proof.
  intros HP Hc Hp Hn. unfold parseredirs.
  apply (total_ploop (λ st, P (fst st) ∧ (p ≤ snd st ≤ length s)%nat) (λ st, length s - snd st)%nat); [split; [done|cbn; lia]|done|].
  intros [c' p'] [Hc' Hp']. cbn [fst snd] in *. unfold redir_step.
  destruct (peek s p' (str "<>")) as [b p1] eqn:Epk. destruct (peek_ok _ _ _ _ (proj2 Hp') Epk) as [Hp1 Hadv].
  destruct b; cbn [negb]; [|cbn; split; [done|lia]]. specialize (Hadv eq_refl).
  set (t := gettoken s p1) in *. pose proof (gettoken_ok (tp t) ltac:(lia)) as Hf.
  set (f := gettoken s (tp t)) in *. destruct (Z.eqb_spec (tok f) (chr "a")) as [Ha|]; cbn [negb]; [|apply total_panic].
  pose proof (to_word _ _ Hf Ha) as Hw. pose proof (to_pos _ _ Hf). cbn.
  split; [|lia]. split; [|lia]. destruct (tok t =? _); [by apply HP|]. destruct (tok t =? _); [by apply HP|].
  destruct (tok t =? _); [by apply HP|done].
Qed.

(** The execcmd that redirections enclose, while its arguments are collected. *)
Fixpoint simple_ok (argc : nat) (c : pcmd) : Prop :=
  match c with
  | EXEC argv => Forall (word_ok s) argv ∧ length argv = argc
  | REDIR c file _ _ => simple_ok argc c ∧ word_ok s file
  | _ => False
  end.

Lemma simple_cmd_ok argc c : simple_ok argc c → (argc < MAXARGS)%nat → cmd_ok s c.
Proof.
  intros Hc Ha. induction c as [argv|c IH f m d| | |]; cbn in *; try done; destruct Hc as [H1 H2].
  - split; [done|lia].
  - split; [by apply IH|done].
Qed.

Lemma add_arg_ok argc c w : simple_ok argc c → word_ok s w → simple_ok (S argc) (add_arg c w).
Proof.
  intros Hc Hw. induction c as [argv|c IH f m d| | |]; cbn in *; try done.
  - destruct Hc as [Hf <-]. rewrite length_app. cbn. split; [|lia]. apply Forall_app. split; [done|by constructor].
  - destruct Hc. by split; [apply IH|].
Qed.

Lemma exec_loop_ok n c p :
  simple_ok 0 c → (p ≤ length s)%nat → (length s - p < n)%nat →
  total (result_ok p) (ploop n (exec_step n s) (c, O, p)).
Proof.
  intros Hc Hp Hn.
  apply (total_ploop (λ st, simple_ok (snd (fst st)) (fst (fst st)) ∧ (snd (fst st) < MAXARGS)%nat ∧ (p ≤ snd st ≤ length s)%nat)
    (λ st, length s - snd st)%nat); [cbn; unfold MAXARGS; split_and!; [done|lia|lia|lia]|done|].
  intros [[c' argc] p'] (Hc' & Ha & Hp'). cbn [fst snd] in *. unfold exec_step.
  destruct (peek s p' _) as [b p1] eqn:Epk. destruct (peek_ok _ _ _ _ (proj2 Hp') Epk) as [Hp1 _].
  destruct b; [cbn; split; [by eapply simple_cmd_ok|cbn; lia]|].
  pose proof (gettoken_ok p1 ltac:(lia)) as Ht. set (t := gettoken s p1) in *. pose proof (to_pos _ _ Ht).
  destruct (Z.eqb_spec (tok t) 0) as [E|Hne]; [cbn; split; [by eapply simple_cmd_ok|cbn; lia]|].
  pose proof (to_adv _ _ Ht Hne).
  destruct (Z.eqb_spec (tok t) (chr "a")) as [E|]; cbn [negb]; [|apply total_panic].
  destruct (Nat.leb_spec MAXARGS (S argc)); [apply total_panic|].
  eapply total_bind.
  - apply (parseredirs_ok (simple_ok (S argc))); [by intros|by apply add_arg_ok, (to_word _ _ Ht)|lia|lia].
  - intros [c2 p2] [Hc2 Hp2]. cbn in *. split_and!; try done; lia.
Qed.

Lemma parse_ok n :
  (∀ p, (p ≤ length s)%nat → (4 * (length s - p) + 4 ≤ n)%nat → total (result_ok p) (parseline n s p)) ∧
  (∀ p, (p ≤ length s)%nat → (4 * (length s - p) + 3 ≤ n)%nat → total (result_ok p) (parsepipe n s p)) ∧
  (∀ p, (p ≤ length s)%nat → (4 * (length s - p) + 2 ≤ n)%nat → total (result_ok p) (parseexec n s p)) ∧
  (∀ p, (p ≤ length s)%nat → (4 * (length s - p) + 1 ≤ n)%nat → total (result_ok p) (parseblock n s p)).
Proof.
  induction n as [|n (IHl & IHp & IHe & IHb)]; [split_and!; intros; lia|].
  split_and!; intros p Hp Hn; cbn [parseline parsepipe parseexec parseblock].
  - eapply total_bind; [apply IHp; lia|]. intros [c1 p1] [Hc1 Hp1]. cbn [fst snd] in *.
    apply (total_bind (result_ok p)).
    { apply (total_ploop (result_ok p) (λ st, length s - snd st)%nat); [by split|cbn; lia|].
      intros [c2 p2] [Hc2 Hp2]. cbn [fst snd] in *. unfold back_step.
      destruct (peek s p2 _) as [b p3] eqn:Epk. destruct (peek_ok _ _ _ _ (proj2 Hp2) Epk) as [Hp3 Hadv].
      destruct b; cbn; [specialize (Hadv eq_refl)|]; (split; [|try lia]); (try split); cbn; try done; lia. }
    intros [c2 p2] [Hc2 Hp2]. cbn [fst snd] in *.
    destruct (peek s p2 _) as [b p3] eqn:Epk. destruct (peek_ok _ _ _ _ (proj2 Hp2) Epk) as [Hp3 Hadv].
    destruct b; [|cbn; split; [done|cbn; lia]]. specialize (Hadv eq_refl).
    eapply total_bind; [apply IHl; lia|]. intros [c4 p4] [Hc4 Hp4]. cbn in *. split; cbn; [done|lia].
  - eapply total_bind; [apply IHe; lia|]. intros [c2 p2] [Hc2 Hp2]. cbn [fst snd] in *.
    destruct (peek s p2 _) as [b p3] eqn:Epk. destruct (peek_ok _ _ _ _ (proj2 Hp2) Epk) as [Hp3 Hadv].
    destruct b; [|cbn; split; [done|cbn; lia]]. specialize (Hadv eq_refl).
    eapply total_bind; [apply IHp; lia|]. intros [c4 p4] [Hc4 Hp4]. cbn in *. split; cbn; [done|lia].
  - destruct (peek s p _) as [b p3] eqn:Epk. destruct (peek_ok _ _ _ _ Hp Epk) as [Hp3 Hadv].
    destruct b.
    + eapply total_mono; [apply IHb; lia|]. intros [c4 p4] [Hc4 Hp4]. cbn in *. split; cbn; [done|lia].
    + eapply total_bind.
      * apply (parseredirs_ok (simple_ok 0)); [by intros|by split; [constructor|]|lia|lia].
      * intros [c4 p4] [Hc4 Hp4]. cbn [fst snd] in *.
        eapply total_mono; [apply exec_loop_ok; [done|lia|lia]|]. intros [c5 p5] [Hc5 Hp5]. cbn in *. split; cbn; [done|lia].
  - destruct (peek s p _) as [b p3] eqn:Epk. destruct (peek_ok _ _ _ _ Hp Epk) as [Hp3 Hadv].
    destruct b; cbn [negb]; [|apply total_panic]. specialize (Hadv eq_refl).
    eapply total_bind; [apply IHl; lia|]. intros [c4 p4] [Hc4 Hp4]. cbn [fst snd] in *.
    destruct (peek s p4 _) as [b p5] eqn:Epk5. destruct (peek_ok _ _ _ _ (proj2 Hp4) Epk5) as [Hp5 Hadv5].
    destruct b; cbn [negb]; [|apply total_panic]. specialize (Hadv5 eq_refl).
    eapply total_mono; [apply (parseredirs_ok (cmd_ok s)); [by intros|done|lia|lia]|].
    intros [c6 p6] [Hc6 Hp6]. cbn in *. split; cbn; [done|lia].
Qed.

End line.

(** The positions where nulterminate() stores a NUL. *)
Fixpoint word_ends (c : pcmd) : list nat :=
  match c with
  | EXEC argv => snd <$> argv
  | REDIR c file _ _ => snd file :: word_ends c
  | PIPE l r | LIST l r => word_ends l ++ word_ends r
  | BACK c => word_ends c
  end.

(** [buf'] is [buf] with NULs at the positions in [l]. *)
Definition cut_at (l : list nat) (buf buf' : list Z) : Prop :=
  length buf' = length buf ∧
  ∀ i, (i < length buf)%nat → buf' !! i = if decide (i ∈ l) then Some 0 else buf !! i.

Lemma cut_at_nil buf : cut_at [] buf buf.
Proof. split; [done|]. intros i _. rewrite decide_False; [done|]. apply not_elem_of_nil. Qed.

Lemma cut_at_app l1 l2 b1 b2 b3 : cut_at l1 b1 b2 → cut_at l2 b2 b3 → cut_at (l1 ++ l2) b1 b3.
Proof.
  intros [L1 H1] [L2 H2]. split; [congruence|]. intros i Hi. rewrite H2 by lia. rewrite H1 by done.
  destruct (decide (i ∈ l2)).
  - rewrite decide_True; [done|]. apply elem_of_app. by right.
  - destruct (decide (i ∈ l1)).
    + rewrite decide_True; [done|]. apply elem_of_app. by left.
    + rewrite decide_False; [done|]. by rewrite elem_of_app; intros [|].
Qed.

Lemma cut_at_one e buf : cut_at [e] buf (<[e := 0]> buf).
Proof.
  split; [apply length_insert|]. intros i Hi. destruct (decide (i ∈ [e])) as [->%list_elem_of_singleton|Hne].
  - by apply list_lookup_insert_eq.
  - rewrite list_lookup_insert_ne; [done|]. intros ->. apply Hne. by left.
Qed.

Lemma cut_at_perm l1 l2 b1 b2 : (∀ i, i ∈ l1 ↔ i ∈ l2) → cut_at l1 b1 b2 → cut_at l2 b1 b2.
Proof.
  intros E [L H]. split; [done|]. intros i Hi. rewrite H by done. by apply decide_ext.
Qed.

Lemma nulterminate_cuts c buf : cut_at (word_ends c) buf (nulterminate c buf).
Proof.
  revert buf. induction c as [argv|c IH f m d|l IHl r IHr|l IHl r IHr|c IH]; intros buf; cbn [word_ends nulterminate].
  - revert buf. induction argv as [|w argv IH]; intros buf; [apply cut_at_nil|]. cbn.
    apply (cut_at_app [snd w] (snd <$> argv) _ (<[snd w := 0]> buf)); [apply cut_at_one|apply IH].
  - apply (cut_at_perm (word_ends c ++ [snd f])).
    { intros i. rewrite elem_of_app, !elem_of_cons, elem_of_nil. tauto. }
    by eapply cut_at_app; [apply IH|apply cut_at_one].
  - by eapply cut_at_app.
  - by eapply cut_at_app.
  - done.
Qed.

Lemma cstring_take (l : list Z) n :
  (∀ i, (i < n)%nat → ∃ c, l !! i = Some c ∧ c ≠ 0) → l !! n = Some 0 → Ulib.cstring l = take n l.
Proof.
  revert l. induction n as [|n IH]; intros l Hl Hn.
  - destruct l as [|c l]; simplify_eq/=. done.
  - destruct (Hl 0%nat ltac:(lia)) as (c & Hc & Hne). destruct l as [|d l]; simplify_eq/=.
    rewrite (proj2 (Z.eqb_neq c 0) Hne). f_equal. apply IH; [|done].
    intros i Hi. apply (Hl (S i)). lia.
Qed.

(** Where the line is cut only at ends of words, each word is a C string. *)
Lemma cut_word s l buf w :
  Forall (λ c, c ≠ 0) s → cut_at l (s ++ [0]) buf → word_ok s w → snd w ∈ l →
  (∀ e, e ∈ l → ∃ w', word_ok s w' ∧ snd w' = e) →
  Ulib.cstring (drop (fst w) buf) = word_text s w.
Proof.
  intros Hs [Hlen Hcut] [Hpos Hword Hend] Hin Hl. unfold word_text. rewrite length_app in *. cbn [length] in *.
  set (q := fst w) in *. set (e := snd w) in *.
  assert (Hinside : ∀ i, (q ≤ i < e)%nat → buf !! i = s !! i).
  { intros i Hi. rewrite Hcut by lia. rewrite decide_False; [by rewrite lookup_app_l by lia|].
    intros (w' & Hw' & <-)%Hl. specialize (Hword _ Hi). pose proof (wk_end _ _ Hw' ltac:(lia)). congruence. }
  rewrite (cstring_take _ (e - q)).
  - apply list_eq. intros i. destruct (decide (i < e - q)%nat).
    + rewrite !lookup_take_lt, !lookup_drop by done. apply Hinside. lia.
    + by rewrite !lookup_take_ge by lia.
  - intros i Hi. rewrite lookup_drop, Hinside by lia. destruct (lookup_lt_is_Some_2 s (q + i)) as [c Hc]; [lia|].
    exists c. split; [done|]. by apply (Forall_lookup_1 _ _ _ _ Hs Hc).
  - rewrite lookup_drop. replace (q + (e - q))%nat with e by lia. rewrite Hcut by lia. by rewrite decide_True.
Qed.

Lemma word_ends_ok s c e : cmd_ok s c → e ∈ word_ends c → ∃ w, word_ok s w ∧ snd w = e.
Proof.
  induction c as [argv|c IH f m d|l IHl r IHr|l IHl r IHr|c IH]; cbn [cmd_ok word_ends].
  - intros [Hf _] (w & -> & Hw)%list_elem_of_fmap. rewrite Forall_forall in Hf. eauto.
  - intros [Hc Hf] [->|Hin]%elem_of_cons; eauto.
  - intros [Hl Hr] [?|?]%elem_of_app; auto.
  - intros [Hl Hr] [?|?]%elem_of_app; auto.
  - auto.
Qed.

(** Two functions that agree on the words of a command give the same command. *)
Lemma cmd_fmap_ext {B} s (f g : nat * nat → B) (l : list nat) c :
  cmd_ok s c → (∀ e, e ∈ word_ends c → e ∈ l) →
  (∀ w, word_ok s w → snd w ∈ l → f w = g w) → f <$> c = g <$> c.
Proof.
  intros Hc Hl Hfg. revert Hc Hl. induction c as [argv|c IH h m d|l1 IHl r IHr|l1 IHl r IHr|c IH]; cbn [cmd_ok word_ends]; intros Hc Hl.
  - destruct Hc as [Hf _]. cbn. f_equal. apply list_fmap_ext. intros i w Hw.
    pose proof (Forall_lookup_1 _ _ _ _ Hf Hw). apply Hfg; [done|]. apply Hl, list_elem_of_fmap.
    exists w. split; [done|]. by eapply list_elem_of_lookup_2.
  - destruct Hc. change (REDIR (f <$> c) (f h) m d = REDIR (g <$> c) (g h) m d).
    rewrite IH; [|done|intros; apply Hl; by right]. rewrite Hfg; [done|done|]. apply Hl. by left.
  - destruct Hc. change (PIPE (f <$> l1) (f <$> r) = PIPE (g <$> l1) (g <$> r)).
    by rewrite IHl, IHr by (try done; intros; apply Hl, elem_of_app; auto).
  - destruct Hc. change (LIST (f <$> l1) (f <$> r) = LIST (g <$> l1) (g <$> r)).
    by rewrite IHl, IHr by (try done; intros; apply Hl, elem_of_app; auto).
  - change (BACK (f <$> c) = BACK (g <$> c)). by rewrite IH.
Qed.

Lemma strings_ok s c :
  Forall (λ c, c ≠ 0) s → cmd_ok s c → strings (nulterminate c (s ++ [0])) c = word_text s <$> c.
Proof.
  intros Hs Hc. unfold strings. apply (cmd_fmap_ext s _ _ (word_ends c)); [done|done|].
  intros w Hw Hin. apply (cut_word s (word_ends c)); [done|apply nulterminate_cuts|done|done|].
  intros e He. by eapply word_ends_ok.
Qed.

(** C37: the parser ends on every line, either with a message and exit(1) or
    with a command: each word of it is a longest run of bytes of the line that
    are neither blanks nor operators, each simple command has at most nine, and
    after nulterminate() the strings of the command are exactly its words. *)
Theorem parsecmd_total s :
  Forall (λ c, c ≠ 0) s →
  total (λ '(c, buf), cmd_ok s c ∧ strings buf c = word_text s <$> c) (parsecmd (parse_fuel s) s).
Proof.
  intros Hs. unfold parsecmd, parse_fuel.
  eapply total_bind; [apply parse_ok; [done|lia|lia]|]. intros [c p] [Hc Hp]. cbn [fst snd] in *.
  destruct (peek s p []) as [b p'] eqn:Epk. destruct (Nat.eqb_spec p' (length s)); cbn [negb].
  - cbn. split; [done|]. by apply strings_ok.
  - eapply total_bind; [by eapply total_fprintf|]. intros _ _. apply total_panic.
Qed.

Lemma parsecmd_total_witness :
  total (λ '(c, buf), cmd_ok (str "cat <f|wc>>g;(ls&)") c ∧
      strings buf c = word_text (str "cat <f|wc>>g;(ls&)") <$> c)
    (parsecmd (parse_fuel (str "cat <f|wc>>g;(ls&)")) (str "cat <f|wc>>g;(ls&)")).
Proof. apply (parsecmd_total (str "cat <f|wc>>g;(ls&)")). repeat constructor; vm_compute; congruence. Defined.
