(* ===== verification/ShellGrammar.v ===== *)
(** The grammar of the shell's command lines, and the proof that the parser of
    user/sh.c builds the command that the grammar gives to a line.

    The grammar is over tokens; a line spells a list of tokens with any white
    space between them.  Left of ; and | the grammar is as in parseline() and
    parsepipe():
      line ::= pipe &* | pipe &* ; line        pipe ::= exec | exec '|' pipe
      exec ::= (word | redirection)* | ( line ) redirection*  *)

From Stdlib Require Import ZArith Lia ZifyBool Ascii.
From stdpp Require Import base numbers list strings.
From S2P Require Import Prelude Params Printf User Shell.

(** ** Tokens *)

(** An operator is the value gettoken() returns for it: '+' stands for >>. *)
Inductive tk :=
  | TWord (w : list Z)
  | TOp (c : Z).

Definition tk_text (t : tk) : list Z :=
  match t with
  | TWord w => w
  | TOp c => if c =? chr "+" then str ">>" else [c]
  end.

Definition tk_ok (t : tk) : Prop :=
  match t with
  | TWord w => w ≠ [] ∧ Forall (λ c, is_word c = true ∧ c ≠ 0) w
  | TOp c => c ∈ str "|();&<>+"
  end.

(** What must not follow a token: a word or > would go on. *)
Definition fits (t : tk) (rest : list Z) : Prop :=
  match rest with
  | [] => True
  | c :: _ =>
      match t with
      | TWord _ => is_word c = false
      | TOp d => d = chr ">" → c ≠ chr ">"
      end
  end.

Definition blank (sp : list Z) : Prop := Forall (λ c, in_set whitespace c = true) sp.

Inductive spells : list tk → list Z → Prop :=
  | spells_nil sp : blank sp → spells [] sp
  | spells_cons sp t ts rest :
      blank sp → tk_ok t → fits t rest → spells ts rest → spells (t :: ts) (sp ++ tk_text t ++ rest).

(** ** Grammar *)

Inductive item :=
  | IWord (w : list Z)
  | IRedir (op : Z) (file : list Z).

Definition item_tokens (i : item) : list tk :=
  match i with
  | IWord w => [TWord w]
  | IRedir op file => [TOp op; TWord file]
  end.

Definition item_ok (i : item) : Prop :=
  match i with IWord _ => True | IRedir op _ => op ∈ str "<>+" end.

(** The command with one more redirection: how the file is opened, and where. *)
Definition redirect {A} (c : cmd A) (op : Z) (file : A) : cmd A :=
  if op =? chr "<" then REDIR c file O_RDONLY 0
  else if op =? chr ">" then REDIR c file (Z.lor (Z.lor O_WRONLY O_CREATE) O_TRUNC) 1
  else REDIR c file (Z.lor O_WRONLY O_CREATE) 1.

Definition add_item (c : cmd (list Z)) (i : item) : cmd (list Z) :=
  match i with
  | IWord w => add_arg c w
  | IRedir op file => redirect c op file
  end.

Definition is_redir (i : item) : bool := match i with IWord _ => false | IRedir _ _ => true end.
Definition nwords (l : list item) : nat := length (filter (λ i, is_redir i = false) l).

Inductive nonterminal := Line | Back | Pipe | Exec.

Inductive derives : nonterminal → list tk → cmd (list Z) → Prop :=
  | derives_simple l :
      Forall item_ok l → (nwords l < MAXARGS)%nat →
      derives Exec (l ≫= item_tokens) (fold_left add_item l (EXEC []))
  | derives_block ts c rs :
      derives Line ts c → Forall item_ok rs → Forall (λ i, is_redir i = true) rs →
      derives Exec (TOp (chr "(") :: ts ++ TOp (chr ")") :: (rs ≫= item_tokens)) (fold_left add_item rs c)
  | derives_exec ts c : derives Exec ts c → derives Pipe ts c
  | derives_pipe ts1 c1 ts2 c2 :
      derives Exec ts1 c1 → derives Pipe ts2 c2 →
      derives Pipe (ts1 ++ TOp (chr "|") :: ts2) (PIPE c1 c2)
  | derives_back ts c k :
      derives Pipe ts c → derives Back (ts ++ replicate k (TOp (chr "&"))) (Nat.iter k BACK c)
  | derives_one ts c : derives Back ts c → derives Line ts c
  | derives_list ts1 c1 ts2 c2 :
      derives Back ts1 c1 → derives Line ts2 c2 →
      derives Line (ts1 ++ TOp (chr ";") :: ts2) (LIST c1 c2).

(** ** Reading tokens *)

Lemma blank_not_word c : in_set whitespace c = true → is_word c = false.
Proof. unfold is_word. by intros ->. Qed.

Lemma tk_text_head t : tk_ok t → ∃ c l, tk_text t = c :: l ∧ in_set whitespace c = false ∧ c ≠ 0 ∧
  match t with TWord _ => in_set symbols c = false | TOp d => c = (if d =? chr "+" then chr ">" else d) end.
Proof.
  destruct t as [w|d]; cbn [tk_ok tk_text].
  - intros [Hne Hw]. destruct w as [|c w]; [done|]. inversion Hw as [|? ? [Hc Hc0] ?]; subst.
    apply andb_true_iff in Hc as [H1%negb_true_iff H2%negb_true_iff]. eauto 10.
  - intros Hd. unfold str in Hd. cbn in Hd. repeat (apply elem_of_cons in Hd as [->|Hd]; [do 2 eexists; split_and!; [reflexivity|by vm_compute|by vm_compute|reflexivity]|]).
    by apply not_elem_of_nil in Hd.
Qed.

Section reading.
Variable s : list Z.

Lemma drop_byte_at p c l : drop p s = c :: l → byte_at s p = c ∧ drop (S p) s = l ∧ (p < length s)%nat.
Proof.
  intros E. assert (Hc : s !! p = Some c) by (rewrite <-(Nat.add_0_r p), <-lookup_drop, E; done).
  split_and!.
  - unfold byte_at. by rewrite Hc.
  - rewrite (drop_S _ _ _ Hc) in E. by injection E.
  - by eapply lookup_lt_Some.
Qed.

(** After the white space comes the text of the first token. *)
Lemma spells_at p ts :
  (p ≤ length s)%nat → spells ts (drop p s) →
  let q := skip_space s p in
  (p ≤ q ≤ length s)%nat ∧ spells ts (drop q s) ∧
  match ts with
  | [] => q = length s
  | t :: ts => tk_ok t ∧ ∃ rest, drop q s = tk_text t ++ rest ∧ fits t rest ∧ spells ts rest
  end.
Proof.
  intros Hp Hs q. pose proof (skip_space_bounds s p Hp) as Hq. fold q in Hq. split; [done|].
  inversion Hs as [sp Hsp E1 E2|sp t ts' rest Hsp Ht Hfit Hrest E1 E2]; subst.
  - assert (Hqe : q = length s).
    { unfold q, skip_space. rewrite <-(app_nil_r (drop p s)), span_app by done. cbn. rewrite length_drop. lia. }
    split; [|done]. rewrite Hqe, drop_all. apply spells_nil. constructor.
  - assert (Hqe : q = (p + length sp)%nat).
    { unfold q, skip_space. rewrite <-E2, span_app by done. destruct (tk_text_head t Ht) as (c & l & -> & Hc & _).
      cbn [app]. rewrite span_stop by done. lia. }
    assert (Hd : drop q s = tk_text t ++ rest).
    { rewrite Hqe, <-drop_drop, <-E2. apply drop_app_length. }
    split.
    + rewrite Hd. apply (spells_cons [] t ts' rest); [constructor|done|done|done].
    + split; [done|]. by exists rest.
Qed.

Lemma spells_skip p ts : (p ≤ length s)%nat → spells ts (drop p s) →
  (skip_space s p ≤ length s)%nat ∧ spells ts (drop (skip_space s p) s).
Proof. intros Hp Hs. by destruct (spells_at p ts Hp Hs) as ([_ ?] & ? & _). Qed.

Lemma gettoken_end p : (p ≤ length s)%nat → spells [] (drop p s) →
  tok (gettoken s p) = 0 ∧ (tp (gettoken s p) ≤ length s)%nat ∧ spells [] (drop (tp (gettoken s p)) s).
Proof.
  intros Hp Hs. destruct (spells_at p [] Hp Hs) as (_ & _ & Hq). unfold gettoken. rewrite Hq, byte_at_end by done.
  cbn [Z.eqb tok tp]. split; [done|]. apply spells_skip; [done|]. rewrite drop_all. apply spells_nil. constructor.
Qed.

Lemma gettoken_spells p t ts : (p ≤ length s)%nat → spells (t :: ts) (drop p s) →
  let k := gettoken s p in
  match t with
  | TWord w => tok k = chr "a" ∧ word_text s (tq k, teq k) = w
  | TOp c => tok k = c
  end ∧ (tp k ≤ length s)%nat ∧ spells ts (drop (tp k) s).
Proof.
  intros Hp Hs. destruct (spells_at p _ Hp Hs) as ([_ Hq] & _ & Ht & rest & Hd & Hfit & Hrest).
  unfold gettoken. set (q := skip_space s p) in *.
  assert (Hlen : (q + length (tk_text t) ≤ length s)%nat ∧ drop (q + length (tk_text t)) s = rest).
  { split.
    - apply (f_equal length) in Hd. rewrite length_drop, length_app in Hd. lia.
    - rewrite <-drop_drop, Hd. apply drop_app_length. }
  destruct Hlen as [Hlen Hdrop].
  destruct (tk_text_head t Ht) as (c & l & Etext & Hws & Hc0 & Hc).
  rewrite Etext in Hd. cbn [app] in Hd. destruct (drop_byte_at _ _ _ Hd) as (Hb & Hd1 & _). rewrite Hb.
  rewrite (proj2 (Z.eqb_neq c 0) Hc0).
  assert (Hskip : ∀ e, e = (q + length (tk_text t))%nat → (skip_space s e ≤ length s)%nat ∧ spells ts (drop (skip_space s e) s)).
  { intros e ->. apply spells_skip; [done|]. by rewrite Hdrop. }
  destruct t as [w|d]; cbn [tk_text] in *.
  - assert (in_set (str "|();&<") c = false ∧ (c =? chr ">") = false) as [-> ->]
      by (by rewrite in_set_symbols, orb_false_iff in Hc).
    assert (Hspan : span is_word (drop q s) = length w).
    { rewrite Hd, app_comm_cons, <-Etext. rewrite span_app by (destruct Ht as [_ Hw]; eapply Forall_impl; [done|]; by intros ? []).
      destruct rest as [|r rest]; [cbn; lia|]. rewrite span_stop by done. lia. }
    rewrite Hspan. cbn [tok tq teq tp]. split; [split; [done|]|by apply Hskip].
    unfold word_text. cbn [fst snd]. replace (q + length w - q)%nat with (length w) by lia.
    rewrite Hd, app_comm_cons, <-Etext. apply take_app_length.
  - assert (Hd' : d ∈ str "|();&<" ∨ d = chr ">" ∨ d = chr "+").
    { unfold tk_ok in Ht. unfold str in *. cbn in *. rewrite !elem_of_cons in Ht. rewrite !elem_of_cons. tauto. }
    destruct Hd' as [Hin|[Hgt|Hgt]].
    + assert (Hp' : (d =? chr "+") = false ∧ in_set (str "|();&<") d = true).
      { unfold str in Hin. cbn in Hin. repeat (apply elem_of_cons in Hin as [->|Hin]; [by vm_compute|]). by apply not_elem_of_nil in Hin. }
      destruct Hp' as [Hplus Hset]. rewrite Hplus in *. subst c. rewrite Hset. cbn [tok tp].
      split; [done|]. apply Hskip. cbn. lia.
    + subst d. change (chr ">" =? chr "+") with false in *; change (chr "+" =? chr "+") with true in *. cbv iota in *. subst c. change (in_set (str "|();&<") (chr ">")) with false. rewrite Z.eqb_refl.
      assert (Hb1 : (byte_at s (S q) =? chr ">") = false).
      { apply Z.eqb_neq. injection Etext as <-. cbn in Hd1. destruct rest as [|r rest].
        - rewrite byte_at_end; [done|]. apply (f_equal length) in Hd1. rewrite length_drop in Hd1. cbn in Hd1. lia.
        - destruct (drop_byte_at _ _ _ Hd1) as (-> & _). by apply Hfit. }
      rewrite Hb1. cbn [tok tp]. split; [done|]. apply Hskip. cbn. lia.
    + subst d. change (chr ">" =? chr "+") with false in *; change (chr "+" =? chr "+") with true in *. cbv iota in *. subst c. change (in_set (str "|();&<") (chr ">")) with false. rewrite Z.eqb_refl.
      injection Etext as <-. cbn in Hd1. destruct (drop_byte_at _ _ _ Hd1) as (-> & _). rewrite Z.eqb_refl. cbn [tok tp].
      split; [done|]. apply Hskip. cbn. lia.
Qed.

(** Whether the next token is an operator that begins with one of [toks]. *)
Definition first_in (toks : list Z) (ts : list tk) : bool :=
  match ts with
  | TOp d :: _ => in_set toks (if d =? chr "+" then chr ">" else d)
  | _ => false
  end.

Lemma peek_spells p toks ts :
  (∀ c, in_set toks c = true → in_set symbols c = true) →
  (p ≤ length s)%nat → spells ts (drop p s) → ∃ p',
  peek s p toks = (first_in toks ts, p') ∧ (p' ≤ length s)%nat ∧ spells ts (drop p' s).
Proof.
  intros Htoks Hp Hs. destruct (spells_at p ts Hp Hs) as ([_ Hq] & Hs' & Hts).
  exists (skip_space s p). split; [|done]. unfold peek. f_equal.
  destruct ts as [|t ts].
  - by rewrite Hts, byte_at_end by done.
  - destruct Hts as (Ht & rest & Hd & _). destruct (tk_text_head t Ht) as (c & l & Etext & _ & Hc0 & Hc).
    rewrite Etext in Hd. cbn [app] in Hd. destruct (drop_byte_at _ _ _ Hd) as (-> & _).
    rewrite (proj2 (Z.eqb_neq c 0) Hc0). cbn [negb andb]. destruct t as [w|d]; cbn [first_in].
    + destruct (in_set toks c) eqn:E; [|done]. apply Htoks in E. congruence.
    + by rewrite Hc.
Qed.

(** ** Simple commands *)

Definition follows (toks : list Z) (ts : list tk) : Prop := ts = [] ∨ first_in toks ts = true.

Lemma follows_not a b ts :
  follows a ts → (∀ c, in_set a c = true → in_set b c = false) → first_in b ts = false.
Proof.
  intros [->|Hf] Hab; [done|]. destruct ts as [|[w|d] ts]; [done|done|]. by apply Hab.
Qed.

Lemma follows_mono a b ts :
  follows a ts → (∀ c, in_set a c = true → in_set b c = true) → follows b ts.
Proof.
  intros [->|Hf] Hab; [by left|]. right. destruct ts as [|[w|d] ts]; [done|done|]. by apply Hab.
Qed.

(** A parser call at [p] reads the tokens of [c] and leaves [rest]. *)
Definition reads (r : prog (pcmd * nat)) (c : cmd (list Z)) (rest : list tk) : Prop :=
  ∃ c' p', r = Return (c', p') ∧ word_text s <$> c' = c ∧ (p' ≤ length s)%nat ∧ spells rest (drop p' s).

Lemma fmap_add_arg (c : pcmd) w : word_text s <$> add_arg c w = add_arg (word_text s <$> c) (word_text s w).
Proof.
  induction c as [argv|c IH f m d| | |]; try done.
  - cbn. by rewrite fmap_app.
  - change (REDIR (word_text s <$> add_arg c w) (word_text s f) m d = REDIR (add_arg (word_text s <$> c) (word_text s w)) (word_text s f) m d).
    by rewrite IH.
Qed.

Lemma fmap_redirect (c : pcmd) op w : word_text s <$> redirect c op w = redirect (word_text s <$> c) op (word_text s w).
Proof. unfold redirect. destruct (op =? _); [done|]. by destruct (op =? _). Qed.

Ltac sets := let c := fresh in intros c; unfold in_set; cbn; repeat (match goal with |- context [?a =? c] => destruct (Z.eqb_spec a c) as [<-|] end); try done.

Lemma redir_step_reads c p op f ts :
  (p ≤ length s)%nat → op ∈ str "<>+" → spells (TOp op :: TWord f :: ts) (drop p s) → ∃ w p',
  redir_step s (c, p) = Return (inl (redirect c op w, p')) ∧ word_text s w = f ∧
  (p' ≤ length s)%nat ∧ spells ts (drop p' s).
Proof.
  intros Hp Hop Hs. unfold redir_step.
  destruct (peek_spells p (str "<>") _ ltac:(sets) Hp Hs) as (p1 & -> & Hp1 & Hs1).
  destruct (gettoken_spells p1 _ _ Hp1 Hs1) as (Ht & Hp2 & Hs2).
  destruct (gettoken_spells _ _ _ Hp2 Hs2) as ([Ha Hw] & Hp3 & Hs3).
  assert (Hfirst : first_in (str "<>") (TOp op :: TWord f :: ts) = true).
  { unfold str in Hop. cbn in Hop. repeat (apply elem_of_cons in Hop as [->|Hop]; [by vm_compute|]). by apply not_elem_of_nil in Hop. }
  rewrite Hfirst. cbn [negb]. rewrite Ha, Z.eqb_refl, Ht. cbn [negb].
  eexists _, _. split; [|split; [exact Hw|by split]]. unfold redirect.
  destruct (Z.eqb_spec op (chr "<")); [done|]. destruct (Z.eqb_spec op (chr ">")); [done|].
  destruct (Z.eqb_spec op (chr "+")); [done|]. unfold str in Hop. cbn in Hop. rewrite !elem_of_cons in Hop.
  destruct Hop as [?|[?|[?|Hop]]]; try done. by apply not_elem_of_nil in Hop.
Qed.

Lemma parseredirs_reads rs rest c p n :
  Forall item_ok rs → Forall (λ i, is_redir i = true) rs → first_in (str "<>") rest = false →
  (p ≤ length s)%nat → spells ((rs ≫= item_tokens) ++ rest) (drop p s) → (length rs < n)%nat →
  reads (parseredirs n c s p) (fold_left add_item rs (word_text s <$> c)) rest.
Proof.
  intros Hok Hred Hrest. revert c p n. induction rs as [|i rs IH]; intros c p n Hp Hs Hn.
  - destruct n as [|n]; [lia|].
    destruct (peek_spells p (str "<>") rest ltac:(sets) Hp Hs) as (p1 & Epk & Hp1 & Hs1).
    assert (E : redir_step s (c, p) = Return (inr (c, p1))) by (unfold redir_step; by rewrite Epk, Hrest).
    unfold parseredirs. cbn [ploop]. rewrite E. by eexists _, _.
  - inversion Hok as [|? ? Hi Hok']; inversion Hred as [|? ? Hr Hred']; subst. destruct n as [|n]; [cbn in Hn; lia|].
    destruct i as [|op f]; [done|]. change ((IRedir op f :: rs) ≫= item_tokens) with ([TOp op; TWord f] ++ (rs ≫= item_tokens)) in Hs.
    cbn [app] in Hs. destruct (redir_step_reads c p op f _ Hp Hi Hs) as (w & p' & E & Hw & Hp' & Hs').
    destruct (IH Hok' Hred' (redirect c op w) p' n Hp' Hs') as (c2 & p2 & E2 & Hc2 & Hr2); [cbn in Hn; lia|].
    exists c2, p2. split; [|split; [|done]].
    + unfold parseredirs in *. cbn [ploop]. rewrite E. exact E2.
    + rewrite Hc2, fmap_redirect, Hw. done.
Qed.

(** The redirections at the front of a list of items. *)
Lemma split_redirs (l : list item) : ∃ rs l', l = rs ++ l' ∧ Forall (λ i, is_redir i = true) rs ∧
  match l' with [] => True | i :: _ => ∃ w, i = IWord w end.
Proof.
  induction l as [|[w|op f] l (rs & l' & -> & Hrs & Hl')].
  - by exists [], [].
  - exists [], (IWord w :: rs ++ l'). split_and!; [done|constructor|by exists w].
  - exists (IRedir op f :: rs), l'. split_and!; [done|by constructor|done].
Qed.

Lemma word_then_redirs l rest :
  match l with [] => True | i :: _ => ∃ w, i = IWord w end → follows (str "|)&;") rest →
  first_in (str "<>") ((l ≫= item_tokens) ++ rest) = false.
Proof.
  intros Hl Hrest. destruct l as [|i l]; [|by destruct Hl as [w ->]].
  apply (follows_not _ _ _ Hrest). sets.
Qed.

(** The loop of parseexec() stops before an operator and at the end of the line. *)
Lemma exec_step_stops n rest c argc p :
  follows (str "|)&;") rest → (p ≤ length s)%nat → spells rest (drop p s) → ∃ p',
  exec_step n s (c, argc, p) = Return (inr (c, p')) ∧ (p' ≤ length s)%nat ∧ spells rest (drop p' s).
Proof.
  intros Hrest Hp Hs. unfold exec_step.
  destruct (peek_spells p (str "|)&;") _ ltac:(sets) Hp Hs) as (p1 & -> & Hp1 & Hs1).
  destruct Hrest as [->|Hrest]; [|rewrite Hrest; by exists p1].
  cbn [first_in]. destruct (gettoken_end p1 Hp1 Hs1) as (-> & Hp2 & Hs2). by eexists.
Qed.

(** On a word, it takes the redirections after the word too. *)
Lemma exec_step_word n w rs ts c argc p :
  (S argc < MAXARGS)%nat → Forall item_ok rs → Forall (λ i, is_redir i = true) rs →
  first_in (str "<>") ts = false → (p ≤ length s)%nat →
  spells (TWord w :: (rs ≫= item_tokens) ++ ts) (drop p s) → (length rs < n)%nat → ∃ c' p',
  exec_step n s (c, argc, p) = Return (inl (c', S argc, p')) ∧
  word_text s <$> c' = fold_left add_item rs (add_arg (word_text s <$> c) w) ∧
  (p' ≤ length s)%nat ∧ spells ts (drop p' s).
Proof.
  intros Hargc Hok Hrs Hts Hp Hs Hn. unfold exec_step.
  destruct (peek_spells p (str "|)&;") _ ltac:(sets) Hp Hs) as (p1 & -> & Hp1 & Hs1). cbn [first_in].
  destruct (gettoken_spells p1 _ _ Hp1 Hs1) as ([Ha Hw] & Hp2 & Hs2). rewrite Ha.
  change (chr "a" =? 0) with false. rewrite Z.eqb_refl. cbn [negb].
  rewrite (proj2 (Nat.leb_gt MAXARGS (S argc))) by lia.
  destruct (parseredirs_reads rs ts (add_arg c (tq (gettoken s p1), teq (gettoken s p1))) (tp (gettoken s p1)) n)
    as (c2 & p2 & -> & Hc2 & Hr2); [done..|].
  exists c2, p2. split; [done|]. split; [|done]. by rewrite Hc2, fmap_add_arg, Hw.
Qed.

Lemma nwords_app l1 l2 : nwords (l1 ++ l2) = (nwords l1 + nwords l2)%nat.
Proof. unfold nwords. by rewrite filter_app, length_app. Qed.

Lemma exec_loop_reads k l rest c argc p n m :
  (length l ≤ k)%nat → Forall item_ok l → match l with [] => True | i :: _ => ∃ w, i = IWord w end →
  follows (str "|)&;") rest → (argc + nwords l < MAXARGS)%nat →
  (p ≤ length s)%nat → spells ((l ≫= item_tokens) ++ rest) (drop p s) → (length l < n)%nat → (length l < m)%nat →
  reads (ploop m (exec_step n s) (c, argc, p)) (fold_left add_item l (word_text s <$> c)) rest.
Proof.
  revert l c argc p m. induction k as [|k IH]; intros l c argc p m Hk Hok Hhd Hrest Hargc Hp Hs Hn Hm;
    (destruct m as [|m]; [lia|]); cbn [ploop]; (destruct l as [|i l]; [|try (cbn in Hk; lia)]).
  1,2: destruct (exec_step_stops n rest c argc p Hrest Hp Hs) as (p1 & -> & ? & ?); by eexists _, _.
  destruct Hhd as [w ->]. inversion Hok as [|? ? _ Hok']; subst.
  change (nwords (IWord w :: l)) with (S (nwords l)) in Hargc.
  destruct (split_redirs l) as (rs & l' & -> & Hrs & Hl'). apply Forall_app in Hok' as [Hok1 Hok2].
  change ((IWord w :: rs ++ l') ≫= item_tokens) with ([TWord w] ++ ((rs ++ l') ≫= item_tokens)) in Hs.
  rewrite bind_app, <-!app_assoc in Hs. cbn [length] in *. rewrite length_app in *. rewrite nwords_app in Hargc.
  destruct (exec_step_word n w rs ((l' ≫= item_tokens) ++ rest) c argc p) as (c2 & p2 & -> & Hc2 & Hp2 & Hs2);
    [lia|done|done|by apply word_then_redirs|done|done|lia|].
  destruct (IH l' c2 (S argc) p2 m) as (c3 & p3 & E3 & Hc3 & Hr3); try done; try lia.
  exists c3, p3. split; [done|]. split; [|done]. rewrite Hc3, Hc2. cbn [fold_left add_item]. by rewrite fold_left_app.
Qed.

(** ** Lines *)

Lemma item_tokens_length l : (length l ≤ length (l ≫= item_tokens))%nat.
Proof.
  induction l as [|i l IH]; [cbn; lia|]. change ((i :: l) ≫= item_tokens) with (item_tokens i ++ (l ≫= item_tokens)).
  rewrite length_app. destruct i; cbn; lia.
Qed.

Lemma simple_reads l rest p n :
  Forall item_ok l → (nwords l < MAXARGS)%nat → follows (str "|)&;") rest →
  (p ≤ length s)%nat → spells ((l ≫= item_tokens) ++ rest) (drop p s) →
  (length (l ≫= item_tokens) + 1 < n)%nat →
  reads (parseexec n s p) (fold_left add_item l (EXEC [])) rest.
Proof.
  intros Hok Hnw Hrest Hp Hs Hn. destruct n as [|n]; [lia|]. cbn [parseexec].
  destruct (peek_spells p (str "(") _ ltac:(sets) Hp Hs) as (p1 & -> & Hp1 & Hs1).
  assert (Hfirst : first_in (str "(") ((l ≫= item_tokens) ++ rest) = false).
  { destruct l as [|[w|op f] l]; [apply (follows_not _ _ _ Hrest); sets|done|].
    inversion Hok as [|? ? Hi ?]; subst. unfold item_ok, str in Hi. cbn in Hi.
    repeat (apply elem_of_cons in Hi as [->|Hi]; [by vm_compute|]). by apply not_elem_of_nil in Hi. }
  rewrite Hfirst. pose proof (item_tokens_length l) as Hlen.
  destruct (split_redirs l) as (rs & l' & -> & Hrs & Hl'). apply Forall_app in Hok as [Hok1 Hok2].
  rewrite bind_app, <-app_assoc in Hs1. rewrite length_app in Hlen.
  destruct (parseredirs_reads rs ((l' ≫= item_tokens) ++ rest) (EXEC []) p1 n) as (c2 & p2 & E2 & Hc2 & Hp2 & Hs2);
    [done|done|by apply word_then_redirs|done|done|lia|].
  rewrite E2. cbn [mbind prog_bind pbind fst snd].
  rewrite nwords_app in Hnw.
  destruct (exec_loop_reads (length l') l' rest c2 0 p2 n n) as (c3 & p3 & E3 & Hc3 & Hr3); try done; try lia.
  exists c3, p3. split; [done|]. split; [|done]. by rewrite Hc3, Hc2, fold_left_app.
Qed.

Lemma back_loop_reads k rest c p n :
  follows (str ");") rest → (p ≤ length s)%nat → spells (replicate k (TOp (chr "&")) ++ rest) (drop p s) → (k < n)%nat →
  reads (ploop n (back_step s) (c, p)) (Nat.iter k BACK (word_text s <$> c)) rest.
Proof.
  intros Hrest. revert c p n. induction k as [|k IH]; intros c p n Hp Hs Hn; (destruct n as [|n]; [lia|]);
    destruct (peek_spells p (str "&") _ ltac:(sets) Hp Hs) as (p1 & Epk & Hp1 & Hs1); cbn [ploop].
  - assert (E : back_step s (c, p) = Return (inr (c, p1))).
    { unfold back_step. rewrite Epk. cbn [replicate app]. by rewrite (follows_not _ (str "&") _ Hrest ltac:(sets)). }
    rewrite E. by eexists _, _.
  - assert (E : back_step s (c, p) = Return (inl (BACK c, tp (gettoken s p1)))) by (unfold back_step; by rewrite Epk).
    rewrite E. destruct (gettoken_spells p1 _ _ Hp1 Hs1) as (_ & Hp2 & Hs2).
    destruct (IH (BACK c) (tp (gettoken s p1)) n Hp2 Hs2) as (c3 & p3 & E3 & Hc3 & Hr3); [lia|].
    exists c3, p3. split; [done|]. split; [|done]. rewrite Hc3. change (word_text s <$> BACK c) with (BACK (word_text s <$> c)).
    by rewrite <-Nat.iter_succ_r.
Qed.

(** What each procedure of the parser does with a phrase of its kind. *)
Definition parses (x : nonterminal) (ts : list tk) (c : cmd (list Z)) : Prop :=
  ∀ rest p n, (p ≤ length s)%nat → spells (ts ++ rest) (drop p s) →
  match x with
  | Exec => follows (str "|)&;") rest → (4 * length (ts ++ rest) + 2 ≤ n)%nat → reads (parseexec n s p) c rest
  | Pipe => follows (str ")&;") rest → (4 * length (ts ++ rest) + 3 ≤ n)%nat → reads (parsepipe n s p) c rest
  | Back => follows (str ");") rest → (4 * length (ts ++ rest) + 3 ≤ n)%nat →
      reads (r ← parsepipe n s p; ploop n (back_step s) r) c rest
  | Line => follows (str ")") rest → (4 * length (ts ++ rest) + 4 ≤ n)%nat → reads (parseline n s p) c rest
  end.

Lemma block_parses ts c rs :
  parses Line ts c → Forall item_ok rs → Forall (λ i, is_redir i = true) rs →
  parses Exec (TOp (chr "(") :: ts ++ TOp (chr ")") :: (rs ≫= item_tokens)) (fold_left add_item rs c).
Proof.
  intros IH Hok Hrs rest p n Hp Hs Hrest Hn. cbn [app length] in *. rewrite <-app_assoc in *. cbn [app] in *.
  rewrite !length_app in Hn. cbn [length] in Hn. rewrite length_app in Hn. pose proof (item_tokens_length rs) as Hlrs.
  destruct n as [|[|n]]; [lia|lia|]. cbn [parseexec].
  destruct (peek_spells p (str "(") _ ltac:(sets) Hp Hs) as (p1 & -> & Hp1 & Hs1). cbn [first_in].
  change (in_set (str "(") (if chr "(" =? chr "+" then chr ">" else chr "(")) with true. cbn [parseblock].
  destruct (peek_spells p1 (str "(") _ ltac:(sets) Hp1 Hs1) as (p2 & -> & Hp2 & Hs2). cbn [first_in].
  change (in_set (str "(") (if chr "(" =? chr "+" then chr ">" else chr "(")) with true. cbn [negb].
  destruct (gettoken_spells p2 _ _ Hp2 Hs2) as (_ & Hp3 & Hs3).
  destruct (IH _ _ n Hp3 Hs3) as (c4 & p4 & -> & Hc4 & Hp4 & Hs4).
  { right. by vm_compute. } { rewrite length_app. cbn [length]. rewrite length_app. lia. }
  cbn [mbind prog_bind pbind].
  destruct (peek_spells p4 (str ")") _ ltac:(sets) Hp4 Hs4) as (p5 & -> & Hp5 & Hs5). cbn [first_in].
  change (in_set (str ")") (if chr ")" =? chr "+" then chr ">" else chr ")")) with true. cbn [negb].
  destruct (gettoken_spells p5 _ _ Hp5 Hs5) as (_ & Hp6 & Hs6). rewrite <-Hc4.
  apply parseredirs_reads; try done; [|lia]. apply (follows_not _ _ _ Hrest). sets.
Qed.

Lemma pipe_parses ts1 c1 ts2 c2 :
  parses Exec ts1 c1 → parses Pipe ts2 c2 → parses Pipe (ts1 ++ TOp (chr "|") :: ts2) (PIPE c1 c2).
Proof.
  intros IH1 IH2 rest p n Hp Hs Hrest Hn. rewrite <-app_assoc in *. cbn [app] in *.
  destruct n as [|n]; [lia|]. cbn [parsepipe].
  destruct (IH1 _ _ n Hp Hs) as (c3 & p3 & -> & Hc3 & Hp3 & Hs3); [right; by vm_compute|lia|].
  cbn [mbind prog_bind pbind].
  destruct (peek_spells p3 (str "|") _ ltac:(sets) Hp3 Hs3) as (p4 & -> & Hp4 & Hs4). cbn [first_in].
  change (in_set (str "|") (if chr "|" =? chr "+" then chr ">" else chr "|")) with true. cbv iota.
  destruct (gettoken_spells p4 _ _ Hp4 Hs4) as (_ & Hp5 & Hs5). rewrite length_app in Hn. cbn [length] in Hn.
  destruct (IH2 _ _ n Hp5 Hs5 Hrest) as (c6 & p6 & -> & Hc6 & Hr6); [lia|].
  cbn. eexists _, _. split; [done|]. split; [|done]. by rewrite <-Hc3, <-Hc6.
Qed.

Lemma exec_parses ts c : parses Exec ts c → parses Pipe ts c.
Proof.
  intros IH rest p n Hp Hs Hrest Hn. destruct n as [|n]; [lia|]. cbn [parsepipe].
  destruct (IH _ _ n Hp Hs) as (c3 & p3 & -> & Hc3 & Hp3 & Hs3); [apply (follows_mono _ _ _ Hrest); sets|lia|].
  cbn [mbind prog_bind pbind].
  destruct (peek_spells p3 (str "|") _ ltac:(sets) Hp3 Hs3) as (p4 & -> & Hp4 & Hs4).
  rewrite (follows_not _ (str "|") _ Hrest ltac:(sets)). by eexists _, _.
Qed.

Lemma back_parses ts c k :
  parses Pipe ts c → parses Back (ts ++ replicate k (TOp (chr "&"))) (Nat.iter k BACK c).
Proof.
  intros IH rest p n Hp Hs Hrest Hn. rewrite <-app_assoc in *.
  destruct (IH _ _ n Hp Hs) as (c3 & p3 & -> & Hc3 & Hp3 & Hs3); [|lia|].
  { destruct k; [|right; by vm_compute]. apply (follows_mono _ _ _ Hrest). sets. }
  cbn [mbind prog_bind pbind]. rewrite <-Hc3. apply back_loop_reads; [done|done|done|].
  rewrite !length_app, length_replicate in Hn. lia.
Qed.

(** parseline() runs what [Back] stands for with the rest of its iterations. *)
Lemma back_parseline ts c rest p n :
  parses Back ts c → (p ≤ length s)%nat → spells (ts ++ rest) (drop p s) → follows (str ");") rest →
  (4 * length (ts ++ rest) + 4 ≤ S n)%nat → ∃ c' p',
  word_text s <$> c' = c ∧ (p' ≤ length s)%nat ∧ spells rest (drop p' s) ∧
  parseline (S n) s p =
    (let '(b, p) := peek s p' (str ";") in
     if b then
       r ← parseline n s (tp (gettoken s p));
       Return (LIST c' (fst r), snd r)
     else Return (c', p)).
Proof.
  intros IH Hp Hs Hrest Hn. destruct (IH _ _ n Hp Hs Hrest) as (c3 & p3 & E3 & Hc3 & Hp3 & Hs3); [lia|].
  exists c3, p3. split_and!; [done|done|done|]. cbn [parseline].
  destruct (parsepipe n s p) as [r| | | |]; try done. cbn [mbind prog_bind pbind] in *. by rewrite E3.
Qed.

Lemma derives_parses x ts c : derives x ts c → parses x ts c.
Proof.
  induction 1 as [l Hok Hnw|ts c rs _ IH Hok Hrs|ts c _ IH|ts1 c1 ts2 c2 _ IH1 _ IH2|ts c k _ IH|ts c _ IH|ts1 c1 ts2 c2 _ IH1 _ IH2].
  - intros rest p n Hp Hs Hrest Hn. apply simple_reads; try done. rewrite length_app in Hn. lia.
  - by apply block_parses.
  - by apply exec_parses.
  - by apply pipe_parses.
  - by apply back_parses.
  - intros rest p n Hp Hs Hrest Hn. destruct n as [|n]; [lia|].
    destruct (back_parseline ts c rest p n IH Hp Hs) as (c3 & p3 & Hc3 & Hp3 & Hs3 & ->);
      [apply (follows_mono _ _ _ Hrest); sets|done|].
    destruct (peek_spells p3 (str ";") _ ltac:(sets) Hp3 Hs3) as (p4 & -> & Hp4 & Hs4).
    rewrite (follows_not _ (str ";") _ Hrest ltac:(sets)). by eexists _, _.
  - intros rest p n Hp Hs Hrest Hn. rewrite <-app_assoc in *. cbn [app] in *. destruct n as [|n]; [lia|].
    destruct (back_parseline ts1 c1 _ p n IH1 Hp Hs) as (c3 & p3 & Hc3 & Hp3 & Hs3 & ->);
      [right; by vm_compute|done|].
    destruct (peek_spells p3 (str ";") _ ltac:(sets) Hp3 Hs3) as (p4 & -> & Hp4 & Hs4). cbn [first_in].
    change (in_set (str ";") (if chr ";" =? chr "+" then chr ">" else chr ";")) with true. cbv iota.
    destruct (gettoken_spells p4 _ _ Hp4 Hs4) as (_ & Hp5 & Hs5). rewrite length_app in Hn. cbn [length] in Hn.
    destruct (IH2 _ _ n Hp5 Hs5 Hrest) as (c6 & p6 & -> & Hc6 & Hr6); [lia|].
    cbn. eexists _, _. split; [done|]. split; [|done]. by rewrite <-Hc3, <-Hc6.
Qed.

End reading.

(** ** The whole line *)

Lemma spells_length ts l : spells ts l → (length ts ≤ length l)%nat.
Proof.
  induction 1 as [|sp t ts rest _ Ht _ _ IH]; [cbn; lia|]. rewrite !length_app. cbn [length].
  destruct (tk_text_head t Ht) as (c & l & -> & _). cbn [length]. lia.
Qed.

Lemma blank_nonul sp : blank sp → Forall (λ c, c ≠ 0) sp.
Proof. intros Hsp. eapply Forall_impl; [done|]. intros c Hc ->. by vm_compute in Hc. Qed.

Lemma spells_nonul ts l : spells ts l → Forall (λ c, c ≠ 0) l.
Proof.
  induction 1 as [|sp t ts rest Hsp Ht _ _ IH]; [by apply blank_nonul|].
  rewrite !Forall_app. split_and!; [by apply blank_nonul| |done]. destruct t as [w|d]; cbn [tk_ok tk_text] in *.
  - destruct Ht as [_ Hw]. eapply Forall_impl; [done|]. by intros ? [].
  - destruct (d =? chr "+"); [by repeat constructor|]. constructor; [|constructor]. intros ->. revert Ht.
    unfold str. cbn. rewrite !elem_of_cons, elem_of_nil. intros Ht. by repeat destruct Ht as [Ht|Ht].
Qed.

(** C36: a line that spells a list of tokens from which the grammar derives a
    command is parsed without an error, and the strings of the command that
    parsecmd() returns are those of the derived command. *)
Theorem parsecmd_accepts_grammar s ts c :
  spells ts s → derives Line ts c → ∃ c' buf,
  parsecmd (parse_fuel s) s = Return (c', buf) ∧ strings buf c' = c.
Proof.
  intros Hs Hd. pose proof (spells_nonul ts s Hs) as Hnul. pose proof (spells_length ts s Hs) as Hlen.
  destruct (derives_parses s Line ts c Hd [] 0%nat (parse_fuel s)) as (c' & p & E & Hc & Hp & Hend).
  { lia. } { by rewrite app_nil_r, drop_0. } { by left. } { rewrite app_nil_r. unfold parse_fuel. lia. }
  pose proof (proj1 (parse_ok s Hnul (parse_fuel s)) 0%nat) as Hok. rewrite E in Hok.
  destruct Hok as [Hcok _]; [lia|unfold parse_fuel; lia|]. cbn [fst] in Hcok.
  exists c', (nulterminate c' (s ++ [0])). split; [|by rewrite strings_ok].
  unfold parsecmd. rewrite E. cbn [mbind prog_bind pbind]. unfold peek.
  destruct (spells_at s p [] Hp Hend) as (_ & _ & ->). by rewrite Nat.eqb_refl.
Qed.

(** A line of the grammar: echo a >>f|(ls;wc<g) & *)
Definition demo_tokens : list tk :=
  [TWord (str "echo"); TWord (str "a"); TOp (chr "+"); TWord (str "f"); TOp (chr "|"); TOp (chr "(");
   TWord (str "ls"); TOp (chr ";"); TWord (str "wc"); TOp (chr "<"); TWord (str "g"); TOp (chr ")"); TOp (chr "&")].

Definition demo_cmd : cmd (list Z) :=
  BACK (PIPE (REDIR (EXEC [str "echo"; str "a"]) (str "f") (Z.lor O_WRONLY O_CREATE) 1)
    (LIST (EXEC [str "ls"]) (REDIR (EXEC [str "wc"]) (str "g") O_RDONLY 0))).

Lemma demo_spells : spells demo_tokens (str "echo a >>f|(ls;wc<g) &").
Proof.
  apply (spells_cons [] (TWord (str "echo")) _ (str " a >>f|(ls;wc<g) &")); [constructor|by split; [|repeat constructor]|done|].
  apply (spells_cons [32] (TWord (str "a")) _ (str " >>f|(ls;wc<g) &")); [by repeat constructor|by split; [|repeat constructor]|done|].
  apply (spells_cons [32] (TOp (chr "+")) _ (str "f|(ls;wc<g) &")); [by repeat constructor|by apply (bool_decide_unpack _)|done|].
  apply (spells_cons [] (TWord (str "f")) _ (str "|(ls;wc<g) &")); [constructor|by split; [|repeat constructor]|done|].
  apply (spells_cons [] (TOp (chr "|")) _ (str "(ls;wc<g) &")); [constructor|by apply (bool_decide_unpack _)|done|].
  apply (spells_cons [] (TOp (chr "(")) _ (str "ls;wc<g) &")); [constructor|by apply (bool_decide_unpack _)|done|].
  apply (spells_cons [] (TWord (str "ls")) _ (str ";wc<g) &")); [constructor|by split; [|repeat constructor]|done|].
  apply (spells_cons [] (TOp (chr ";")) _ (str "wc<g) &")); [constructor|by apply (bool_decide_unpack _)|done|].
  apply (spells_cons [] (TWord (str "wc")) _ (str "<g) &")); [constructor|by split; [|repeat constructor]|done|].
  apply (spells_cons [] (TOp (chr "<")) _ (str "g) &")); [constructor|by apply (bool_decide_unpack _)|done|].
  apply (spells_cons [] (TWord (str "g")) _ (str ") &")); [constructor|by split; [|repeat constructor]|done|].
  apply (spells_cons [] (TOp (chr ")")) _ (str " &")); [constructor|by apply (bool_decide_unpack _)|done|].
  apply (spells_cons [32] (TOp (chr "&")) _ []); [by repeat constructor|by apply (bool_decide_unpack _)|done|].
  apply spells_nil. constructor.
Qed.

Lemma demo_derives : derives Line demo_tokens demo_cmd.
Proof.
  apply derives_one.
  apply (derives_back (take 12 demo_tokens) (PIPE (REDIR (EXEC [str "echo"; str "a"]) (str "f") (Z.lor O_WRONLY O_CREATE) 1)
    (LIST (EXEC [str "ls"]) (REDIR (EXEC [str "wc"]) (str "g") O_RDONLY 0))) 1).
  apply (derives_pipe (take 4 demo_tokens) _ (take 7 (drop 5 demo_tokens))).
  - apply (derives_simple [IWord (str "echo"); IWord (str "a"); IRedir (chr "+") (str "f")]); [|vm_compute; lia].
    repeat constructor; by apply (bool_decide_unpack _).
  - apply derives_exec. apply (derives_block (take 5 (drop 6 demo_tokens)) _ []); [|constructor|constructor].
    apply (derives_list [TWord (str "ls")] _ [TWord (str "wc"); TOp (chr "<"); TWord (str "g")]).
    + apply (derives_back [TWord (str "ls")] (EXEC [str "ls"]) 0), derives_exec.
      apply (derives_simple [IWord (str "ls")]); [by repeat constructor|vm_compute; lia].
    + apply derives_one, (derives_back [TWord (str "wc"); TOp (chr "<"); TWord (str "g")] (REDIR (EXEC [str "wc"]) (str "g") O_RDONLY 0) 0), derives_exec.
      apply (derives_simple [IWord (str "wc"); IRedir (chr "<") (str "g")]); [|vm_compute; lia].
      repeat constructor; by apply (bool_decide_unpack _).
Qed.

Lemma parsecmd_accepts_grammar_witness : ∃ c' buf,
  parsecmd (parse_fuel (str "echo a >>f|(ls;wc<g) &")) (str "echo a >>f|(ls;wc<g) &") = Return (c', buf) ∧
  strings buf c' = demo_cmd.
Proof. apply (parsecmd_accepts_grammar _ demo_tokens demo_cmd demo_spells demo_derives). Defined.
