(* ===== verification/Umalloc.v ===== *)
(** The memory allocator of user programs, user/umalloc.c.

    The free blocks form a ring in the order of their addresses that starts at
    the static header base.  Memory is modelled as far as the allocator uses it:
    a header at each address, and freep.  Pointers are byte addresses, so that
    p + n for a Header pointer p is p + 16 n.  The loops take the number of
    iterations to unroll. *)

From Stdlib Require Import ZArith Lia ZifyBool.
From stdpp Require Import base numbers list.
From S2P Require Import Prelude Params Printf User.

Record header := Header { ptr : Z; size : Z }.

Record heap := Heap { hdr : Z → header; freep : Z }.

Definition sizeof_Header : Z := 16.

Definition store (a : Z) (x : header) (m : Z → header) : Z → header := λ b, if b =? a then x else m b.
Definition set_ptr (a v : Z) (m : Z → header) : Z → header := store a (Header v (size (m a))) m.
Definition set_size (a v : Z) (m : Z → header) : Z → header := store a (Header (ptr (m a)) v) m.

(** p + n in units of the header. *)
Definition plus (p n : Z) : Z := p + sizeof_Header * n.

(** for(p = freep; !(bp > p && bp < p->s.ptr); p = p->s.ptr)
      if(p >= p->s.ptr && (bp > p || bp < p->s.ptr)) break; *)
Fixpoint find_place (fuel : nat) (m : Z → header) (bp p : Z) : option Z :=
  match fuel with
  | O => None
  | S fuel =>
      let q := ptr (m p) in
      if (p <? bp) && (bp <? q) then Some p
      else if (q <=? p) && ((p <? bp) || (bp <? q)) then Some p
      else find_place fuel m bp q
  end.

(** The block at [bp] linked to the block [q] after it, and joined with it where
    they meet; then the block [p] before it. *)
Definition link_up (m : Z → header) (bp q : Z) : Z → header :=
  if plus bp (size (m bp)) =? q
  then store bp (Header (ptr (m q)) (u32 (size (m bp) + size (m q)))) m
  else set_ptr bp q m.

Definition link_down (m : Z → header) (bp p : Z) : Z → header :=
  if plus p (size (m p)) =? bp
  then store p (Header (ptr (m bp)) (u32 (size (m p) + size (m bp)))) m
  else set_ptr p bp m.

Definition link_block (m : Z → header) (bp p : Z) : Z → header :=
  link_down (link_up m bp (ptr (m p))) bp p.

Definition free (fuel : nat) (h : heap) (ap : Z) : prog heap :=
  let bp := ap - sizeof_Header in
  match find_place fuel (hdr h) bp (freep h) with
  | None => OutOfFuel
  | Some p => Return (Heap (link_block (hdr h) bp p) p)
  end.

(** morecore(): freep, or None where it returns 0. *)
Definition morecore (fuel : nat) (h : heap) (nu : Z) : prog (option Z * heap) :=
  let nu := if nu <? 4096 then 4096 else nu in
  p ← Ulib.sbrk (i32 (nu * sizeof_Header));
  if p =? -1 then Return (None, h)
  else
    h ← free fuel (Heap (set_size p nu (hdr h)) (freep h)) (p + sizeof_Header);
    Return (Some (freep h), h).

Definition units (nbytes : Z) : Z :=
  u32 ((nbytes + sizeof_Header - 1) / sizeof_Header + 1).

(** Taking [nunits] units from the block at [p], whose predecessor is [prevp]. *)
Definition carve (nunits prevp p : Z) (h : heap) : Z * heap :=
  let m := hdr h in
  if size (m p) =? nunits then
    (p + sizeof_Header, Heap (set_ptr prevp (ptr (m p)) m) prevp)
  else
    let m := set_size p (u32 (size (m p) - nunits)) m in
    let p := plus p (size (m p)) in
    (p + sizeof_Header, Heap (set_size p nunits m) prevp).

(** One pass of the loop of malloc(); the state is prevp, p and the heap. *)
Definition malloc_step (fuel : nat) (nunits : Z) (st : Z * Z * heap) : prog (Z * Z * heap + Z * heap) :=
  let '(prevp, p, h) := st in
  if nunits <=? size (hdr h p) then Return (inr (carve nunits prevp p h))
  else if p =? freep h then
    r ← morecore fuel h nunits;
    let '(q, h) := r in
    match q with
    | None => Return (inr (0, h))
    | Some p => Return (inl (p, ptr (hdr h p), h))
    end
  else Return (inl (p, ptr (hdr h p), h)).

Definition malloc (fuel : nat) (base : Z) (h : heap) (nbytes : Z) : prog (Z * heap) :=
  let nunits := units nbytes in
  let h := if freep h =? 0 then Heap (store base (Header base 0) (hdr h)) base else h in
  let prevp := freep h in
  ploop fuel (malloc_step fuel nunits) (prevp, ptr (hdr h prevp), h).

(** ** The ring of free blocks *)

(** From the node at [p] of [n] units the nodes [bs] follow, and then [z]. *)
Fixpoint links (m : Z → header) (p n : Z) (bs : list (Z * Z)) (z : Z) : Prop :=
  match bs with
  | [] => m p = Header z n
  | (a, k) :: bs => m p = Header a n ∧ links m a k bs z
  end.

(** Blocks from [lo] on in the order of their addresses, with a gap after each. *)
Fixpoint ordered (lo : Z) (bs : list (Z * Z)) : Prop :=
  match bs with
  | [] => True
  | (a, n) :: bs => lo < a ∧ 0 < n ∧ ordered (plus a n) bs
  end.

(** [x] lies in a block. *)
Definition inside (a n x : Z) : Prop := a ≤ x < plus a n.
Definition in_blocks (bs : list (Z * Z)) (x : Z) : Prop := ∃ a n, (a, n) ∈ bs ∧ inside a n x.

Definition below (hi : Z) (bs : list (Z * Z)) : Prop := ∀ a n, (a, n) ∈ bs → plus a n ≤ hi.

(** The free blocks [bs] of a heap that ends at [brk].  Before the first call
    freep is 0. *)
Record ring (base : Z) (h : heap) (bs : list (Z * Z)) (brk : Z) : Prop := {
  rg_base : 0 < base ∧ base + sizeof_Header ≤ brk < 2 ^ 36;
  rg_links : links (hdr h) base 0 bs base;
  rg_order : ordered (base + sizeof_Header - 1) bs;
  rg_below : below brk bs;
  rg_freep : freep h ∈ base :: bs.*1;
}.

Lemma links_app m p n u a k v z :
  links m p n (u ++ (a, k) :: v) z ↔ links m p n u a ∧ links m a k v z.
Proof.
  revert p n. induction u as [|[b j] u IH]; intros p n; cbn; [done|]. rewrite IH. tauto.
Qed.

Lemma links_frame m m' p n bs z :
  links m p n bs z → (∀ a, a ∈ p :: bs.*1 → m' a = m a) → links m' p n bs z.
Proof.
  revert p n. induction bs as [|[a k] bs IH]; intros p n; cbn [links fmap list_fmap fst].
  - intros Hm He. by rewrite He by left.
  - intros [Hm Hl] He. split; [by rewrite He by left|]. apply IH; [done|]. intros b Hb. apply He. by right.
Qed.

Lemma ordered_weaken lo lo' bs : ordered lo bs → lo' ≤ lo → ordered lo' bs.
Proof. destruct bs as [|[a n] bs]; cbn; [done|]. intros (?&?&?) ?. split_and!; [lia|done|done]. Qed.

(** The end of the last block of [bs], or [lo]. *)
Fixpoint top (lo : Z) (bs : list (Z * Z)) : Z :=
  match bs with
  | [] => lo
  | (a, n) :: bs => top (plus a n) bs
  end.

Lemma ordered_app lo u v : ordered lo (u ++ v) ↔ ordered lo u ∧ ordered (top lo u) v.
Proof.
  revert lo. induction u as [|[a n] u IH]; intros lo; cbn; [tauto|]. rewrite IH. tauto.
Qed.

Lemma top_app lo u v : top lo (u ++ v) = top (top lo u) v.
Proof. revert lo. induction u as [|[a n] u IH]; intros lo; cbn; [done|]. apply IH. Qed.

Lemma ordered_top lo bs : ordered lo bs → lo ≤ top lo bs.
Proof.
  revert lo. induction bs as [|[a n] bs IH]; intros lo; cbn; [lia|]. intros (?&?&Ho).
  specialize (IH _ Ho). unfold plus, sizeof_Header in *. lia.
Qed.

Lemma ordered_bounds lo bs a n : ordered lo bs → (a, n) ∈ bs → lo < a ∧ 0 < n ∧ plus a n ≤ top lo bs.
Proof.
  revert lo. induction bs as [|[b k] bs IH]; intros lo; cbn; [by intros _ ?%not_elem_of_nil|].
  intros (Hlo & Hk & Ho) [[= -> ->]|Hin]%elem_of_cons.
  - pose proof (ordered_top _ _ Ho). split_and!; lia.
  - destruct (IH _ Ho Hin) as (?&?&?). unfold plus, sizeof_Header in *. split_and!; lia.
Qed.

Lemma top_below lo bs hi : lo ≤ hi → below hi bs → top lo bs ≤ hi.
Proof.
  revert lo. induction bs as [|[a n] bs IH]; intros lo Hlo Hb; cbn; [done|]. apply IH.
  - apply (Hb a n). by left.
  - intros b k Hin. apply Hb. by right.
Qed.

Lemma in_blocks_app u v x : in_blocks (u ++ v) x ↔ in_blocks u x ∨ in_blocks v x.
Proof.
  unfold in_blocks. split.
  - intros (a & n & [Hin|Hin]%elem_of_app & Hx); [left|right]; by exists a, n.
  - intros [(a & n & Hin & Hx)|(a & n & Hin & Hx)]; exists a, n; (split; [apply elem_of_app|done]); [by left|by right].
Qed.

Lemma in_blocks_cons a n bs x : in_blocks ((a, n) :: bs) x ↔ inside a n x ∨ in_blocks bs x.
Proof.
  unfold in_blocks. split.
  - intros (b & k & [[= -> ->]|Hin]%elem_of_cons & Hx); [by left|right; by exists b, k].
  - intros [Hx|(b & k & Hin & Hx)]; [exists a, n|exists b, k]; (split; [|done]); [by left|by right].
Qed.

Lemma in_blocks_nil x : ¬ in_blocks [] x.
Proof. by intros (a & n & ?%not_elem_of_nil & _). Qed.

Lemma ordered_in_blocks lo bs x : ordered lo bs → in_blocks bs x → lo < x < top lo bs.
Proof.
  intros Ho (a & n & Hin & Hx). destruct (ordered_bounds _ _ _ _ Ho Hin) as (?&?&?).
  unfold inside in Hx. lia.
Qed.

(** The headers of the nodes lie in the blocks. *)
Lemma node_in_blocks lo bs a : ordered lo bs → a ∈ bs.*1 → in_blocks bs a.
Proof.
  intros Ho ([b n] & -> & Hin)%list_elem_of_fmap. exists b, n. split; [done|].
  destruct (ordered_bounds _ _ _ _ Ho Hin) as (?&?&?). cbn. unfold inside, plus, sizeof_Header. lia.
Qed.

Lemma ordered_length lo bs : ordered lo bs → sizeof_Header * Z.of_nat (length bs) ≤ top lo bs - lo.
Proof.
  revert lo. induction bs as [|[a n] bs IH]; intros lo; cbn [ordered top length]; [lia|]. intros (?&?&Ho).
  specialize (IH _ Ho). unfold plus, sizeof_Header in *. lia.
Qed.

(** ** free() *)

(** The last node of a chain. *)
Fixpoint lastn (p n : Z) (bs : list (Z * Z)) : Z * Z :=
  match bs with
  | [] => (p, n)
  | (a, k) :: bs => lastn a k bs
  end.

Lemma lastn_app p n u a k : lastn p n (u ++ [(a, k)]) = (a, k).
Proof. revert p n. induction u as [|[b j] u IH]; intros p n; cbn; [done|]. apply IH. Qed.

Lemma lastn_in p n u : (lastn p n u).1 ∈ p :: u.*1.
Proof. revert p n. induction u as [|[b j] u IH]; intros p n; cbn; [by left|]. right. apply IH. Qed.

Lemma links_last m p n u z : links m p n u z → m (lastn p n u).1 = Header z (lastn p n u).2.
Proof. revert p n. induction u as [|[b j] u IH]; intros p n; cbn; [done|]. intros [_ ?]. by apply IH. Qed.

(** The search goes up through the nodes before the block ... *)
Lemma find_up m bp p n u z fuel :
  links m p n u z → ordered p u → p < bp → (∀ a, a ∈ u.*1 → a < bp) → bp < z ∨ z ≤ (lastn p n u).1 →
  (length u < fuel)%nat → find_place fuel m bp p = Some (lastn p n u).1.
Proof.
  revert p n fuel. induction u as [|[a k] u IH]; intros p n fuel Hl Ho Hp Hu Hz Hf; (destruct fuel as [|fuel]; [lia|]); cbn in *.
  - rewrite Hl. cbn [ptr]. rewrite (proj2 (Z.ltb_lt p bp) Hp). destruct (Z.ltb_spec bp z); [done|]. cbn.
    by rewrite (proj2 (Z.leb_le z p)) by lia.
  - destruct Hl as [-> Hl]. destruct Ho as (Hpa & Hk & Ho). cbn [ptr].
    pose proof (Hu a ltac:(by left)) as Ha. rewrite (proj2 (Z.ltb_ge bp a)) by lia. rewrite andb_false_r.
    rewrite (proj2 (Z.leb_gt a p)) by lia. cbn. apply (IH a k); try done; [|intros b Hb; apply Hu; by right|lia].
    apply (ordered_weaken (plus a k)); [done|]. unfold plus, sizeof_Header. lia.
Qed.

(** ... and from a node after it through base. *)
Lemma find_wrap m bp p n u base fuel :
  links m p n u base → ordered p u → bp < p → base < bp →
  find_place (S (length u) + fuel) m bp p = find_place fuel m bp base.
Proof.
  revert p n. induction u as [|[a k] u IH]; intros p n Hl Ho Hp Hbase; cbn in Hl |- *.
  - rewrite Hl. cbn [ptr]. rewrite (proj2 (Z.ltb_ge p bp)) by lia. cbn.
    rewrite (proj2 (Z.leb_le base p)) by lia. by rewrite (proj2 (Z.ltb_ge bp base)) by lia.
  - destruct Hl as [-> Hl]. destruct Ho as (Hpa & Hk & Ho). cbn [ptr]. rewrite (proj2 (Z.ltb_ge p bp)) by lia. cbn.
    rewrite (proj2 (Z.leb_gt a p)) by lia. cbn. apply (IH a k); [done| |lia|done].
    apply (ordered_weaken (plus a k)); [done|]. unfold plus, sizeof_Header. lia.
Qed.

(** Where a block that overlaps no free block goes. *)
Lemma split_at lo bs bp n :
  ordered lo bs → lo < bp → 0 < n → (∀ x, inside bp n x → ¬ in_blocks bs x) →
  ∃ u v, bs = u ++ v ∧ top lo u ≤ bp ∧ match v with [] => True | (q, _) :: _ => plus bp n ≤ q end.
Proof.
  revert lo. induction bs as [|[a k] bs IH]; intros lo Ho Hlo Hn Hdis; [exists [], []; cbn; split_and!; [done|lia|done]|].
  destruct Ho as (Ha & Hk & Ho).
  assert (Hcase : plus a k ≤ bp ∨ plus bp n ≤ a).
  { destruct (decide (plus a k ≤ bp)); [by left|]. destruct (decide (plus bp n ≤ a)); [by right|]. exfalso.
    apply (Hdis (Z.max a bp)); [|apply in_blocks_cons; left]; unfold inside, plus, sizeof_Header in *; lia. }
  destruct Hcase as [Hle|Hge].
  - destruct (decide (plus a k = bp)) as [He|Hne].
    + exists [(a, k)], bs. split_and!; [done|cbn; lia|]. destruct bs as [|[q j] bs]; [done|]. destruct Ho as (Hq & Hj & _).
      destruct (decide (plus bp n ≤ q)); [done|]. exfalso.
      apply (Hdis q); [unfold inside; lia|]. rewrite !in_blocks_cons. right. left. unfold inside, plus, sizeof_Header. lia.
    + destruct (IH (plus a k) Ho ltac:(lia) Hn) as (u & v & -> & Hu & Hv).
      { intros x Hx Hin. apply (Hdis x Hx), in_blocks_cons. by right. }
      by exists ((a, k) :: u), v.
  - exists [], ((a, k) :: bs). split_and!; [done|cbn; lia|done].
Qed.

Lemma find_place_ok base h u v brk bp fuel :
  ring base h (u ++ v) brk → top (base + sizeof_Header - 1) u ≤ bp → base < bp →
  match v with [] => True | (q, _) :: _ => bp < q end → (length u + length v + 1 < fuel)%nat →
  find_place fuel (hdr h) bp (freep h) = Some (lastn base 0 u).1.
Proof.
  intros [[Hb0 Hbrk] Hl Ho Hbelow Hfp] Htop Hbase Hv Hf.
  set (z := match v with [] => base | (q, _) :: _ => q end).
  assert (Hlu : links (hdr h) base 0 u z).
  { destruct v as [|[q k] v]; [by rewrite app_nil_r in Hl|]. by apply links_app in Hl as [? _]. }
  apply ordered_app in Ho as [Hou Hov].
  assert (Hou' : ordered base u) by (apply (ordered_weaken _ _ _ Hou); unfold sizeof_Header; lia).
  assert (Hlt : ∀ a, a ∈ u.*1 → base < a < bp).
  { intros a Ha. pose proof (ordered_in_blocks _ _ _ Hou (node_in_blocks _ _ _ Hou Ha)). unfold sizeof_Header in *. lia. }
  assert (Hz : bp < z ∨ z ≤ (lastn base 0 u).1).
  { destruct v as [|[q k] v]; [right|by left]. pose proof (lastn_in base 0 u) as [->|Hin]%elem_of_cons; [cbn; lia|].
    specialize (Hlt _ Hin). unfold z. lia. }
  assert (Hfrom : ∀ f, (length u < f)%nat → find_place f (hdr h) bp base = Some (lastn base 0 u).1).
  { intros f ?. apply (find_up _ _ _ _ _ z); try done. intros a Ha. by apply Hlt. }
  rewrite fmap_app, elem_of_cons, elem_of_app in Hfp. destruct Hfp as [->|[Hin|Hin]]; [apply Hfrom; lia| |].
  - apply list_elem_of_fmap in Hin as ([a k] & -> & Hin). cbn [fst].
    apply list_elem_of_split in Hin as (u1 & u2 & ->). rewrite length_app in Hf. cbn [length] in Hf.
    apply links_app in Hlu as [_ Hlu]. apply ordered_app in Hou as [_ (Ha & Hk & Hou)].
    assert (Elast : lastn base 0 (u1 ++ (a, k) :: u2) = lastn a k u2).
    { clear. revert base. generalize 0. induction u1 as [|[b j] u1 IH]; intros; cbn; [done|]. apply IH. }
    rewrite Elast in *. rewrite fmap_app in Hlt. cbn [fmap list_fmap fst] in Hlt.
    apply (find_up _ _ _ _ _ z); try done; [..|lia].
    + apply (ordered_weaken (plus a k)); [done|]. unfold plus, sizeof_Header. lia.
    + apply Hlt, elem_of_app. right. by left.
    + intros b Hb. apply Hlt, elem_of_app. right. by right.
  - apply list_elem_of_fmap in Hin as ([a k] & -> & Hin). cbn [fst].
    apply list_elem_of_split in Hin as (v1 & v2 & ->). rewrite length_app in Hf. cbn [length] in Hf.
    rewrite app_assoc in Hl. apply links_app in Hl as [_ Hl].
    apply ordered_app in Hov as [Hov1 (Ha & Hk & Hov2)].
    replace fuel with (S (length v2) + (fuel - S (length v2)))%nat by lia.
    rewrite (find_wrap _ bp a k v2 base); [apply Hfrom; lia|done| | |done].
    + apply (ordered_weaken (plus a k)); [done|]. unfold plus, sizeof_Header. lia.
    + destruct v1 as [|[q j] v1]; cbn in Hv; [done|]. pose proof (ordered_top _ _ Hov1). cbn in Ha, Hov1.
      destruct Hov1 as (_ & Hj & Hov1). pose proof (ordered_top _ _ Hov1). unfold plus, sizeof_Header in *. lia.
Qed.

Lemma store_eq a x m : store a x m a = x.
Proof. unfold store. by rewrite Z.eqb_refl. Qed.

Lemma store_ne a x m b : b ≠ a → store a x m b = m b.
Proof. unfold store. by intros ->%Z.eqb_neq. Qed.

(** A chain whose first header is replaced by one with the same successor. *)
Lemma links_head m m' p n p' n' bs z :
  links m p n bs z → m' p' = Header (ptr (m p)) n' → (∀ a, a ∈ bs.*1 → m' a = m a) → links m' p' n' bs z.
Proof.
  destruct bs as [|[a k] bs]; cbn.
  - by intros -> -> _.
  - intros [-> Hl] -> He. split; [done|]. apply (links_frame m); [done|]. exact He.
Qed.

(** The block joined with the free block after it. *)
Definition join_up (bp n : Z) (v : list (Z * Z)) : list (Z * Z) :=
  match v with
  | (q, k) :: t => if plus bp n =? q then (bp, n + k) :: t else (bp, n) :: v
  | [] => [(bp, n)]
  end.

(** A list of blocks joined with the last one before it. *)
Definition join_down (u w : list (Z * Z)) : list (Z * Z) :=
  match last u, w with
  | Some (p, k), (a, n) :: t => if plus p k =? a then removelast u ++ (p, k + n) :: t else u ++ w
  | _, _ => u ++ w
  end.

Lemma plus_plus a n k : plus (plus a n) k = plus a (n + k).
Proof. unfold plus. lia. Qed.

Lemma join_up_blocks bp n v x :
  0 < n → (∀ a k, (a, k) ∈ v → 0 < k) → in_blocks (join_up bp n v) x ↔ inside bp n x ∨ in_blocks v x.
Proof.
  intros Hn Hv. destruct v as [|[q k] t]; cbn [join_up]; [by rewrite in_blocks_cons|].
  specialize (Hv q k ltac:(by left)).
  destruct (Z.eqb_spec (plus bp n) q) as [<-|]; rewrite !in_blocks_cons; [|tauto].
  assert (inside bp (n + k) x ↔ inside bp n x ∨ inside (plus bp n) k x) as ->
    by (unfold inside; rewrite plus_plus; unfold plus, sizeof_Header; lia).
  tauto.
Qed.

Lemma join_down_blocks u w x :
  (∀ a k, (a, k) ∈ u ++ w → 0 < k) → in_blocks (join_down u w) x ↔ in_blocks u x ∨ in_blocks w x.
Proof.
  intros Hpos. unfold join_down. destruct (last u) as [[p k]|] eqn:Eu; [|by rewrite in_blocks_app].
  destruct w as [|[a n] t]; [by rewrite in_blocks_app|].
  apply last_Some in Eu as [u' ->]. rewrite removelast_last.
  pose proof (Hpos p k ltac:(apply elem_of_app; left; apply elem_of_app; right; by left)).
  pose proof (Hpos a n ltac:(apply elem_of_app; right; by left)).
  destruct (Z.eqb_spec (plus p k) a) as [<-|]; [|by rewrite in_blocks_app].
  rewrite !in_blocks_app, !in_blocks_cons.
  pose proof (in_blocks_nil x) as Hnil.
  assert (inside p (k + n) x ↔ inside p k x ∨ inside (plus p k) n x) as ->
    by (unfold inside; rewrite plus_plus; unfold plus, sizeof_Header; lia).
  tauto.
Qed.

Lemma join_up_ordered lo bp n v :
  lo < bp → 0 < n → ordered lo v → match v with [] => True | (q, _) :: _ => plus bp n ≤ q end →
  ordered lo (join_up bp n v).
Proof.
  intros Hlo Hn Ho Hv. destruct v as [|[q k] t]; cbn [join_up ordered] in *; [done|].
  destruct Ho as (Hq & Hk & Ho). destruct (Z.eqb_spec (plus bp n) q) as [<-|]; cbn [ordered].
  - rewrite <-plus_plus. split_and!; [done|lia|done].
  - split_and!; try done. lia.
Qed.

(** The list after the join is in order: the gap before the block is open or
    closed by the join. *)
Lemma join_down_ordered lo u w :
  ordered lo u → (u = [] → ordered lo w) → ordered (top lo u - 1) w → ordered lo (join_down u w).
Proof.
  intros Hu Hnil Hw. unfold join_down. destruct (last u) as [[p k]|] eqn:Eu.
  - destruct w as [|[a n] t]; [by rewrite app_nil_r|].
    apply last_Some in Eu as [u' ->]. rewrite removelast_last. rewrite top_app in Hw. cbn in Hw.
    apply ordered_app in Hu as [Hu' (Hp & Hk & _)]. destruct Hw as (Ha & Hn & Ho).
    destruct (Z.eqb_spec (plus p k) a) as [<-|].
    + apply ordered_app. split; [done|]. cbn. rewrite <-plus_plus. split_and!; [done|lia|done].
    + rewrite <-app_assoc. apply ordered_app. split; [done|]. cbn. split_and!; [done|done|lia|done|done].
  - apply last_None in Eu as ->. by apply Hnil.
Qed.

(** The header of the block after the first join, and the chain from it. *)
Lemma link_up_ok m base bp n v :
  match v with [] => True | (q, k) :: t => plus bp n ≤ q ∧ links m q k t base ∧ 0 < k ∧ ordered (plus q k) t ∧ n + k < 2 ^ 32 end →
  size (m bp) = n → 0 < n < 2 ^ 32 → base < bp →
  let z := match v with [] => base | (q, _) :: _ => q end in
  ∃ r t, join_up bp n v = (bp, r) :: t ∧ links (link_up m bp z) bp r t base ∧
    ∀ b, b ≠ bp → link_up m bp z b = m b.
Proof.
  intros Hv Hsz Hn Hbase z. unfold link_up. rewrite Hsz.
  destruct v as [|[q k] t]; subst z; cbn [join_up].
  - rewrite (proj2 (Z.eqb_neq (plus bp n) base)) by (unfold plus, sizeof_Header; lia).
    exists n, []. split_and!; [done| |intros; by apply store_ne]. cbn. unfold set_ptr. by rewrite store_eq, Hsz.
  - destruct Hv as (Hq & Hl & Hk & Ho & Hs).
    assert (Hne : ∀ b, b ∈ q :: t.*1 → b ≠ bp).
    { intros b [->|Hb]%elem_of_cons; [unfold plus, sizeof_Header in Hq; lia|].
      pose proof (ordered_in_blocks _ _ _ Ho (node_in_blocks _ _ _ Ho Hb)). unfold plus, sizeof_Header in *. lia. }
    destruct (Z.eqb_spec (plus bp n) q) as [E|Hneq].
    + exists (n + k), t. split_and!; [done| |intros; by apply store_ne].
      assert (Hqk : size (m q) = k) by (destruct t as [|[a j] t]; cbn in Hl; [by rewrite Hl|by destruct Hl as [-> _]]).
      rewrite Hqk, u32_small by lia. apply (links_head m _ q k); [done|by rewrite store_eq|].
      intros a Ha. apply store_ne, Hne. by right.
    + exists n, ((q, k) :: t). split_and!; [done| |intros; by apply store_ne]. unfold set_ptr. cbn [links].
      rewrite store_eq, Hsz. split; [done|]. apply (links_frame m); [done|]. intros a Ha. by apply store_ne, Hne.
Qed.

(** The second join. *)
Lemma link_down_ok m base u bp r t z :
  links m base 0 u z → links m bp r t base → ordered (base + sizeof_Header - 1) u →
  (∀ a, a ∈ base :: u.*1 → a < bp) → (∀ a, a ∈ t.*1 → bp < a) →
  match last u with Some (p, k) => 0 ≤ k + r < 2 ^ 32 | None => True end →
  links (link_down m bp (lastn base 0 u).1) base 0 (join_down u ((bp, r) :: t)) base.
Proof.
  intros Hl Hlt Ho Hu Ht Hsmall. unfold link_down, join_down.
  assert (Hmbp : size (m bp) = r) by (destruct t as [|[a j] t]; cbn in Hlt; [by rewrite Hlt|by destruct Hlt as [-> _]]).
  destruct (last u) as [[p k]|] eqn:Eu.
  - apply last_Some in Eu as [u' ->]. rewrite removelast_last, lastn_app. cbn [fst].
    apply links_app in Hl as [Hl Hp]. cbn in Hp. rewrite Hp. cbn [size].
    rewrite fmap_app in Hu. cbn in Hu.
    assert (Hpb : p < bp) by (apply Hu; right; apply elem_of_app; right; by left).
    apply ordered_app in Ho as [Ho (Hgap & Hk & _)].
    assert (Hne : ∀ a, a ∈ base :: u'.*1 → a ≠ p).
    { pose proof (ordered_top _ _ Ho). intros a [->|Ha]%elem_of_cons; [unfold sizeof_Header in *; lia|].
      pose proof (ordered_in_blocks _ _ _ Ho (node_in_blocks _ _ _ Ho Ha)). lia. }
    destruct (Z.eqb_spec (plus p k) bp) as [E|Hneq].
    + rewrite Hmbp, u32_small by done. apply links_app. split.
      * apply (links_frame m); [done|]. intros a Ha. by apply store_ne, Hne.
      * apply (links_head m _ bp r); [done|by rewrite store_eq|]. intros a Ha. apply store_ne. specialize (Ht a Ha). lia.
    + rewrite <-app_assoc. cbn [app]. apply links_app. split; [|split].
      * apply (links_frame m); [done|]. intros a Ha. by apply store_ne, Hne.
      * unfold set_ptr. by rewrite store_eq, Hp.
      * apply (links_frame m); [done|]. intros a [->|Ha]%elem_of_cons; apply store_ne; [lia|]. specialize (Ht a Ha). lia.
  - apply last_None in Eu as ->. cbn in Hl |- *. assert (base < bp) by (apply Hu; by left).
    rewrite Hl. cbn [size]. rewrite (proj2 (Z.eqb_neq (plus base 0) bp)) by (unfold plus; lia).
    unfold set_ptr. rewrite store_eq, Hl. split; [done|].
    apply (links_frame m); [done|]. intros a [->|Ha]%elem_of_cons; apply store_ne; [lia|]. specialize (Ht a Ha). lia.
Qed.

Lemma join_down_last base u w : (lastn base 0 u).1 ∈ base :: (join_down u w).*1.
Proof.
  unfold join_down. destruct (last u) as [[p k]|] eqn:Eu; [|apply last_None in Eu as ->; by left].
  apply last_Some in Eu as [u' ->]. rewrite removelast_last, lastn_app. right.
  assert (Happ : ∀ w', (p, k).1 ∈ ((u' ++ [(p, k)]) ++ w').*1).
  { intros w'. rewrite !fmap_app, !elem_of_app. left. right. by left. }
  destruct w as [|[a n] t]; [apply Happ|]. destruct (plus p k =? a); [|apply Happ].
  rewrite fmap_app, elem_of_app. right. by left.
Qed.

Lemma join_length u bp n v : (length (join_down u (join_up bp n v)) ≤ S (length (u ++ v)))%nat.
Proof.
  assert (Hup : (length (join_up bp n v) ≤ S (length v))%nat).
  { destruct v as [|[q k] t]; cbn; [lia|]. destruct (_ =? _); cbn; lia. }
  unfold join_down. rewrite length_app. destruct (last u) as [[p k]|] eqn:Eu; [|rewrite length_app; lia].
  destruct (join_up bp n v) as [|[a j] t]; [rewrite length_app; lia|]. apply last_Some in Eu as [u' ->].
  rewrite removelast_last. destruct (_ =? _); rewrite !length_app in *; cbn in *; lia.
Qed.

Lemma link_block_ne m bp p a : a ≠ bp → a ≠ p → link_block m bp p a = m a.
Proof.
  intros Hb Hp. unfold link_block, link_down, link_up, set_ptr.
  destruct (plus p _ =? _); rewrite store_ne by done; destruct (plus bp _ =? _); by rewrite store_ne.
Qed.

Lemma join_up_below brk bp n v r t :
  join_up bp n v = (bp, r) :: t → plus bp n ≤ brk → below brk v → plus bp r ≤ brk.
Proof.
  destruct v as [|[q k] v]; cbn [join_up]; [by intros [= <- <-]|].
  destruct (Z.eqb_spec (plus bp n) q) as [Eq|]; intros [= <- <-] Hend Hb; [|done].
  rewrite <-plus_plus, Eq. apply Hb. by left.
Qed.

(** The chain after both joins. *)
Lemma link_block_ok base m u v bp n brk :
  links m base 0 (u ++ v) base → ordered (base + sizeof_Header - 1) (u ++ v) → below brk (u ++ v) →
  0 < base → brk < 2 ^ 36 → size (m bp) = n → 0 < n → base + sizeof_Header ≤ bp → plus bp n ≤ brk →
  top (base + sizeof_Header - 1) u ≤ bp → match v with [] => True | (q, _) :: _ => plus bp n ≤ q end →
  links (link_block m bp (lastn base 0 u).1) base 0 (join_down u (join_up bp n v)) base.
Proof.
  intros Hl Ho Hbelow Hb0 Hbrk Hsz Hn Hbp Hend Htop Hv.
  set (z := match v with [] => base | (q, _) :: _ => q end).
  assert (Hlu : links m base 0 u z).
  { destruct v as [|[q k] v]; [by rewrite app_nil_r in Hl|]. by apply links_app in Hl as [? _]. }
  apply ordered_app in Ho as [Hou Hov].
  assert (Hnode : ∀ a, a ∈ base :: u.*1 → a < bp).
  { intros a [->|Ha]%elem_of_cons; [unfold sizeof_Header in *; lia|].
    pose proof (ordered_in_blocks _ _ _ Hou (node_in_blocks _ _ _ Hou Ha)). lia. }
  destruct (link_up_ok m base bp n v) as (r & t & E & Hlt & Hne); [|done|unfold plus, sizeof_Header in *; lia|unfold sizeof_Header in *; lia|].
  { destruct v as [|[q k] t]; [done|]. pose proof (Hbelow q k ltac:(apply elem_of_app; right; by left)) as Hq.
    apply links_app in Hl as [_ Hl]. destruct Hov as (_ & Hk & Hov). split_and!; try done.
    unfold plus, sizeof_Header in *. lia. }
  unfold link_block. rewrite (links_last _ _ _ _ _ Hlu). cbn [ptr]. fold z in Hlt, Hne. rewrite E.
  assert (Hup : ordered (top (base + sizeof_Header - 1) u - 1) (join_up bp n v)).
  { apply join_up_ordered; [lia|done|apply (ordered_weaken _ _ _ Hov); lia|done]. }
  assert (Hr : plus bp r ≤ brk).
  { apply (join_up_below brk bp n v r t E Hend). intros a k Hin. apply Hbelow, elem_of_app. by right. }
  rewrite E in Hup. destruct Hup as (_ & Hr0 & Ht).
  apply (link_down_ok _ base u bp r t z); [|done|done|done| |].
  - apply (links_frame m); [done|]. intros a Ha. apply Hne. specialize (Hnode a Ha). lia.
  - intros a Ha. pose proof (ordered_in_blocks _ _ _ Ht (node_in_blocks _ _ _ Ht Ha)). unfold plus, sizeof_Header in *. lia.
  - destruct (last u) as [[p k]|] eqn:Eu; [|done]. apply last_Some in Eu as [u' ->].
    apply ordered_app in Hou as [Hou (Hp & Hk & _)]. pose proof (ordered_top _ _ Hou).
    rewrite top_app in Htop. cbn in Htop. unfold plus, sizeof_Header in *. lia.
Qed.

(** free() gives the block back to the ring and changes no header but those of
    free blocks and of the block itself. *)
Lemma free_ok base h bs brk bp n fuel :
  ring base h bs brk → size (hdr h bp) = n → 0 < n → base + sizeof_Header ≤ bp → plus bp n ≤ brk →
  (∀ x, inside bp n x → ¬ in_blocks bs x) → (length bs + 1 < fuel)%nat → ∃ h' bs',
  free fuel h (bp + sizeof_Header) = Return h' ∧ ring base h' bs' brk ∧
  (∀ x, in_blocks bs' x ↔ in_blocks bs x ∨ inside bp n x) ∧
  (∀ a, a ≠ base → a ≠ bp → ¬ in_blocks bs a → hdr h' a = hdr h a) ∧ (length bs' ≤ S (length bs))%nat.
Proof.
  intros Hr Hsz Hn Hbp Hend Hdis Hf. pose proof Hr as [[Hb0 Hbrk] Hl Ho Hbelow Hfp].
  destruct (split_at _ bs bp n Ho ltac:(unfold sizeof_Header in *; lia) Hn Hdis) as (u & v & -> & Htop & Hv).
  assert (Hbig : 0 < n < 2 ^ 32) by (unfold plus, sizeof_Header in *; lia).
  rewrite length_app in Hf. pose proof Ho as Ho'. apply ordered_app in Ho' as [Hou Hov].
  assert (Hpos : ∀ a k, (a, k) ∈ u ++ v → 0 < k) by (intros a k Hin; by destruct (ordered_bounds _ _ _ _ Ho Hin) as (_&?&_)).
  set (p := (lastn base 0 u).1). set (bs' := join_down u (join_up bp n v)).
  exists (Heap (link_block (hdr h) bp p) p), bs'.
  assert (Hvpos : ∀ a k, (a, k) ∈ v → 0 < k) by (intros a k Hin; apply (Hpos a k), elem_of_app; by right).
  assert (Hup : ordered (top (base + sizeof_Header - 1) u - 1) (join_up bp n v)).
  { apply join_up_ordered; [lia|done|by apply (ordered_weaken _ _ _ Hov); lia|done]. }
  assert (Hup' : u = [] → ordered (base + sizeof_Header - 1) (join_up bp n v)).
  { intros ->. apply join_up_ordered; [unfold sizeof_Header in *; lia|done|done|done]. }
  assert (Hord : ordered (base + sizeof_Header - 1) bs') by (by apply join_down_ordered).
  assert (Hblocks : ∀ x, in_blocks bs' x ↔ in_blocks (u ++ v) x ∨ inside bp n x).
  { intros x. unfold bs'. rewrite join_down_blocks; [rewrite join_up_blocks by done; rewrite in_blocks_app; tauto|].
    intros a k [Hin|Hin]%elem_of_app; [apply (Hpos a k), elem_of_app; by left|].
    by destruct (ordered_bounds _ _ _ _ Hup Hin) as (_&?&_). }
  assert (Hbel : below brk bs').
  { intros a k Hin. destruct (ordered_bounds _ _ _ _ Hord Hin) as (_&Hk&_).
    assert (Hx : in_blocks bs' (plus a k - 1)) by (exists a, k; split; [done|]; unfold inside, plus, sizeof_Header; lia).
    apply Hblocks in Hx as [(b & j & Hj & Hx)|Hx]; [specialize (Hbelow b j Hj)|]; unfold inside in Hx; lia. }
  split_and!.
  - unfold free. replace (bp + sizeof_Header - sizeof_Header) with bp by lia.
    rewrite (find_place_ok base h u v brk bp); [done|done|done|unfold sizeof_Header in *; lia| |lia].
    destruct v as [|[q k] v]; [done|]. unfold plus, sizeof_Header in Hv. lia.
  - split; [done| |done|done|apply join_down_last]. cbn [hdr].
    apply (link_block_ok base (hdr h) u v bp n brk); try done. lia.
  - done.
  - intros a Hab Hap Hin. cbn [hdr]. apply link_block_ne; [done|]. intros ->. apply Hin.
    pose proof (lastn_in base 0 u) as [?|Hu]%elem_of_cons; [done|]. apply in_blocks_app. left. by eapply node_in_blocks.
  - apply join_length.
Qed.

(** ** malloc() *)

Lemma lastn_mid p n u a k v : lastn p n (u ++ (a, k) :: v) = lastn a k v.
Proof. revert p n. induction u as [|[b j] u IH]; intros p n; cbn; [done|]. apply IH. Qed.

Lemma ordered_nodup lo bs : ordered lo bs → NoDup (bs.*1).
Proof.
  revert lo. induction bs as [|[a n] bs IH]; intros lo; cbn; [constructor|]. intros (Hlo & Hn & Ho).
  constructor; [|by eapply IH]. intros Hin.
  pose proof (ordered_in_blocks _ _ _ Ho (node_in_blocks _ _ _ Ho Hin)). unfold plus, sizeof_Header in *. lia.
Qed.

Lemma ring_nodup base h bs brk : ring base h bs brk → NoDup (base :: bs.*1).
Proof.
  intros [_ _ Ho _ _]. constructor; [|by eapply ordered_nodup]. intros Hin.
  pose proof (ordered_in_blocks _ _ _ Ho (node_in_blocks _ _ _ Ho Hin)). unfold sizeof_Header in *. lia.
Qed.

Definition small (nunits : Z) (w : list (Z * Z)) : Prop := ∀ a k, (a, k) ∈ w → k < nunits.

Lemma first_fit nunits w :
  small nunits w ∨ ∃ w1 a k w2, w = w1 ++ (a, k) :: w2 ∧ small nunits w1 ∧ nunits ≤ k.
Proof.
  induction w as [|[a k] w IH]; [left; by intros a k ?%not_elem_of_nil|].
  destruct (decide (nunits ≤ k)) as [Hk|Hk].
  { right. exists [], a, k, w. split_and!; [done| |done]. by intros b j ?%not_elem_of_nil. }
  assert (Hcons : ∀ w', small nunits w' → small nunits ((a, k) :: w')).
  { intros w' Hw b j [[= -> ->]|Hin]%elem_of_cons; [lia|by eapply Hw]. }
  destruct IH as [Hw|(w1 & b & j & w2 & -> & Hw & Hj)]; [left; by apply Hcons|].
  right. exists ((a, k) :: w1), b, j, w2. split_and!; [done|by apply Hcons|done].
Qed.

(** The search passes over blocks that are too small. *)
Lemma walk fuel nunits h p n w z i :
  links (hdr h) p n w z → small nunits w → (∀ a, a ∈ w.*1 → a ≠ freep h) →
  ploop (length w + i) (malloc_step fuel nunits) (p, ptr (hdr h p), h) =
  ploop i (malloc_step fuel nunits) ((lastn p n w).1, z, h).
Proof.
  revert p n. induction w as [|[a k] w IH]; intros p n Hl Hs Hne; cbn [links lastn length fst] in *.
  - by rewrite Hl.
  - destruct Hl as [-> Hl]. cbn [ptr Nat.add ploop].
    assert (Ha : size (hdr h a) = k) by (destruct w as [|[b j] w]; cbn in Hl; [by rewrite Hl|by destruct Hl as [-> _]]).
    pose proof (Hs a k ltac:(by left)) as Hk.
    assert (E : malloc_step fuel nunits (p, a, h) = Return (inl (a, ptr (hdr h a), h))).
    { unfold malloc_step. rewrite Ha, (proj2 (Z.leb_gt nunits k)) by done.
      by rewrite (proj2 (Z.eqb_neq a (freep h))) by (apply Hne; by left). }
    rewrite E. cbn [mbind prog_bind pbind].
    apply (IH a k Hl).
    + intros b j Hin. apply (Hs b j). by right.
    + intros b Hin. apply Hne. by right.
Qed.

(** A step on a block that fits. *)
Lemma step_fit fuel nunits h prevp a k i :
  size (hdr h a) = k → nunits ≤ k →
  ploop (S i) (malloc_step fuel nunits) (prevp, a, h) = Return (carve nunits prevp a h).
Proof.
  intros Hk Hle. assert (E : malloc_step fuel nunits (prevp, a, h) = Return (inr (carve nunits prevp a h))).
  { unfold malloc_step. by rewrite Hk, (proj2 (Z.leb_le nunits k)). }
  cbn [ploop]. by rewrite E.
Qed.

(** The ring seen from freep. *)
Lemma ring_from_freep base h bs brk : ring base h bs brk →
  ∃ n w, links (hdr h) (freep h) n w (freep h) ∧ length w = length bs ∧
    (∀ a, a ∈ w.*1 → a ≠ freep h) ∧
    (∀ a k, (a, k) ∈ bs → (a, k) ∈ (freep h, n) :: w) ∧
    (∀ w1 a k w2, w = w1 ++ (a, k) :: w2 → (a, k) = (base, 0) ∨
       ∃ s t, bs = s ++ (a, k) :: t ∧ (lastn (freep h) n w1).1 = (lastn base 0 s).1) ∧
    ((freep h, n) = (base, 0) ∨ ∃ s t, bs = s ++ (freep h, n) :: t ∧ (lastn (freep h) n w).1 = (lastn base 0 s).1).
Proof.
  intros Hr. pose proof (ring_nodup _ _ _ _ Hr) as Hnd. destruct Hr as [_ Hl Ho _ Hfp].
  apply elem_of_cons in Hfp as [->|Hfp].
  - exists 0, bs. split_and!; [done|done| | | |by left].
    + intros a Ha ->. by inversion Hnd.
    + intros a k Hin. by right.
    + intros w1 a k w2 ->. right. by exists w1, w2.
  - apply list_elem_of_fmap in Hfp as ([f n] & Ef & Hin). cbn in Ef. subst f. set (f := freep h) in *.
    apply list_elem_of_split in Hin as (u & v & ->). exists n, (v ++ (base, 0) :: u).
    apply links_app in Hl as [Hl1 Hl2]. rewrite fmap_app in Hnd. cbn [fmap list_fmap fst] in Hnd.
    split_and!.
    + apply links_app. done.
    + rewrite !length_app. cbn. lia.
    + intros a Ha ->. rewrite fmap_app in Ha. apply elem_of_app in Ha. cbn [fmap list_fmap fst] in Ha. rewrite elem_of_cons in Ha.
      apply NoDup_cons in Hnd as [Hb Hnd].
      apply NoDup_app in Hnd as (_ & Hd & Hnd). apply NoDup_cons in Hnd as [Hfv _].
      destruct Ha as [?|[Hfb|?]]; [done| |].
      * apply Hb, elem_of_app. right. rewrite <-Hfb. by left.
      * eapply Hd; [done|]. by left.
    + intros a k [Hin|[->|Hin]%elem_of_cons]%elem_of_app.
      * right. apply elem_of_app. right. by right.
      * by left.
      * right. apply elem_of_app. by left.
    + intros w1 a k w2 E. apply app_eq_inv in E as [(l & -> & E)|(l & -> & E)].
      * destruct l as [|[b j] l]; simplify_eq/=; [by left|]. right.
        exists (u ++ (f, n) :: w1), l. split; [by rewrite <-app_assoc|]. by rewrite lastn_mid.
      * destruct l as [|[b j] l]; simplify_eq/=; [by left|]. right.
        exists l, (w2 ++ (f, n) :: v). split; [by rewrite <-app_assoc|]. by rewrite lastn_mid.
    + right. exists u, v. split; [done|]. by rewrite lastn_mid.
Qed.

(** One round of the ring: a block that fits and the node before it, or the
    search is back at freep. *)
Lemma search_ok base h bs brk fuel nunits : ring base h bs brk → 0 < nunits →
  let st := (freep h, ptr (hdr h (freep h)), h) in
  (∃ s a k t, bs = s ++ (a, k) :: t ∧ nunits ≤ k ∧ ∀ i, (length bs < i)%nat →
     ploop i (malloc_step fuel nunits) st = Return (carve nunits (lastn base 0 s).1 a h)) ∨
  (small nunits bs ∧ size (hdr h (freep h)) < nunits ∧ ∃ prevp, ∀ i,
     ploop (length bs + i) (malloc_step fuel nunits) st = ploop i (malloc_step fuel nunits) (prevp, freep h, h)).
Proof.
  intros Hr Hn st. destruct (ring_from_freep _ _ _ _ Hr) as (n & w & Hl & Hlen & Hne & Hsub & Hpred & Hself).
  assert (Hsize : size (hdr h (freep h)) = n) by (destruct w as [|[b j] w]; cbn in Hl; [by rewrite Hl|by destruct Hl as [-> _]]).
  destruct (first_fit nunits w) as [Hs|(w1 & a & k & w2 & Hw & Hs & Hk)].
  - destruct (decide (nunits ≤ n)) as [Hfit|Hno].
    + left. destruct Hself as [[= ? ?]|(s & t & -> & Hlast)]; [lia|]. exists s, (freep h), n, t.
      split_and!; [done|done|]. intros i Hi. rewrite <-Hlen in Hi.
      replace i with (length w + S (i - S (length w)))%nat by lia.
      unfold st. rewrite (walk _ _ _ _ _ _ _ _ Hl Hs Hne), Hlast. by apply (step_fit _ _ _ _ _ n).
    + right. split_and!; [|lia|].
      * intros a k [[= -> ->]|Hin]%Hsub%elem_of_cons; [lia|by eapply Hs].
      * exists (lastn (freep h) n w).1. intros i. unfold st. rewrite <-Hlen. by apply walk.
  - left. destruct (Hpred _ _ _ _ Hw) as [[= ? ?]|(s & t & -> & Hlast)]; [lia|]. exists s, a, k, t.
    split_and!; [done|done|]. intros i Hi. rewrite Hw in Hl. apply links_app in Hl as [Hl1 Hl2].
    rewrite <-Hlen, Hw, length_app in Hi. cbn [length] in Hi.
    replace i with (length w1 + S (i - S (length w1)))%nat by lia.
    unfold st. rewrite (walk _ _ _ _ _ _ _ _ Hl1 Hs), Hlast.
    + apply (step_fit _ _ _ _ _ k); [|done].
      destruct w2 as [|[b j] w2]; cbn in Hl2; [by rewrite Hl2|by destruct Hl2 as [-> _]].
    + intros b Hb. apply Hne. rewrite Hw, fmap_app, elem_of_app. by left.
Qed.

(** The chain without one of its blocks. *)
Lemma links_remove m base s a k t :
  links m base 0 (s ++ (a, k) :: t) base → NoDup (base :: (s ++ (a, k) :: t).*1) →
  let p := (lastn base 0 s).1 in
  links (set_ptr p (ptr (m a)) m) base 0 (s ++ t) base.
Proof.
  intros Hl Hnd p. apply links_app in Hl as [Hl1 Hl2]. pose proof (links_last _ _ _ _ _ Hl1) as Hp. fold p in Hp.
  rewrite fmap_app in Hnd. cbn [fmap list_fmap fst] in Hnd. rewrite app_comm_cons in Hnd.
  apply NoDup_app in Hnd as (Hnd & Hdis & _).
  assert (Ht : ∀ b, b ∈ t.*1 → set_ptr p (ptr (m a)) m b = m b).
  { intros b Hb. apply store_ne. intros ->. apply (Hdis p (lastn_in base 0 s)). by right. }
  assert (Hm : set_ptr p (ptr (m a)) m p = Header (ptr (m a)) (lastn base 0 s).2) by (unfold set_ptr; by rewrite store_eq, Hp).
  destruct (last s) as [[q j]|] eqn:Es.
  - apply last_Some in Es as [s' ->]. unfold p in *. rewrite lastn_app in *. cbn [fst snd] in *.
    rewrite <-app_assoc. cbn [app]. apply links_app in Hl1 as [Hl1 _]. apply links_app. split.
    + apply (links_frame m); [done|]. intros b Hb. apply store_ne. intros ->.
      rewrite fmap_app, app_comm_cons in Hnd. apply NoDup_app in Hnd as (_ & Hd & _). apply (Hd q Hb). by left.
    + by apply (links_head m _ a k).
  - apply last_None in Es as ->. cbn in Hm |- *. by apply (links_head m _ a k).
Qed.

(** The chain with one of its blocks made smaller; another header, of no node,
    may change too. *)
Lemma links_shrink m m' base s a k j t :
  links m base 0 (s ++ (a, k) :: t) base → NoDup (base :: (s ++ (a, k) :: t).*1) →
  m' a = Header (ptr (m a)) j → (∀ b, b ∈ base :: (s ++ (a, k) :: t).*1 → b ≠ a → m' b = m b) →
  links m' base 0 (s ++ (a, j) :: t) base.
Proof.
  intros Hl Hnd Ha Hm. apply links_app in Hl as [Hl1 Hl2]. rewrite fmap_app in Hnd, Hm. cbn [fmap list_fmap fst] in Hnd, Hm.
  rewrite app_comm_cons in Hnd, Hm. apply NoDup_app in Hnd as (_ & Hdis & Hnd). apply NoDup_cons in Hnd as [Hat _].
  apply links_app. split.
  - apply (links_frame m); [done|]. intros b Hb. apply Hm; [apply elem_of_app; by left|].
    intros ->. apply (Hdis a Hb). by left.
  - apply (links_head m _ a k); [done|done|]. intros b Hb. apply Hm; [apply elem_of_app; right; by right|].
    by intros ->.
Qed.

(** The blocks left when the last [nunits] units of a block are taken. *)
Definition shrunk (nunits : Z) (s : list (Z * Z)) (a k : Z) (t : list (Z * Z)) : list (Z * Z) :=
  if k =? nunits then s ++ t else s ++ (a, k - nunits) :: t.

Lemma shrunk_ordered lo nunits s a k t :
  ordered lo (s ++ (a, k) :: t) → 0 < nunits ≤ k → ordered lo (shrunk nunits s a k t).
Proof.
  intros (Hos & Hgap & Hk & Hot)%ordered_app Hn. unfold shrunk. destruct (Z.eqb_spec k nunits); apply ordered_app; (split; [done|]).
  - apply (ordered_weaken _ _ _ Hot). unfold plus, sizeof_Header. lia.
  - cbn. split_and!; [done|lia|]. apply (ordered_weaken _ _ _ Hot). unfold plus, sizeof_Header. lia.
Qed.

Lemma shrunk_blocks lo nunits s a k t x :
  ordered lo (s ++ (a, k) :: t) → 0 < nunits ≤ k →
  in_blocks (shrunk nunits s a k t) x ↔ in_blocks (s ++ (a, k) :: t) x ∧ ¬ inside (plus a (k - nunits)) nunits x.
Proof.
  intros (Hos & Hgap & Hk & Hot)%ordered_app Hn.
  assert (Hsx : in_blocks s x → ¬ inside a k x) by (intros Hx%(ordered_in_blocks _ _ _ Hos); unfold inside; lia).
  assert (Htx : in_blocks t x → ¬ inside a k x) by (intros Hx%(ordered_in_blocks _ _ _ Hot); unfold inside; lia).
  assert (Hsub : inside (plus a (k - nunits)) nunits x → inside a k x)
    by (unfold inside; rewrite plus_plus; unfold plus, sizeof_Header; replace (k - nunits + nunits) with k by lia; lia).
  unfold shrunk. destruct (Z.eqb_spec k nunits) as [->|Hne]; rewrite !in_blocks_app, !in_blocks_cons.
  - replace (nunits - nunits) with 0 in * by lia. replace (plus a 0) with a in * by (unfold plus; lia). tauto.
  - assert (inside a k x ↔ inside a (k - nunits) x ∨ inside (plus a (k - nunits)) nunits x) as ->.
    { unfold inside. rewrite plus_plus. unfold plus, sizeof_Header. replace (k - nunits + nunits) with k by lia. lia. }
    assert (inside a (k - nunits) x → ¬ inside (plus a (k - nunits)) nunits x) by (unfold inside; lia).
    tauto.
Qed.

Lemma shrunk_below hi nunits s a k t :
  below hi (s ++ (a, k) :: t) → 0 < nunits ≤ k → below hi (shrunk nunits s a k t).
Proof.
  intros Hb Hn b j Hin. pose proof (Hb a k ltac:(apply elem_of_app; right; by left)) as Ha. revert Hin.
  assert (Hsub : (b, j) ∈ s ++ t → plus b j ≤ hi).
  { intros [Hin|Hin]%elem_of_app; apply Hb, elem_of_app; [by left|right; by right]. }
  unfold shrunk. destruct (Z.eqb_spec k nunits); [done|]. intros [Hin|[[= -> ->]|Hin]%elem_of_cons]%elem_of_app.
  - apply Hsub, elem_of_app. by left.
  - unfold plus, sizeof_Header in *. lia.
  - apply Hsub, elem_of_app. by right.
Qed.

(** No header of the ring lies inside a block but at its beginning. *)
Lemma not_a_node lo base s a k t x :
  ordered lo (s ++ (a, k) :: t) → base ≤ lo → inside a k x → x ≠ a → ¬ x ∈ base :: (s ++ (a, k) :: t).*1.
Proof.
  intros (Hos & Hgap & Hk & Hot)%ordered_app Hlo Hx Hne Hin. pose proof (ordered_top _ _ Hos). unfold inside in Hx.
  rewrite fmap_app in Hin. apply elem_of_cons in Hin as [->|[Hin|[->|Hin]%elem_of_cons]%elem_of_app]; [lia| |done|].
  - pose proof (ordered_in_blocks _ _ _ Hos (node_in_blocks _ _ _ Hos Hin)). lia.
  - pose proof (ordered_in_blocks _ _ _ Hot (node_in_blocks _ _ _ Hot Hin)). lia.
Qed.

(** The headers after a block has been taken. *)
Lemma carve_links base m f s a k t nunits :
  links m base 0 (s ++ (a, k) :: t) base → ordered (base + sizeof_Header - 1) (s ++ (a, k) :: t) →
  NoDup (base :: (s ++ (a, k) :: t).*1) → 0 < nunits ≤ k → k < 2 ^ 32 →
  let p := (lastn base 0 s).1 in
  let bp := plus a (k - nunits) in
  ∃ m', carve nunits p a (Heap m f) = (bp + sizeof_Header, Heap m' p) ∧
    links m' base 0 (shrunk nunits s a k t) base ∧ size (m' bp) = nunits ∧
    ∀ b, b ≠ base → ¬ in_blocks (s ++ (a, k) :: t) b → m' b = m b.
Proof.
  intros Hl Ho Hnd Hk Hk32 p bp. pose proof Ho as (Hos & Hgap & _ & Hot)%ordered_app.
  assert (Hsz : size (m a) = k).
  { apply links_app in Hl as [_ Hl]. destruct t as [|[b j] t]; cbn in Hl; [by rewrite Hl|by destruct Hl as [-> _]]. }
  assert (Hpr : ∀ b, b ≠ base → ¬ in_blocks (s ++ (a, k) :: t) b → b ≠ p).
  { intros b Hb0 Hnb ->. apply Hnb, in_blocks_app. left.
    pose proof (lastn_in base 0 s) as [?|Hs]%elem_of_cons; [done|]. by eapply node_in_blocks. }
  assert (Hina : ∀ x, inside a k x → in_blocks (s ++ (a, k) :: t) x).
  { intros x Hx. apply in_blocks_app. right. apply in_blocks_cons. by left. }
  unfold carve, shrunk. cbn [hdr freep]. rewrite Hsz. destruct (Z.eqb_spec k nunits) as [->|Hne].
  - exists (set_ptr p (ptr (m a)) m). unfold bp. replace (plus a (nunits - nunits)) with a by (unfold plus; lia).
    split_and!; [done|by apply (links_remove m base s a nunits t)| |].
    + unfold set_ptr, store. destruct (Z.eqb_spec a p); cbn; congruence.
    + intros b Hb Hnb. apply store_ne. by apply Hpr.
  - assert (Ha : size (set_size a (u32 (k - nunits)) m a) = k - nunits)
      by (unfold set_size; rewrite store_eq; cbn; apply u32_small; lia).
    rewrite Ha. fold bp.
    assert (Hbpa : bp ≠ a) by (unfold bp, plus, sizeof_Header; lia).
    exists (set_size bp nunits (set_size a (u32 (k - nunits)) m)). unfold set_size.
    assert (Hbp : inside a k bp) by (unfold bp, inside, plus, sizeof_Header; lia).
    split_and!; [done| |by rewrite store_eq|].
    + apply (links_shrink m _ base s a k); [done|done|by rewrite store_ne, store_eq, u32_small by (done || lia)|].
      intros b Hb Hba. rewrite store_ne, store_ne; [done|done|]. intros ->.
      revert Hb. apply (not_a_node (base + sizeof_Header - 1)); try done. unfold sizeof_Header. lia.
    + intros b Hb Hnb. rewrite !store_ne; [done| |]; intros ->; apply Hnb, Hina; [|done].
      unfold inside, plus, sizeof_Header. lia.
Qed.

(** What malloc() does with the block it has found. *)
Lemma carve_ok base h s a k t brk nunits :
  ring base h (s ++ (a, k) :: t) brk → 0 < nunits ≤ k → ∃ bp h' bs',
  carve nunits (lastn base 0 s).1 a h = (bp + sizeof_Header, h') ∧ ring base h' bs' brk ∧
  size (hdr h' bp) = nunits ∧ base + sizeof_Header ≤ bp ∧
  (∀ x, inside bp nunits x → in_blocks (s ++ (a, k) :: t) x) ∧
  (∀ x, in_blocks bs' x ↔ in_blocks (s ++ (a, k) :: t) x ∧ ¬ inside bp nunits x) ∧
  (∀ b, b ≠ base → ¬ in_blocks (s ++ (a, k) :: t) b → hdr h' b = hdr h b) ∧
  (length bs' ≤ length (s ++ (a, k) :: t))%nat.
Proof.
  intros Hr Hk. pose proof (ring_nodup _ _ _ _ Hr) as Hnd. destruct Hr as [Hb Hl Ho Hbelow _].
  pose proof Ho as (Hos & Hgap & _ & _)%ordered_app. pose proof (ordered_top _ _ Hos) as Htop.
  pose proof (Hbelow a k ltac:(apply elem_of_app; right; by left)) as Hak.
  assert (Hk32 : k < 2 ^ 32) by (unfold plus, sizeof_Header in *; lia).
  destruct h as [m f]. cbn [hdr] in *.
  destruct (carve_links base m f s a k t nunits Hl Ho Hnd Hk Hk32) as (m' & E & Hl' & Hsz & Hm).
  exists (plus a (k - nunits)), (Heap m' (lastn base 0 s).1), (shrunk nunits s a k t).
  split_and!; try done.
  - split; [done|done|by apply shrunk_ordered|by apply shrunk_below|]. cbn [freep].
    assert (Hin : ∀ w, (lastn base 0 s).1 ∈ base :: (s ++ w).*1).
    { intros w. rewrite fmap_app, app_comm_cons, elem_of_app. left. apply lastn_in. }
    unfold shrunk. destruct (k =? nunits); apply Hin.
  - unfold plus, sizeof_Header in *. lia.
  - intros x Hx. apply in_blocks_app. right. apply in_blocks_cons. left. unfold inside in *.
    rewrite plus_plus in Hx. replace (k - nunits + nunits) with k in Hx by lia. unfold plus, sizeof_Header in *. lia.
  - intros x. by apply (shrunk_blocks (base + sizeof_Header - 1)).
  - unfold shrunk. destruct (k =? nunits); rewrite !length_app; cbn [length]; lia.
Qed.

(** The kernel as sbrk() sees it: the heap grows up to a limit. *)
Definition sbrk_kernel (limit brk : Z) (c : call) : Z * reply :=
  match c with
  | Csbrk n _ =>
      if (0 <=? n) && (brk + n <=? limit) then (brk + n, Reply brk []) else (brk, Reply (-1) [])
  | _ => (brk, Reply (-1) [])
  end.

Lemma ring_grow base h bs brk brk' : ring base h bs brk → brk ≤ brk' < 2 ^ 36 → ring base h bs brk'.
Proof.
  intros [Hb Hl Ho Hbelow Hfp] Hle. split; try done; [lia|]. intros a n Hin. specialize (Hbelow a n Hin). lia.
Qed.

(** A header outside the ring may change. *)
Lemma ring_set base h bs brk a x :
  ring base h bs brk → a ≠ base → ¬ in_blocks bs a → ring base (Heap (store a x (hdr h)) (freep h)) bs brk.
Proof.
  intros [Hb Hl Ho Hbelow Hfp] Hab Ha. split; try done. apply (links_frame (hdr h)); [done|].
  intros b Hin. apply store_ne. intros ->. apply elem_of_cons in Hin as [?|Hin]; [done|]. by apply Ha, (node_in_blocks _ _ _ Ho).
Qed.

(** Between two blocks there is a gap, so a run of free units lies in one block. *)
Lemma ordered_gap lo bs a k : ordered lo bs → (a, k) ∈ bs → ¬ in_blocks bs (plus a k).
Proof.
  intros Ho (u & v & ->)%list_elem_of_split. apply ordered_app in Ho as (Hu & Ha & Hk & Hv).
  intros [Hx|[Hx|Hx]%in_blocks_cons]%in_blocks_app.
  - pose proof (ordered_in_blocks _ _ _ Hu Hx). unfold plus, sizeof_Header in *. lia.
  - unfold inside in Hx. lia.
  - pose proof (ordered_in_blocks _ _ _ Hv Hx). lia.
Qed.

Lemma run_in_block lo bs p n :
  ordered lo bs → 0 < n → (∀ x, inside p n x → in_blocks bs x) → ∃ a k, (a, k) ∈ bs ∧ n ≤ k.
Proof.
  intros Ho Hn Hrun. destruct (Hrun p) as (a & k & Hin & Hp); [unfold inside, plus, sizeof_Header; lia|].
  exists a, k. split; [done|]. destruct (decide (n ≤ k)); [done|]. exfalso. apply (ordered_gap _ _ _ _ Ho Hin), Hrun.
  unfold inside, plus, sizeof_Header in *. lia.
Qed.

(** The bytes by which morecore() extends the heap. *)
Definition grow (nu : Z) : Z := (if nu <? 4096 then 4096 else nu) * sizeof_Header.

Lemma grow_pos nu : 0 < grow nu.
Proof. unfold grow, sizeof_Header. destruct (Z.ltb_spec nu 4096); lia. Qed.

(** What one call of morecore() does: nothing, or one more free block of at least
    [nu] units at the end of the heap. *)
Lemma morecore_ok base h bs brk limit fuel nu :
  ring base h bs brk → 0 < nu → nu * sizeof_Header < 2 ^ 31 → brk ≤ limit < 2 ^ 36 → (length bs + 1 < fuel)%nat →
  (exec (sbrk_kernel limit) (morecore fuel h nu) brk = (brk, Returned (None, h)) ∧ limit < brk + grow nu) ∨
  ∃ brk' h' bs', exec (sbrk_kernel limit) (morecore fuel h nu) brk = (brk', Returned (Some (freep h'), h')) ∧
    ring base h' bs' brk' ∧ brk < brk' ≤ limit ∧ brk' = brk + grow nu ∧ (∃ a k, (a, k) ∈ bs' ∧ nu ≤ k) ∧ (length bs' ≤ S (length bs))%nat ∧
    (∀ x, in_blocks bs' x ↔ in_blocks bs x ∨ brk ≤ x < brk') ∧
    (∀ a, a ≠ base → ¬ in_blocks bs a → ¬ brk ≤ a < brk' → hdr h' a = hdr h a).
Proof.
  intros Hr Hnu Hbig Hlim Hf. pose proof Hr as [[Hb0 Hbrk] Hl Ho Hbelow Hfp].
  unfold morecore. set (n := if nu <? 4096 then 4096 else nu).
  assert (Hn : nu ≤ n ∧ 0 < n ∧ 0 ≤ n * sizeof_Header < 2 ^ 31)
    by (unfold n; destruct (Z.ltb_spec nu 4096); unfold sizeof_Header in *; lia).
  assert (E32 : i32 (n * sizeof_Header) = n * sizeof_Header).
  { unfold i32, swrap. change (2 ^ (32 - 1)) with (2 ^ 31). rewrite Z.mod_small by lia. lia. }
  rewrite E32. unfold Ulib.sbrk, sys. cbn [mbind prog_bind pbind exec sbrk_kernel].
  rewrite (proj2 (Z.leb_le 0 (n * sizeof_Header))) by lia. cbn [andb].
  destruct (Z.leb_spec (brk + n * sizeof_Header) limit) as [Hle|Hgt]; cbn [ret exec Z.eqb]; [|left; by split]. right.
  rewrite (proj2 (Z.eqb_neq brk (-1))) by (unfold sizeof_Header in *; lia).
  assert (Hnb : ¬ in_blocks bs brk).
  { intros (a & k & Hin & Hx). specialize (Hbelow a k Hin). unfold inside in Hx. lia. }
  set (brk' := brk + n * sizeof_Header) in *.
  assert (Eb : plus brk n = brk') by (unfold plus, brk'; lia).
  destruct (free_ok base (Heap (set_size brk n (hdr h)) (freep h)) bs brk' brk n fuel) as (h' & bs' & -> & Hr' & Hbl & Hm & Hlen).
  - apply (ring_grow _ _ _ brk); [|unfold sizeof_Header in *; lia].
    apply ring_set; [done|unfold sizeof_Header in *; lia|done].
  - unfold set_size. cbn [hdr]. by rewrite store_eq.
  - lia.
  - lia.
  - lia.
  - intros x Hx (a & k & Hin & Hx'). specialize (Hbelow a k Hin). unfold inside in *. lia.
  - done.
  - exists brk', h', bs'. split_and!; try done; try (unfold sizeof_Header in *; lia).
    + destruct (run_in_block _ bs' brk n (rg_order _ _ _ _ Hr')) as (a & k & Hin & Hk); [lia| |].
      { intros x Hx. apply Hbl. by right. }
      exists a, k. split; [done|lia].
    + intros x. rewrite Hbl. unfold inside. by rewrite Eb.
    + intros a Ha Hna Hnx. rewrite Hm; [|done| |done]; [apply store_ne|]; intros ->; apply Hnx; unfold sizeof_Header in *; lia.
Qed.

Lemma exec_ploop_step {W T R} (h : W → call → W * reply) (body : T → prog (T + R)) i t w w' r :
  exec h (body t) w = (w', Returned r) →
  exec h (ploop (S i) body t) w = exec h (match r with inl t' => ploop i body t' | inr r => Return r end) w'.
Proof. intros E. cbn [ploop]. by rewrite exec_bind, E. Qed.

(** What malloc() guarantees once the ring is set up: it fails only without
    changing anything, or it hands out a block that was free or is new. *)
Definition handed_out (base : Z) (h : heap) (bs : list (Z * Z)) (brk limit nunits : Z) (o : Z * result (Z * heap)) : Prop :=
  (o = (brk, Returned (0, h)) ∧ limit < brk + grow nunits) ∨
  ∃ brk' bp h' bs', o = (brk', Returned (bp + sizeof_Header, h')) ∧ ring base h' bs' brk' ∧ brk ≤ brk' ≤ limit ∧ brk' ≤ brk + grow nunits ∧
    size (hdr h' bp) = nunits ∧ base + sizeof_Header ≤ bp ∧ plus bp nunits ≤ brk' ∧ (length bs' ≤ S (length bs))%nat ∧
    (∀ x, inside bp nunits x → in_blocks bs x ∨ brk ≤ x < brk') ∧
    (∀ x, in_blocks bs' x → (in_blocks bs x ∨ brk ≤ x < brk') ∧ ¬ inside bp nunits x) ∧
    (∀ a, a ≠ base → ¬ in_blocks bs a → ¬ brk ≤ a < brk' → hdr h' a = hdr h a).

(** Taking the block from the heap as it is after the calls of morecore(). *)
Lemma carve_handed_out base h bs brk h1 s a k t brk1 limit nunits :
  ring base h1 (s ++ (a, k) :: t) brk1 → 0 < nunits ≤ k → brk ≤ brk1 ≤ limit → brk1 ≤ brk + grow nunits →
  (length (s ++ (a, k) :: t) ≤ S (length bs))%nat →
  (∀ x, in_blocks (s ++ (a, k) :: t) x ↔ in_blocks bs x ∨ brk ≤ x < brk1) →
  (∀ b, b ≠ base → ¬ in_blocks bs b → ¬ brk ≤ b < brk1 → hdr h1 b = hdr h b) →
  handed_out base h bs brk limit nunits (brk1, Returned (carve nunits (lastn base 0 s).1 a h1)).
Proof.
  intros Hr Hk Hlim Hgrow Hlen1 Hbl1 Hm1.
  destruct (carve_ok _ _ _ _ _ _ _ _ Hr Hk) as (bp & h' & bs' & -> & Hr' & Hsz & Hbp & Hin & Hbl & Hm & Hlen).
  right. exists brk1, bp, h', bs'. split_and!; try done; try lia.
  - destruct (Hin (plus bp nunits - 1)) as (b & j & Hj & Hx); [unfold inside, plus, sizeof_Header; lia|].
    pose proof (rg_below _ _ _ _ Hr b j Hj). unfold inside in Hx. lia.
  - intros x Hx. by apply Hbl1, Hin.
  - intros x Hx. apply Hbl in Hx as [? ?]. split; [by apply Hbl1|done].
  - intros b Hb Hnb Hnx. rewrite Hm; [by apply Hm1|done|]. rewrite Hbl1. tauto.
Qed.

(** The loop of malloc() from freep. *)
Lemma malloc_loop_ok base h bs brk limit fuel i nunits :
  ring base h bs brk → 0 < nunits → nunits * sizeof_Header < 2 ^ 31 → brk ≤ limit < 2 ^ 36 →
  (length bs + 1 < fuel)%nat → (2 * length bs + 3 ≤ i)%nat →
  handed_out base h bs brk limit nunits
    (exec (sbrk_kernel limit) (ploop i (malloc_step fuel nunits) (freep h, ptr (hdr h (freep h)), h)) brk).
Proof.
  intros Hr Hn Hbig Hlim Hf Hi.
  destruct (search_ok base h bs brk fuel nunits Hr Hn) as [(s & a & k & t & -> & Hk & E)|(Hs & Hfs & prevp & E)].
  { rewrite E by lia. apply (carve_handed_out _ _ _ _ h s a k t); try done; try lia; [pose proof (grow_pos nunits); lia|]. intros x. split; [by left|]. intros [?|?]; [done|lia]. }
  replace i with (length bs + S (i - length bs - 1))%nat by lia. rewrite E.
  assert (Est : malloc_step fuel nunits (prevp, freep h, h) =
    (r ← morecore fuel h nunits; let '(q, h) := r in
     match q with None => Return (inr (0, h)) | Some p => Return (inl (p, ptr (hdr h p), h)) end)).
  { unfold malloc_step. rewrite (proj2 (Z.leb_gt nunits _)) by done. by rewrite Z.eqb_refl. }
  destruct (morecore_ok base h bs brk limit fuel nunits Hr Hn Hbig Hlim Hf)
    as [[Em Hno]|(brk1 & h1 & bs1 & Em & Hr1 & Hbrk1 & Hgrow & (a & k & Hin & Hk) & Hlen1 & Hbl1 & Hm1)].
  - erewrite exec_ploop_step; [|rewrite Est, exec_bind, Em; reflexivity]. left. by split.
  - erewrite exec_ploop_step; [|rewrite Est, exec_bind, Em; reflexivity]. cbv beta iota.
    destruct (search_ok base h1 bs1 brk1 fuel nunits Hr1 Hn) as [(s & b & j & t & -> & Hj & E1)|(Hs1 & _)].
    + rewrite E1 by lia. apply (carve_handed_out _ _ _ _ h1 s b j t); try done; try lia.
    + specialize (Hs1 a k Hin). lia.
Qed.

(** ** Programs that allocate

    A client asks for blocks, stores into the blocks it has, and frees them.  A
    live block is known by the pointer malloc() returned and the bytes asked
    for. *)

Inductive mop :=
  | Malloc (nbytes : Z)
  | Store (i : nat) (g : Z → header)
  | Free (i : nat).

Definition mop_ok (o : mop) : Prop :=
  match o with Malloc n => 0 ≤ n < 2 ^ 31 - 31 | _ => True end.

(** What stores to the [n] bytes at [p] do to memory read as headers: whatever
    the stores were, a header that shares a byte with the block may read as
    anything afterwards, and no other does. *)
Definition scribble (p n : Z) (g m : Z → header) : Z → header :=
  λ a, if (p <? a + sizeof_Header) && (a <? p + n) then g a else m a.

(** The heap and the live blocks after one operation.  A client stores only to
    the bytes of a live block; an index without a block does nothing. *)
Definition run_mop (fuel : nat) (base : Z) (st : heap * list (Z * Z)) (o : mop) : prog (heap * list (Z * Z)) :=
  let '(h, live) := st in
  match o with
  | Malloc n =>
      r ← malloc fuel base h n;
      let '(p, h) := r in
      Return (h, if p =? 0 then live else live ++ [(p, n)])
  | Store i g =>
      match live !! i with
      | Some (p, n) => Return (Heap (scribble p n g (hdr h)) (freep h), live)
      | None => Return st
      end
  | Free i =>
      match live !! i with
      | Some (p, n) => h ← free fuel h p; Return (h, delete i live)
      | None => Return st
      end
  end.

Fixpoint run_mops (fuel : nat) (base : Z) (st : heap * list (Z * Z)) (os : list mop) : prog (heap * list (Z * Z)) :=
  match os with
  | [] => Return st
  | o :: os => st ← run_mop fuel base st o; run_mops fuel base st os
  end.

(** The units that a live block occupies, its header included. *)
Definition occupies (b : Z * Z) (x : Z) : Prop := inside (b.1 - sizeof_Header) (units b.2) x.

(** A live block lies in the heap, has the bytes asked for and its header. *)
Record live_ok (base : Z) (h : heap) (brk : Z) (b : Z * Z) : Prop := {
  lv_bytes : 0 ≤ b.2 ∧ b.1 + b.2 ≤ plus (b.1 - sizeof_Header) (units b.2);
  lv_range : base + sizeof_Header ≤ b.1 - sizeof_Header ∧ plus (b.1 - sizeof_Header) (units b.2) ≤ brk;
  lv_header : size (hdr h (b.1 - sizeof_Header)) = units b.2;
}.

Definition disjoint (live : list (Z * Z)) : Prop :=
  ∀ i j b c x, live !! i = Some b → live !! j = Some c → occupies b x → occupies c x → i = j.

(** The invariant once the ring of free blocks [bs] exists. *)
Record heap_ok (base : Z) (h : heap) (live bs : list (Z * Z)) (brk : Z) : Prop := {
  hk_ring : ring base h bs brk;
  hk_live : Forall (live_ok base h brk) live;
  hk_disjoint : disjoint live;
  hk_free : ∀ b x, b ∈ live → occupies b x → ¬ in_blocks bs x;
}.

Lemma units_bound n : 0 ≤ n < 2 ^ 31 - 31 → 1 ≤ units n ∧ units n * sizeof_Header < 2 ^ 31 ∧ n + sizeof_Header ≤ sizeof_Header * units n.
Proof.
  intros Hn. unfold units. rewrite u32_small by (unfold sizeof_Header; dlia). unfold sizeof_Header. dlia.
Qed.

Lemma occupies_header base h brk b : live_ok base h brk b → 0 < units b.2 → occupies b (b.1 - sizeof_Header).
Proof. intros _ Hu. unfold occupies, inside, plus, sizeof_Header. lia. Qed.

Lemma live_units base h brk b : live_ok base h brk b → 0 < units b.2.
Proof. intros [[? ?] _ _]. unfold plus, sizeof_Header in *. lia. Qed.

(** A live block stays one while its header and the end of the heap allow it. *)
Lemma live_ok_frame base h h' brk brk' b :
  live_ok base h brk b → brk ≤ brk' → hdr h' (b.1 - sizeof_Header) = hdr h (b.1 - sizeof_Header) → live_ok base h' brk' b.
Proof. intros [? ? ?] ? E. split; [done|lia|by rewrite E]. Qed.

Lemma disjoint_snoc live b :
  disjoint live → (∀ c x, c ∈ live → occupies c x → ¬ occupies b x) → disjoint (live ++ [b]).
Proof.
  intros Hd Hb i j c d x Hi Hj Hc Hx.
  apply lookup_app_Some in Hi as [Hi|[Hli Hi]], Hj as [Hj|[Hlj Hj]].
  - by eapply Hd.
  - apply list_lookup_singleton_Some in Hj as [Hj ->]. exfalso. by eapply Hb; [eapply list_elem_of_lookup_2| |].
  - apply list_lookup_singleton_Some in Hi as [Hi ->]. exfalso. by eapply Hb; [eapply list_elem_of_lookup_2| |].
  - apply list_lookup_singleton_Some in Hi as [? _], Hj as [? _]. lia.
Qed.

Lemma lookup_delete_inv {A} (l : list A) i k x :
  delete i l !! k = Some x → ∃ k', l !! k' = Some x ∧ k' ≠ i ∧ k = if (k' <? i)%nat then k' else pred k'.
Proof.
  intros Hk. destruct (decide (k < i)%nat) as [Hlt|Hge].
  - rewrite list_lookup_delete_lt in Hk by done. exists k. split_and!; [done|lia|]. by rewrite (proj2 (Nat.ltb_lt k i)).
  - rewrite list_lookup_delete_ge in Hk by lia. exists (S k). split_and!; [done|lia|].
    by rewrite (proj2 (Nat.ltb_ge (S k) i)) by lia.
Qed.

Lemma delete_beyond {A} (l : list A) i : (length l ≤ i)%nat → delete i l = l.
Proof.
  revert i. induction l as [|x l IH]; intros i Hi; [done|]. destruct i as [|i]; cbn in *; [lia|].
  f_equal. apply IH. lia.
Qed.

Lemma disjoint_delete live i : disjoint live → disjoint (delete i live).
Proof.
  intros Hd j k b c x (j' & Hj & _ & ->)%lookup_delete_inv (k' & Hk & _ & ->)%lookup_delete_inv Hb Hc.
  by rewrite (Hd j' k' b c x Hj Hk Hb Hc).
Qed.

(** ** Each operation keeps the invariant *)

Lemma malloc_keeps base h live bs brk limit fuel n :
  heap_ok base h live bs brk → 0 ≤ n < 2 ^ 31 - 31 → brk ≤ limit < 2 ^ 36 → (2 * length bs + 3 ≤ fuel)%nat → ∃ brk' p h' bs',
  exec (sbrk_kernel limit) (ploop fuel (malloc_step fuel (units n)) (freep h, ptr (hdr h (freep h)), h)) brk = (brk', Returned (p, h')) ∧
  brk ≤ brk' ≤ limit ∧ brk' ≤ brk + grow (units n) ∧ (p = 0 → limit < brk + grow (units n)) ∧ (length bs' ≤ S (length bs))%nat ∧
  heap_ok base h' (if p =? 0 then live else live ++ [(p, n)]) bs' brk'.
Proof.
  intros [Hr Hlive Hdis Hfree] Hn Hlim Hf. destruct (units_bound n Hn) as (Hu1 & Hu2 & Hu3).
  destruct (malloc_loop_ok base h bs brk limit fuel fuel (units n) Hr) as
    [[-> Hno]|(brk' & bp & h' & bs' & -> & Hr' & Hbrk' & Hgrow & Hsz & Hbp & Hend & Hlen & Hin & Hbl & Hm)]; try lia.
  { exists brk, 0, h, bs. pose proof (grow_pos (units n)). split_and!; try done; lia. }
  pose proof (rg_base _ _ _ _ Hr) as [Hb0 _]. exists brk', (bp + sizeof_Header), h', bs'.
  rewrite (proj2 (Z.eqb_neq (bp + sizeof_Header) 0)) by (unfold sizeof_Header in *; lia).
  assert (Hbpe : bp + sizeof_Header - sizeof_Header = bp) by lia.
  assert (Hapart : ∀ c x, c ∈ live → occupies c x → ¬ in_blocks bs x ∧ ¬ brk ≤ x < brk').
  { intros c x Hc Hx. split; [by eapply Hfree|]. rewrite Forall_forall in Hlive.
    pose proof (lv_range _ _ _ _ (Hlive c Hc)). unfold occupies, inside in Hx. lia. }
  split_and!; [done|lia|lia|lia|unfold sizeof_Header in *; lia|done|]. split; [done| | |].
  - apply Forall_app. split.
    + rewrite Forall_forall in *. intros c Hc. specialize (Hlive c Hc). apply (live_ok_frame _ h _ brk); [done|lia|].
      destruct (Hapart c _ Hc (occupies_header _ _ _ _ Hlive (live_units _ _ _ _ Hlive))).
      apply Hm; [|done|done]. pose proof (lv_range _ _ _ _ Hlive). unfold sizeof_Header in *. lia.
    + constructor; [|constructor]. split; cbn [fst snd]; rewrite Hbpe; [|lia|done]. unfold plus, sizeof_Header in *. lia.
  - apply disjoint_snoc; [done|]. intros c x Hc Hx Hx'. unfold occupies in Hx'. cbn [fst snd] in Hx'. rewrite Hbpe in Hx'.
    destruct (Hapart c x Hc Hx). by destruct (Hin x Hx').
  - intros c x [Hc|[->|[]%not_elem_of_nil]%elem_of_cons]%elem_of_app Hx Hxb; destruct (Hbl x Hxb) as [Hxb1 Hxb2].
    + destruct (Hapart c x Hc Hx). tauto.
    + apply Hxb2. unfold occupies in Hx. cbn [fst snd] in Hx. by rewrite Hbpe in Hx.
Qed.

Lemma free_keeps base h live bs brk fuel i b :
  heap_ok base h live bs brk → live !! i = Some b → (length bs + 1 < fuel)%nat → ∃ h' bs',
  free fuel h b.1 = Return h' ∧ (length bs' ≤ S (length bs))%nat ∧ heap_ok base h' (delete i live) bs' brk.
Proof.
  intros [Hr Hlive Hdis Hfree] Hi Hf. pose proof (list_elem_of_lookup_2 _ _ _ Hi) as Hb. pose proof (Forall_lookup_1 _ _ _ _ Hlive Hi) as Hok.
  destruct (free_ok base h bs brk (b.1 - sizeof_Header) (units b.2) fuel) as (h' & bs' & E & Hr' & Hbl & Hm & Hlen); try done.
  { by apply lv_header with base brk. } { by eapply live_units. } { apply (lv_range _ _ _ _ Hok). } { apply (lv_range _ _ _ _ Hok). }
  { intros x Hx. by apply (Hfree b x). }
  replace (b.1 - sizeof_Header + sizeof_Header) with b.1 in E by lia.
  exists h', bs'. split_and!; [done|done|].
  assert (Hapart : ∀ k c x, delete i live !! k = Some c → occupies c x → c ∈ live ∧ ¬ occupies b x).
  { intros k c x (k' & Hk & Hne & _)%lookup_delete_inv Hx. split; [by eapply list_elem_of_lookup_2|].
    intros Hx'. apply Hne. by apply (Hdis k' i c b x). }
  split; [done| |by apply disjoint_delete|].
  - apply Forall_lookup_2. intros k c Hk. assert (Hc : live_ok base h brk c).
    { apply lookup_delete_inv in Hk as (k' & Hk & _). by apply (Forall_lookup_1 _ _ _ _ Hlive Hk). }
    apply (live_ok_frame _ h _ brk); [done|lia|].
    destruct (Hapart k c _ Hk (occupies_header _ _ _ _ Hc (live_units _ _ _ _ Hc))) as [Hcl Hnb].
    apply Hm.
    + pose proof (lv_range _ _ _ _ Hc). unfold sizeof_Header in *. lia.
    + intros E'. apply Hnb. rewrite E'. by eapply occupies_header, live_units.
    + apply (Hfree c _ Hcl). by eapply occupies_header, live_units.
  - intros c x (k & Hk)%list_elem_of_lookup Hx Hin. destruct (Hapart k c x Hk Hx) as [Hcl Hnb].
    apply Hbl in Hin as [Hin|Hin]; [by apply (Hfree c x)|by apply Hnb].
Qed.

Lemma store_keeps base h live bs brk i b g :
  heap_ok base h live bs brk → live !! i = Some b →
  heap_ok base (Heap (scribble b.1 b.2 g (hdr h)) (freep h)) live bs brk.
Proof.
  intros [Hr Hlive Hdis Hfree] Hi. pose proof (list_elem_of_lookup_2 _ _ _ Hi) as Hb. pose proof (Forall_lookup_1 _ _ _ _ Hlive Hi) as Hok.
  pose proof (lv_bytes _ _ _ _ Hok) as [_ Hbytes]. pose proof (lv_range _ _ _ _ Hok) as [Hlo _].
  assert (Hsame : ∀ a, (occupies b a → a = b.1 - sizeof_Header) → scribble b.1 b.2 g (hdr h) a = hdr h a).
  { intros a Ha. unfold scribble. destruct (_ && _) eqn:E; [|done]. exfalso.
    assert (occupies b a) as E2%Ha by (unfold occupies, inside; lia). lia. }
  split; [|apply Forall_lookup_2|done|done].
  - destruct Hr as [Hbs Hl Ho Hbelow Hfp]. split; try done. apply (links_frame (hdr h)); [done|].
    intros a [->|Ha]%elem_of_cons; apply Hsame; intros Hocc; [unfold occupies, inside, sizeof_Header in *; lia|].
    by destruct (Hfree b a Hb Hocc (node_in_blocks _ _ _ Ho Ha)).
  - intros k c Hk. pose proof (Forall_lookup_1 _ _ _ _ Hlive Hk) as Hc. apply (live_ok_frame _ h _ brk); [done|lia|].
    apply Hsame. intros Hocc. assert (Hx : occupies c (c.1 - sizeof_Header)) by by eapply occupies_header, live_units.
    pose proof (Hdis k i c b _ Hk Hi Hx Hocc) as ->. by simplify_eq.
Qed.

(** The state of a client after at most [n] operations; freep is 0 before the
    first call of malloc(). *)
Definition client_ok (base : Z) (n : nat) (st : heap * list (Z * Z)) (brk : Z) : Prop :=
  (freep st.1 = 0 ∧ st.2 = [] ∧ 0 < base ∧ base + sizeof_Header ≤ brk < 2 ^ 36) ∨
  ∃ bs, heap_ok base st.1 st.2 bs brk ∧ (length bs ≤ n)%nat.

Lemma heap_ok_freep base h live bs brk : heap_ok base h live bs brk → freep h ≠ 0.
Proof.
  intros [[Hb _ Ho _ Hfp] _ _ _]. apply elem_of_cons in Hfp as [->|Hin]; [lia|].
  pose proof (ordered_in_blocks _ _ _ Ho (node_in_blocks _ _ _ Ho Hin)). unfold sizeof_Header in *. lia.
Qed.

(** What malloc() makes of the static header on its first call. *)
Lemma first_ring base h brk :
  0 < base → base + sizeof_Header ≤ brk < 2 ^ 36 → heap_ok base (Heap (store base (Header base 0) (hdr h)) base) [] [] brk.
Proof.
  intros Hb Hbrk. split; [|constructor| |].
  - split; [done| |done| |by left]; cbn; [by rewrite store_eq|]. by intros a n ?%not_elem_of_nil.
  - intros i j b c x Hi. done.
  - by intros b x ?%not_elem_of_nil.
Qed.

Lemma malloc_client base n h live brk limit fuel nbytes :
  client_ok base n (h, live) brk → 0 ≤ nbytes < 2 ^ 31 - 31 → brk ≤ limit < 2 ^ 36 → (2 * n + 3 ≤ fuel)%nat → ∃ brk' p h',
  exec (sbrk_kernel limit) (malloc fuel base h nbytes) brk = (brk', Returned (p, h')) ∧ brk ≤ brk' ≤ limit ∧
  brk' ≤ brk + grow (units nbytes) ∧ (p = 0 → limit < brk + grow (units nbytes)) ∧
  client_ok base (S n) (h', if p =? 0 then live else live ++ [(p, nbytes)]) brk'.
Proof.
  intros Hc Hn Hlim Hf. unfold malloc.
  assert (Hring : ∃ bs, heap_ok base (if freep h =? 0 then Heap (store base (Header base 0) (hdr h)) base else h) live bs brk ∧ (length bs ≤ n)%nat).
  { destruct Hc as [(Hfp & Hlv & Hb & Hbrk)|(bs & Hh & Hlen)]; cbn [fst snd] in *.
    - rewrite Hfp, Hlv. exists []. split; [by apply first_ring|cbn; lia].
    - rewrite (proj2 (Z.eqb_neq (freep h) 0)) by (by eapply heap_ok_freep). by exists bs. }
  destruct Hring as (bs & Hh & Hlen).
  destruct (malloc_keeps _ _ _ _ _ limit fuel nbytes Hh Hn Hlim) as (brk' & p & h' & bs' & E & Hbrk' & Hgrow & Hno & Hlen' & Hh'); [lia|].
  exists brk', p, h'. split_and!; [done|lia|lia|lia|done|]. right. exists bs'. split; [done|lia].
Qed.

Lemma client_ok_mono base n m st brk : client_ok base n st brk → (n ≤ m)%nat → client_ok base m st brk.
Proof. intros [?|(bs & ? & ?)] ?; [by left|]. right. exists bs. split; [done|lia]. Qed.

(** The sizes of the live blocks when no call of malloc() fails, and the bytes the
    kernel must have for that. *)
Definition spec_mop (sizes : list Z) (o : mop) : list Z :=
  match o with
  | Malloc n => sizes ++ [n]
  | Store _ _ => sizes
  | Free i => delete i sizes
  end.

Definition need (o : mop) : Z := match o with Malloc n => grow (units n) | _ => 0 end.
Definition needs (os : list mop) : Z := foldr Z.add 0 (need <$> os).

Lemma need_pos o : 0 ≤ need o.
Proof. destruct o; cbn; [|lia..]. pose proof (grow_pos (units nbytes)). lia. Qed.

Lemma needs_pos os : 0 ≤ needs os.
Proof. induction os as [|o os IH]; [done|]. change (needs (o :: os)) with (need o + needs os). pose proof (need_pos o). lia. Qed.

Lemma run_mop_ok base n st brk limit fuel o :
  client_ok base n st brk → mop_ok o → brk ≤ limit < 2 ^ 36 → (2 * n + 3 ≤ fuel)%nat → ∃ brk' st',
  exec (sbrk_kernel limit) (run_mop fuel base st o) brk = (brk', Returned st') ∧ brk ≤ brk' ≤ limit ∧ brk' ≤ brk + need o ∧
  client_ok base (S n) st' brk' ∧ (brk + need o ≤ limit → st'.2.*2 = spec_mop (st.2.*2) o).
Proof.
  intros Hc Ho Hlim Hf. destruct st as [h live]. pose proof (client_ok_mono _ _ (S n) _ _ Hc ltac:(lia)) as Hc'.
  destruct o as [nb|i g|i]; cbn [run_mop mop_ok need spec_mop fst snd] in *.
  - destruct (malloc_client base n h live brk limit fuel nb Hc Ho Hlim Hf) as (brk' & p & h' & E & Hb & Hg & Hno & Hc2).
    rewrite exec_bind, E. eexists _, _. split_and!; [done|lia|lia|lia|done|]. intros Hroom. cbn [snd].
    rewrite (proj2 (Z.eqb_neq p 0)) by (intros ->; specialize (Hno eq_refl); lia). by rewrite fmap_app.
  - destruct (live !! i) as [[p m]|] eqn:Ei; [|eexists _, _; split_and!; [done|lia|lia|lia|done|done]].
    eexists _, _. split_and!; [done|lia|lia|lia| |done].
    destruct Hc as [(_ & Hl & _)|(bs & Hh & Hlen)]; cbn [fst snd] in *; [by rewrite Hl in Ei|].
    right. exists bs. split; [|lia]. by apply (store_keeps base h live bs brk i (p, m)).
  - destruct (live !! i) as [[p m]|] eqn:Ei.
    + destruct Hc as [(_ & Hl & _)|(bs & Hh & Hlen)]; cbn [fst snd] in *; [by rewrite Hl in Ei|].
      destruct (free_keeps _ _ _ _ _ fuel i (p, m) Hh Ei) as (h' & bs' & E & Hlen' & Hh'); [lia|]. cbn [fst] in E. rewrite E.
      eexists _, _. split_and!; [done|lia|lia|lia| |intros _; apply list_fmap_delete].
      right. exists bs'. split; [done|lia].
    + eexists _, _. split_and!; [done|lia|lia|lia|done|]. intros _. cbn [snd].
      symmetry. apply delete_beyond. rewrite length_fmap. by apply lookup_ge_None.
Qed.

Lemma run_mops_ok base n st brk limit fuel os :
  client_ok base n st brk → Forall mop_ok os → brk ≤ limit < 2 ^ 36 → (2 * (n + length os) + 3 ≤ fuel)%nat → ∃ brk' st',
  exec (sbrk_kernel limit) (run_mops fuel base st os) brk = (brk', Returned st') ∧ brk ≤ brk' ≤ limit ∧
  client_ok base (n + length os) st' brk' ∧ (brk + needs os ≤ limit → st'.2.*2 = fold_left spec_mop os (st.2.*2)).
Proof.
  intros Hc Hos. revert n st brk Hc. induction Hos as [|o os Ho Hos IH]; intros n st brk Hc Hlim Hf; cbn [run_mops length fold_left] in *.
  - exists brk, st. split_and!; [done|lia|lia| |done]. by apply (client_ok_mono _ n); [|lia].
  - destruct (run_mop_ok base n st brk limit fuel o Hc Ho Hlim) as (brk1 & st1 & E1 & Hb1 & Hg1 & Hc1 & Hs1); [lia|].
    destruct (IH (S n) st1 brk1 Hc1) as (brk2 & st2 & E2 & Hb2 & Hc2 & Hs2); [lia|lia|].
    exists brk2, st2. rewrite exec_bind, E1. split_and!; [done|lia|lia|by apply (client_ok_mono _ (S n + length os)); [|lia]|].
    change (needs (o :: os)) with (need o + needs os). pose proof (needs_pos os). intros Hroom.
    by rewrite Hs2, Hs1 by lia.
Qed.

(** C35: whatever sequence of malloc(), free() and stores into its own blocks a
    program makes from the start, every call returns, and the blocks the program
    holds lie between base and the end of the heap, have the bytes asked for and
    overlap neither each other's bytes nor each other's headers.  The kernel may
    refuse to extend the heap; if it has enough memory for all the requests, none
    fails, and the blocks held are those asked for and not yet freed. *)
Theorem malloc_blocks_disjoint base m brk limit os fuel :
  0 < base → base + sizeof_Header ≤ brk → brk ≤ limit < 2 ^ 36 → Forall mop_ok os →
  (2 * length os + 3 ≤ fuel)%nat → ∃ brk' h live,
  exec (sbrk_kernel limit) (run_mops fuel base (Heap m 0, []) os) brk = (brk', Returned (h, live)) ∧
  brk ≤ brk' ≤ limit ∧ Forall (live_ok base h brk') live ∧ disjoint live ∧
  (brk + needs os ≤ limit → live.*2 = fold_left spec_mop os []).
Proof.
  intros Hb Hbrk Hlim Hos Hf.
  destruct (run_mops_ok base 0 (Heap m 0, []) brk limit fuel os) as (brk' & [h live] & E & Hb' & Hc & Hs); try done.
  { left. split_and!; try done. lia. }
  exists brk', h, live.
  destruct Hc as [(_ & Hl & _)|(bs & [_ Hlive Hdis _] & _)]; cbn [fst snd] in *; [|done].
  split_and!; try done; [lia|lia| |]; rewrite Hl; [constructor|]. by intros i j b c x Hi.
Qed.

(** Three blocks are taken, the middle one is freed and one that fits its place
    is taken again. *)
Definition demo_mops : list mop :=
  [Malloc 100; Malloc 40; Malloc 8; Store 1 (λ _, Header 7 9); Free 1; Malloc 24; Malloc 100000].

Lemma malloc_blocks_disjoint_witness : ∃ brk' h live,
  exec (sbrk_kernel 0x100000) (run_mops 20 0x1000 (Heap (λ _, Header 0 0) 0, []) demo_mops) 0x5000 = (brk', Returned (h, live)) ∧
  0x5000 ≤ brk' ≤ 0x100000 ∧ Forall (live_ok 0x1000 h brk') live ∧ disjoint live ∧
  (0x5000 + needs demo_mops ≤ 0x100000 → live.*2 = fold_left spec_mop demo_mops []).
Proof.
  apply (malloc_blocks_disjoint 0x1000); try (unfold sizeof_Header; lia).
  - repeat constructor; vm_compute; congruence.
  - vm_compute. lia.
Defined.

(** A request close to 4 GB: nu * sizeof(Header) is converted to int, so that sbrk()
    is asked for 16 bytes, and malloc() returns a block of 2^28 + 1 units. *)
Lemma malloc_huge_request :
  (λ '(brk, r), (brk, match r with Returned (p, h) => Some (p, size (hdr h (p - sizeof_Header))) | _ => None end))
    (exec (sbrk_kernel 0x100000) (malloc 20 0x1000 (Heap (λ _, Header 0 0) 0) 0xffffffff) 0x5000) =
  (0x5010, Some (0x5010, 2 ^ 28 + 1)).
Proof. vm_compute. reflexivity. Qed.
